(* ===== verification/_CoqProject ===== *)
-Q . S2P
Prelude.v
Layout.v
Memory.v
Libk.v
Stdio.v
Paging.v
Pmm.v
Vmm.v
Kmalloc.v
Interrupts.v
Vectors.v
Entry.v
Linker.v
Classes.v
Containers.v
LinkedList.v
CppTypes.v
Pools.v
StaticPool.v
Apic.v
Process.v
AllTraps.v
Kernel.v
BufferCache.v
Uart.v
Path.v
Boot.v
ColdBoot.v
PciIds.v
Pci.v
PciLegacy.v
PciCpp.v
Ahci.v
PciBar.v
Ext2.v
Shell.v
