(* ===== verification/Prelude.v ===== *)
(** Verification of JavaScriptOS, a small x86-64 kernel in C, C++ and assembly.

    * The program

    The boot loader enters boot.S, which builds page tables, switches to
    64-bit mode and jumps to kernel_main.  The kernel has a page allocator
    (pmm), page tables (vmm) and a heap (kmalloc); descriptor tables, interrupt
    controllers and timers; processes with a round-robin scheduler and system
    calls; drivers for the serial port, the PCI bus and AHCI storage; a buffer
    cache, path names and the ext2 format; a C++ support library; and a shell.

    * Conventions

    A [w]-bit integer is a [Z] and every conversion is written out ([u8] .. [u64],
    [i32]).  Code with effects is in the monad [M S A := S -> res (A * S)] over
    an explicit state; a [fault] is what the code cannot survive: an access to
    memory that nothing backs, an index outside an array, a division by 0, a
    halt, a panic.  Pointer code works on the byte memory of Memory.v;
    structures are laid out by the ABI rules of Layout.v from their members.
    Loops that are not structural take a bound, and running out of it is the
    fault [OutOfFuel]; each theorem states a bound that is enough and that the
    run returns: 65 digits for a 64-bit number, 21 blocks for the static pool,
    256 offsets for a capability list, 257 levels for the recursion over buses
    (9 where the table of visited buses has 8 entries), the length of a text or list elsewhere.  Code that never ends, the loop of
    the scheduler, is a step relation (Kernel.v) and its theorems hold in every
    reachable state.
    In each file [Module X] holds the translation, [XFacts] the representation
    predicates and lemmas, [XProps] the theorems.  Code outside the repository
    is a parameter, with its documented behaviour as a class or a hypothesis.

    * Files (paths under src/, kernel/ omitted)

    - Prelude, Layout, Memory: integers, the monad, lists; structure layout;
      byte memory.
    - Libk: libk/utils.h, string.c, ErrorOr.hpp, api/posix/errno.h.
    - Stdio: libc/stdio.c, console.cpp, libk/Assertions.cpp.
    - Paging: arch/x86/memlayout.h, paging.h, with the processor's page walk.
    - Pmm, Vmm, Kmalloc: memory/pmm.cpp, vmm.cpp, kmalloc.cpp, with the
      allocator of devices/pci/Allocator.hpp on the operators of the heap.
    - Interrupts: arch/x86/segmentation.hpp, idt, tss.  Vectors: vectors.py, the
      generator of the interrupt entry points.
    - Entry: arch/x86/boot.S, instruction by instruction over registers and
      physical memory.  Linker: linker.ld as a program on the location
      counter.  AllTraps: arch/x86/alltraps.S over the stack and the registers,
      between the entry points of Vectors and the dispatcher of Process.
    - Containers: libcppk/array.hpp, bitset.hpp, optional.hpp.
      LinkedList: list.hpp, algorithm.hpp, against the class [Allocator].
      CppTypes: type_traits.hpp, utility.hpp, move.hpp and the member types of
      clang_generator.hpp on types as data, and the array ranges of
      iterator.hpp.
      Pools: memory_resource.hpp, generator.hpp.
      StaticPool: test_generator.cpp, an allocator over a static pool and
      recursive generators whose frames it holds.
    - Apic: arch/x86/ioapic, lapic, pit, timer.
    - Process: process/proc.c, scheduler.c, syscall/syscalls.c, trap.c; the
      context switch satisfies [SwitchContract].
      Kernel: proc.c and scheduler.c as one machine, with the processes taking
      part: a step relation, its invariant and its runs; composed with trap.c
      and alltraps.S for a process that the timer preempts.
    - BufferCache: buffercache.c; the disk transfer satisfies [SataSync].
    - Uart: devices/uart.c.  Path: filesystem/PathString.h, vfs.cpp.
    - Boot: boot/multiboot2, acpi.h, madt.c, kernel_main.cpp.
      ColdBoot: Linker, Entry, Boot and Kmalloc composed, from the boot loader
      to the idle loop.
    - Classes: the layouts of libk/types.h, filesystem/stat.h, the process, CPU
      and lock structures and the classes of the file system.
    - PciIds, Pci: devices/pci/IDs.hpp, Definitions.hpp, Device.hpp, API.cpp,
      HostController.cpp, against the class [ConfigSpace].
      PciLegacy: devices/pci.c; its missing header is the record [pcidef].
      PciCpp: devices/pci/pci.cpp; its missing header is the record [pcihpp].
      PciBar: devices/pci/Device.cpp, the BAR members of Device.hpp and the
      constructor of AHCI/Controller.cpp.
    - Ahci: devices/storage/AHCI/Definitions.hpp, Controller.hpp, ahci.c.
    - Ext2: filesystem/ext2fs/Definitions.h, ext2_types.h.
    - Shell: user/sh.c, over the calls it makes, and user/userinit.S.

    * What is shown

    - Refinement: the page allocator is a stack of pages, the heap under
      last-in-first-out use a stack of blocks, the static pool an abstract
      allocator, the list a double-ended queue, the bit set a finite set.
    - Boot: boot.S reaches kernel_main in long mode with the kernel mapped, and
      kernel_main its halting loop; the image that the linker script lays out
      is the one boot.S relies on, and is mapped where it is linked, up to 2 MB;
      and from the loaded image to the idle loop the parts fit together: what
      the linker script places, the entry code maps, and kernel_main reads its
      strings and sets up the heap, in one memory, through those mappings.  What
      the compiled code pushes below the boot loader's stack pointer, which
      nothing sets, is any change to the memory there.
    - Interrupts: every vector but 21, 29 and 30, whose error code vectors.py
      misses, reaches the common handler with the same frame, the handler gets
      every register in it, and, on a stack below 4 GiB, what it returns is what
      the interrupted program continues with; an interrupt the kernel handles
      is invisible to it, also when the timer preempts the process and others
      run before it is switched back to.  On a stack above 4 GiB the return
      faults, because alltraps.S adds to the lower half of the stack pointer.
    - Enumeration: with one host bridge, every PCI function reachable from bus 0
      is reported exactly once; the C driver reports the same functions in the
      same order where its table of eight buses suffices; its C++ rewrite ends
      and enters no bus twice, whatever its missing classes read; the capability
      walk ends on lists that are not circular and runs for ever on others; the
      probe of a memory BAR leaves the registers as they were.
    - Processes: creation keeps the table well formed, a scheduling pass runs
      every runnable process, system calls and interrupts are dispatched.  In
      every state the kernel can reach, pids and kernel stacks are distinct and
      a process is running exactly while it has the CPU; a runnable process is
      switched to within [MAX_PROC] + 1 moves of the loop, whatever the others
      do; and a pass of the loop as a function is a run of the machine.
    - Output and formats: numbers and formats print as their reference
      renderings; the geometry of an ext2 file system is consistent; a path
      yields the components that a slash ends.
    - Clients: the buffer cache only ever holds one block; the monotonic buffer
      hands out disjoint blocks until it halts; the shell and the first process
      make the calls they are meant to make.
    - Types: the reference traits give well-formed types and collapse
      references, is_base_of decides inheritance, and the integer types of the
      on-disk structures have the width of their names in every branch of the
      header that chooses them.
    - Devices: gates, task state, APIC routing, timer calibration and UART set-up
      write what they are meant to write.
    - Where the code departs from what it means to do, a theorem shows the
      departure on the model (pages never freed, page table entries and gates of
      the wrong size, overlapping blocks, the last path component, segment
      registers that boot.S does not load, and others).

    * Not modelled

    - The context switch: not in the repository.  Nor is [trap], which
      alltraps.S calls: it is any code that keeps the stack above it, and the
      dispatcher of trap.c where a theorem says so.
    - [DeviceFactory::create] of HostController.cpp: no file defines it; the
      function with those arguments is [create_device].
    - What follows an [hlt] that an interrupt ends, in the PCI drivers, the
      iterators of generators and the default cases of trap.c: there [hlt] is the
      fault [Halted].  In the heap, the AHCI constructor and the pools [hlt] is an
      argument.
    - memory/TypedMapping.hpp and the bit reference of bitset.hpp: they use
      names that do not exist, or bind a reference to a temporary, and no
      reading of them as written is left.
    - iterator.hpp, the overloads found by argument-dependent lookup: they need
      a member of the type they are meant to do without.
      The member functions of clang_generator.hpp and the rest of
      devices/pci/Allocator.hpp: declarations without bodies, hooks of the C++
      runtime that halt or do nothing, and code that is commented out.
    - The functions of the ext2 driver and of the file classes, sata.c: empty
      bodies or declarations; only the layouts are modelled.
    - userinit of proc.c, which uses an undeclared process and members that do
      not exist; its last statement is a step of Kernel.v.  Of the part of
      kernel_main behind its endless loop, the loop that prints the PCI devices.
    - user.h, the system call library of user programs: declarations.

    Code that the compiler or assembler rejects as a whole (alltraps.S, the BAR
    templates) is read as its text means; the file that models it says how. *)
From stdpp Require Export base numbers option list list_numbers strings gmap fin_maps.
From Stdlib Require Export ZArith Lia.

#[global] Open Scope Z_scope.

(** ** Machine integers

    A [w]-bit unsigned value is a [Z] kept in [0 .. 2^w); every conversion of
    the source is written out as [wrap w]. *)

Definition wrap (w z : Z) : Z := z mod 2 ^ w.

(** Two's complement reading of the low [w] bits. *)
Definition swrap (w z : Z) : Z :=
  let r := wrap w z in if r <? 2 ^ (w - 1) then r else r - 2 ^ w.

Definition in_range (w z : Z) : Prop := 0 <= z < 2 ^ w.

#[global] Instance in_range_dec w z : Decision (in_range w z).
Proof. unfold in_range. apply _. Defined.

Abbreviation u8 := (wrap 8).
Abbreviation u16 := (wrap 16).
Abbreviation u32 := (wrap 32).
Abbreviation u64 := (wrap 64).
Abbreviation i32 := (swrap 32).

(** ** Outcomes

    C code that dereferences an address no object backs, indexes an array out
    of its bounds, divides by 0, halts the processor or exhausts the fuel of a
    bounded loop has no ordinary result; the cases are kept apart. *)

Inductive fault :=
| Unmapped (addr : Z)      (** access to an address that no object backs *)
| OutOfBounds (idx : Z)    (** array index outside the declared bounds *)
| DivByZero                (** division or remainder by 0 *)
| Halted                   (** [hlt] with nothing left to wake the processor *)
| Panicked                 (** [panic()]: a message and an endless loop *)
| OutOfFuel.               (** the bound given for a loop was not enough *)

Inductive res (A : Type) :=
| Ok (a : A)
| Fault (f : fault).
Arguments Ok {A} _.
Arguments Fault {A} _.

#[global] Instance fault_eq_dec : EqDecision fault.
Proof. solve_decision. Defined.
#[global] Instance res_eq_dec {A} `{EqDecision A} : EqDecision (res A).
Proof. solve_decision. Defined.

(** State and fault monad in which the stateful code is written. *)
Definition M (S A : Type) : Type := S -> res (A * S).

#[global] Instance M_ret {S} : MRet (M S) := fun A a s => Ok (a, s).
#[global] Instance M_bind {S} : MBind (M S) := fun A B k m s =>
  match m s with
  | Ok (a, s') => k a s'
  | Fault f => Fault f
  end.

Definition get {S} : M S S := fun s => Ok (s, s).
Definition gets {S A} (f : S -> A) : M S A := fun s => Ok (f s, s).
Definition put {S} (s : S) : M S unit := fun _ => Ok (tt, s).
Definition modify {S} (f : S -> S) : M S unit := fun s => Ok (tt, f s).
Definition fail {S A} (e : fault) : M S A := fun _ => Fault e.
Definition when {S} (b : bool) (m : M S unit) : M S unit := if b then m else mret tt.

(** Lift a computation on a component of the state to the whole state. *)
Definition zoom {S T A} (g : S -> T) (p : T -> S -> S) (m : M T A) : M S A := fun s =>
  match m (g s) with
  | Ok (a, t) => Ok (a, p t s)
  | Fault f => Fault f
  end.

Lemma bind_Ok {S A B} (m : M S A) (k : A -> M S B) s a s' :
  m s = Ok (a, s') -> (m ≫= k) s = k a s'.
Proof. intros H. unfold mbind, M_bind. by rewrite H. Qed.

Lemma bind_Fault {S A B} (m : M S A) (k : A -> M S B) s f :
  m s = Fault f -> (m ≫= k) s = Fault f.
Proof. intros H. unfold mbind, M_bind. by rewrite H. Qed.

Lemma bind_inv {S A B} (m : M S A) (k : A -> M S B) s b s'' :
  (m ≫= k) s = Ok (b, s'') -> exists a s', m s = Ok (a, s') /\ k a s' = Ok (b, s'').
Proof.
  unfold mbind, M_bind. destruct (m s) as [[a s']|f] eqn:E; [|done].
  intros H. eauto.
Qed.

Lemma ret_inv {S A} (a b : A) (s s' : S) : (mret a : M S A) s = Ok (b, s') -> a = b /\ s = s'.
Proof. unfold mret, M_ret. intros H. by simplify_eq. Qed.

Lemma zoom_Ok {S T A} (g : S -> T) (p : T -> S -> S) (m : M T A) s a t :
  m (g s) = Ok (a, t) -> zoom g p m s = Ok (a, p t s).
Proof. intros H. unfold zoom. by rewrite H. Qed.

Lemma zoom_inv {S T A} (g : S -> T) (p : T -> S -> S) (m : M T A) s a s' :
  zoom g p m s = Ok (a, s') -> exists t, m (g s) = Ok (a, t) /\ s' = p t s.
Proof. unfold zoom. destruct (m (g s)) as [[b t]|]; [|done]. intros H. simplify_eq. eauto. Qed.

(** [for (i = first; i < first + n; ++i) body], the bound a constant of the code. *)
Fixpoint for_loop {S} (n : nat) (i : Z) (body : Z -> M S unit) : M S unit :=
  match n with
  | O => mret tt
  | Datatypes.S n => body i ;; for_loop n (i + 1) body
  end.

Lemma for_loop_inv {S} (P : Z -> S -> Prop) body n : forall i s,
  P i s ->
  (forall j t, i <= j < i + Z.of_nat n -> P j t -> exists t', body j t = Ok (tt, t') /\ P (j + 1) t') ->
  exists s', for_loop n i body s = Ok (tt, s') /\ P (i + Z.of_nat n) s'.
Proof.
  induction n as [|n IH]; intros i s HP Hb; cbn [for_loop].
  - exists s. rewrite Z.add_0_r. done.
  - destruct (Hb i s) as (t & Ht & HPt); [lia|done|]. rewrite (bind_Ok _ _ _ _ _ Ht).
    destruct (IH (i + 1) t HPt) as (s' & Hrun & HP').
    + intros j u Hj. apply Hb. lia.
    + exists s'. split; [done|]. by replace (i + Z.of_nat (Datatypes.S n)) with (i + 1 + Z.of_nat n) by lia.
Qed.

(** Arrays indexed by machine integers: an index outside the bounds is a fault. *)
Definition lookupZ {A} (l : list A) (i : Z) : option A :=
  if 0 <=? i then l !! Z.to_nat i else None.

Definition updateZ {A} (l : list A) (i : Z) (x : A) : list A := <[Z.to_nat i := x]> l.

Definition index {S A} (l : list A) (i : Z) : M S A :=
  match lookupZ l i with Some x => mret x | None => fail (OutOfBounds i) end.

Lemma index_Ok {S A} (l : list A) i x (s : S) : lookupZ l i = Some x -> index l i s = Ok (x, s).
Proof. intros H. unfold index. by rewrite H. Qed.

Lemma lookupZ_is_Some {A} (l : list A) i :
  0 <= i < Z.of_nat (length l) -> exists x, lookupZ l i = Some x.
Proof.
  intros Hi. unfold lookupZ. destruct (Z.leb_spec 0 i); [|lia].
  destruct (l !! Z.to_nat i) eqn:E; [eauto|]. apply lookup_ge_None in E. lia.
Qed.

Lemma lookupZ_range {A} (l : list A) i x : lookupZ l i = Some x -> 0 <= i < Z.of_nat (length l).
Proof.
  unfold lookupZ. destruct (Z.leb_spec 0 i); [|done]. intros E. apply lookup_lt_Some in E. lia.
Qed.

Lemma lookupZ_update {A} (l : list A) i j x :
  0 <= i < Z.of_nat (length l) ->
  lookupZ (updateZ l i x) j = if decide (j = i) then Some x else lookupZ l j.
Proof.
  intros Hi. unfold lookupZ, updateZ. destruct (Z.leb_spec 0 j); case_decide; try lia; try done.
  - subst. apply list_lookup_insert_eq. lia.
  - apply list_lookup_insert_ne. lia.
Qed.

Lemma updateZ_length {A} (l : list A) i x : length (updateZ l i x) = length l.
Proof. apply length_insert. Qed.

Lemma updateZ_twice {A} (l : list A) i x y : updateZ (updateZ l i x) i y = updateZ l i y.
Proof. apply list_insert_insert_eq. Qed.

(** The value of a run, for evaluation on concrete inputs. *)
Definition result_of {S A} (r : res (A * S)) : option A :=
  match r with Ok (a, _) => Some a | Fault _ => None end.

Lemma result_of_Some {S A} (r : res (A * S)) a : result_of r = Some a -> exists s, r = Ok (a, s).
Proof. destruct r as [[b s]|]; simpl; intros H; simplify_eq. eauto. Qed.

(** The characters of a string literal. *)
Fixpoint chars (s : string) : list Z :=
  match s with
  | EmptyString => []
  | String a s => Z.of_N (Ascii.N_of_ascii a) :: chars s
  end.

(** ** Proof automation *)

Create HintDb jsos discriminated.
Create Rewrite HintDb jsos.

(** Split every successful bind among the hypotheses. *)
Ltac minv :=
  repeat match goal with
  | H : (_ ≫= _) _ = Ok _ |- _ => apply bind_inv in H as (? & ? & ? & H)
  | H : mret _ _ = Ok _ |- _ => apply ret_inv in H as [? ?]; subst
  | H : get _ = Ok _ |- _ => injection H as ? ?; subst
  | H : gets _ _ = Ok _ |- _ => injection H as ? ?; subst
  | H : put _ _ = Ok _ |- _ => injection H as ?; subst
  | H : modify _ _ = Ok _ |- _ => injection H as ?; subst
  end.

(** Run the first computation of a bind, whose result [t] proves. *)
Tactic Notation "mrun" tactic3(t) := erewrite bind_Ok by t; cbn beta iota zeta.

(** Case analysis on the boolean comparisons of the goal. *)
Ltac zcase :=
  repeat match goal with
  | |- context [?a <? ?b] => destruct (Z.ltb_spec a b)
  | |- context [?a <=? ?b] => destruct (Z.leb_spec a b)
  | |- context [?a =? ?b] => destruct (Z.eqb_spec a b)
  end.

(** ** Integer lemmas *)

Lemma pow2_pos w : 0 <= w -> 0 < 2 ^ w.
Proof. intros. apply Z.pow_pos_nonneg; lia. Qed.
#[export] Hint Resolve pow2_pos : jsos.

Lemma wrap_range w z : 0 <= w -> in_range w (wrap w z).
Proof. intros. apply Z.mod_pos_bound. auto with jsos. Qed.

Lemma wrap_small w z : in_range w z -> wrap w z = z.
Proof. intros. by apply Z.mod_small. Qed.

Lemma wrap_wrap w z : 0 <= w -> wrap w (wrap w z) = wrap w z.
Proof. intros. apply wrap_small, wrap_range. done. Qed.

Lemma wrap_wrap_le v w z : 0 <= v <= w -> wrap v (wrap w z) = wrap v z.
Proof.
  intros. unfold wrap. apply Z.mod_mod_divide.
  exists (2 ^ (w - v)). rewrite <- Z.pow_add_r; f_equal; lia.
Qed.

Lemma wrap_add_wrap_l w a b : 0 <= w -> wrap w (wrap w a + b) = wrap w (a + b).
Proof. intros. unfold wrap. apply Zplus_mod_idemp_l. Qed.

Lemma wrap_add_pow w a k : 0 <= w -> wrap w (a + k * 2 ^ w) = wrap w a.
Proof. intros. unfold wrap. apply Z_mod_plus_full. Qed.

Lemma swrap_small w z : 0 < w -> 0 <= z < 2 ^ (w - 1) -> swrap w z = z.
Proof.
  intros Hw Hz. unfold swrap.
  assert (2 ^ w = 2 * 2 ^ (w - 1)) by (rewrite <- Z.pow_succ_r by lia; f_equal; lia).
  rewrite wrap_small by (unfold in_range; lia). by zcase; try lia.
Qed.

Lemma wrap_testbit w z i :
  0 <= w -> Z.testbit (wrap w z) i = (i <? w) && Z.testbit z i.
Proof.
  intros. unfold wrap. destruct (Z.ltb_spec i w) as [Hlt|Hge]; simpl.
  - destruct (Z.neg_nonneg_cases i).
    + by rewrite !Z.testbit_neg_r.
    + apply Z.mod_pow2_bits_low. lia.
  - apply Z.mod_pow2_bits_high. lia.
Qed.

Lemma in_range_testbit w z i : in_range w z -> w <= i -> Z.testbit z i = false.
Proof.
  intros Hz Hi. destruct (Z.neg_nonneg_cases w) as [Hw|Hw].
  { unfold in_range in Hz. rewrite Z.pow_neg_r in Hz by lia. lia. }
  rewrite <- (wrap_small w z) by done. rewrite wrap_testbit by done.
  by destruct (Z.ltb_spec i w); [lia|].
Qed.

Lemma land_shiftl_disjoint w a b :
  0 <= w -> in_range w a -> Z.land a (Z.shiftl b w) = 0.
Proof.
  intros Hw Ha. apply Z.bits_inj'. intros i Hi. rewrite Z.land_spec, Z.bits_0.
  destruct (Z.ltb_spec i w).
  - rewrite Z.shiftl_spec_low by lia. by rewrite andb_false_r.
  - rewrite (in_range_testbit w a i); auto.
Qed.

Lemma lor_shiftl_add w a b :
  0 <= w -> in_range w a -> Z.lor a (Z.shiftl b w) = a + 2 ^ w * b.
Proof.
  intros Hw Ha.
  rewrite <- Z.lxor_lor, <- Z.add_nocarry_lxor by auto using land_shiftl_disjoint.
  rewrite Z.shiftl_mul_pow2 by done. lia.
Qed.

(** Little tools for list arguments of loops. *)
Lemma take_S_lookup {A} (l : list A) (n : nat) x :
  l !! n = Some x -> take (S n) l = take n l ++ [x].
Proof. apply take_S_r. Qed.
