(* ===== verification/Layout.v ===== *)
(** Layout of C structures and bit-fields.

    The kernel describes every hardware register and every on-disk or
    firmware table as a C structure, most of them unions of a bit-field
    structure with a raw integer.  This file gives the placement rules of the
    x86-64 System V ABI (the ones GCC and Clang use for the freestanding
    kernel), accessors for a member of a raw integer, and the laws the
    components use: reading a member back after writing it, and independence
    of the members of one structure. *)
From S2P Require Import Prelude.

(** ** Declared types and members *)

Record ctype := CType { ty_size : Z; ty_align : Z }.

Definition cu8 := CType 1 1.
Definition cu16 := CType 2 2.
Definition cu32 := CType 4 4.
Definition cu64 := CType 8 8.
Definition cint := CType 4 4.
Definition cenum := CType 4 4.
Definition cptr := CType 8 8.
Definition carray (t : ctype) (n : Z) := CType (n * ty_size t) (ty_align t).

Inductive member :=
| Bits (name : string) (ty : ctype) (width : Z)
| Plain (name : string) (ty : ctype).

Definition member_name (m : member) : string :=
  match m with Bits n _ _ => n | Plain n _ => n end.
Definition member_type (m : member) : ctype :=
  match m with Bits _ t _ => t | Plain _ t => t end.
Definition member_width (m : member) : Z :=
  match m with Bits _ _ w => w | Plain _ t => 8 * ty_size t end.

(** A placed member: bit offset from the start of the structure, and width. *)
Record placed := Placed { pl_name : string; pl_off : Z; pl_width : Z }.

Definition align_up (x a : Z) : Z := (x + a - 1) / a * a.

(** Offset of the next member when [pos] bits are used.  A packed structure
    places bit-fields back to back and other members on byte boundaries; an
    ordinary one keeps a bit-field inside one unit of its declared type. *)
Definition place_at (packed : bool) (pos : Z) (m : member) : Z :=
  match m with
  | Plain _ t => if packed then align_up pos 8 else align_up pos (8 * ty_align t)
  | Bits _ t w =>
      if packed then pos
      else if pos / (8 * ty_size t) =? (pos + w - 1) / (8 * ty_size t) then pos
      else align_up pos (8 * ty_align t)
  end.

Fixpoint place (packed : bool) (pos : Z) (ms : list member) : list placed * Z :=
  match ms with
  | [] => ([], pos)
  | m :: ms =>
      let off := place_at packed pos m in
      let '(ps, e) := place packed (off + member_width m) ms in
      (Placed (member_name m) off (member_width m) :: ps, e)
  end.

Definition layout (packed : bool) (ms : list member) : list placed :=
  (place packed 0 ms).1.

Definition struct_align (packed : bool) (ms : list member) : Z :=
  if packed then 1 else foldr Z.max 1 (ty_align ∘ member_type <$> ms).

Definition sizeof (packed : bool) (ms : list member) : Z :=
  align_up (align_up (place packed 0 ms).2 8 / 8) (struct_align packed ms).

(** The type of a structure, for structures nested in others. *)
Definition struct_type (packed : bool) (ms : list member) : ctype :=
  CType (sizeof packed ms) (struct_align packed ms).

(** The type of a union of members of these types. *)
Definition union_type (ts : list ctype) : ctype :=
  let a := foldr Z.max 1 (ty_align <$> ts) in
  CType (align_up (foldr Z.max 0 (ty_size <$> ts)) a) a.

(** A structure with its attributes; [cs_min_align] is that of [aligned(n)], or 1. *)
Record cstruct := CStruct { cs_packed : bool; cs_min_align : Z; cs_members : list member }.

Abbreviation Struct := (CStruct false 1).
Abbreviation Packed := (CStruct true 1).

Definition cs_layout (s : cstruct) : list placed := layout (cs_packed s) (cs_members s).
Definition cs_align (s : cstruct) : Z :=
  Z.max (cs_min_align s) (struct_align (cs_packed s) (cs_members s)).
Definition cs_sizeof (s : cstruct) : Z :=
  align_up (sizeof (cs_packed s) (cs_members s)) (cs_align s).
Definition cs_type (s : cstruct) : ctype := CType (cs_sizeof s) (cs_align s).

(** ** Members of a raw integer *)

Definition bits (off w raw : Z) : Z := wrap w (Z.shiftr raw off).

Definition set_bits (off w v raw : Z) : Z :=
  Z.lor (Z.ldiff raw (Z.shiftl (Z.ones w) off)) (Z.shiftl (wrap w v) off).

Definition field_of (l : list placed) (name : string) : placed :=
  default (Placed name 0 0) (snd <$> list_find (fun p => pl_name p = name) l).

Definition offsetof (l : list placed) (name : string) : Z := pl_off (field_of l name) / 8.

Definition fget (l : list placed) (name : string) (raw : Z) : Z :=
  let p := field_of l name in bits (pl_off p) (pl_width p) raw.

Definition fset (l : list placed) (name : string) (v raw : Z) : Z :=
  let p := field_of l name in set_bits (pl_off p) (pl_width p) v raw.

(** A designated initialiser [{ .name = v, ... }]: every member not named is 0. *)
Definition finit (l : list placed) (vs : list (string * Z)) : Z :=
  foldl (fun raw '(n, v) => fset l n v raw) 0 vs.

(** All members, in declaration order. *)
Definition unpack (l : list placed) (raw : Z) : list Z :=
  (fun p => bits (pl_off p) (pl_width p) raw) <$> l.

Fixpoint pack (l : list placed) (vs : list Z) (raw : Z) : Z :=
  match l, vs with
  | p :: l, v :: vs => pack l vs (set_bits (pl_off p) (pl_width p) v raw)
  | _, _ => raw
  end.

(** ** Laws of one member *)

Lemma bits_range off w raw : 0 <= w -> in_range w (bits off w raw).
Proof. apply wrap_range. Qed.

Lemma bits_testbit off w raw i :
  0 <= off -> 0 <= w -> 0 <= i ->
  Z.testbit (bits off w raw) i = (i <? w) && Z.testbit raw (i + off).
Proof. intros. unfold bits. rewrite wrap_testbit, Z.shiftr_spec by done. done. Qed.

Lemma set_bits_testbit off w v raw i :
  0 <= off -> 0 <= w -> 0 <= i ->
  Z.testbit (set_bits off w v raw) i =
  if (off <=? i) && (i <? off + w) then Z.testbit v (i - off) else Z.testbit raw i.
Proof.
  intros. unfold set_bits. rewrite Z.lor_spec, Z.ldiff_spec.
  destruct (Z.leb_spec off i); simpl.
  - rewrite !Z.shiftl_spec by done. rewrite wrap_testbit by done.
    rewrite Z.testbit_ones_nonneg by lia.
    destruct (Z.ltb_spec i (off + w)), (Z.ltb_spec (i - off) w); try lia; simpl.
    + by rewrite andb_false_r.
    + by rewrite orb_false_r, andb_true_r.
  - rewrite !Z.shiftl_spec_low by lia. by rewrite orb_false_r, andb_true_r.
Qed.

Lemma bits_set_same off w v raw :
  0 <= off -> 0 <= w -> bits off w (set_bits off w v raw) = wrap w v.
Proof.
  intros. apply Z.bits_inj'. intros i Hi.
  rewrite bits_testbit, set_bits_testbit, wrap_testbit by lia.
  destruct (Z.ltb_spec i w); [|done]. simpl.
  destruct (Z.leb_spec off (i + off)), (Z.ltb_spec (i + off) (off + w)); try lia; simpl.
  f_equal. lia.
Qed.

(** Two placed members that do not overlap. *)
Definition disjoint_fields (p q : placed) : Prop :=
  pl_off p + pl_width p <= pl_off q \/ pl_off q + pl_width q <= pl_off p.

Lemma bits_set_other off w off' w' v raw :
  0 <= off -> 0 <= w -> 0 <= off' -> 0 <= w' ->
  off + w <= off' \/ off' + w' <= off ->
  bits off w (set_bits off' w' v raw) = bits off w raw.
Proof.
  intros ???? Hd. apply Z.bits_inj'. intros i Hi.
  rewrite !bits_testbit, set_bits_testbit by lia.
  destruct (Z.ltb_spec i w); [|done]. simpl.
  destruct (Z.leb_spec off' (i + off)), (Z.ltb_spec (i + off) (off' + w')); try done; lia.
Qed.

Lemma shiftl_bits off w raw :
  0 <= off -> 0 <= w -> Z.land raw (Z.shiftl (Z.ones w) off) = Z.shiftl (bits off w raw) off.
Proof.
  intros. apply Z.bits_inj'. intros i Hi. rewrite Z.land_spec, !Z.shiftl_spec by done.
  destruct (Z.neg_nonneg_cases (i - off)).
  - rewrite !(Z.testbit_neg_r _ (i - off)) by done. apply andb_false_r.
  - rewrite bits_testbit, Z.testbit_ones_nonneg, andb_comm by lia. do 2 f_equal. lia.
Qed.

(** A member write as arithmetic. *)
Lemma set_bits_arith off w v raw :
  0 <= off -> 0 <= w -> set_bits off w v raw = raw + (wrap w v - bits off w raw) * 2 ^ off.
Proof.
  intros Ho Hw. unfold set_bits. set (k := Z.shiftl (Z.ones w) off).
  assert (Z.land (Z.ldiff raw k) (Z.shiftl (wrap w v) off) = 0) as Hd.
  { apply Z.bits_inj'. intros i Hi. rewrite Z.land_spec, Z.ldiff_spec, Z.bits_0. unfold k.
    rewrite !Z.shiftl_spec by done. destruct (Z.neg_nonneg_cases (i - off)).
    - rewrite !(Z.testbit_neg_r _ (i - off)) by done. apply andb_false_r.
    - rewrite wrap_testbit, Z.testbit_ones_nonneg by lia.
      destruct (i - off <? w); simpl; [by rewrite andb_false_r|by rewrite andb_false_r]. }
  rewrite <- Z.lxor_lor, <- Z.add_nocarry_lxor by done.
  assert (Z.ldiff raw k = raw - Z.land raw k) as ->.
  { rewrite Z.sub_nocarry_ldiff.
    - apply Z.bits_inj'. intros i Hi. rewrite !Z.ldiff_spec, Z.land_spec.
      by destruct (Z.testbit raw i), (Z.testbit k i).
    - apply Z.bits_inj'. intros i Hi. rewrite Z.ldiff_spec, Z.land_spec, Z.bits_0.
      by destruct (Z.testbit raw i), (Z.testbit k i). }
  unfold k. rewrite shiftl_bits by done. rewrite !Z.shiftl_mul_pow2 by done. lia.
Qed.

Lemma set_bits_range N off w v raw :
  0 <= off -> 0 <= w -> off + w <= N -> in_range N raw -> in_range N (set_bits off w v raw).
Proof.
  intros Ho Hw HN Hr.
  enough (set_bits off w v raw = wrap N (set_bits off w v raw)) as -> by (apply wrap_range; lia).
  apply Z.bits_inj'. intros i Hi. rewrite wrap_testbit by lia.
  destruct (Z.ltb_spec i N); simpl; [done|].
  rewrite set_bits_testbit by lia.
  destruct (Z.leb_spec off i), (Z.ltb_spec i (off + w)); simpl; try lia;
    by apply (in_range_testbit N).
Qed.

(** ** Placement never overlaps two members *)

Definition sane_member (m : member) : Prop := 0 <= ty_size (member_type m) /\
  0 < ty_align (member_type m) /\ 0 <= member_width m.

#[global] Instance sane_member_dec m : Decision (sane_member m).
Proof. unfold sane_member. apply _. Defined.

Lemma align_up_ge x a : 0 < a -> x <= align_up x a.
Proof. intros. unfold align_up. pose proof (Z.div_mod (x + a - 1) a).
  pose proof (Z.mod_pos_bound (x + a - 1) a). lia. Qed.

Lemma place_at_ge packed pos m : sane_member m -> pos <= place_at packed pos m.
Proof.
  intros (Hs & Ha & Hw). destruct m as [n t w|n t]; simpl in *;
    destruct packed; zcase; try lia; apply align_up_ge; lia.
Qed.

Lemma place_spec packed ms : forall pos,
  0 <= pos -> Forall sane_member ms ->
  Forall (fun p => pos <= pl_off p /\ 0 <= pl_width p /\
                   pl_off p + pl_width p <= (place packed pos ms).2) (place packed pos ms).1 /\
  pos <= (place packed pos ms).2.
Proof.
  induction ms as [|m ms IH]; intros pos Hpos Hms; simpl.
  { split; [constructor|lia]. }
  apply Forall_cons in Hms as [Hm Hms].
  pose proof (place_at_ge packed pos m Hm) as Hge. destruct Hm as (_ & _ & Hw).
  destruct (IH (place_at packed pos m + member_width m)) as [H1 H2]; [lia|done|].
  destruct (place packed _ ms) as [ps e] eqn:E; simpl in *. split; [|lia].
  constructor; [simpl; lia|].
  eapply Forall_impl; [exact H1|]. simpl. intros p. lia.
Qed.

Lemma place_pairwise packed ms : forall pos i j p q,
  0 <= pos -> Forall sane_member ms ->
  (place packed pos ms).1 !! i = Some p -> (place packed pos ms).1 !! j = Some q ->
  (i < j)%nat -> pl_off p + pl_width p <= pl_off q.
Proof.
  induction ms as [|m ms IH]; intros pos i j p q Hpos Hms Hi Hj Hij; simpl in *; [done|].
  apply Forall_cons in Hms as [Hm Hms].
  pose proof (place_at_ge packed pos m Hm) as Hge. destruct Hm as (_ & _ & Hw).
  destruct (place_spec packed ms (place_at packed pos m + member_width m)) as [H1 _]; [lia|done|].
  specialize (IH (place_at packed pos m + member_width m)).
  destruct (place packed _ ms) as [ps e] eqn:E; simpl in *.
  destruct j as [|j]; [lia|]. simpl in Hj.
  destruct i as [|i]; simpl in Hi.
  - simplify_eq. simpl. eapply Forall_lookup_1 in H1; [|exact Hj]. simpl in H1. lia.
  - eapply (IH i j); eauto; lia.
Qed.

(** ** Whole structures: unpack after pack *)

Definition placed_ok (p : placed) : Prop := 0 <= pl_off p /\ 0 <= pl_width p.

Definition apart (l : list placed) : Prop :=
  forall i j p q, l !! i = Some p -> l !! j = Some q -> i <> j -> disjoint_fields p q.

Lemma layout_ok packed ms : Forall sane_member ms -> Forall placed_ok (layout packed ms).
Proof.
  intros Hms. unfold layout. destruct (place_spec packed ms 0) as [H _]; [lia|done|].
  eapply Forall_impl; [exact H|]. simpl. intros p Hp. unfold placed_ok. lia.
Qed.

Lemma layout_apart packed ms : Forall sane_member ms -> apart (layout packed ms).
Proof.
  intros Hms i j p q Hi Hj Hij. unfold disjoint_fields, layout in *.
  destruct (decide (i < j)%nat).
  - left. eapply (place_pairwise packed ms 0 i j); eauto; lia.
  - right. eapply (place_pairwise packed ms 0 j i); eauto; lia.
Qed.

Lemma apart_cons p l : apart (p :: l) -> Forall (disjoint_fields p) l /\ apart l.
Proof.
  intros H. split.
  - apply Forall_lookup. intros i q Hq. apply (H 0%nat (S i)); done.
  - intros i j q r Hi Hj Hij. apply (H (S i) (S j)); auto.
Qed.

Lemma bits_pack_other l : forall vs raw p,
  placed_ok p -> Forall placed_ok l -> Forall (disjoint_fields p) l ->
  bits (pl_off p) (pl_width p) (pack l vs raw) = bits (pl_off p) (pl_width p) raw.
Proof.
  induction l as [|q l IH]; intros [|v vs] raw p Hp Hl Hd; simpl; try done.
  apply Forall_cons in Hl as [[] Hl]. apply Forall_cons in Hd as [Hd Hds]. destruct Hp.
  rewrite IH by done. apply bits_set_other; auto.
Qed.

Lemma unpack_pack l : forall vs raw,
  Forall placed_ok l -> apart l -> length vs = length l ->
  unpack l (pack l vs raw) = zip_with (fun p v => wrap (pl_width p) v) l vs.
Proof.
  induction l as [|p l IH]; intros [|v vs] raw Hl Ha Hlen; simpl in *; try done.
  apply Forall_cons in Hl as [Hp Hl]. apply apart_cons in Ha as [Hd Ha].
  unfold unpack in *; simpl. f_equal; [|apply IH; auto].
  destruct Hp as [Ho Hw].
  rewrite bits_pack_other by done. by apply bits_set_same.
Qed.

(** The members of a structure round-trip, cut to their widths. *)
Lemma cs_round_trip s vs raw :
  Forall sane_member (cs_members s) -> length vs = length (cs_layout s) ->
  unpack (cs_layout s) (pack (cs_layout s) vs raw) =
  zip_with (fun p v => wrap (pl_width p) v) (cs_layout s) vs.
Proof. intros Hs Hl. apply unpack_pack; [by apply layout_ok|by apply layout_apart|done]. Qed.

(** ** Members by name *)

Lemma field_of_lookup l n :
  n ∈ (pl_name <$> l) -> exists k, l !! k = Some (field_of l n) /\ pl_name (field_of l n) = n.
Proof.
  intros Hn. apply list_elem_of_fmap in Hn as (q & -> & Hq). unfold field_of.
  destruct (list_find_elem_of (fun p => pl_name p = pl_name q) l q Hq eq_refl) as [[k p] E].
  rewrite E. simpl. apply list_find_Some in E as (Hk & Hp & _). eauto.
Qed.

(** Writing one member of a structure changes that member only. *)
Lemma fget_fset packed ms n i v raw :
  Forall sane_member ms ->
  n ∈ (pl_name <$> layout packed ms) -> i ∈ (pl_name <$> layout packed ms) ->
  fget (layout packed ms) i (fset (layout packed ms) n v raw) =
  if decide (i = n) then wrap (pl_width (field_of (layout packed ms) n)) v
  else fget (layout packed ms) i raw.
Proof.
  intros Hms Hn Hi. pose proof (layout_ok packed ms Hms) as Hok.
  destruct (field_of_lookup _ _ Hn) as (k & Hk & En).
  destruct (field_of_lookup _ _ Hi) as (j & Hj & Ei).
  assert (placed_ok (field_of (layout packed ms) n)) as [? ?] by (eapply Forall_lookup_1 in Hok; eauto).
  assert (placed_ok (field_of (layout packed ms) i)) as [? ?] by (eapply Forall_lookup_1 in Hok; eauto).
  unfold fget, fset. case_decide; [subst i; by apply bits_set_same|].
  apply bits_set_other; try done.
  apply (layout_apart packed ms Hms j k); [done..|]. intros ->. congruence.
Qed.

(** ** Automation: members of concrete layouts *)

(** Replace [field_of] on a concrete layout by the offset and width. *)
Ltac layout_eval :=
  unfold finit in *; cbn [foldl] in *; unfold fget, fset, offsetof in *;
  repeat match goal with
  | |- context [field_of ?l ?n] =>
      let x := eval vm_compute in (field_of l n) in
      change (field_of l n) with x
  | H : context [field_of ?l ?n] |- _ =>
      let x := eval vm_compute in (field_of l n) in
      change (field_of l n) with x in H
  end; cbn [pl_off pl_width] in *.

(** Read members through a chain of member writes. *)
Ltac bits_simpl :=
  repeat first
  [ rewrite bits_set_same by lia
  | rewrite bits_set_other by lia ].

(** Conversion unfolds the definitions built on these before the accessors. *)
#[global] Strategy 100 [field_of bits set_bits].
#[global] Strategy 90 [fget fset].
#[global] Strategy 80 [finit].
