(* ===== verification/Memory.v ===== *)
(** Byte-addressed memory.

    Pointer code of the kernel (the page lists, the kernel heap, the string
    routines, the page tables) is modelled over a memory of bytes with an
    explicit set of backed address ranges.  An access outside every range is
    the fault [Unmapped]; bytes that were never stored are 0, as in [.bss].
    Multi-byte accesses are little endian. *)
From S2P Require Import Prelude.

Record mem := Mem { mem_regions : list (Z * Z); mem_bytes : gmap Z Z }.

Definition in_region (a : Z) (r : Z * Z) : bool := (r.1 <=? a) && (a <? r.1 + r.2).

Definition mapped (m : mem) (a : Z) : bool := existsb (in_region a) (mem_regions m).

Definition byte_at (m : mem) (a : Z) : Z := u8 (default 0 (mem_bytes m !! a)).

Definition set_byte (m : mem) (a v : Z) : mem :=
  Mem (mem_regions m) (<[a := u8 v]> (mem_bytes m)).

Definition load8 (a : Z) : M mem Z := fun m =>
  if mapped m a then Ok (byte_at m a, m) else Fault (Unmapped a).

Definition store8 (a v : Z) : M mem unit := fun m =>
  if mapped m a then Ok (tt, set_byte m a v) else Fault (Unmapped a).

Fixpoint load (n : nat) (a : Z) : M mem Z :=
  match n with
  | O => mret 0
  | S n => lo ← load8 a; hi ← load n (a + 1); mret (lo + 256 * hi)
  end.

Fixpoint store (n : nat) (a v : Z) : M mem unit :=
  match n with
  | O => mret tt
  | S n => store8 a v ;; store n (a + 1) (v / 256)
  end.

Definition load16 := load 2.
Definition load32 := load 4.
Definition load64 := load 8.
Definition store16 := store 2.
Definition store32 := store 4.
Definition store64 := store 8.

(** [__builtin_memset]: [c] is converted to [unsigned char]. *)
Fixpoint memset (n : nat) (a c : Z) : M mem unit :=
  match n with
  | O => mret tt
  | S n => store8 a (u8 c) ;; memset n (a + 1) c
  end.

(** ** Accesses as functions of the memory *)

Fixpoint peek (n : nat) (m : mem) (a : Z) : Z :=
  match n with
  | O => 0
  | S n => byte_at m a + 256 * peek n m (a + 1)
  end.

Fixpoint poke (n : nat) (m : mem) (a v : Z) : mem :=
  match n with
  | O => m
  | S n => poke n (set_byte m a v) (a + 1) (v / 256)
  end.

Fixpoint fill (n : nat) (m : mem) (a c : Z) : mem :=
  match n with
  | O => m
  | S n => fill n (set_byte m a (u8 c)) (a + 1) c
  end.

Definition mapped_range (m : mem) (a n : Z) : Prop :=
  forall x, a <= x < a + n -> mapped m x = true.

Lemma mapped_set_byte m a v x : mapped (set_byte m a v) x = mapped m x.
Proof. done. Qed.

Lemma mapped_poke n : forall m a v x, mapped (poke n m a v) x = mapped m x.
Proof. induction n; intros; simpl; [done|]. by rewrite IHn. Qed.

Lemma mapped_fill n : forall m a v x, mapped (fill n m a v) x = mapped m x.
Proof. induction n; intros; simpl; [done|]. by rewrite IHn. Qed.

#[export] Hint Rewrite mapped_set_byte mapped_poke mapped_fill : jsos.

Lemma mapped_range_mono m a n b k :
  mapped_range m a n -> a <= b -> b + k <= a + n -> mapped_range m b k.
Proof. intros H ?? x Hx. apply H. lia. Qed.

Lemma mapped_range_poke m a n k b v : mapped_range m a n -> mapped_range (poke k m b v) a n.
Proof. intros H x Hx. autorewrite with jsos. auto. Qed.

Lemma mapped_range_fill m a n k b v : mapped_range m a n -> mapped_range (fill k m b v) a n.
Proof. intros H x Hx. autorewrite with jsos. auto. Qed.

Lemma mapped_range_set_byte m a n b v : mapped_range m a n -> mapped_range (set_byte m b v) a n.
Proof. intros H x Hx. autorewrite with jsos. auto. Qed.

#[export] Hint Resolve mapped_range_poke mapped_range_fill mapped_range_set_byte : jsos.

Lemma mapped_in_region m a n b k :
  (b, k) ∈ mem_regions m -> b <= a -> a + n <= b + k -> mapped_range m a n.
Proof.
  intros Hin ?? x Hx. unfold mapped. apply existsb_exists. exists (b, k). split.
  - by apply list_elem_of_In.
  - unfold in_region. simpl. apply andb_true_intro. lia.
Qed.

Lemma load8_ok m a : mapped m a = true -> load8 a m = Ok (byte_at m a, m).
Proof. intros H. unfold load8. by rewrite H. Qed.

Lemma store8_ok m a v : mapped m a = true -> store8 a v m = Ok (tt, set_byte m a v).
Proof. intros H. unfold store8. by rewrite H. Qed.

Lemma load_ok n : forall m a,
  mapped_range m a (Z.of_nat n) -> load n a m = Ok (peek n m a, m).
Proof.
  induction n as [|n IH]; intros m a H; [done|]. simpl load.
  erewrite bind_Ok by (apply load8_ok, H; lia).
  erewrite bind_Ok by (apply IH; eapply mapped_range_mono; eauto; lia). done.
Qed.

Lemma store_ok n : forall m a v,
  mapped_range m a (Z.of_nat n) -> store n a v m = Ok (tt, poke n m a v).
Proof.
  induction n as [|n IH]; intros m a v H; [done|]. simpl store.
  erewrite bind_Ok by (apply store8_ok, H; lia).
  apply IH. apply mapped_range_set_byte. eapply mapped_range_mono; eauto; lia.
Qed.

Lemma memset_ok n : forall m a v,
  mapped_range m a (Z.of_nat n) -> memset n a v m = Ok (tt, fill n m a v).
Proof.
  induction n as [|n IH]; intros m a v H; [done|]. simpl memset.
  erewrite bind_Ok by (apply store8_ok, H; lia).
  apply IH. apply mapped_range_set_byte. eapply mapped_range_mono; eauto; lia.
Qed.

(** ** Contents after an update *)

Lemma byte_at_range m a : 0 <= byte_at m a < 256.
Proof. apply (wrap_range 8). lia. Qed.

Lemma byte_at_set_byte m a v x :
  byte_at (set_byte m a v) x = if decide (x = a) then u8 v else byte_at m x.
Proof.
  unfold byte_at, set_byte. simpl. rewrite lookup_insert.
  case_decide; case_decide; subst; try done. simpl. by rewrite wrap_wrap.
Qed.

Lemma byte_at_poke_other n : forall m a v x,
  x < a \/ a + Z.of_nat n <= x -> byte_at (poke n m a v) x = byte_at m x.
Proof.
  induction n as [|n IH]; intros m a v x H; simpl; [done|].
  rewrite IH by lia. rewrite byte_at_set_byte. case_decide; [lia|done].
Qed.

Lemma byte_at_fill n : forall m a c x,
  byte_at (fill n m a c) x =
  if (a <=? x) && (x <? a + Z.of_nat n) then u8 c else byte_at m x.
Proof.
  induction n as [|n IH]; intros m a c x; simpl fill.
  { destruct (Z.leb_spec a x), (Z.ltb_spec x (a + Z.of_nat 0)); simpl; try done; lia. }
  rewrite IH, byte_at_set_byte, wrap_wrap by lia.
  destruct (Z.leb_spec (a + 1) x), (Z.ltb_spec x (a + 1 + Z.of_nat n)),
    (Z.leb_spec a x), (Z.ltb_spec x (a + Z.of_nat (S n))); simpl; try lia;
    case_decide; try done; lia.
Qed.

Lemma fill_byte n : forall m a c d, u8 c = u8 d -> fill n m a c = fill n m a d.
Proof. induction n as [|n IH]; intros m a c d H; simpl; [done|]. rewrite H. auto. Qed.

Lemma peek_ext n : forall m m' a,
  (forall x, a <= x < a + Z.of_nat n -> byte_at m x = byte_at m' x) -> peek n m a = peek n m' a.
Proof.
  induction n as [|n IH]; intros m m' a H; simpl; [done|].
  rewrite H by lia. rewrite (IH m m') by (intros; apply H; lia). done.
Qed.

Lemma peek_poke_other n k m a b v :
  a + Z.of_nat n <= b \/ b + Z.of_nat k <= a -> peek n (poke k m b v) a = peek n m a.
Proof. intros H. apply peek_ext. intros x Hx. apply byte_at_poke_other. lia. Qed.

Lemma peek_set_byte_other n m a b v :
  b < a \/ a + Z.of_nat n <= b -> peek n (set_byte m b v) a = peek n m a.
Proof.
  intros H. apply peek_ext. intros x Hx. rewrite byte_at_set_byte. case_decide; [lia|done].
Qed.

Lemma peek_fill_other n k m a b c :
  a + Z.of_nat n <= b \/ b + Z.of_nat k <= a -> peek n (fill k m b c) a = peek n m a.
Proof.
  intros H. apply peek_ext. intros x Hx. rewrite byte_at_fill.
  destruct (Z.leb_spec b x), (Z.ltb_spec x (b + Z.of_nat k)); simpl; try done; lia.
Qed.

Lemma peek_zero n : forall m a,
  (forall x, a <= x < a + Z.of_nat n -> byte_at m x = 0) -> peek n m a = 0.
Proof.
  induction n as [|n IH]; intros m a H; simpl; [done|].
  rewrite H by lia. rewrite IH; [done|]. intros. apply H. lia.
Qed.

Lemma peek_fill_zero n k m a b :
  b <= a -> a + Z.of_nat n <= b + Z.of_nat k -> peek n (fill k m b 0) a = 0.
Proof.
  intros ??. apply peek_zero. intros x Hx. rewrite byte_at_fill.
  destruct (Z.leb_spec b x), (Z.ltb_spec x (b + Z.of_nat k)); simpl; try done; lia.
Qed.

Lemma peek_range n : forall m a, in_range (8 * Z.of_nat n) (peek n m a).
Proof.
  unfold in_range. induction n as [|n IH]; intros m a; [simpl; lia|].
  cbn [peek]. pose proof (byte_at_range m a). specialize (IH m (a + 1)).
  replace (8 * Z.of_nat (S n)) with (8 + 8 * Z.of_nat n) by lia.
  rewrite Z.pow_add_r by lia. lia.
Qed.

Lemma peek_poke_same n : forall m a v,
  peek n (poke n m a v) a = wrap (8 * Z.of_nat n) v.
Proof.
  induction n as [|n IH]; intros m a v.
  { simpl. unfold wrap. by rewrite Z.mod_1_r. }
  cbn [peek poke].
  rewrite IH, byte_at_poke_other by lia. rewrite byte_at_set_byte.
  case_decide; [|done]. unfold wrap.
  replace (8 * Z.of_nat (S n)) with (8 + 8 * Z.of_nat n) by lia.
  rewrite Z.pow_add_r by lia. change (2 ^ 8) with 256.
  rewrite Z.rem_mul_r by (try apply Z.pow_nonzero; lia). lia.
Qed.

(** ** Byte sequences and C strings *)

Fixpoint bytes_at (m : mem) (a : Z) (l : list Z) : Prop :=
  match l with
  | [] => True
  | x :: l => byte_at m a = x /\ bytes_at m (a + 1) l
  end.

(** [s] at [a], followed by the terminating NUL. *)
Definition cstr (m : mem) (a : Z) (s : list Z) : Prop :=
  Forall (fun c => 0 < c < 256) s /\ bytes_at m a s /\ byte_at m (a + Z.of_nat (length s)) = 0.

Lemma bytes_at_ext m m' l : forall a,
  (forall x, a <= x < a + Z.of_nat (length l) -> byte_at m' x = byte_at m x) ->
  bytes_at m a l -> bytes_at m' a l.
Proof.
  induction l as [|c l IH]; intros a H; simpl in *; [done|]. intros [H1 H2]. split.
  - rewrite H by lia. done.
  - apply IH; [|done]. intros. apply H. lia.
Qed.

Lemma bytes_at_app m l1 l2 : forall a,
  bytes_at m a (l1 ++ l2) <-> bytes_at m a l1 /\ bytes_at m (a + Z.of_nat (length l1)) l2.
Proof.
  induction l1 as [|c l IH]; intros a; simpl.
  - rewrite Z.add_0_r. tauto.
  - rewrite IH. replace (a + 1 + Z.of_nat (length l)) with (a + Z.of_nat (S (length l))) by lia.
    tauto.
Qed.

Lemma bytes_at_lookup m l a i c :
  bytes_at m a l -> l !! i = Some c -> byte_at m (a + Z.of_nat i) = c.
Proof.
  revert a i. induction l as [|d l IH]; intros a [|i] H Hi; simpl in *; try done.
  - simplify_eq. rewrite Z.add_0_r. tauto.
  - destruct H as [_ H]. rewrite <- (IH (a + 1) i H Hi). f_equal. lia.
Qed.

(** The [n] bytes of a number, as [.word] and [.quad] emit them. *)
Fixpoint le_bytes (n : nat) (v : Z) : list Z :=
  match n with O => [] | S n => u8 v :: le_bytes n (v / 256) end.

Lemma le_bytes_length n : forall v, length (le_bytes n v) = n.
Proof. induction n; intros; simpl; auto. Qed.

Lemma peek_le_bytes n : forall m a v,
  bytes_at m a (le_bytes n v) -> peek n m a = wrap (8 * Z.of_nat n) v.
Proof.
  induction n as [|n IH]; intros m a v H.
  { unfold wrap. by rewrite Z.mod_1_r. }
  destruct H as [H1 H2]. cbn [peek]. rewrite H1, (IH _ _ _ H2). unfold wrap.
  replace (8 * Z.of_nat (S n)) with (8 + 8 * Z.of_nat n) by lia.
  rewrite Z.pow_add_r by lia. change (2 ^ 8) with 256.
  rewrite Z.rem_mul_r by (try apply Z.pow_nonzero; lia). lia.
Qed.

(** Store a sequence of bytes. *)
Fixpoint put_bytes (m : mem) (a : Z) (l : list Z) : mem :=
  match l with
  | [] => m
  | c :: l => put_bytes (set_byte m a c) (a + 1) l
  end.

Lemma mapped_put_bytes l : forall m a x, mapped (put_bytes m a l) x = mapped m x.
Proof. induction l; intros; simpl; [done|]. by rewrite IHl. Qed.
#[export] Hint Rewrite mapped_put_bytes : jsos.

Lemma mapped_range_put_bytes m a n l b : mapped_range m a n -> mapped_range (put_bytes m b l) a n.
Proof. intros H x Hx. autorewrite with jsos. auto. Qed.
#[export] Hint Resolve mapped_range_put_bytes : jsos.

Lemma put_bytes_app l1 l2 : forall m a,
  put_bytes m a (l1 ++ l2) = put_bytes (put_bytes m a l1) (a + Z.of_nat (length l1)) l2.
Proof.
  induction l1 as [|c l IH]; intros m a; simpl.
  - by rewrite Z.add_0_r.
  - rewrite IH. f_equal. lia.
Qed.

Lemma put_bytes_snoc m a l c :
  put_bytes m a (l ++ [c]) = set_byte (put_bytes m a l) (a + Z.of_nat (length l)) c.
Proof. by rewrite put_bytes_app. Qed.

Lemma set_byte_comm m a b c d :
  a <> b -> set_byte (set_byte m a c) b d = set_byte (set_byte m b d) a c.
Proof. intros H. unfold set_byte. simpl. by rewrite insert_insert_ne by congruence. Qed.

Lemma set_byte_set_byte m a c d : set_byte (set_byte m a c) a d = set_byte m a d.
Proof. unfold set_byte. simpl. by rewrite insert_insert_eq. Qed.

Lemma set_byte_poke_comm n : forall m a b c v,
  b < a -> set_byte (poke n m a v) b c = poke n (set_byte m b c) a v.
Proof.
  induction n as [|n IH]; intros m a b c v H; simpl; [done|].
  rewrite IH by lia. by rewrite set_byte_comm by lia.
Qed.

Lemma poke_poke_same n : forall m a v w, poke n (poke n m a v) a w = poke n m a w.
Proof.
  induction n as [|n IH]; intros m a v w; simpl; [done|].
  rewrite set_byte_poke_comm by lia. by rewrite set_byte_set_byte, IH.
Qed.

Lemma set_byte_put_bytes_comm l : forall m a b c,
  b < a \/ a + Z.of_nat (length l) <= b ->
  set_byte (put_bytes m a l) b c = put_bytes (set_byte m b c) a l.
Proof.
  induction l as [|d l IH]; intros m a b c H; simpl in *; [done|].
  rewrite IH by lia. by rewrite set_byte_comm by lia.
Qed.

(** A later store of at least as many bytes hides an earlier one. *)
Lemma put_bytes_overwrite l : forall j m a,
  (length j <= length l)%nat -> put_bytes (put_bytes m a j) a l = put_bytes m a l.
Proof.
  induction l as [|c l IH]; intros [|d j] m a H; simpl in *; try done; [lia|].
  rewrite set_byte_put_bytes_comm by lia. rewrite set_byte_set_byte. apply IH. lia.
Qed.

(** Overwrite of one element. *)
Lemma set_byte_put_bytes m a l i c :
  (i < length l)%nat -> set_byte (put_bytes m a l) (a + Z.of_nat i) c = put_bytes m a (<[i:=c]> l).
Proof.
  revert m a i. induction l as [|d l IH]; intros m a [|i] H; simpl in *; try lia.
  - rewrite Z.add_0_r, set_byte_put_bytes_comm, set_byte_set_byte by lia. done.
  - replace (a + Z.of_nat (S i)) with (a + 1 + Z.of_nat i) by lia. apply IH. lia.
Qed.

Lemma byte_at_put_bytes_other l : forall m a x,
  x < a \/ a + Z.of_nat (length l) <= x -> byte_at (put_bytes m a l) x = byte_at m x.
Proof.
  induction l as [|c l IH]; intros m a x H; simpl in *; [done|].
  rewrite IH by lia. rewrite byte_at_set_byte. case_decide; [lia|done].
Qed.

Lemma bytes_at_put_bytes l : forall m a,
  Forall (fun c => 0 <= c < 256) l -> bytes_at (put_bytes m a l) a l.
Proof.
  induction l as [|c l IH]; intros m a Hl; simpl; [done|].
  apply Forall_cons in Hl as [Hc Hl]. split; [|auto].
  rewrite byte_at_put_bytes_other by lia. rewrite byte_at_set_byte.
  case_decide; [|done]. by apply (wrap_small 8).
Qed.

Lemma byte_at_put_bytes l m a i c :
  Forall (fun c => 0 <= c < 256) l -> l !! i = Some c ->
  byte_at (put_bytes m a l) (a + Z.of_nat i) = c.
Proof. intros Hl Hi. eapply bytes_at_lookup; eauto using bytes_at_put_bytes. Qed.

Lemma Forall_char_byte s : Forall (fun c => 0 < c < 256) s -> Forall (fun c => 0 <= c < 256) s.
Proof. intros H. eapply Forall_impl; [exact H|]. simpl. intros. lia. Qed.
#[export] Hint Resolve Forall_char_byte : jsos.

Lemma cstr_put_bytes m a s :
  Forall (fun c => 0 < c < 256) s -> cstr (put_bytes m a (s ++ [0])) a s.
Proof.
  intros Hs. assert (Forall (fun c => 0 <= c < 256) (s ++ [0])) as Hs'.
  { apply Forall_app. split; [auto with jsos|]. repeat constructor; lia. }
  split; [done|]. split.
  - eapply bytes_at_app, bytes_at_put_bytes, Hs'.
  - eapply byte_at_put_bytes; [done|]. by rewrite list_lookup_middle.
Qed.

Lemma cstr_lookup m a s i c : cstr m a s -> s !! i = Some c -> byte_at m (a + Z.of_nat i) = c /\ c <> 0.
Proof.
  intros (Hs & Hb & _) Hi. split; [by eapply bytes_at_lookup|].
  eapply Forall_lookup_1 in Hs; [|done]. simpl in Hs. lia.
Qed.

Lemma cstr_ext m m' a s :
  (forall x, a <= x <= a + Z.of_nat (length s) -> byte_at m' x = byte_at m x) ->
  cstr m a s -> cstr m' a s.
Proof.
  intros H (Hs & Hb & H0). split; [done|]. split.
  - eapply bytes_at_ext; [|done]. intros. apply H. lia.
  - rewrite H by lia. done.
Qed.

(** Decide the concrete side conditions of memory lemmas by evaluation. *)
Lemma mapped_range_check m a n :
  forallb (fun r => negb ((r.1 <=? a) && (a + n <=? r.1 + r.2))) (mem_regions m) = false ->
  mapped_range m a n.
Proof.
  intros H. apply not_true_iff_false in H.
  destruct (existsb (fun r => (r.1 <=? a) && (a + n <=? r.1 + r.2)) (mem_regions m)) eqn:E.
  - apply existsb_exists in E as ([b k] & Hin & Hr). simpl in Hr.
    apply andb_prop in Hr as [H1 H2]. eapply (mapped_in_region m a n b k).
    + by apply list_elem_of_In.
    + lia.
    + lia.
  - exfalso. apply H. clear H. induction (mem_regions m) as [|r l IH]; [done|]. simpl in *.
    apply orb_false_iff in E as [E1 E2]. by rewrite E1, IH.
Qed.

Arguments peek : simpl never.
Arguments poke : simpl never.
Arguments fill : simpl never.
Arguments load : simpl never.
Arguments store : simpl never.
Arguments memset : simpl never.
