(* ===== verification/Libk.v ===== *)
(** kernel/libk: the rounding macros of utils.h, the string routines of
    string.c, the error codes of api/posix/errno.h and the [ErrorOr] result
    type of ErrorOr.hpp with its [TRY] macros. *)
From S2P Require Import Prelude Memory.

(** ** utils.h *)
Module Utils.

(** [((a) + (n) - 1) & ~((n) - 1)] on 64-bit operands. *)
Definition ROUNDUP2N (a n : Z) : Z := Z.land (u64 (a + n - 1)) (u64 (Z.lnot (n - 1))).

(** [(a) & ~((n) - 1)] on 64-bit operands. *)
Definition ROUNDDOWN2N (a n : Z) : Z := Z.land (u64 a) (u64 (Z.lnot (n - 1))).

Definition MIN (a b : Z) : Z := if a <? b then a else b.
Definition MAX (a b : Z) : Z := if b <? a then a else b.

Lemma land_lnot_pow2 a k :
  0 <= k <= 64 -> Z.land (u64 a) (u64 (Z.lnot (2 ^ k - 1))) = u64 a - u64 a mod 2 ^ k.
Proof.
  intros Hk. transitivity (Z.ldiff (u64 a) (Z.ones k)).
  - apply Z.bits_inj'. intros i Hi.
    rewrite Z.land_spec, Z.ldiff_spec, !wrap_testbit, Z.testbit_ones_nonneg by lia.
    replace (2 ^ k - 1) with (Z.ones k) by (rewrite Z.ones_equiv; lia).
    rewrite Z.lnot_spec, Z.testbit_ones_nonneg by lia.
    destruct (i <? 64), (i <? k), (Z.testbit a i); done.
  - rewrite Z.ldiff_ones_r, Z.shiftl_mul_pow2, Z.shiftr_div_pow2 by lia.
    pose proof (Z.div_mod (u64 a) (2 ^ k)). pose proof (pow2_pos k). lia.
Qed.

Lemma ROUNDDOWN2N_eq a k :
  0 <= k <= 64 -> ROUNDDOWN2N a (2 ^ k) = u64 a - u64 a mod 2 ^ k.
Proof. apply land_lnot_pow2. Qed.

Lemma ROUNDUP2N_eq a k :
  0 <= k <= 64 -> ROUNDUP2N a (2 ^ k) = u64 (a + 2 ^ k - 1) - u64 (a + 2 ^ k - 1) mod 2 ^ k.
Proof. apply land_lnot_pow2. Qed.

(** Without overflow the macros give the nearest multiples. *)
Lemma ROUNDUP2N_spec a k :
  0 <= k < 64 -> 0 <= a -> a + 2 ^ k - 1 < 2 ^ 64 ->
  a <= ROUNDUP2N a (2 ^ k) < a + 2 ^ k /\ (2 ^ k | ROUNDUP2N a (2 ^ k)).
Proof.
  intros Hk Ha Hov. rewrite ROUNDUP2N_eq by lia. pose proof (pow2_pos k).
  rewrite wrap_small by (unfold in_range; lia).
  pose proof (Z.mod_pos_bound (a + 2 ^ k - 1) (2 ^ k)).
  split; [lia|].
  exists ((a + 2 ^ k - 1) / 2 ^ k). pose proof (Z.div_mod (a + 2 ^ k - 1) (2 ^ k)). lia.
Qed.

Lemma ROUNDDOWN2N_spec a k :
  0 <= k < 64 -> 0 <= a < 2 ^ 64 ->
  a - 2 ^ k < ROUNDDOWN2N a (2 ^ k) <= a /\ (2 ^ k | ROUNDDOWN2N a (2 ^ k)).
Proof.
  intros Hk Ha. rewrite ROUNDDOWN2N_eq by lia. pose proof (pow2_pos k).
  rewrite wrap_small by done. pose proof (Z.mod_pos_bound a (2 ^ k)).
  split; [lia|]. exists (a / 2 ^ k). pose proof (Z.div_mod a (2 ^ k)). lia.
Qed.

End Utils.

(** ** string.c

    The loops take the number of iterations allowed; the theorems give the
    number that is enough, the length of the string plus one. *)
Module KString.

Fixpoint strlen_loop (fuel : nat) (str len : Z) : M mem Z :=
  match fuel with
  | O => fail OutOfFuel
  | S fuel =>
      c ← load8 (u64 (str + len));
      if c =? 0 then mret len else strlen_loop fuel str (u64 (len + 1))
  end.

Definition strlen (fuel : nat) (str : Z) : M mem Z := strlen_loop fuel str 0.

Fixpoint strcpy_loop (fuel : nat) (dst src i : Z) : M mem Z :=
  match fuel with
  | O => fail OutOfFuel
  | S fuel =>
      c ← load8 (u64 (src + i));
      if c =? 0 then mret i
      else store8 (u64 (dst + i)) c ;; strcpy_loop fuel dst src (u64 (i + 1))
  end.

Definition strcpy (fuel : nat) (dst src : Z) : M mem Z :=
  i ← strcpy_loop fuel dst src 0;
  store8 (u64 (dst + i)) 0 ;;
  mret dst.

Fixpoint strncpy_loop (fuel : nat) (dst src n i : Z) : M mem Z :=
  match fuel with
  | O => fail OutOfFuel
  | S fuel =>
      if i <? n then
        c ← load8 (u64 (src + i));
        if c =? 0 then mret i
        else store8 (u64 (dst + i)) c ;; strncpy_loop fuel dst src n (u64 (i + 1))
      else mret i
  end.

Definition strncpy (fuel : nat) (dst src n : Z) : M mem Z :=
  i ← strncpy_loop fuel dst src n 0;
  when (i <? n) (store8 (u64 (dst + i)) 0) ;;
  mret i.

(** [*s] is a signed [char], [c] an [int]. *)
Fixpoint strchr (fuel : nat) (s c : Z) : M mem Z :=
  match fuel with
  | O => fail OutOfFuel
  | S fuel =>
      b ← load8 s;
      if b =? 0 then mret 0
      else if swrap 8 b =? c then mret s
      else strchr fuel (u64 (s + 1)) c
  end.

(** A C string the code may read: backed, and below the end of the address space. *)
Record readable (m : mem) (a : Z) (s : list Z) : Prop := {
  rd_cstr : cstr m a s;
  rd_mapped : mapped_range m a (Z.of_nat (length s) + 1);
  rd_low : 0 <= a;
  rd_high : a + Z.of_nat (length s) < 2 ^ 64 }.

(** A buffer of [n] bytes the code may write. *)
Record writable (m : mem) (a n : Z) : Prop := {
  wr_mapped : mapped_range m a n;
  wr_low : 0 <= a;
  wr_high : a + n <= 2 ^ 64 }.

Lemma readable_char m a s i c :
  readable m a s -> s !! i = Some c ->
  load8 (u64 (a + Z.of_nat i)) m = Ok (c, m) /\ c <> 0.
Proof.
  intros [Hc Hm Hl Hh] Hi. pose proof (lookup_lt_Some _ _ _ Hi).
  destruct (cstr_lookup _ _ _ _ _ Hc Hi) as [Hb Hne].
  rewrite wrap_small by (unfold in_range; lia).
  rewrite load8_ok by (apply Hm; lia). by rewrite Hb.
Qed.

Lemma readable_end m a s :
  readable m a s -> load8 (u64 (a + Z.of_nat (length s))) m = Ok (0, m).
Proof.
  intros [(_ & _ & H0) Hm Hl Hh]. rewrite wrap_small by (unfold in_range; lia).
  rewrite load8_ok by (apply Hm; lia). by rewrite H0.
Qed.

Lemma readable_put_bytes m a s b l :
  readable m a s -> b + Z.of_nat (length l) <= a \/ a + Z.of_nat (length s) < b ->
  readable (put_bytes m b l) a s.
Proof.
  intros [Hc Hm Hl Hh] Hd. split; [|auto with jsos|done|done].
  eapply cstr_ext; [|done]. intros x Hx. apply byte_at_put_bytes_other. lia.
Qed.

Lemma writable_put_bytes m a n b l : writable m a n -> writable (put_bytes m b l) a n.
Proof. intros []. split; auto with jsos. Qed.
#[local] Hint Resolve writable_put_bytes : jsos.

Lemma writable_store m a n i c :
  writable m a n -> 0 <= i < n ->
  store8 (u64 (a + i)) c m = Ok (tt, set_byte m (a + i) c).
Proof.
  intros [Hm Hl Hh] Hi. rewrite wrap_small by (unfold in_range; lia).
  apply store8_ok, Hm. lia.
Qed.

(** The byte at index [i] of a string, the terminator included. *)
Lemma readable_next m a s i :
  readable m a s -> (i <= length s)%nat ->
  (i = length s /\ load8 (u64 (a + Z.of_nat i)) m = Ok (0, m)) \/
  exists c, s !! i = Some c /\ c <> 0 /\ 0 < c < 256 /\ load8 (u64 (a + Z.of_nat i)) m = Ok (c, m).
Proof.
  intros Hr Hi. destruct (s !! i) as [c|] eqn:E.
  - right. exists c. destruct (readable_char m a s i c) as [H Hne]; [done..|].
    destruct Hr as [(Hs & _) _ _ _]. eapply Forall_lookup_1 in Hs; [|done]. auto.
  - left. apply lookup_ge_None_1 in E. assert (i = length s) as -> by lia.
    split; [done|]. by apply readable_end.
Qed.

Lemma u64_succ_nat i n : (i <= n)%nat -> Z.of_nat n < 2 ^ 64 ->
  (S i <= n)%nat -> u64 (Z.of_nat i + 1) = Z.of_nat (S i).
Proof. intros. rewrite wrap_small; [lia|]. unfold in_range. lia. Qed.

Lemma strlen_loop_ok m a s : readable m a s -> forall fuel i,
  (i <= length s)%nat -> (length s - i < fuel)%nat ->
  strlen_loop fuel a (Z.of_nat i) m = Ok (Z.of_nat (length s), m).
Proof.
  intros Hr. induction fuel as [|fuel IH]; intros i Hi Hf; [lia|]. cbn [strlen_loop].
  destruct (readable_next m a s i Hr Hi) as [[-> E]|(c & Hc & Hne & _ & E)]; rewrite (bind_Ok _ _ _ _ _ E); [done|].
  apply lookup_lt_Some in Hc. destruct (Z.eqb_spec c 0); [done|].
  destruct Hr as [_ _ Hl Hh]. rewrite (u64_succ_nat _ (length s)) by lia. apply IH; lia.
Qed.

(** strlen: the length, and no change to memory. *)
Lemma strlen_ok m a s fuel :
  readable m a s -> (length s < fuel)%nat ->
  strlen fuel a m = Ok (Z.of_nat (length s), m).
Proof. intros. apply (strlen_loop_ok m a s H fuel 0); lia. Qed.

(** Source and destination of a copy do not overlap. *)
Definition apart_copy (dst n src : Z) (s : list Z) : Prop :=
  dst + n <= src \/ src + Z.of_nat (length s) < dst.

Lemma strcpy_loop_ok m dst src s :
  readable m src s -> writable m dst (Z.of_nat (length s) + 1) ->
  apart_copy dst (Z.of_nat (length s) + 1) src s ->
  forall fuel i, (i <= length s)%nat -> (length s - i < fuel)%nat ->
  strcpy_loop fuel dst src (Z.of_nat i) (put_bytes m dst (take i s)) =
  Ok (Z.of_nat (length s), put_bytes m dst s).
Proof.
  intros Hr Hw Ha. induction fuel as [|fuel IH]; intros i Hi Hf; [lia|]. cbn [strcpy_loop].
  assert (readable (put_bytes m dst (take i s)) src s) as Hr'.
  { apply readable_put_bytes; [done|]. rewrite length_take. destruct Ha; lia. }
  destruct (readable_next _ src s i Hr' Hi) as [[-> E]|(c & Hc & Hne & _ & E)]; rewrite (bind_Ok _ _ _ _ _ E).
  { simpl. rewrite take_ge by lia. done. }
  pose proof (lookup_lt_Some _ _ _ Hc). destruct (Z.eqb_spec c 0); [done|].
  erewrite bind_Ok by (eapply writable_store; [eauto with jsos|lia]).
  destruct Hr as [_ _ Hl Hh]. rewrite (u64_succ_nat _ (length s)) by lia.
  rewrite <- (IH (S i)) by lia. f_equal.
  rewrite (take_S_lookup _ _ c), put_bytes_snoc, length_take_le by (done || lia). done.
Qed.

(** strcpy: copies the string and its terminator, returns [dst]. *)
Lemma strcpy_ok m dst src s fuel :
  readable m src s -> writable m dst (Z.of_nat (length s) + 1) ->
  apart_copy dst (Z.of_nat (length s) + 1) src s -> (length s < fuel)%nat ->
  strcpy fuel dst src m = Ok (dst, put_bytes m dst (s ++ [0])).
Proof.
  intros Hr Hw Ha Hf. unfold strcpy.
  pose proof (strcpy_loop_ok m dst src s Hr Hw Ha fuel 0 ltac:(lia) ltac:(lia)) as H.
  change (Z.of_nat 0) with 0 in H. rewrite take_0 in H. simpl in H.
  erewrite bind_Ok by exact H.
  erewrite bind_Ok by (eapply writable_store; [eauto with jsos|lia]).
  by rewrite put_bytes_snoc.
Qed.

Lemma strncpy_loop_ok m dst src s n :
  readable m src s -> writable m dst (Z.of_nat n) -> apart_copy dst (Z.of_nat n) src s ->
  forall fuel i, (i <= length s)%nat -> (i <= n)%nat -> (length s - i < fuel)%nat ->
  strncpy_loop fuel dst src (Z.of_nat n) (Z.of_nat i) (put_bytes m dst (take i s)) =
  Ok (Z.of_nat (n `min` length s), put_bytes m dst (take n s)).
Proof.
  intros Hr Hw Ha. induction fuel as [|fuel IH]; intros i Hi Hn Hf; [lia|]. cbn [strncpy_loop].
  destruct (Z.ltb_spec (Z.of_nat i) (Z.of_nat n)).
  2: { assert (i = n) as -> by lia. by rewrite Nat.min_l by lia. }
  assert (readable (put_bytes m dst (take i s)) src s) as Hr'.
  { apply readable_put_bytes; [done|]. rewrite length_take. destruct Ha; lia. }
  destruct (readable_next _ src s i Hr' Hi) as [[-> E]|(c & Hc & Hne & _ & E)]; rewrite (bind_Ok _ _ _ _ _ E).
  { simpl. rewrite !take_ge, Nat.min_r by lia. done. }
  pose proof (lookup_lt_Some _ _ _ Hc). destruct (Z.eqb_spec c 0); [done|].
  erewrite bind_Ok by (eapply writable_store; [eauto with jsos|lia]).
  destruct Hr as [_ _ Hl Hh]. rewrite (u64_succ_nat _ (length s)) by lia.
  rewrite <- (IH (S i)) by lia. f_equal.
  rewrite (take_S_lookup _ _ c), put_bytes_snoc, length_take_le by (done || lia). done.
Qed.

(** strncpy: at most [n] characters, a terminator only if there is room for
    it, and the number of characters copied. *)
Lemma strncpy_ok m dst src s n fuel :
  readable m src s -> writable m dst (Z.of_nat n) -> apart_copy dst (Z.of_nat n) src s ->
  (length s < fuel)%nat ->
  strncpy fuel dst src (Z.of_nat n) m =
  Ok (Z.of_nat (n `min` length s),
      put_bytes m dst (take n s ++ (if decide (length s < n)%nat then [0] else []))).
Proof.
  intros Hr Hw Ha Hf. unfold strncpy.
  pose proof (strncpy_loop_ok m dst src s n Hr Hw Ha fuel 0 ltac:(lia) ltac:(lia) ltac:(lia)) as H.
  change (Z.of_nat 0) with 0 in H. rewrite take_0 in H. simpl in H.
  erewrite bind_Ok by exact H. clear H. unfold when.
  case_decide; destruct (Z.ltb_spec (Z.of_nat (n `min` length s)) (Z.of_nat n)); try lia.
  - erewrite bind_Ok by (eapply writable_store; [eauto with jsos|lia]).
    rewrite put_bytes_snoc, length_take. done.
  - by rewrite app_nil_r.
Qed.

(** Index of the first character equal to [c]. *)
Definition find_char (c : Z) (s : list Z) : option nat :=
  fst <$> list_find (fun b => swrap 8 b = c) s.

Lemma find_char_cons c b s :
  find_char c (b :: s) = if decide (swrap 8 b = c) then Some 0%nat else S <$> find_char c s.
Proof.
  unfold find_char. simpl. case_decide; [done|].
  by destruct (list_find _ s) as [[]|].
Qed.

Lemma readable_tail m a b s : readable m a (b :: s) -> readable m (a + 1) s.
Proof.
  intros [(Hs & Hb & H0) Hm Hl Hh]. simpl in *. apply Forall_cons in Hs as [_ Hs]. split.
  - split; [done|]. split; [tauto|]. rewrite <- H0. f_equal. lia.
  - eapply mapped_range_mono; eauto; simpl; lia.
  - lia.
  - lia.
Qed.

Lemma readable_head m a c s : readable m a (c :: s) -> load8 a m = Ok (c, m) /\ c <> 0.
Proof.
  intros Hr. destruct (readable_char m a (c :: s) 0 c Hr eq_refl) as [Hc Hne].
  destruct Hr as [_ _ Hl Hh]. cbn [length] in Hh.
  by rewrite Z.add_0_r, wrap_small in Hc by (unfold in_range; lia).
Qed.

Lemma readable_nil m a : readable m a [] -> load8 a m = Ok (0, m).
Proof.
  intros [(_ & _ & H0) Hm Hl Hh]. simpl in *. rewrite Z.add_0_r in H0.
  rewrite load8_ok by (apply Hm; lia). by rewrite H0.
Qed.

(** strchr: a pointer to the first occurrence, or a null pointer. *)
Lemma strchr_ok m c s : forall a fuel,
  readable m a s -> (length s < fuel)%nat ->
  strchr fuel a c m =
  Ok (match find_char c s with Some i => a + Z.of_nat i | None => 0 end, m).
Proof.
  induction s as [|b s IH]; intros a [|fuel] Hr Hf; simpl in Hf; try lia; cbn [strchr].
  - destruct Hr as [(_ & _ & H0) Hm Hl Hh]. simpl in *. rewrite Z.add_0_r in H0.
    erewrite bind_Ok by (apply load8_ok, Hm; lia). by rewrite H0.
  - destruct (readable_char m a (b :: s) 0 b Hr eq_refl) as [Hb Hne].
    pose proof (readable_tail _ _ _ _ Hr) as Ht. destruct Hr as [_ _ Hl Hh]. simpl in Hb, Hh.
    rewrite Z.add_0_r, wrap_small in Hb by (unfold in_range; lia).
    erewrite bind_Ok by exact Hb. destruct (Z.eqb_spec b 0); [done|].
    rewrite find_char_cons. destruct (Z.eqb_spec (swrap 8 b) c); case_decide; try done.
    + by rewrite Z.add_0_r.
    + rewrite wrap_small by (unfold in_range; lia). rewrite IH by (done || lia).
      destruct (find_char c s); [|done]. cbn [fmap option_fmap option_map]. do 2 f_equal. lia.
Qed.

End KString.

(** ** api/posix/errno.h *)
Module Errno.

Inductive ErrnoCode :=
| ESUCCESS
| EPERM
| ENOENT
| ESRCH
| EINTR
| EIO
| ENXIO
| E2BIG
| ENOEXEC
| EBADF
| ECHILD
| EAGAIN
| ENOMEM
| EACCES
| EFAULT
| ENOTBLK
| EBUSY
| EEXIST
| EXDEV
| ENODEV
| ENOTDIR
| EISDIR
| EINVAL
| ENFILE
| EMFILE
| ENOTTY
| ETXTBSY
| EFBIG
| ENOSPC
| ESPIPE
| EROFS
| EMLINK
| EPIPE
| ERANGE
| ENAMETOOLONG
| ELOOP
| EOVERFLOW
| EOPNOTSUPP
| ENOSYS
| ENOTIMPL
| EAFNOSUPPORT
| ENOTSOCK
| EADDRINUSE
| ENOTEMPTY
| EDOM
| ECONNREFUSED
| EHOSTDOWN
| EADDRNOTAVAIL
| EISCONN
| ECONNABORTED
| EALREADY
| ECONNRESET
| EDESTADDRREQ
| EHOSTUNREACH
| EILSEQ
| EMSGSIZE
| ENETDOWN
| ENETUNREACH
| ENETRESET
| ENOBUFS
| ENOLCK
| ENOMSG
| ENOPROTOOPT
| ENOTCONN
| ESHUTDOWN
| ETOOMANYREFS
| ESOCKTNOSUPPORT
| EPROTONOSUPPORT
| EDEADLK
| ETIMEDOUT
| EPROTOTYPE
| EINPROGRESS
| ENOTHREAD
| EPROTO
| ENOTSUP
| EPFNOSUPPORT
| EDIRINTOSELF
| EDQUOT
| ENOTRECOVERABLE
| ECANCELED
| EPROMISEVIOLATION
| ESTALE
| ESRCNOTFOUND
| EMAXERRNO.

#[global] Instance ErrnoCode_eq_dec : EqDecision ErrnoCode.
Proof. solve_decision. Defined.

(** [ENUMERATE_ERRNO_CODES]: the codes in order, with their descriptions. *)
Definition ENUMERATE_ERRNO_CODES : list (ErrnoCode * string) := [
  (ESUCCESS, "Success (not an error)");
  (EPERM, "Operation not permitted");
  (ENOENT, "No such file or directory");
  (ESRCH, "No such process");
  (EINTR, "Interrupted syscall");
  (EIO, "I/O error");
  (ENXIO, "No such device or address");
  (E2BIG, "Argument list too long");
  (ENOEXEC, "Exec format error");
  (EBADF, "Bad fd number");
  (ECHILD, "No child processes");
  (EAGAIN, "Try again");
  (ENOMEM, "Out of memory");
  (EACCES, "Permission denied");
  (EFAULT, "Bad address");
  (ENOTBLK, "Block device required");
  (EBUSY, "Device or resource busy");
  (EEXIST, "File already exists");
  (EXDEV, "Cross-device link");
  (ENODEV, "No such device");
  (ENOTDIR, "Not a directory");
  (EISDIR, "Is a directory");
  (EINVAL, "Invalid argument");
  (ENFILE, "File table overflow");
  (EMFILE, "Too many open files");
  (ENOTTY, "Not a TTY");
  (ETXTBSY, "Text file busy");
  (EFBIG, "File too large");
  (ENOSPC, "No space left on device");
  (ESPIPE, "Illegal seek");
  (EROFS, "Read-only filesystem");
  (EMLINK, "Too many links");
  (EPIPE, "Broken pipe");
  (ERANGE, "Range error");
  (ENAMETOOLONG, "Name too long");
  (ELOOP, "Too many symlinks");
  (EOVERFLOW, "Overflow");
  (EOPNOTSUPP, "Operation not supported");
  (ENOSYS, "No such syscall");
  (ENOTIMPL, "Not implemented");
  (EAFNOSUPPORT, "Address family not supported");
  (ENOTSOCK, "Not a socket");
  (EADDRINUSE, "Address in use");
  (ENOTEMPTY, "Directory not empty");
  (EDOM, "Math argument out of domain");
  (ECONNREFUSED, "Connection refused");
  (EHOSTDOWN, "Host is down");
  (EADDRNOTAVAIL, "Address not available");
  (EISCONN, "Already connected");
  (ECONNABORTED, "Connection aborted");
  (EALREADY, "Connection already in progress");
  (ECONNRESET, "Connection reset");
  (EDESTADDRREQ, "Destination address required");
  (EHOSTUNREACH, "Host unreachable");
  (EILSEQ, "Illegal byte sequence");
  (EMSGSIZE, "Message size");
  (ENETDOWN, "Network down");
  (ENETUNREACH, "Network unreachable");
  (ENETRESET, "Network reset");
  (ENOBUFS, "No buffer space");
  (ENOLCK, "No lock available");
  (ENOMSG, "No message");
  (ENOPROTOOPT, "No protocol option");
  (ENOTCONN, "Not connected");
  (ESHUTDOWN, "Transport endpoint has shutdown");
  (ETOOMANYREFS, "Too many references");
  (ESOCKTNOSUPPORT, "Socket type not supported");
  (EPROTONOSUPPORT, "Protocol not supported");
  (EDEADLK, "Resource deadlock would occur");
  (ETIMEDOUT, "Timed out");
  (EPROTOTYPE, "Wrong protocol type");
  (EINPROGRESS, "Operation in progress");
  (ENOTHREAD, "No such thread");
  (EPROTO, "Protocol error");
  (ENOTSUP, "Not supported");
  (EPFNOSUPPORT, "Protocol family not supported");
  (EDIRINTOSELF, "Cannot make directory a subdirectory of itself");
  (EDQUOT, "Quota exceeded");
  (ENOTRECOVERABLE, "State not recoverable");
  (ECANCELED, "Operation cancelled");
  (EPROMISEVIOLATION, "The process has a promise violation");
  (ESTALE, "Stale network file handle");
  (ESRCNOTFOUND, "System resource not found");
  (EMAXERRNO, "The highest errno +1 :^)")
]%string.

(** The value the C enumeration gives a code: its position in the list. *)
Definition errno_value (e : ErrnoCode) : Z :=
  match list_find (fun p => p.1 = e) ENUMERATE_ERRNO_CODES with
  | Some (i, _) => Z.of_nat i
  | None => -1
  end.

Definition errno_string (e : ErrnoCode) : string :=
  default EmptyString (snd <$> ENUMERATE_ERRNO_CODES !! Z.to_nat (errno_value e)).

(** Every code has one value, below that of [EMAXERRNO]. *)
Lemma errno_value_bound e : 0 <= errno_value e <= errno_value EMAXERRNO.
Proof. destruct e; vm_compute; split; discriminate. Qed.

Lemma errno_value_inj e1 e2 : errno_value e1 = errno_value e2 -> e1 = e2.
Proof.
  intros H.
  assert (forall e, fst <$> ENUMERATE_ERRNO_CODES !! Z.to_nat (errno_value e) = Some e) as Hinv
    by (intros []; vm_compute; reflexivity).
  apply (inj Some). rewrite <- (Hinv e1), <- (Hinv e2). by rewrite H.
Qed.

End Errno.

(** ** ErrorOr.hpp

    A result holds either a value or an error code; the member that was not
    constructed is indeterminate, hence [None]. *)
Module ErrorOr.

Record t (T : Type) := Mk { value : option T; error_code : option Z; error : bool }.
Arguments Mk {T} _ _ _.
Arguments value {T} _.
Arguments error_code {T} _.
Arguments error {T} _.

Definition of_value {T} (v : T) : t T := Mk (Some v) None false.
Definition of_error {T} (code : Z) : t T := Mk None (Some code) true.

Definition is_error {T} (r : t T) : bool := error r.
Definition release_value {T} (r : t T) : option T := value r.
Definition release_error {T} (r : t T) : option Z := error_code r.

(** [TRY(expr)] inside a function returning [ErrorOr<U>]: return the error of
    [expr], or go on with its value.  [None] stands for the use of an
    indeterminate member. *)
Definition TRY {T U} (r : t T) (k : T -> option (t U)) : option (t U) :=
  if is_error r then of_error <$> release_error r
  else match release_value r with Some v => k v | None => None end.

(** [hlt] stops the processor until an interrupt arrives: a parameter, which
    may return.  [TRYHALT(expr)]: halt on an error, then the value, which is
    indeterminate when a halted processor was woken up. *)
Definition TRYHALT {S T} (hlt : M S unit) (r : t T) : M S T :=
  when (is_error r) hlt ;;
  match release_value r with Some v => mret v | None => fail (Unmapped 0) end.

(** [ASSERTHALT(expr)]: halt when the condition is false, and go on when woken
    up. *)
Definition ASSERTHALT {S} (hlt : M S unit) (c : bool) : M S unit := when (negb c) hlt.

(** A result built by one of the two constructors. *)
Definition wf {T} (r : t T) : Prop :=
  (exists v, r = of_value v) \/ (exists c, r = of_error c).

(** On results the constructors build, [TRY] is the bind of the error monad
    and never reads an indeterminate member. *)
Lemma TRY_spec {T U} (r : t T) (k : T -> option (t U)) :
  wf r ->
  (exists c, r = of_error c /\ TRY r k = Some (of_error c)) \/
  (exists v, r = of_value v /\ TRY r k = k v).
Proof. intros [[v ->]|[c ->]]; [right|left]; eauto. Qed.

End ErrorOr.
