(* ===== verification/Stdio.v ===== *)
(** libc/stdio.c and kernel/console.cpp: number formatting, [vsprintf], and
    the debug console on port 0xe9. *)
From S2P Require Import Prelude Memory Libk.
Import KString.

(** ** Definitions *)
Module Stdio.

(** [strcpy] of stdio.c: returns the address of the terminator it wrote. *)
Fixpoint strcpy (fuel : nat) (dst src : Z) : M mem Z :=
  match fuel with
  | O => fail OutOfFuel
  | S fuel =>
      c ← load8 src;
      if c =? 0 then store8 dst 0 ;; mret dst
      else store8 dst c ;; strcpy fuel (u64 (dst + 1)) (u64 (src + 1))
  end.

(** [static char digits[] = "0123456789abcdef"], terminator included. *)
Definition digits : list Z :=
  [48; 49; 50; 51; 52; 53; 54; 55; 56; 57; 97; 98; 99; 100; 101; 102; 0].

Definition digit_at {S} (d : Z) : M S Z :=
  if d <? 0 then fail (OutOfBounds d)
  else match digits !! Z.to_nat d with
       | Some c => mret c
       | None => fail (OutOfBounds d)
       end.

(** The loop that stores the digits, least significant first. *)
Fixpoint digit_loop (fuel : nat) (buf number base len : Z) : M mem (Z * Z) :=
  match fuel with
  | O => fail OutOfFuel
  | S fuel =>
      if 0 <? number then
        if base =? 0 then fail DivByZero
        else
          let digit := i32 (number mod base) in
          c ← digit_at digit;
          store8 buf c ;;
          digit_loop fuel (u64 (buf + 1)) (number / base) base (i32 (len + 1))
      else mret (buf, len)
  end.

(** The loop that reverses the characters between two pointers. *)
Fixpoint reverse_loop (fuel : nat) (bufleft buf : Z) : M mem unit :=
  match fuel with
  | O => fail OutOfFuel
  | S fuel =>
      if bufleft <? buf then
        tmp ← load8 bufleft;
        c ← load8 buf;
        store8 bufleft c ;;
        store8 buf tmp ;;
        reverse_loop fuel (u64 (bufleft + 1)) (u64 (buf - 1))
      else mret tt
  end.

Definition sprintbase (fuel : nat) (buf number base : Z) : M mem Z :=
  let bufleft := buf in
  '(buf, len) ← (if number =? 0
                 then store8 buf 48 ;; mret (u64 (buf + 1), 1)
                 else mret (buf, 0));
  '(buf, len) ← digit_loop fuel buf number base len;
  store8 buf 0 ;;
  reverse_loop fuel bufleft (u64 (buf - 1)) ;;
  mret len.

(** [va_arg]: the next 64-bit argument. *)
Definition va_arg {S} (args : list Z) : M S (Z * list Z) :=
  match args with
  | a :: args => mret (a, args)
  | [] => fail (OutOfBounds 0)
  end.

(** The loop of [vsprintf].  [int number = va_arg(args, unsigned long)] keeps
    the low 32 bits as a signed number, and the call converts it back to
    [unsigned long]. *)
Fixpoint vsprintf_loop (fuel : nat) (fmt buf : Z) (args : list Z) : M mem Z :=
  match fuel with
  | O => fail OutOfFuel
  | S fuel =>
      c ← load8 fmt;
      if c =? 0 then mret buf
      else if negb (c =? 37) then
        store8 buf c ;; vsprintf_loop fuel (u64 (fmt + 1)) (u64 (buf + 1)) args
      else
        d ← load8 (u64 (fmt + 1));
        let fmt := u64 (fmt + 2) in
        if d =? 117 then
          '(a, args) ← va_arg args;
          let number := i32 a in
          len ← sprintbase fuel buf (u64 number) 10;
          vsprintf_loop fuel fmt (u64 (buf + len)) args
        else if d =? 120 then
          '(a, args) ← va_arg args;
          let number := i32 a in
          store8 buf 48 ;;
          store8 (u64 (buf + 1)) 120 ;;
          let buf := u64 (buf + 2) in
          len ← sprintbase fuel buf (u64 number) 16;
          vsprintf_loop fuel fmt (u64 (buf + len)) args
        else if d =? 115 then
          '(a, args) ← va_arg args;
          e ← strcpy fuel buf a;
          vsprintf_loop fuel fmt e args
        else vsprintf_loop fuel fmt buf args
  end.

Definition vsprintf (fuel : nat) (buf fmt : Z) (args : list Z) : M mem Z :=
  let bufstart := buf in
  buf ← vsprintf_loop fuel fmt buf args;
  store8 buf 0 ;;
  mret (i32 (buf - bufstart)).

Definition sprintf (fuel : nat) (buf fmt : Z) (args : list Z) : M mem Z :=
  vsprintf fuel buf fmt args.

End Stdio.

(** console.cpp: bytes written to the Bochs debug port, in order. *)
Module Console.

Record state := State { con_mem : mem; con_out : list (Z * Z) }.

Definition on_mem {A} (m : M mem A) : M state A :=
  zoom con_mem (fun t s => State t (con_out s)) m.

Definition out8 (port v : Z) : M state unit :=
  modify (fun s => State (con_mem s) (con_out s ++ [(port, u8 v)])).

Fixpoint bochs_debug_output (fuel : nat) (s : Z) : M state unit :=
  match fuel with
  | O => fail OutOfFuel
  | S fuel =>
      c ← on_mem (load8 s);
      if c =? 0 then mret tt
      else out8 0xe9 c ;; bochs_debug_output fuel (u64 (s + 1))
  end.

(** [buf] is the address of the 1024-byte array on the stack. *)
Definition debug_printf (fuel : nat) (buf fmt : Z) (args : list Z) : M state unit :=
  on_mem (Stdio.vsprintf fuel buf fmt args) ;;
  bochs_debug_output fuel buf.

(** libk/Assertions.cpp; [assert_fmt] and [place_fmt] are the addresses of the
    two format strings, [buf] that of the array on the stack of both calls. *)
Definition assertion_failed (hlt : M state unit) (fuel : nat) (buf assert_fmt place_fmt : Z)
    (msg file line func : Z) : M state unit :=
  debug_printf fuel buf assert_fmt [msg] ;;
  debug_printf fuel buf place_fmt [file; line; func] ;;
  hlt.

End Console.

(** ** Numerals *)
Module StdioFacts.
Import Stdio.

(** Digits of [n], least significant first; 64 of them are enough for a
    64-bit number in any base from 2 on. *)
Fixpoint digits_lsb (fuel : nat) (base n : Z) : list Z :=
  match fuel with
  | O => []
  | S fuel => if 0 <? n then n mod base :: digits_lsb fuel base (n / base) else []
  end.

(** The numeral of [n], most significant digit first. *)
Definition numeral (base n : Z) : list Z :=
  if n =? 0 then [0] else reverse (digits_lsb 64 base n).

(** Value of a sequence of digits, most significant first. *)
Definition eval_digits (base : Z) (ds : list Z) : Z := foldl (fun acc d => acc * base + d) 0 ds.

Definition digit_char (d : Z) : Z := default 0 (digits !! Z.to_nat d).

(** The text of a number, as characters. *)
Definition number_text (base n : Z) : list Z := digit_char <$> numeral base n.

Lemma div_lt_pow base n k :
  2 <= base -> 0 <= n < base ^ Z.of_nat (S k) -> 0 <= n / base < base ^ Z.of_nat k.
Proof.
  intros Hb Hn. split; [apply Z.div_pos; lia|].
  apply Z.div_lt_upper_bound; [lia|]. rewrite <- Z.pow_succ_r by lia.
  replace (Z.succ (Z.of_nat k)) with (Z.of_nat (S k)) by lia. lia.
Qed.

Lemma digits_lsb_range fuel base : forall n,
  2 <= base -> Forall (fun d => 0 <= d < base) (digits_lsb fuel base n).
Proof.
  induction fuel as [|fuel IH]; intros n Hb; cbn [digits_lsb]; [constructor|].
  destruct (Z.ltb_spec 0 n); constructor; [apply Z.mod_pos_bound; lia|auto].
Qed.

Lemma eval_digits_snoc base ds d : eval_digits base (ds ++ [d]) = eval_digits base ds * base + d.
Proof. unfold eval_digits. by rewrite foldl_app. Qed.

Lemma eval_digits_lsb fuel base : forall n,
  2 <= base -> 0 <= n < base ^ Z.of_nat fuel ->
  eval_digits base (reverse (digits_lsb fuel base n)) = n.
Proof.
  induction fuel as [|fuel IH]; intros n Hb Hn.
  { simpl in *. unfold eval_digits. simpl. lia. }
  cbn [digits_lsb]. destruct (Z.ltb_spec 0 n); [|unfold eval_digits; simpl; lia].
  rewrite reverse_cons, eval_digits_snoc, IH by (auto using div_lt_pow; lia).
  pose proof (Z.div_mod n base). lia.
Qed.

Lemma u64_lt_pow base n : 2 <= base -> 0 <= n < 2 ^ 64 -> 0 <= n < base ^ Z.of_nat 64.
Proof. intros. pose proof (Z.pow_le_mono_l 2 base (Z.of_nat 64)). lia. Qed.

Lemma eval_numeral base n :
  2 <= base -> 0 <= n < 2 ^ 64 -> eval_digits base (numeral base n) = n.
Proof.
  intros Hb Hn. unfold numeral. destruct (Z.eqb_spec n 0); [by subst|].
  apply eval_digits_lsb; auto using u64_lt_pow.
Qed.

Lemma numeral_range base n : 2 <= base -> Forall (fun d => 0 <= d < base) (numeral base n).
Proof.
  intros Hb. unfold numeral. destruct (n =? 0); [repeat constructor; lia|].
  apply Forall_reverse, digits_lsb_range. done.
Qed.

Lemma digits_lsb_length fuel base n : (length (digits_lsb fuel base n) <= fuel)%nat.
Proof.
  revert n. induction fuel; intros; cbn [digits_lsb]; [done|]. destruct (0 <? n); simpl; [|lia].
  specialize (IHfuel (n / base)). lia.
Qed.

Lemma digits_lsb_pos fuel base n : 0 < n -> (0 < fuel)%nat -> (0 < length (digits_lsb fuel base n))%nat.
Proof. destruct fuel; intros; cbn [digits_lsb]; [lia|]. destruct (Z.ltb_spec 0 n); simpl; lia. Qed.

(** The numeral has no leading zero, so it is the only one of its value. *)
Lemma digits_lsb_last fuel base : forall n,
  2 <= base -> 0 <= n < base ^ Z.of_nat fuel -> last (digits_lsb fuel base n) <> Some 0.
Proof.
  induction fuel as [|fuel IH]; intros n Hb Hn; cbn [digits_lsb]; [done|].
  destruct (Z.ltb_spec 0 n); [|done].
  pose proof (div_lt_pow _ _ _ Hb Hn) as Hd. specialize (IH _ Hb Hd).
  destruct (digits_lsb fuel base (n / base)) as [|d l] eqn:E; [|by rewrite last_cons_cons].
  simpl. intros Heq. simplify_eq. pose proof (Z.div_mod n base ltac:(lia)).
  assert (0 < n / base) by nia.
  pose proof (digits_lsb_pos fuel base (n / base)). rewrite E in *. simpl in *.
  destruct fuel; [|lia]. simpl in Hd. lia.
Qed.

Lemma digit_char_range d : 0 <= d < 16 -> 0 < digit_char d < 256.
Proof.
  intros Hd. assert (d ∈ seqZ 0 16) as Hin by (apply elem_of_seqZ; lia).
  clear Hd. revert d Hin. apply Forall_forall. vm_compute. repeat constructor; discriminate || done.
Qed.

Lemma digit_at_ok {S} d (s : S) : 0 <= d < 16 -> digit_at (i32 d) s = Ok (digit_char d, s).
Proof.
  intros Hd. rewrite swrap_small by lia. unfold digit_at, digit_char.
  destruct (Z.ltb_spec d 0); [lia|].
  destruct (digits !! Z.to_nat d) eqn:E; [done|].
  apply lookup_ge_None_1 in E. change (length digits) with 17%nat in E. lia.
Qed.

Lemma number_text_range base n :
  2 <= base <= 16 -> Forall (fun c => 0 < c < 256) (number_text base n).
Proof.
  intros Hb. unfold number_text. apply Forall_fmap. eapply Forall_impl; [apply numeral_range; lia|].
  simpl. intros. apply digit_char_range. lia.
Qed.

(** ** The two loops of [sprintbase] *)

Lemma writable_mono m a n b k : writable m a n -> a <= b -> 0 <= k -> b + k <= a + n -> writable m b k.
Proof. intros [] ???. split; [eapply mapped_range_mono; eauto; lia|lia|lia]. Qed.

Lemma writable_store0 m a n c : writable m a n -> 0 < n -> store8 a c m = Ok (tt, set_byte m a c).
Proof. intros [Hm ? ?] ?. apply store8_ok, Hm. lia. Qed.

Lemma digit_loop_ok base : 2 <= base <= 16 -> forall fuel k m buf n len,
  0 <= n < base ^ Z.of_nat fuel -> 0 <= len -> len + Z.of_nat fuel < 2 ^ 31 -> (fuel < k)%nat ->
  writable m buf (Z.of_nat (length (digits_lsb fuel base n)) + 1) ->
  digit_loop k buf n base len m =
  Ok ((buf + Z.of_nat (length (digits_lsb fuel base n)),
       len + Z.of_nat (length (digits_lsb fuel base n))),
      put_bytes m buf (digit_char <$> digits_lsb fuel base n)).
Proof.
  intros Hb. induction fuel as [|fuel IH]; intros [|k] m buf n len Hn Hl Hlen Hk Hw; try lia.
  { simpl in Hn. cbn [digit_loop digits_lsb]. destruct (Z.ltb_spec 0 n); [lia|].
    simpl. by rewrite !Z.add_0_r. }
  cbn [digit_loop digits_lsb] in *. destruct (Z.ltb_spec 0 n).
  2: { simpl. by rewrite !Z.add_0_r. }
  destruct (Z.eqb_spec base 0); [lia|]. pose proof (Z.mod_pos_bound n base).
  erewrite bind_Ok by (apply digit_at_ok; lia).
  cbn [length] in Hw.
  erewrite bind_Ok by (eapply writable_store0; [done|lia]).
  rewrite swrap_small by lia. pose proof Hw as [_ Hw0 Hw1].
  pose proof (digits_lsb_length fuel base (n / base)).
  rewrite wrap_small by (unfold in_range; lia).
  rewrite IH.
  - cbn [length fmap list_fmap put_bytes]. do 2 f_equal. f_equal; lia.
  - apply div_lt_pow; lia || done.
  - lia.
  - lia.
  - lia.
  - apply (writable_put_bytes m _ _ buf [digit_char (n mod base)]).
    eapply writable_mono; [done|lia..].
Qed.

(** Pointwise description of a list of [n] elements reversed outside the
    indices [i .. n-1-i]. *)
Definition half_reversed (l l' : list Z) (i : nat) : Prop :=
  length l' = length l /\
  forall k, (k < length l)%nat ->
    l' !! k = if decide (i <= k < length l - i)%nat then l !! k else l !! (length l - 1 - k)%nat.

Lemma half_reversed_0 l : half_reversed l l 0.
Proof. split; [done|]. intros k Hk. case_decide; [done|lia]. Qed.

Lemma half_reversed_done l l' i :
  half_reversed l l' i -> (length l <= 2 * i + 1)%nat -> l' = reverse l.
Proof.
  intros [Hlen H] Hi. apply list_eq. intros k.
  destruct (decide (k < length l)%nat).
  - rewrite H, reverse_lookup by lia. replace (length l - S k)%nat with (length l - 1 - k)%nat by lia.
    case_decide; [|done]. f_equal. lia.
  - rewrite !lookup_ge_None_2; [done|rewrite length_reverse; lia|lia].
Qed.

Lemma half_reversed_swap l l' i x y :
  half_reversed l l' i -> (2 * i + 1 < length l)%nat ->
  l' !! i = Some x -> l' !! (length l - 1 - i)%nat = Some y ->
  half_reversed l (<[(length l - 1 - i)%nat := x]> (<[i := y]> l')) (S i).
Proof.
  intros [Hlen H] Hi Hx Hy. split; [by rewrite !length_insert|].
  rewrite H in Hx, Hy by lia. do 2 case_decide; try lia.
  intros k Hk. destruct (decide (k = length l - 1 - i)%nat) as [->|].
  - rewrite list_lookup_insert_eq by (rewrite length_insert; lia).
    case_decide; [lia|]. rewrite <- Hx. f_equal. lia.
  - rewrite list_lookup_insert_ne by done. destruct (decide (k = i)) as [->|].
    + rewrite list_lookup_insert_eq by lia. case_decide; [lia|]. by rewrite <- Hy.
    + rewrite list_lookup_insert_ne by done. rewrite H by done.
      do 2 case_decide; done || lia.
Qed.

Lemma load8_put_bytes m a l i c :
  writable m a (Z.of_nat (length l)) -> Forall (fun c => 0 <= c < 256) l -> l !! i = Some c ->
  load8 (a + Z.of_nat i) (put_bytes m a l) = Ok (c, put_bytes m a l).
Proof.
  intros [Hm ? ?] Hl Hi. pose proof (lookup_lt_Some _ _ _ Hi).
  rewrite load8_ok by (autorewrite with jsos; apply Hm; lia).
  by rewrite (byte_at_put_bytes _ _ _ i c).
Qed.

Lemma store8_put_bytes m a l i c :
  writable m a (Z.of_nat (length l)) -> (i < length l)%nat ->
  store8 (a + Z.of_nat i) c (put_bytes m a l) = Ok (tt, put_bytes m a (<[i := c]> l)).
Proof.
  intros [Hm ? ?] Hi. rewrite store8_ok by (autorewrite with jsos; apply Hm; lia).
  by rewrite set_byte_put_bytes.
Qed.

Lemma reverse_loop_ok m a l : writable m a (Z.of_nat (length l)) -> l <> [] -> 0 < a ->
  forall fuel i l', half_reversed l l' i -> Forall (fun c => 0 <= c < 256) l' ->
  (2 * i <= length l)%nat -> (length l < 2 * fuel + 2 * i)%nat ->
  reverse_loop fuel (a + Z.of_nat i) (a + Z.of_nat (length l) - 1 - Z.of_nat i) (put_bytes m a l') =
  Ok (tt, put_bytes m a (reverse l)).
Proof.
  intros Hw Hne Ha. assert (0 < length l)%nat by (destruct l; simpl; [done|lia]).
  pose proof Hw as [_ _ Hw1].
  induction fuel as [|fuel IH]; intros i l' Hh Hf Hi Hfuel; [lia|]. cbn [reverse_loop].
  destruct (Z.ltb_spec (a + Z.of_nat i) (a + Z.of_nat (length l) - 1 - Z.of_nat i)).
  2: { rewrite (half_reversed_done l l' i) by (done || lia). done. }
  pose proof Hh as [Hlen _].
  destruct (lookup_lt_is_Some_2 l' i) as [x Hx]; [lia|].
  destruct (lookup_lt_is_Some_2 l' (length l - 1 - i)%nat) as [y Hy]; [lia|].
  rewrite <- Hlen in Hw.
  erewrite bind_Ok by (apply load8_put_bytes; eauto).
  replace (a + Z.of_nat (length l) - 1 - Z.of_nat i) with (a + Z.of_nat (length l - 1 - i)) by lia.
  erewrite bind_Ok by (apply load8_put_bytes; eauto).
  erewrite bind_Ok by (apply store8_put_bytes; [done|lia]).
  erewrite bind_Ok by (apply store8_put_bytes; rewrite length_insert; [done|lia]).
  rewrite !wrap_small by (unfold in_range; lia).
  replace (a + Z.of_nat i + 1) with (a + Z.of_nat (S i)) by lia.
  replace (a + Z.of_nat (length l - 1 - i) - 1) with (a + Z.of_nat (length l) - 1 - Z.of_nat (S i)) by lia.
  apply IH; try lia.
  - apply half_reversed_swap; done || lia.
  - rewrite Forall_lookup in Hf. apply Forall_insert; [apply Forall_insert|]; eauto using Forall_lookup_2.
Qed.

(** ** sprintbase *)

Arguments digits_lsb : simpl never.

Lemma digits_lsb_chars fuel base n :
  2 <= base <= 16 -> Forall (fun c => 0 <= c < 256) (digit_char <$> digits_lsb fuel base n).
Proof.
  intros. apply Forall_fmap. eapply Forall_impl; [apply digits_lsb_range; lia|]. simpl.
  intros d ?. pose proof (digit_char_range d). lia.
Qed.

Lemma number_text_reverse base n :
  0 < n -> number_text base n = reverse (digit_char <$> digits_lsb 64 base n).
Proof.
  intros. unfold number_text, numeral. destruct (Z.eqb_spec n 0); [lia|].
  by rewrite fmap_reverse.
Qed.

(** [sprintbase] stores the numeral and a terminator and returns the number of
    digits; 65 iterations are enough for any base from 2 to 16. *)
Lemma sprintbase_ok m buf n base fuel :
  2 <= base <= 16 -> 0 <= n < 2 ^ 64 -> 0 < buf -> (64 < fuel)%nat ->
  writable m buf (Z.of_nat (length (number_text base n)) + 1) ->
  sprintbase fuel buf n base m =
  Ok (Z.of_nat (length (number_text base n)), put_bytes m buf (number_text base n ++ [0])).
Proof.
  intros Hb Hn Hbuf Hfuel Hw. unfold sprintbase. pose proof Hw as [_ _ Hw1].
  destruct (Z.eqb_spec n 0) as [->|Hnz].
  { change (number_text base 0) with [48] in *. cbn [length] in *.
    mrun (mrun (eapply writable_store0; [done|lia]); done).
    destruct fuel as [|fuel]; [lia|]. mrun done.
    rewrite (wrap_small 64 (buf + 1)) by (unfold in_range; lia).
    erewrite bind_Ok by (eapply (writable_store0 _ _ 1); [|lia];
      apply (writable_put_bytes m _ _ buf [48]); eapply writable_mono; [done|lia..]).
    rewrite wrap_small by (unfold in_range; lia). cbn [reverse_loop].
    destruct (Z.ltb_spec buf (buf + 1 - 1)); [lia|]. done. }
  assert (length (number_text base n) = length (digits_lsb 64 base n)) as Hlen
    by (rewrite number_text_reverse, length_reverse, length_fmap by lia; done).
  rewrite Hlen in *. mrun done.
  mrun (apply (digit_loop_ok base Hb 64); auto using u64_lt_pow; lia).
  assert (number_text base n = reverse (digit_char <$> digits_lsb 64 base n)) as ->
    by (apply number_text_reverse; lia).
  pose proof (digits_lsb_chars 64 base n Hb) as Hchars.
  pose proof (digits_lsb_length 64 base n) as Hmax.
  pose proof (digits_lsb_pos 64 base n ltac:(lia) ltac:(lia)) as Hpos.
  rewrite <- (length_fmap digit_char (digits_lsb 64 base n)) in *.
  generalize dependent (digit_char <$> digits_lsb 64 base n). intros l Hw Hw1 _ Hchars Hmax Hpos.
  mrun (eapply (writable_store0 _ _ 1); [|lia];
    apply writable_put_bytes; eapply writable_mono; [done|lia..]).
  rewrite wrap_small by (unfold in_range; lia).
  rewrite set_byte_put_bytes_comm by lia. set (m1 := set_byte m (buf + Z.of_nat (length l)) 0).
  replace buf with (buf + Z.of_nat 0) at 1 by lia.
  replace (buf + Z.of_nat (length l) - 1) with (buf + Z.of_nat (length l) - 1 - Z.of_nat 0) by lia.
  erewrite bind_Ok.
  2: { apply (reverse_loop_ok m1 buf l); auto using half_reversed_0; try lia.
    - apply (writable_put_bytes m _ _ _ [0]). eapply writable_mono; [done|lia..].
    - intros ->. simpl in Hpos. lia. }
  rewrite put_bytes_snoc, length_reverse, set_byte_put_bytes_comm by (rewrite length_reverse; lia).
  done.
Qed.

(** ** vsprintf *)

(** What a format produces: characters as they are, [%u] and [%x] the text of
    the argument reduced to a signed 32-bit number and extended again, [%s]
    the string argument, any other conversion nothing. *)
Inductive arg := ANum (n : Z) | AStr (p : Z) (s : list Z).

Definition arg_word (a : arg) : Z := match a with ANum n => n | AStr p _ => p end.

Fixpoint render (fmt : list Z) (args : list arg) : option (list Z) :=
  match fmt with
  | [] => Some []
  | c :: fmt =>
      if negb (c =? 37) then cons c <$> render fmt args
      else match fmt with
           | [] => None
           | d :: fmt =>
               if d =? 117 then
                 match args with
                 | ANum n :: args => app (number_text 10 (u64 (i32 n))) <$> render fmt args
                 | _ => None
                 end
               else if d =? 120 then
                 match args with
                 | ANum n :: args => app (48 :: 120 :: number_text 16 (u64 (i32 n))) <$> render fmt args
                 | _ => None
                 end
               else if d =? 115 then
                 match args with
                 | AStr p s :: args => app s <$> render fmt args
                 | _ => None
                 end
               else render fmt args
           end
  end.

(** [strcpy] of stdio.c returns the address of the terminator. *)
Lemma strcpy_end_ok s : forall m dst src fuel,
  readable m src s -> writable m dst (Z.of_nat (length s) + 1) ->
  apart_copy dst (Z.of_nat (length s) + 1) src s -> (length s < fuel)%nat ->
  strcpy fuel dst src m = Ok (dst + Z.of_nat (length s), put_bytes m dst (s ++ [0])).
Proof.
  induction s as [|c s IH]; intros m dst src [|fuel] Hr Hw Ha Hf; simpl in Hf; try lia; cbn [strcpy].
  - destruct Hr as [(_ & _ & H0) Hm Hl Hh]. simpl in *. rewrite Z.add_0_r in *.
    mrun (apply load8_ok, Hm; lia). rewrite H0. simpl.
    mrun (eapply writable_store0; [done|lia]). done.
  - destruct (readable_char m src (c :: s) 0 c Hr eq_refl) as [Hc Hne].
    pose proof (readable_tail _ _ _ _ Hr) as Ht. destruct Hr as [_ _ Hl Hh].
    pose proof Hw as [_ Hw0 Hw1]. cbn [length] in *. unfold apart_copy in *. cbn [length] in *.
    rewrite Z.add_0_r, wrap_small in Hc by (unfold in_range; lia).
    mrun exact Hc. destruct (Z.eqb_spec c 0); [done|].
    mrun (eapply writable_store0; [done|lia]).
    rewrite !wrap_small by (unfold in_range; lia). rewrite IH.
    + simpl. do 2 f_equal. lia.
    + apply (readable_put_bytes _ _ _ _ [c]); [done|]. simpl. lia.
    + apply (writable_put_bytes _ _ _ _ [c]). eapply writable_mono; [done|lia..].
    + lia.
    + lia.
Qed.

Section Vsprintf.
Context (m0 : mem) (buf N : Z) (K : nat).
Hypothesis Hbuf : 0 < buf.
Hypothesis Hw : writable m0 buf N.
Hypothesis HK : (64 < K)%nat.

(** A string outside the output buffer. *)
Definition outside (a : Z) (s : list Z) : Prop := buf + N <= a \/ a + Z.of_nat (length s) < buf.

Definition arg_ok (a : arg) : Prop :=
  match a with
  | ANum _ => True
  | AStr p s => readable m0 p s /\ outside p s /\ (length s < K)%nat
  end.

(** Memory when [out] has been produced: one byte after it may hold the
    terminator of the last number or string. *)
Definition produced (out : list Z) (m : mem) : Prop :=
  exists j, (length j <= 1)%nat /\ Z.of_nat (length (out ++ j)) <= N /\ m = put_bytes m0 buf (out ++ j).

Lemma produced_extend out m l :
  produced out m -> l <> [] -> Z.of_nat (length (out ++ l)) <= N ->
  put_bytes m (buf + Z.of_nat (length out)) l = put_bytes m0 buf (out ++ l).
Proof.
  intros (j & Hj & Hl & ->) Hne HN. rewrite !put_bytes_app. apply put_bytes_overwrite.
  destruct l; simpl in *; [done|lia].
Qed.

Lemma produced_char out m c :
  produced out m -> Z.of_nat (length out) < N ->
  produced (out ++ [c]) (set_byte m (buf + Z.of_nat (length out)) c).
Proof.
  intros Hp HN. exists []. rewrite app_nil_r. rewrite length_app. simpl.
  split; [lia|]. split; [lia|].
  apply (produced_extend out m [c]); [done|done|]. rewrite length_app. simpl. lia.
Qed.

Lemma produced_text out m l :
  produced out m -> Z.of_nat (length out) + Z.of_nat (length l) < N ->
  produced (out ++ l) (put_bytes m (buf + Z.of_nat (length out)) (l ++ [0])).
Proof.
  intros Hp HN. exists [0]. split; [done|]. rewrite <- app_assoc.
  split; [rewrite !length_app; simpl; lia|].
  apply produced_extend; [done|by destruct l|]. rewrite !length_app. simpl. lia.
Qed.

Lemma produced_writable out m n :
  produced out m -> 0 <= n -> Z.of_nat (length out) + n <= N ->
  writable m (buf + Z.of_nat (length out)) n.
Proof.
  intros (j & _ & _ & ->) ??. apply writable_put_bytes. eapply writable_mono; [done|lia..].
Qed.

Lemma produced_readable out m a s : produced out m -> readable m0 a s -> outside a s -> readable m a s.
Proof.
  intros (j & _ & Hl & ->) Hr Ho. apply readable_put_bytes; [done|]. destruct Ho; lia.
Qed.

(** The pointer after the [n]-th byte of the buffer. *)
Lemma buf_ptr (out : list Z) k n : n <= N -> 0 <= k -> Z.of_nat (length out) + k < n ->
  u64 (buf + Z.of_nat (length out) + k) = buf + Z.of_nat (length out) + k.
Proof. intros. apply wrap_small. destruct Hw. unfold in_range. lia. Qed.

Lemma produced_number out m base n fuel :
  produced out m -> 2 <= base <= 16 -> 0 <= n < 2 ^ 64 -> (64 < fuel)%nat ->
  Z.of_nat (length out) + Z.of_nat (length (number_text base n)) < N ->
  exists m', sprintbase fuel (buf + Z.of_nat (length out)) n base m =
    Ok (Z.of_nat (length (number_text base n)), m') /\ produced (out ++ number_text base n) m'.
Proof.
  intros Hp Hb Hn Hf HN. eexists. split.
  - apply sprintbase_ok; try done; [lia|]. apply (produced_writable out); [done|lia..].
  - by apply produced_text.
Qed.

Lemma produced_string out m p s fuel :
  produced out m -> readable m0 p s -> outside p s -> (length s < fuel)%nat ->
  Z.of_nat (length out) + Z.of_nat (length s) < N ->
  exists m', strcpy fuel (buf + Z.of_nat (length out)) p m =
    Ok (buf + Z.of_nat (length (out ++ s)), m') /\ produced (out ++ s) m'.
Proof.
  intros Hp Hr Ho Hf HN. eexists. split.
  - rewrite (strcpy_end_ok s).
    + rewrite length_app. do 2 f_equal. lia.
    + by apply (produced_readable out).
    + apply (produced_writable out); [done|lia..].
    + unfold apart_copy. destruct Ho; lia.
    + done.
  - by apply produced_text.
Qed.

Lemma outside_tail a c s : outside a (c :: s) -> outside (a + 1) s.
Proof. unfold outside. simpl. lia. Qed.

(** What the loop does with the rest [f] of the format, after [out]. *)
Definition loop_spec (fuel : nat) : Prop := forall f fmt args out m r p,
  readable m0 fmt f -> outside fmt f -> Forall arg_ok args -> produced out m ->
  render f args = Some r -> Z.of_nat (length out) + Z.of_nat (length r) < N ->
  (length f + K < fuel)%nat -> p = buf + Z.of_nat (length out) ->
  exists m', vsprintf_loop fuel fmt p (arg_word <$> args) m =
    Ok (buf + Z.of_nat (length (out ++ r)), m') /\ produced (out ++ r) m'.

(** One step of the loop for each kind of conversion. *)
Section Step.
Context (fuel : nat) (f : list Z) (fmt : Z) (args : list arg) (out : list Z) (m : mem) (r : list Z).
Hypothesis Hrec : loop_spec fuel.
Hypothesis Hr : readable m0 fmt f.
Hypothesis Ho : outside fmt f.
Hypothesis Hargs : Forall arg_ok args.
Hypothesis Hp : produced out m.
Hypothesis Hren : render f args = Some r.
Hypothesis Hf : (length f + K < fuel)%nat.

Lemma step_char c : Z.of_nat (length out) + Z.of_nat (S (length r)) < N ->
  exists m', (store8 (buf + Z.of_nat (length out)) c ;;
     vsprintf_loop fuel fmt (u64 (buf + Z.of_nat (length out) + 1)) (arg_word <$> args)) m =
    Ok (buf + Z.of_nat (length (out ++ c :: r)), m') /\ produced (out ++ c :: r) m'.
Proof using All.
  intros HN.
  mrun (eapply writable_store0; [apply (produced_writable out _ 1); [done|lia..]|lia]).
  rewrite (buf_ptr out 1 N) by lia.
  destruct (Hrec f fmt args (out ++ [c]) (set_byte m (buf + Z.of_nat (length out)) c) r
    (buf + Z.of_nat (length out) + 1)) as (m' & Hrun & Hm');
    [done|done|done|apply produced_char; [done|lia]|done|rewrite length_app; simpl; lia|lia
    |rewrite length_app; simpl; lia|].
  rewrite <- app_assoc in Hrun, Hm'. simpl in Hrun, Hm'. eauto.
Qed.

Lemma step_number base n p :
  2 <= base <= 16 -> p = buf + Z.of_nat (length out) ->
  Z.of_nat (length out) + Z.of_nat (length (number_text base (u64 n) ++ r)) < N ->
  exists m', (len ← sprintbase fuel p (u64 n) base;
     vsprintf_loop fuel fmt (u64 (p + len)) (arg_word <$> args)) m =
    Ok (buf + Z.of_nat (length (out ++ number_text base (u64 n) ++ r)), m') /\
    produced (out ++ number_text base (u64 n) ++ r) m'.
Proof using All.
  intros Hb -> HN. rewrite length_app in HN.
  destruct (produced_number out m base (u64 n) fuel) as (m1 & Hrun1 & Hp1);
    [done|lia|apply (wrap_range 64); lia|lia|lia|].
  mrun exact Hrun1. rewrite (buf_ptr out _ N) by lia.
  destruct (Hrec f fmt args _ m1 r (buf + Z.of_nat (length out) +
    Z.of_nat (length (number_text base (u64 n)))) Hr Ho Hargs Hp1 Hren) as (m' & Hrun & Hm');
    [rewrite length_app; lia|lia|rewrite length_app; lia|].
  rewrite <- app_assoc in Hrun, Hm'. eauto.
Qed.

Lemma step_string p s : arg_ok (AStr p s) ->
  Z.of_nat (length out) + Z.of_nat (length (s ++ r)) < N ->
  exists m', (e ← strcpy fuel (buf + Z.of_nat (length out)) p;
     vsprintf_loop fuel fmt e (arg_word <$> args)) m =
    Ok (buf + Z.of_nat (length (out ++ s ++ r)), m') /\ produced (out ++ s ++ r) m'.
Proof using All.
  intros (Hps & Hpo & Hpk) HN. rewrite length_app in HN.
  destruct (produced_string out m p s fuel Hp Hps Hpo) as (m1 & Hrun1 & Hp1); [lia|lia|].
  mrun exact Hrun1.
  destruct (Hrec f fmt args _ m1 r (buf + Z.of_nat (length (out ++ s))) Hr Ho Hargs Hp1 Hren) as (m' & Hrun & Hm');
    [rewrite length_app; lia|lia|done|].
  rewrite <- app_assoc in Hrun, Hm'. eauto.
Qed.

End Step.

Lemma step_hex fuel f fmt args out m r n :
  loop_spec fuel -> readable m0 fmt f -> outside fmt f -> Forall arg_ok args -> produced out m ->
  render f args = Some r -> (length f + K < fuel)%nat ->
  Z.of_nat (length out) + Z.of_nat (length ((48 :: 120 :: number_text 16 (u64 n)) ++ r)) < N ->
  exists m', (store8 (buf + Z.of_nat (length out)) 48 ;;
     store8 (u64 (buf + Z.of_nat (length out) + 1)) 120 ;;
     (let p := u64 (buf + Z.of_nat (length out) + 2) in
      len ← sprintbase fuel p (u64 n) 16;
      vsprintf_loop fuel fmt (u64 (p + len)) (arg_word <$> args))) m =
    Ok (buf + Z.of_nat (length (out ++ (48 :: 120 :: number_text 16 (u64 n)) ++ r)), m') /\
    produced (out ++ (48 :: 120 :: number_text 16 (u64 n)) ++ r) m'.
Proof using Hbuf Hw HK.
  intros Hrec Hr Ho Hargs Hp Hren Hf HN. cbn [app length] in HN.
  mrun (eapply writable_store0; [apply (produced_writable out _ 1); [done|lia..]|lia]).
  rewrite (buf_ptr out 1 N), (buf_ptr out 2 N) by lia.
  assert (produced (out ++ [48]) (set_byte m (buf + Z.of_nat (length out)) 48)) as Hpa
    by (apply produced_char; [done|lia]).
  pose proof (produced_char _ _ 120 Hpa) as Hpb.
  pose proof (produced_writable _ _ 1 Hpa ltac:(lia)) as Hwb.
  replace (buf + Z.of_nat (length (out ++ [48]))) with (buf + Z.of_nat (length out) + 1) in *
    by (rewrite length_app; simpl; lia).
  rewrite length_app in Hpb, Hwb. simpl in Hpb, Hwb.
  mrun (eapply (writable_store0 _ _ 1); [apply Hwb; lia|lia]).
  specialize (Hpb ltac:(lia)). rewrite <- app_assoc in Hpb. simpl in Hpb.
  destruct (step_number fuel f fmt args _ _ r Hrec Hr Ho Hargs Hpb Hren Hf 16 n
    (buf + Z.of_nat (length out) + 2)) as (m' & Hrun & Hm');
    [lia|rewrite length_app; simpl; lia|rewrite length_app; simpl; lia|].
  rewrite <- app_assoc in Hrun, Hm'. eauto.
Qed.

Lemma vsprintf_loop_ok fuel : loop_spec fuel.
Proof using Hbuf Hw HK.
  induction fuel as [|fuel IH]; intros f fmt args out m r p Hr Ho Hargs Hp Hren HN Hf ->; [lia|].
  cbn [vsprintf_loop]. pose proof (produced_readable _ _ _ _ Hp Hr Ho) as Hrm.
  destruct f as [|c f].
  { simpl in Hren. simplify_eq. mrun (apply readable_nil; done). rewrite app_nil_r. eauto. }
  destruct (readable_head _ _ _ _ Hrm) as [Hc Hcne]. mrun exact Hc.
  pose proof (readable_tail _ _ _ _ Hr) as Hr1. pose proof (outside_tail _ _ _ Ho) as Ho1.
  pose proof Hr as [_ _ Hfl Hfh]. cbn [length] in Hf, Hfh.
  rewrite (wrap_small 64 (fmt + 1)) by (unfold in_range; lia).
  destruct (Z.eqb_spec c 0); [done|]. cbn [render] in Hren.
  destruct (negb (c =? 37)).
  { apply fmap_Some in Hren as (r' & Hren & ->). eapply step_char; eauto; lia. }
  destruct f as [|d f]; [done|]. cbn [length] in Hf, Hfh.
  destruct (readable_head m (fmt + 1) d f) as [Hd Hdne]; [by eapply readable_tail|].
  mrun exact Hd. pose proof (readable_tail _ _ _ _ Hr1) as Hr2.
  pose proof (outside_tail _ _ _ Ho1) as Ho2. replace (fmt + 1 + 1) with (fmt + 2) in * by lia.
  rewrite (wrap_small 64 (fmt + 2)) by (unfold in_range; lia).
  repeat case_match; simplify_eq; try (apply fmap_Some in Hren as (r' & Hren & ->));
    try (apply Forall_cons in Hargs as [Ha Hargs]).
  - mrun done. eapply step_number; eauto; lia.
  - mrun done. eapply step_hex; eauto; lia.
  - mrun done. eapply step_string; eauto; lia.
  - eapply IH; eauto; lia.
Qed.

Lemma vsprintf_ok fuel f fmt args r :
  readable m0 fmt f -> outside fmt f -> Forall arg_ok args -> render f args = Some r ->
  Z.of_nat (length r) < N -> N < 2 ^ 31 -> (length f + K < fuel)%nat ->
  vsprintf fuel buf fmt (arg_word <$> args) m0 =
  Ok (Z.of_nat (length r), put_bytes m0 buf (r ++ [0])).
Proof.
  intros Hr Ho Ha Hren HN HN31 Hf. unfold vsprintf.
  assert (produced [] m0) as Hp by (exists []; simpl; split; [lia|split; [lia|done]]).
  destruct (vsprintf_loop_ok fuel f fmt args [] m0 r buf) as (m' & Hrun & Hm'); simpl; try done; [lia|].
  simpl in Hrun, Hm'. mrun exact Hrun.
  mrun (eapply (writable_store0 _ _ 1); [|lia]; apply (produced_writable r); [done|lia..]).
  rewrite <- (produced_extend r m' [0]).
  - simpl. unfold mret, M_ret. do 2 f_equal. rewrite swrap_small by lia. lia.
  - done.
  - done.
  - rewrite length_app. simpl. lia.
Qed.

End Vsprintf.
End StdioFacts.

(** ** Properties *)
Module StdioProps.
Import Stdio StdioFacts Console.

(** C26. [sprintbase] terminates for every 64-bit number and every base from 2
    to 16: with 65 iterations allowed it leaves at [buf] a C string of digits
    below the base whose value, most significant digit first, is the number,
    with no leading zero except for 0 itself; it returns the number of digits
    and touches no byte outside the digits and the terminator. *)
Theorem sprintbase_correct m buf n base fuel :
  2 <= base <= 16 -> 0 <= n < 2 ^ 64 -> 0 < buf -> (64 < fuel)%nat -> writable m buf 65 ->
  exists ds m',
    sprintbase fuel buf n base m = Ok (Z.of_nat (length ds), m') /\
    cstr m' buf (digit_char <$> ds) /\
    eval_digits base ds = n /\ Forall (fun d => 0 <= d < base) ds /\
    (head ds = Some 0 -> ds = [0]) /\
    (forall x, x < buf \/ buf + Z.of_nat (length ds) < x -> byte_at m' x = byte_at m x).
Proof.
  intros Hb Hn Hbuf Hf Hw. exists (numeral base n).
  assert (length (number_text base n) = length (numeral base n)) as Hlen by apply length_fmap.
  assert (length (numeral base n) <= 64)%nat as Hmax.
  { unfold numeral. destruct (n =? 0); simpl; [lia|].
    rewrite length_reverse. apply digits_lsb_length. }
  exists (put_bytes m buf (number_text base n ++ [0])). split_and!.
  - rewrite <- Hlen. apply sprintbase_ok; auto. eapply writable_mono; [done|lia..].
  - apply cstr_put_bytes. by apply number_text_range.
  - apply eval_numeral; lia.
  - apply numeral_range; lia.
  - unfold numeral. destruct (Z.eqb_spec n 0); [done|].
    pose proof (digits_lsb_last 64 base n ltac:(lia) (u64_lt_pow base n ltac:(lia) Hn)) as Hl.
    rewrite <- (reverse_involutive (digits_lsb 64 base n)), last_reverse in Hl. done.
  - intros x Hx. apply byte_at_put_bytes_other. rewrite length_app, Hlen. simpl. lia.
Qed.

Lemma sprintbase_correct_witness :
  exists ds m', sprintbase 65 0x1000 48879 16 (Mem [(0x1000, 100)] ∅) = Ok (Z.of_nat (length ds), m') /\
    eval_digits 16 ds = 48879.
Proof.
  destruct (sprintbase_correct (Mem [(0x1000, 100)] ∅) 0x1000 48879 16 65)
    as (ds & m' & H1 & _ & H2 & _); try lia.
  - split; [|lia..]. by apply mapped_range_check.
  - eauto.
Defined.

(** C14. [vsprintf] implements the format language: for a format outside the
    output buffer, arguments that match it (every [%s] argument a readable
    string outside the buffer) and a buffer with room for the result and its
    terminator, it stores exactly the rendered text, NUL-terminated, returns
    its length and terminates within the stated number of iterations. *)
Theorem vsprintf_correct m buf N K fuel f fmt args r :
  0 < buf -> writable m buf N -> (64 < K)%nat ->
  readable m fmt f -> outside buf N fmt f -> Forall (arg_ok m buf N K) args ->
  render f args = Some r -> Z.of_nat (length r) < N -> N < 2 ^ 31 -> (length f + K < fuel)%nat ->
  vsprintf fuel buf fmt (arg_word <$> args) m =
  Ok (Z.of_nat (length r), put_bytes m buf (r ++ [0])).
Proof. intros. eapply vsprintf_ok; eauto. Qed.

(** "n=%u s=%s" with 7 and "ok". *)
Definition demo_fmt : list Z := [110; 61; 37; 117; 32; 115; 61; 37; 115].
Definition demo_mem : mem :=
  put_bytes (put_bytes (Mem [(0x1000, 0x1000)] ∅) 0x1000 (demo_fmt ++ [0])) 0x1100 [111; 107; 0].

Lemma demo_fmt_readable : readable demo_mem 0x1000 demo_fmt.
Proof.
  split; [|by apply mapped_range_check|lia|vm_compute; done].
  split; [repeat constructor; lia|]. vm_compute. repeat split.
Qed.

Lemma demo_str_readable : readable demo_mem 0x1100 [111; 107].
Proof.
  split; [|by apply mapped_range_check|lia|vm_compute; done].
  split; [repeat constructor; lia|]. vm_compute. repeat split.
Qed.

Lemma demo_args_ok N :
  Forall (arg_ok demo_mem 0x1800 N 65) [ANum 7; AStr 0x1100 [111; 107]].
Proof.
  constructor; [done|]. constructor; [|constructor].
  split; [apply demo_str_readable|]. split; [right; simpl; lia|simpl; lia].
Qed.

Lemma vsprintf_correct_witness :
  vsprintf 200 0x1800 0x1000 [7; 0x1100] demo_mem =
  Ok (8, put_bytes demo_mem 0x1800 [110; 61; 55; 32; 115; 61; 111; 107; 0]).
Proof.
  apply (vsprintf_correct demo_mem 0x1800 64 65 200 demo_fmt 0x1000
    [ANum 7; AStr 0x1100 [111; 107]] [110; 61; 55; 32; 115; 61; 111; 107]);
    try (simpl; lia).
  - split; [by apply mapped_range_check|lia..].
  - apply demo_fmt_readable.
  - right. simpl. lia.
  - apply demo_args_ok.
  - vm_compute. done.
Defined.

(** The value [%u] prints: a number below 2^31 is printed as it is, but one
    from 2^31 up to 2^32 is printed as the 64-bit number 2^64 - 2^32 above it,
    because the argument goes through a signed 32-bit [int]. *)
Theorem vsprintf_u_value m buf fmt n fuel :
  0 < buf -> writable m buf 65 -> readable m fmt [37; 117] -> outside buf 65 fmt [37; 117] ->
  0 <= n < 2 ^ 32 -> (67 < fuel)%nat ->
  exists v, (n < 2 ^ 31 -> v = n) /\ (2 ^ 31 <= n -> v = n + (2 ^ 64 - 2 ^ 32)) /\
    vsprintf fuel buf fmt [n] m =
    Ok (Z.of_nat (length (number_text 10 v)), put_bytes m buf (number_text 10 v ++ [0])).
Proof.
  intros Hb Hw Hr Ho Hn Hf. exists (u64 (i32 n)). repeat split.
  - intros. rewrite swrap_small by lia. apply wrap_small. unfold in_range. lia.
  - intros. unfold swrap. rewrite (wrap_small 32) by done.
    destruct (Z.ltb_spec n (2 ^ (32 - 1))); [lia|].
    unfold wrap. rewrite <- (Z_mod_plus_full _ 1). rewrite Z.mod_small; lia.
  - change [n] with (arg_word <$> [ANum n]).
    apply (vsprintf_ok m buf 65 65 Hb Hw ltac:(lia) fuel [37; 117] fmt [ANum n]);
      try done; try (simpl; lia).
    + repeat constructor.
    + cbn [render negb]. simpl. by rewrite app_nil_r.
    + assert (length (number_text 10 (u64 (i32 n))) <= 64)%nat; [|lia].
      unfold number_text, numeral. rewrite length_fmap. destruct (_ =? 0); simpl; [lia|].
      rewrite length_reverse. apply digits_lsb_length.
Qed.

Lemma vsprintf_u_value_witness :
  exists v, v = 2 ^ 31 + (2 ^ 64 - 2 ^ 32) /\
    vsprintf 100 0x1800 0x1000 [2 ^ 31] (put_bytes (Mem [(0x1000, 0x1000)] ∅) 0x1000 [37; 117; 0]) =
    Ok (20, put_bytes (put_bytes (Mem [(0x1000, 0x1000)] ∅) 0x1000 [37; 117; 0]) 0x1800
              (number_text 10 v ++ [0])).
Proof.
  destruct (vsprintf_u_value (put_bytes (Mem [(0x1000, 0x1000)] ∅) 0x1000 [37; 117; 0])
    0x1800 0x1000 (2 ^ 31) 100) as (v & _ & Hv & Hrun); try lia.
  - split; [by apply mapped_range_check|lia..].
  - split; [|by apply mapped_range_check|lia|vm_compute; done].
    split; [repeat constructor; lia|]. vm_compute. repeat split.
  - right. simpl. lia.
  - specialize (Hv ltac:(lia)). exists v. split; [done|]. rewrite Hrun. subst v. reflexivity.
Defined.

Lemma bochs_debug_output_ok s : forall m a out fuel,
  readable m a s -> (length s < fuel)%nat ->
  bochs_debug_output fuel a (State m out) = Ok (tt, State m (out ++ ((fun c => (0xe9, c)) <$> s))).
Proof.
  induction s as [|c s IH]; intros m a out [|fuel] Hr Hf; simpl in Hf; try lia;
    cbn [bochs_debug_output].
  - mrun (unfold on_mem, zoom; simpl; rewrite (readable_nil m a) by done; done).
    simpl. by rewrite app_nil_r.
  - destruct (readable_head _ _ _ _ Hr) as [Hc Hne].
    mrun (unfold on_mem, zoom; simpl; rewrite Hc; done).
    destruct (Z.eqb_spec c 0); [done|]. mrun done.
    pose proof (readable_tail _ _ _ _ Hr) as Ht. destruct Hr as [(Hs & _) _ Hl Hh].
    apply Forall_cons in Hs as [Hc' _]. cbn [length] in Hh.
    rewrite !wrap_small by (unfold in_range; lia). simpl. rewrite IH by (done || lia).
    by rewrite <- app_assoc.
Qed.

Lemma debug_printf_ok m out buf K fuel f fmt args r :
  0 < buf -> writable m buf 1024 -> (64 < K)%nat ->
  readable m fmt f -> outside buf 1024 fmt f -> Forall (arg_ok m buf 1024 K) args ->
  render f args = Some r -> Forall (fun c => 0 < c < 256) r ->
  Z.of_nat (length r) < 1024 -> (length f + K < fuel)%nat -> (length r < fuel)%nat ->
  debug_printf fuel buf fmt (arg_word <$> args) (State m out) =
    Ok (tt, State (put_bytes m buf (r ++ [0])) (out ++ ((fun c => (0xe9, c)) <$> r))).
Proof.
  intros Hb Hw HK Hr Ho Ha Hren Hchars HN Hf Hf2. unfold debug_printf.
  mrun (unfold on_mem, zoom; simpl; erewrite (vsprintf_ok m buf 1024 K) by (eauto || lia); done).
  apply bochs_debug_output_ok; [|done]. destruct Hw as [Hm ? ?]. split.
  - by apply cstr_put_bytes.
  - apply mapped_range_put_bytes. eapply mapped_range_mono; [done|lia..].
  - lia.
  - lia.
Qed.

(** [debug_printf] writes to port 0xe9, in order and nothing else, exactly
    the characters the format renders to. *)
Theorem debug_printf_correct m out buf K fuel f fmt args r :
  0 < buf -> writable m buf 1024 -> (64 < K)%nat ->
  readable m fmt f -> outside buf 1024 fmt f -> Forall (arg_ok m buf 1024 K) args ->
  render f args = Some r -> Forall (fun c => 0 < c < 256) r ->
  Z.of_nat (length r) < 1024 -> (length f + K < fuel)%nat -> (length r < fuel)%nat ->
  exists m', debug_printf fuel buf fmt (arg_word <$> args) (State m out) =
    Ok (tt, State m' (out ++ ((fun c => (0xe9, c)) <$> r))).
Proof. intros. eexists. by eapply debug_printf_ok. Qed.

Lemma debug_printf_correct_witness :
  exists m', debug_printf 200 0x1800 0x1000 [7; 0x1100] (State demo_mem []) =
    Ok (tt, State m' [(0xe9, 110); (0xe9, 61); (0xe9, 55); (0xe9, 32); (0xe9, 115); (0xe9, 61);
                      (0xe9, 111); (0xe9, 107)]).
Proof.
  apply (debug_printf_correct demo_mem [] 0x1800 65 200 demo_fmt 0x1000
    [ANum 7; AStr 0x1100 [111; 107]] [110; 61; 55; 32; 115; 61; 111; 107]); try (simpl; lia).
  - split; [by apply mapped_range_check|lia..].
  - apply demo_fmt_readable.
  - right. simpl. lia.
  - apply demo_args_ok.
  - vm_compute. done.
  - repeat constructor; lia.
Defined.

(** A format without conversions is printed as it is. *)
Lemma debug_printf_plain m out buf fuel f fmt words :
  0 < buf -> writable m buf 1024 -> readable m fmt f -> outside buf 1024 fmt f ->
  Forall (fun c => 0 < c < 256 /\ c <> 37) f -> Z.of_nat (length f) < 1024 -> (length f + 65 < fuel)%nat ->
  debug_printf fuel buf fmt words (State m out) =
    Ok (tt, State (put_bytes m buf (f ++ [0])) (out ++ ((fun c => (0xe9, c)) <$> f))).
Proof.
  intros Hb Hw Hr Ho Hf HN Hfuel. assert (arg_word <$> (ANum <$> words) = words) as <-.
  { induction words as [|w ws IH]; simpl in *; [done|]. by f_equal. }
  apply (debug_printf_ok m out buf 65 fuel f fmt (ANum <$> words) f); auto; try lia.
  - apply Forall_fmap. by apply Forall_true.
  - clear -Hf. induction Hf as [|c f [_ Hc] _ IH]; [done|]. cbn [render].
    destruct (Z.eqb_spec c 37); [done|]. simpl. by rewrite IH.
  - eapply Forall_impl; [exact Hf|]. simpl. tauto.
Qed.

Definition assert_text : list Z := chars "ASSERTION FAILED: {}" ++ [10].
Definition place_text : list Z := chars "{}:{} in {}" ++ [10].

Ltac plain_chars := eapply bool_decide_unpack; vm_compute; exact I.

(** The message of a failed assertion is lost: [debug_printf] knows no braces,
    so that the two formats appear as they are, whatever the arguments; and
    when an interrupt ends [hlt], the function returns. *)
Theorem assertion_failed_text m out buf fuel f1 f2 msg file line func :
  0 < buf -> writable m buf 1024 -> (128 < fuel)%nat ->
  readable m f1 assert_text -> outside buf 1024 f1 assert_text ->
  readable m f2 place_text -> outside buf 1024 f2 place_text ->
  exists m', assertion_failed (mret tt) fuel buf f1 f2 msg file line func (State m out) =
    Ok (tt, State m' (out ++ ((fun c => (0xe9, c)) <$> assert_text ++ place_text))).
Proof.
  intros Hb Hw Hf Hr1 Ho1 Hr2 Ho2. eexists. unfold assertion_failed.
  mrun (apply (debug_printf_plain m out buf fuel assert_text); auto; [plain_chars|simpl; lia..]).
  mrun (apply (debug_printf_plain _ _ buf fuel place_text); auto;
    [destruct Hw; split; auto with jsos|apply readable_put_bytes; [done|unfold outside in Ho2; simpl in Ho2 |- *; lia]|plain_chars|simpl; lia..]).
  rewrite fmap_app, app_assoc. done.
Qed.

End StdioProps.
