(* ===== verification/Paging.v ===== *)
(** kernel/arch/x86/memlayout.h and paging.h: the kernel's address spaces, the
    bit-field views of virtual addresses and page table entries, and the page
    walk of the processor against which the page tables are judged. *)
From S2P Require Import Prelude Layout Memory Libk.
Import Utils.

(** ** memlayout.h *)
Module MemLayout.

Definition VA_PMAP_BEGIN : Z := 0xFFFF880000000000.
Definition VA_PMAP_END : Z := 0xFFFF880040000000.
Definition KVA_KERNEL_BEGIN : Z := 0xFFFFFFFF80000000.
Definition PHYSTOP : Z := 0x40000000.

Definition KV2P (a : Z) : Z := u64 (a - KVA_KERNEL_BEGIN).
Definition P2KV (a : Z) : Z := u64 (a + KVA_KERNEL_BEGIN).
Definition KV2V (a : Z) : Z := u64 (a - u64 (KVA_KERNEL_BEGIN - VA_PMAP_BEGIN)).
Definition V2KV (a : Z) : Z := u64 (a + u64 (KVA_KERNEL_BEGIN - VA_PMAP_BEGIN)).

Lemma P2KV_KV2P a : in_range 64 a -> P2KV (KV2P a) = a.
Proof.
  intros Ha. unfold P2KV, KV2P. rewrite wrap_add_wrap_l by lia.
  replace (a - KVA_KERNEL_BEGIN + KVA_KERNEL_BEGIN) with a by lia. by apply wrap_small.
Qed.

Lemma KV2P_P2KV a : in_range 64 a -> KV2P (P2KV a) = a.
Proof.
  intros Ha. unfold P2KV, KV2P. unfold Z.sub. rewrite wrap_add_wrap_l by lia.
  replace (a + KVA_KERNEL_BEGIN + - KVA_KERNEL_BEGIN) with a by lia. by apply wrap_small.
Qed.

Lemma V2KV_KV2V a : in_range 64 a -> V2KV (KV2V a) = a.
Proof.
  intros Ha. unfold V2KV, KV2V. rewrite wrap_add_wrap_l by lia.
  set (d := u64 (KVA_KERNEL_BEGIN - VA_PMAP_BEGIN)). replace (a - d + d) with a by lia. by apply wrap_small.
Qed.

(** The kernel's window: addresses of the kernel image. *)
Lemma KV2P_window a : KVA_KERNEL_BEGIN <= a < 2 ^ 64 -> KV2P a = a - KVA_KERNEL_BEGIN.
Proof. intros. apply wrap_small. unfold in_range, KVA_KERNEL_BEGIN in *. lia. Qed.

End MemLayout.

(** ** paging.h *)
Module Paging.
Import MemLayout.

Definition PTE_SIZE : Z := 8.
Definition PGSIZE : Z := 4096.
Definition PGSIZE_2M : Z := 2097152.
Definition PGSIZE_1G : Z := 1073741824.
Definition PTE_PER_PT : Z := PGSIZE / PTE_SIZE.

Definition va_4k_members : list member :=
  [Bits "offset" cu32 12; Bits "pti" cu32 9; Bits "pdi" cu32 9; Bits "pdpti" cu32 9;
   Bits "pml4i" cu32 9; Bits "sgn" cu32 16].
Definition va_2m_members : list member :=
  [Bits "offset" cu32 21; Bits "pdi" cu32 9; Bits "pdpti" cu32 9; Bits "pml4i" cu32 9;
   Bits "sgn" cu32 16].
Definition va_1g_members : list member :=
  [Bits "offset" cu32 30; Bits "pdpti" cu32 9; Bits "pml4i" cu32 9; Bits "sgn" cu32 16].

Definition va_4k : list placed := layout true va_4k_members.
Definition va_2m : list placed := layout true va_2m_members.
Definition va_1g : list placed := layout true va_1g_members.

Definition pte_members : list member :=
  [Bits "p" cu8 1; Bits "w" cu8 1; Bits "u" cu8 1; Bits "pwt" cu8 1; Bits "pcd" cu8 1;
   Bits "accessed" cu8 1; Bits "dirty" cu8 1; Bits "large" cu8 1; Bits "global" cu8 1;
   Bits "layer" cu8 3; Bits "addr" cu32 28; Bits "rsrv0" cu16 12; Bits "avail2" cu8 7;
   Bits "pk" cu8 4; Bits "nx" cu32 1].
(** [packed] is on the union, and does not reach the members of the anonymous
    structure inside it: [addr] does not fit in the first 32-bit unit and is
    moved to the next one, and the entry takes 12 bytes. *)
Definition pte_t : list placed := layout false pte_members.
Definition sizeof_pte_t : Z := sizeof false pte_members.

(** The address field of an entry, shifted left by 12 as a 64-bit number. *)
Definition PTE_ADDR (pte : Z) : Z := u64 (Z.shiftl (fget pte_t "addr" pte) 12).
Definition KVA_TO_PTE_ADDR (addr : Z) : Z := u32 (Z.shiftr (KV2P addr) 12).
Definition PA_TO_PTE_ADDR (addr : Z) : Z := u32 (Z.shiftr (u64 addr) 12).
Definition PTE_LAYER (x : Z) : Z := i32 (Z.shiftl x 9).

Definition PGROUNDUP (ptr : Z) : Z := ROUNDUP2N ptr PGSIZE.
Definition PGROUNDDOWN (ptr : Z) : Z := ROUNDDOWN2N ptr PGSIZE.

Definition pf_err : list placed := layout true
  [Bits "p" cu32 1; Bits "rw" cu32 1; Bits "us" cu32 1; Bits "rsvd" cu32 1; Bits "id" cu32 1;
   Bits "rsrv" cu32 27].

Definition cr3_t : list placed := layout true [Bits "todo" cu16 12; Bits "pa_pml4" cu64 52].

Definition PTE_P : Z := 0x1.
Definition PTE_W : Z := 0x2.
Definition PTE_PS : Z := 0x80.
Definition PTE_NX : Z := 0x8000000000000000.

Definition VA_4K (pml4 pdpt pd pt offset : Z) : Z :=
  Z.lor (Z.lor (Z.lor (Z.lor (Z.shiftl pml4 39) (Z.shiftl pdpt 30)) (Z.shiftl pd 21))
    (Z.shiftl pt 12)) offset.

Definition _1GB : Z := Z.shiftl 1 30.
Definition _2MB : Z := Z.shiftl 1 21.
Definition _4KB : Z := Z.shiftl 1 12.

(** ** The page walk of the processor

    Intel SDM volume 3, 4-level paging with 52 physical address bits: the
    reference the kernel's tables are compared with.  [m] is physical memory. *)

Definition pte_present (e : Z) : bool := bits 0 1 e =? 1.
Definition pte_large (e : Z) : bool := bits 7 1 e =? 1.

(** Entry [i] of the table at physical address [t]. *)
Definition walk_entry (m : mem) (t i : Z) : Z := peek 8 m (t + 8 * i).

Definition walk (m : mem) (cr3 va : Z) : option Z :=
  let e4 := walk_entry m (Z.shiftl (bits 12 40 cr3) 12) (bits 39 9 va) in
  if negb (pte_present e4) then None else
  let e3 := walk_entry m (Z.shiftl (bits 12 40 e4) 12) (bits 30 9 va) in
  if negb (pte_present e3) then None
  else if pte_large e3 then Some (Z.shiftl (bits 30 22 e3) 30 + bits 0 30 va) else
  let e2 := walk_entry m (Z.shiftl (bits 12 40 e3) 12) (bits 21 9 va) in
  if negb (pte_present e2) then None
  else if pte_large e2 then Some (Z.shiftl (bits 21 31 e2) 21 + bits 0 21 va) else
  let e1 := walk_entry m (Z.shiftl (bits 12 40 e2) 12) (bits 12 9 va) in
  if negb (pte_present e1) then None
  else Some (Z.shiftl (bits 12 40 e1) 12 + bits 0 12 va).

(** ** Layout facts *)

(** An entry built by the code, as a number: the frame is at bit 32. *)
Lemma pte_table_value a :
  finit pte_t [("p", 1); ("w", 1); ("addr", a)] = 3 + 2 ^ 32 * wrap 28 a.
Proof.
  layout_eval. change (set_bits 1 1 1 (set_bits 0 1 1 0)) with 3. unfold set_bits.
  change (Z.ldiff 3 _) with 3. by apply lor_shiftl_add.
Qed.

Lemma pte_large_value a :
  finit pte_t [("p", 1); ("w", 1); ("large", 1); ("addr", a)] = 131 + 2 ^ 32 * wrap 28 a.
Proof.
  layout_eval. change (set_bits 7 1 1 (set_bits 1 1 1 (set_bits 0 1 1 0))) with 131. unfold set_bits.
  change (Z.ldiff 131 _) with 131. by apply lor_shiftl_add.
Qed.

Lemma pte_value_p a c : 0 <= c < 2 ^ 32 -> fget pte_t "p" (c + 2 ^ 32 * a) = bits 0 1 c.
Proof.
  intros Hc. layout_eval. unfold bits, wrap. rewrite !Z.shiftr_0_r.
  replace (c + 2 ^ 32 * a) with (c + 2 ^ 31 * a * 2 ^ 1) by lia. apply Z_mod_plus_full.
Qed.

Lemma pte_value_addr a c : 0 <= c < 2 ^ 32 -> fget pte_t "addr" (c + 2 ^ 32 * a) = wrap 28 a.
Proof.
  intros Hc. layout_eval. unfold bits. rewrite Z.shiftr_div_pow2 by lia.
  rewrite Z.mul_comm, Z.div_add by lia. by rewrite Z.div_small, Z.add_0_l by lia.
Qed.

Lemma pte_sane : Forall sane_member pte_members.
Proof. repeat constructor; simpl; lia. Qed.

Lemma bits_4096 p : (4096 | p) -> 0 <= p -> bits 0 12 p = 0.
Proof.
  intros [k ->] _. unfold bits. rewrite Z.shiftr_0_r. unfold wrap. change (2 ^ 12) with 4096.
  apply Z_mod_mult.
Qed.

(** Address field of an entry made from a kernel address of the window. *)
Lemma KVA_TO_PTE_ADDR_window pt :
  KVA_KERNEL_BEGIN <= pt < 2 ^ 64 -> KVA_TO_PTE_ADDR pt = (pt - KVA_KERNEL_BEGIN) / 4096.
Proof.
  intros H. unfold KVA_TO_PTE_ADDR. rewrite KV2P_window by done.
  rewrite Z.shiftr_div_pow2 by lia. change (2 ^ 12) with 4096. apply wrap_small.
  unfold in_range, KVA_KERNEL_BEGIN in *.
  split; [apply Z.div_pos; lia|]. apply Z.div_lt_upper_bound; lia.
Qed.

End Paging.

Module PagingProps.
Import MemLayout Paging.

(** Entries in the compiler's layout are not entries of the processor:
    [pte_t] takes 12 bytes instead of [PTE_SIZE], and an entry built for the
    frame [a] is present for the processor but names another frame, unless
    [a] is 0. *)
Theorem pte_t_not_hardware a :
  in_range 28 a ->
  let e := finit pte_t [("p", 1); ("w", 1); ("addr", a)] in
  sizeof_pte_t = PTE_SIZE + 4 /\ pte_present e = true /\ (bits 12 40 e = a <-> a = 0).
Proof.
  intros Ha e. split_and!; [done|..]; unfold e; rewrite pte_table_value, wrap_small by done.
  - unfold pte_present. replace (bits 0 1 (3 + 2 ^ 32 * a)) with 1; [done|].
    symmetry. unfold bits, wrap. rewrite Z.shiftr_0_r.
    replace (3 + 2 ^ 32 * a) with (1 + (1 + 2 ^ 31 * a) * 2) by lia. apply Z_mod_plus_full.
  - unfold bits. rewrite Z.shiftr_div_pow2 by lia.
    replace (3 + 2 ^ 32 * a) with (3 + 2 ^ 20 * a * 2 ^ 12) by lia.
    rewrite Z.div_add, Z.div_small, Z.add_0_l by lia. unfold wrap, in_range in *.
    split; [|by intros ->]. intros H.
    pose proof (Z.div_mod (2 ^ 20 * a) (2 ^ 40) ltac:(lia)) as E. rewrite H in E. lia.
Qed.

Lemma pte_t_not_hardware_witness :
  bits 12 40 (finit pte_t [("p", 1); ("w", 1); ("addr", 5)]) <> 5.
Proof. intros H. apply (pte_t_not_hardware 5) in H; [done|]. unfold in_range. lia. Defined.

End PagingProps.
