(* ===== verification/Pmm.v ===== *)
(** kernel/memory/pmm.cpp: the physical page allocator, a linked list threaded
    through the free pages themselves.

    The abstract view is a stack of pages; [free_pages] relates it to the
    memory, and the operations are proved to push and pop. *)
From S2P Require Import Prelude Layout Memory Libk Paging.
Import Utils MemLayout Paging.

(** ** Definitions *)
Module Pmm.

(** [kmem]: the lock, the flag that says whether it is used, the list head;
    with the memory the pages live in. *)
Record state := State {
  lock : Z;
  use_lock : Z;
  freelist : Z;
  memory : mem }.

Definition set_freelist (p : Z) (s : state) : state := State (lock s) (use_lock s) p (memory s).

Definition on_mem {A} (c : M mem A) : M state A :=
  zoom memory (fun m s => State (lock s) (use_lock s) (freelist s) m) c.

Definition pmm_free (va : Z) : M state unit :=
  let page := va in
  head ← gets freelist;
  on_mem (store64 page head) ;;
  modify (set_freelist page).

Fixpoint free_range_loop (fuel : nat) (p vend : Z) : M state unit :=
  match fuel with
  | O => fail OutOfFuel
  | S fuel =>
      if u64 (p + PGSIZE) <=? vend then
        pmm_free p ;; free_range_loop fuel (u64 (p + PGSIZE)) vend
      else mret tt
  end.

Definition pmm_free_range (fuel : nat) (vstart vend : Z) : M state unit :=
  free_range_loop fuel (PGROUNDUP vstart) vend.

Definition pmm_alloc : M state Z :=
  node ← gets freelist;
  if node =? 0 then mret node
  else
    next ← on_mem (load64 node);
    modify (set_freelist next) ;;
    mret node.

(** [VA_KERNEL_END] is [KV2V(KVA_KERNEL_END)]; the linker script provides
    [KVA_KERNEL_END]. *)
Definition VA_KERNEL_END (KVA_KERNEL_END : Z) : Z := KV2V KVA_KERNEL_END.

Definition init_pmm (KVA_KERNEL_END : Z) (fuel : nat) : M state unit :=
  pmm_free_range fuel (VA_KERNEL_END KVA_KERNEL_END) PHYSTOP.

End Pmm.

(** ** Representation *)
Module PmmFacts.
Import Pmm.

(** A page the allocator may hold: aligned, backed, not at address 0. *)
Record page_ok (m : mem) (p : Z) : Prop := {
  pg_aligned : (PGSIZE | p);
  pg_mapped : mapped_range m p PGSIZE;
  pg_low : 0 < p;
  pg_high : p + PGSIZE <= 2 ^ 64 }.

(** The list of pages reachable from a head pointer. *)
Inductive pages_at (m : mem) : Z -> list Z -> Prop :=
| pages_nil : pages_at m 0 []
| pages_cons p l : p <> 0 -> pages_at m (peek 8 m p) l -> pages_at m p (p :: l).

(** The state holds exactly the free pages [l], in order of allocation. *)
Record free_pages (s : state) (l : list Z) : Prop := {
  fp_list : pages_at (memory s) (freelist s) l;
  fp_ok : Forall (page_ok (memory s)) l;
  fp_nodup : NoDup l }.

Lemma page_ok_mapped m m' p : (forall x, mapped m' x = mapped m x) -> page_ok m p -> page_ok m' p.
Proof. intros H []. split; auto. intros x Hx. rewrite H. auto. Qed.

(** Distinct pages do not overlap. *)
Lemma page_disjoint m p q :
  page_ok m p -> page_ok m q -> p <> q -> p + PGSIZE <= q \/ q + PGSIZE <= p.
Proof. intros [[a ->] _ _ _] [[b ->] _ _ _] Hne. unfold PGSIZE in *. nia. Qed.

Lemma pages_at_ext m m' l : forall p,
  (forall q, q ∈ l -> peek 8 m' q = peek 8 m q) -> pages_at m p l -> pages_at m' p l.
Proof.
  induction l as [|q l IH]; intros p H Hp; inversion Hp; subst; constructor; [done|].
  rewrite H by set_solver. apply IH; [|done]. intros. apply H. set_solver.
Qed.

(** Memory changes outside the link words leave the list as it is. *)
Lemma free_pages_frame s l m' :
  free_pages s l ->
  (forall x, mapped m' x = mapped (memory s) x) ->
  (forall q, q ∈ l -> peek 8 m' q = peek 8 (memory s) q) ->
  free_pages (State (lock s) (use_lock s) (freelist s) m') l.
Proof.
  intros [Hl Hok Hnd] Hm Hp. split; simpl.
  - by eapply pages_at_ext.
  - eapply Forall_impl; [done|]. eauto using page_ok_mapped.
  - done.
Qed.

Lemma pages_at_head m p l : pages_at m p l -> p = 0 <-> l = [].
Proof. inversion 1; subst; split; congruence. Qed.

Definition freed (p : Z) (s : state) : state :=
  State (lock s) (use_lock s) p (poke 8 (memory s) p (freelist s)).

Lemma pmm_free_run s p : page_ok (memory s) p -> pmm_free p s = Ok (tt, freed p s).
Proof.
  intros [_ Hm _ _]. unfold pmm_free. mrun done.
  mrun (unfold on_mem, zoom, store64; rewrite store_ok;
        [done|eapply mapped_range_mono; [exact Hm|lia|unfold PGSIZE; simpl; lia]]).
  done.
Qed.

(** Freeing pushes. *)
Lemma pmm_free_push s l p :
  free_pages s l -> page_ok (memory s) p -> p ∉ l -> in_range 64 (freelist s) ->
  free_pages (freed p s) (p :: l).
Proof.
  intros [Hl Hok Hnd] Hp Hnin Hr. pose proof Hp as [_ _ Hlow _]. split; simpl.
  - constructor; [lia|]. rewrite peek_poke_same, wrap_small by done.
    eapply pages_at_ext; [|done]. intros q Hq. apply peek_poke_other.
    rewrite Forall_forall in Hok. specialize (Hok q Hq).
    destruct (page_disjoint (memory s) p q Hp Hok) as [?|?]; [set_solver|..];
      unfold PGSIZE in *; simpl; lia.
  - constructor.
    + eapply page_ok_mapped; [|done]. intros. by rewrite mapped_poke.
    + eapply Forall_impl; [done|]. intros. eapply page_ok_mapped; [|done].
      intros. by rewrite mapped_poke.
  - by constructor.
Qed.

Lemma free_pages_head_range s l : free_pages s l -> in_range 64 (freelist s).
Proof.
  intros [Hl Hok _]. unfold in_range. inversion Hl; subst; [lia|].
  apply Forall_cons in Hok as [[_ _ ? ?] _]. unfold PGSIZE in *. lia.
Qed.

(** Allocation from an empty list fails without changing anything. *)
Lemma pmm_alloc_nil s : free_pages s [] -> pmm_alloc s = Ok (0, s).
Proof. intros [Hl _ _]. inversion Hl as [Hh|]. unfold pmm_alloc. mrun done. by rewrite <- Hh. Qed.

(** Allocation pops. *)
Lemma pmm_alloc_pop s p l :
  free_pages s (p :: l) ->
  pmm_alloc s = Ok (p, set_freelist (peek 8 (memory s) p) s) /\
  free_pages (set_freelist (peek 8 (memory s) p) s) l.
Proof.
  intros [Hl Hok Hnd]. inversion Hl as [|? ? Hne Hl' Hh]; subst. split.
  - unfold pmm_alloc. mrun done. destruct (Z.eqb_spec (freelist s) 0); [done|].
    apply Forall_cons in Hok as [[_ Hm _ _] _].
    mrun (unfold on_mem, zoom, load64; rewrite load_ok;
          [done|eapply mapped_range_mono; [exact Hm|lia|unfold PGSIZE; simpl; lia]]).
    by destruct s.
  - split; simpl; [done|by apply Forall_cons in Hok as [_ ?]|by apply NoDup_cons in Hnd as [_ ?]].
Qed.

(** ** Ranges *)

(** The pages wholly inside [p, vend), [p] itself aligned, highest first: the
    order in which the allocator will hand them out. *)
Fixpoint range_pages (n : nat) (p : Z) (acc : list Z) : list Z :=
  match n with
  | O => acc
  | S n => range_pages n (p + PGSIZE) (p :: acc)
  end.

Lemma range_pages_elem n : forall p acc q,
  q ∈ range_pages n p acc <-> q ∈ acc \/ exists i, 0 <= i < Z.of_nat n /\ q = p + i * PGSIZE.
Proof.
  induction n as [|n IH]; intros p acc q; cbn [range_pages].
  - split; [tauto|]. intros [?|(i & ? & _)]; [done|lia].
  - rewrite IH, elem_of_cons. split.
    + intros [[->|?]|(i & Hi & ->)]; [right; exists 0; lia|tauto|].
      right. exists (i + 1). lia.
    + intros [?|(i & Hi & ->)]; [tauto|].
      destruct (decide (i = 0)) as [->|]; [left; left; lia|].
      right. exists (i - 1). lia.
Qed.

Ltac plia := unfold PGSIZE in *; lia.

Lemma free_range_loop_ok vend : forall n fuel p s l,
  free_pages s l ->
  (forall i, 0 <= i < Z.of_nat n -> page_ok (memory s) (p + i * PGSIZE) /\ p + i * PGSIZE ∉ l) ->
  0 <= p -> p + Z.of_nat n * PGSIZE <= vend -> vend < p + (Z.of_nat n + 1) * PGSIZE ->
  p + (Z.of_nat n + 1) * PGSIZE < 2 ^ 64 -> (n < fuel)%nat ->
  exists s', free_range_loop fuel p vend s = Ok (tt, s') /\
    free_pages s' (range_pages n p l) /\
    (forall x, mapped (memory s') x = mapped (memory s) x) /\
    (forall x, x < p \/ p + Z.of_nat n * PGSIZE <= x -> byte_at (memory s') x = byte_at (memory s) x).
Proof.
  induction n as [|n IH]; intros [|fuel] p s l Hfp Hpg Hp Hlo Hhi Hov Hf; try lia;
    cbn [free_range_loop range_pages]; rewrite (wrap_small 64 (p + PGSIZE))
      by (unfold in_range, PGSIZE in *; lia).
  - destruct (Z.leb_spec (p + PGSIZE) vend); [plia|]. exists s. split_and!; done.
  - destruct (Z.leb_spec (p + PGSIZE) vend); [|plia].
    destruct (Hpg 0 ltac:(lia)) as [Hok Hnin]. rewrite Z.mul_0_l, Z.add_0_r in Hok, Hnin.
    mrun (by apply pmm_free_run).
    pose proof (pmm_free_push s l p Hfp Hok Hnin (free_pages_head_range _ _ Hfp)) as Hfp'.
    destruct (IH fuel (p + PGSIZE) (freed p s) (p :: l)) as (s' & Hrun & Hfp'' & Hm & Hb); try plia.
    + done.
    + intros i Hi. destruct (Hpg (i + 1) ltac:(lia)) as [Hok' Hnin'].
      replace (p + PGSIZE + i * PGSIZE) with (p + (i + 1) * PGSIZE) by plia. split.
      * eapply page_ok_mapped; [|done]. intros. simpl. by rewrite mapped_poke.
      * apply not_elem_of_cons. split; [plia|done].
    + exists s'. split_and!; [done|done| |].
      * intros x. rewrite Hm. simpl. by rewrite mapped_poke.
      * intros x Hx. rewrite Hb by plia. apply byte_at_poke_other. plia.
Qed.

End PmmFacts.

(** ** Abstract specification: pages are free or owned by a client *)
Module PmmSpec.
Import Pmm PmmFacts.

(** What a client of the allocator does: allocate, free a page, store a byte. *)
Inductive op := OAlloc | OFree (p : Z) | OWrite (a v : Z).

Definition exec (o : op) : M state Z :=
  match o with
  | OAlloc => pmm_alloc
  | OFree p => pmm_free p ;; mret 0
  | OWrite a v => on_mem (store8 a v) ;; mret 0
  end.

Fixpoint run (ops : list op) : M state (list Z) :=
  match ops with
  | [] => mret []
  | o :: ops => r ← exec o; rs ← run ops; mret (r :: rs)
  end.

(** Free pages as a stack, owned pages as a list; a client frees and writes
    only pages it owns. *)
Inductive spec_step : list Z * list Z -> op -> Z -> list Z * list Z -> Prop :=
| sp_alloc p l o : spec_step (p :: l, o) OAlloc p (l, p :: o)
| sp_alloc_none o : spec_step ([], o) OAlloc 0 ([], o)
| sp_free p l o1 o2 : spec_step (l, o1 ++ p :: o2) (OFree p) 0 (p :: l, o1 ++ o2)
| sp_write a v p l o :
    p ∈ o -> p <= a < p + PGSIZE -> spec_step (l, o) (OWrite a v) 0 (l, o).

Inductive spec_run : list Z * list Z -> list op -> list Z -> list Z * list Z -> Prop :=
| sr_nil a : spec_run a [] [] a
| sr_cons a o r b ops rs c :
    spec_step a o r b -> spec_run b ops rs c -> spec_run a (o :: ops) (r :: rs) c.

(** The concrete state implements the abstract one; no page is both free and
    owned, or owned twice. *)
Record implements (s : state) (a : list Z * list Z) : Prop := {
  im_free : free_pages s a.1;
  im_owned : Forall (page_ok (memory s)) a.2;
  im_nodup : NoDup (a.1 ++ a.2) }.

Lemma pmm_exec_simulates s a o r b :
  implements s a -> spec_step a o r b ->
  exists s', exec o s = Ok (r, s') /\ implements s' b.
Proof.
  intros [Hf Ho Hn] Hs. inversion Hs; subst; simpl in *.
  - destruct (pmm_alloc_pop _ _ _ Hf) as [Hrun Hf']. eexists. split; [exact Hrun|].
    destruct Hf as [_ Hok _]. apply Forall_cons in Hok as [Hp _]. split; simpl; [done|by constructor|].
    eapply NoDup_Permutation_proper; [|exact Hn]. solve_Permutation.
  - exists s. rewrite (pmm_alloc_nil s) by done. done.
  - apply Forall_app in Ho as [Ho1 Ho2]. apply Forall_cons in Ho2 as [Hp Ho2].
    exists (freed p s). split; [mrun (by apply pmm_free_run); done|].
    assert (forall q, page_ok (memory s) q -> page_ok (memory (freed p s)) q) as Hm
      by (intros q; apply page_ok_mapped; intros; simpl; by rewrite mapped_poke).
    split; simpl.
    + apply pmm_free_push; eauto using free_pages_head_range.
      intros Hin. apply NoDup_app in Hn as (_ & Hd & _). apply (Hd p Hin). set_solver.
    + apply Forall_app. split; eapply Forall_impl; eauto.
    + eapply NoDup_Permutation_proper; [|exact Hn]. solve_Permutation.
  - assert (page_ok (memory s) p) as Hp by (rewrite Forall_forall in Ho; auto).
    exists (State (lock s) (use_lock s) (freelist s) (set_byte (memory s) a0 v)). split.
    { mrun (unfold on_mem, zoom; rewrite store8_ok by (destruct Hp as [_ Hm _ _]; apply Hm; lia); done).
      done. }
    split; simpl.
    + apply free_pages_frame; [done|done|]. intros q Hq. apply peek_set_byte_other.
      destruct Hf as [_ Hok _]. rewrite Forall_forall in Hok. specialize (Hok q Hq).
      destruct (page_disjoint (memory s) p q Hp Hok); [|unfold PGSIZE in *; lia..].
      intros ->. apply NoDup_app in Hn as (_ & Hd & _). by apply (Hd q Hq).
    + eapply Forall_impl; [done|]. intros q. by apply page_ok_mapped.
    + done.
Qed.

Lemma pmm_run_simulates a ops rs b :
  spec_run a ops rs b -> forall s, implements s a ->
  exists s', run ops s = Ok (rs, s') /\ implements s' b.
Proof.
  induction 1 as [|a o r b ops rs c Hs _ IH]; intros s Hi; [eexists; eauto|].
  destruct (pmm_exec_simulates _ _ _ _ _ Hi Hs) as (s1 & Hrun & Hi1).
  destruct (IH s1 Hi1) as (s2 & Hrun2 & Hi2).
  exists s2. split; [|done]. cbn [run]. mrun exact Hrun. mrun exact Hrun2. done.
Qed.

End PmmSpec.

(** ** Properties *)
Module PmmProps.
Import Pmm PmmFacts PmmSpec.

(** C1. The page allocator refines a stack of pages: for every sequence of
    allocations, frees of owned pages and stores into owned pages that the
    specification allows, the code runs without a fault, returns exactly the
    pages the specification returns (the null pointer only when no page is
    free), and afterwards free and owned pages are still pairwise distinct, so
    no page is ever handed out twice. *)
Theorem pmm_refines_stack s a ops rs b :
  implements s a -> spec_run a ops rs b ->
  exists s', run ops s = Ok (rs, s') /\ implements s' b.
Proof. intros Hi Hr. by eapply pmm_run_simulates. Qed.

Definition two_pages : mem := Mem [(0x1000, 0x4000)] ∅.

Lemma two_pages_ok p : p ∈ [0x1000; 0x2000] -> page_ok two_pages p.
Proof.
  intros Hp. assert (p = 0x1000 \/ p = 0x2000) as [->| ->] by set_solver;
  (split; [|by apply mapped_range_check|lia|unfold PGSIZE; lia]).
  - by exists 1.
  - by exists 2.
Qed.

Lemma pmm_refines_stack_witness :
  exists s', run [OFree 0x1000; OFree 0x2000; OAlloc; OWrite 0x2004 7; OAlloc; OAlloc]
    (State 0 0 0 two_pages) = Ok ([0; 0; 0x2000; 0; 0x1000; 0], s') /\
    implements s' ([], [0x1000; 0x2000]).
Proof.
  apply (pmm_refines_stack _ ([], [0x1000; 0x2000])).
  - split; simpl.
    + split; simpl; constructor.
    + repeat (constructor; [apply two_pages_ok; set_solver|]). constructor.
    + apply NoDup_cons. split; [set_solver|]. apply NoDup_singleton.
  - repeat (first [apply (sr_cons _ _ _ ([0x1000], [0x2000])); [apply (sp_free 0x1000 [] [] [0x2000])|]
                  |apply (sr_cons _ _ _ ([0x2000; 0x1000], [])); [apply (sp_free 0x2000 [0x1000] [] [])|]]).
    eapply sr_cons; [constructor|]. eapply sr_cons.
    { apply (sp_write 0x2004 7 0x2000); [set_solver|unfold PGSIZE; lia]. }
    eapply sr_cons; [constructor|]. eapply sr_cons; [constructor|]. constructor.
Defined.

(** [pmm_free_range] frees exactly the whole pages of a range: started on a
    list [l], it ends (one iteration per page and one more) with a list that
    holds [l] and the aligned pages that lie inside [vstart, vend), and no
    other, each once; memory outside those pages is unchanged. *)
Theorem pmm_free_range_correct s l vstart vend n fuel :
  free_pages s l ->
  0 <= vstart -> vstart + PGSIZE <= 2 ^ 64 - 2 * PGSIZE -> vend < 2 ^ 64 - 2 * PGSIZE ->
  Z.of_nat n = Z.max 0 ((vend - PGROUNDUP vstart) / PGSIZE) -> (n < fuel)%nat ->
  (forall q, (PGSIZE | q) -> vstart <= q -> q + PGSIZE <= vend -> page_ok (memory s) q /\ q ∉ l) ->
  exists s' l', pmm_free_range fuel vstart vend s = Ok (tt, s') /\ free_pages s' l' /\
    (forall q, q ∈ l' <-> q ∈ l \/ ((PGSIZE | q) /\ vstart <= q /\ q + PGSIZE <= vend)) /\
    (forall x, x < vstart \/ vend <= x -> byte_at (memory s') x = byte_at (memory s) x).
Proof.
  intros Hfp H0 Hov Hvend Hn Hf Hpg. unfold pmm_free_range.
  destruct (ROUNDUP2N_spec vstart 12) as [Hrange Hdiv]; [lia|lia|unfold PGSIZE in *; lia|].
  change (ROUNDUP2N vstart (2 ^ 12)) with (PGROUNDUP vstart) in *.
  change (2 ^ 12) with PGSIZE in *. set (p := PGROUNDUP vstart) in *.
  pose proof (Z.div_mod (vend - p) PGSIZE ltac:(unfold PGSIZE; lia)).
  pose proof (Z.mod_pos_bound (vend - p) PGSIZE ltac:(unfold PGSIZE; lia)).
  destruct Hdiv as [c Hc].
  destruct (decide (p + PGSIZE <= vend)) as [Hsome|Hnone].
  - assert (0 <= (vend - p) / PGSIZE) by (apply Z.div_pos; plia).
    destruct (free_range_loop_ok vend n fuel p s l) as (s' & Hrun & Hfp' & _ & Hb); try plia.
    + done.
    + intros i Hi. apply Hpg; [|plia|plia]. exists (c + i). lia.
    + exists s', (range_pages n p l). split_and!; [done|done| |].
      * intros q. rewrite range_pages_elem. split; (intros [?|Hq]; [by left|right]).
        -- destruct Hq as (i & Hi & ->). split_and!; [exists (c + i); lia|plia|plia].
        -- destruct Hq as ([d ->] & Hlo & Hhi). exists (d - c). plia.
      * intros x Hx. apply Hb. plia.
  - destruct fuel as [|fuel]; [lia|]. cbn [free_range_loop].
    rewrite wrap_small by (unfold in_range; plia).
    destruct (Z.leb_spec (p + PGSIZE) vend); [lia|].
    exists s, l. split_and!; [done|done| |done].
    intros q. split; [tauto|]. intros [?|([d ->] & Hlo & Hhi)]; [done|].
    exfalso. plia.
Qed.

Lemma pmm_free_range_correct_witness :
  exists s' l', pmm_free_range 5 0x1001 0x4FFF (State 0 0 0 (Mem [(0x1000, 0x4000)] ∅)) = Ok (tt, s') /\
    free_pages s' l' /\ (0x2000 ∈ l' /\ 0x3000 ∈ l' /\ 0x1000 ∉ l' /\ 0x4000 ∉ l').
Proof.
  destruct (pmm_free_range_correct (State 0 0 0 (Mem [(0x1000, 0x4000)] ∅)) [] 0x1001 0x4FFF 2 5)
    as (s' & l' & Hrun & Hfp & Hin & _); unfold PGSIZE in *; try lia.
  - split; simpl; constructor.
  - vm_compute. done.
  - intros q [k Hk] Hlo Hhi. split; [|set_solver].
    split; [by exists k| |lia|unfold PGSIZE; lia].
    apply (mapped_in_region _ _ _ 0x1000 0x4000); [set_solver|lia|unfold PGSIZE; lia].
  - exists s', l'. split_and!; [done|done|..]; rewrite Hin.
    + right. split; [by exists 2|lia].
    + right. split; [by exists 3|lia].
    + intros [?|([k Hk] & ? & ?)]; [set_solver|lia].
    + intros [?|([k Hk] & ? & ?)]; [set_solver|lia].
Defined.

(** [init_pmm] adds no page at all: wherever the kernel image ends, the
    start of the range is an address of the direct map, above [PHYSTOP], so
    the loop stops before its first page and the state is unchanged; the first
    [pmm_alloc] after it fails. *)
Theorem init_pmm_frees_nothing s KVA_KERNEL_END fuel :
  KVA_KERNEL_BEGIN <= KVA_KERNEL_END < 2 ^ 64 -> (0 < fuel)%nat -> free_pages s [] ->
  (init_pmm KVA_KERNEL_END fuel ;; pmm_alloc) s = Ok (0, s).
Proof.
  intros Hend Hf Hfp. unfold init_pmm, pmm_free_range, VA_KERNEL_END.
  assert (KV2V KVA_KERNEL_END = VA_PMAP_BEGIN + (KVA_KERNEL_END - KVA_KERNEL_BEGIN)) as ->.
  { unfold KV2V. rewrite (wrap_small 64 (KVA_KERNEL_BEGIN - VA_PMAP_BEGIN)) by done.
    rewrite wrap_small; [lia|]. unfold in_range, KVA_KERNEL_BEGIN, VA_PMAP_BEGIN in *. lia. }
  set (v := VA_PMAP_BEGIN + _).
  assert (VA_PMAP_BEGIN <= v < VA_PMAP_BEGIN + 2 ^ 31) as Hv
    by (unfold v, KVA_KERNEL_BEGIN in *; lia).
  destruct (ROUNDUP2N_spec v 12) as [Hr _]; [lia|unfold VA_PMAP_BEGIN in *; lia..|].
  change (ROUNDUP2N v (2 ^ 12)) with (PGROUNDUP v) in Hr.
  destruct fuel as [|fuel]; [lia|]. cbn [free_range_loop].
  rewrite wrap_small by (unfold in_range, VA_PMAP_BEGIN, PGSIZE in *; lia).
  destruct (Z.leb_spec (PGROUNDUP v + PGSIZE) PHYSTOP);
    [unfold VA_PMAP_BEGIN, PGSIZE, PHYSTOP in *; lia|].
  mrun done. by apply pmm_alloc_nil.
Qed.

Lemma init_pmm_frees_nothing_witness :
  (init_pmm 0xFFFFFFFF80200000 10 ;; pmm_alloc) (State 0 0 0 (Mem [] ∅)) =
  Ok (0, State 0 0 0 (Mem [] ∅)).
Proof.
  apply init_pmm_frees_nothing; [unfold KVA_KERNEL_BEGIN; lia|lia|].
  split; simpl; constructor.
Defined.

End PmmProps.
