(* ===== verification/Vmm.v ===== *)
(** kernel/memory/vmm.cpp: building page tables in software.

    The state is the page allocator (with the memory) and the CR3 register;
    [kpml4] and [kpdpe], the static tables, are the addresses the linker gives
    them.  Entries have the size and layout the compiler gives [pte_t]. *)
From S2P Require Import Prelude Layout Memory Libk Paging Pmm.
Import Utils MemLayout Paging.

(** ** Definitions *)
Module Vmm.
Import Pmm.

Record state := State { pmm : Pmm.state; cr3 : Z }.

Definition on_pmm {A} (c : M Pmm.state A) : M state A := zoom pmm (fun p s => State p (cr3 s)) c.
Definition on_mem {A} (c : M mem A) : M state A := on_pmm (Pmm.on_mem c).

Definition load_pte : Z -> M mem Z := load 12.
Definition store_pte : Z -> Z -> M mem unit := store 12.

(** The address of entry [i] of a table: [pt_t] is an array of [pte_t]. *)
Definition pt_entry (pt i : Z) : Z := u64 (pt + sizeof_pte_t * i).

Definition derefpte (pte alloc : Z) : M state Z :=
  e ← on_mem (load_pte pte);
  if negb (fget pte_t "p" e =? 0) then mret (P2KV (PTE_ADDR e))
  else if alloc =? 0 then mret 0
  else
    pt ← on_pmm pmm_alloc;
    if pt =? 0 then mret 0
    else
      e ← on_mem (load_pte pte);
      on_mem (memset (Z.to_nat PGSIZE) pt (PTE_LAYER (fget pte_t "layer" e - 1))) ;;
      on_mem (store_pte pte (finit pte_t [("p", 1); ("w", 1); ("addr", KVA_TO_PTE_ADDR pt)])) ;;
      mret pt.

(** The indices come from the 8 bytes stored at [va_ptr], which is taken as a
    pointer to a [va_4k]. *)
Definition getaddrpte (pml4 va_ptr alloc : Z) : M state Z :=
  va ← on_mem (load64 va_ptr);
  let pml4e := pt_entry pml4 (fget va_4k "pml4i" va) in
  pdpt ← derefpte pml4e alloc;
  va ← on_mem (load64 va_ptr);
  let pdpte := pt_entry pdpt (fget va_4k "pdpti" va) in
  e ← on_mem (load_pte pdpte);
  if negb (fget pte_t "large" e =? 0) then mret pdpte
  else
    pd ← derefpte pdpte alloc;
    va ← on_mem (load64 va_ptr);
    let pde := pt_entry pd (fget va_4k "pdi" va) in
    e ← on_mem (load_pte pde);
    if negb (fget pte_t "large" e =? 0) then mret pde
    else
      pt ← derefpte pde alloc;
      va ← on_mem (load64 va_ptr);
      mret (pt_entry pt (fget va_4k "pti" va)).

(** [pte->f = v] *)
Definition set_pte (pte : Z) (f : string) (v : Z) : M state unit :=
  e ← on_mem (load_pte pte); on_mem (store_pte pte (fset pte_t f v e)).

Fixpoint mappages_loop (fuel : nat) (pml4 va last_page pa w u : Z) : M state Z :=
  match fuel with
  | O => fail OutOfFuel
  | S fuel =>
      if va <=? last_page then
        pte ← getaddrpte pml4 va 1;
        if pte =? 0 then mret 1
        else
          set_pte pte "w" w ;;
          set_pte pte "u" u ;;
          set_pte pte "addr" (PA_TO_PTE_ADDR pa) ;;
          set_pte pte "p" 1 ;;
          mappages_loop fuel pml4 (u64 (va + PGSIZE)) last_page (u64 (pa + PGSIZE)) w u
      else mret 0
  end.

Definition mappages (fuel : nat) (pml4 va size pa w u : Z) : M state Z :=
  let last_page := PGROUNDDOWN (u64 (va + size - 1)) in
  mappages_loop fuel pml4 (PGROUNDDOWN va) last_page pa w u.

Record kmap_entry := Kmap { va_begin : Z; pa_begin : Z; pa_end : Z; kw : Z }.

(** A static array that nothing assigns. *)
Definition kmap : list kmap_entry := [Kmap 0 0 0 0; Kmap 0 0 0 0].

(** [!mappages(...)] is true when the call returned 0; [w] is a [boolean],
    an unsigned byte. *)
Fixpoint setupkvm_loop (fuel : nat) (pml4 : Z) (ks : list kmap_entry) : M state Z :=
  match ks with
  | [] => mret pml4
  | k :: ks =>
      r ← mappages fuel pml4 (va_begin k) (u64 (pa_end k - pa_begin k)) (pa_begin k) (u8 (kw k)) 0;
      if r =? 0 then mret 0 else setupkvm_loop fuel pml4 ks
  end.

Definition setupkvm (fuel : nat) : M state Z :=
  pml4 ← on_pmm pmm_alloc;
  if pml4 =? 0 then mret 0
  else
    on_mem (memset (Z.to_nat PGSIZE) pml4 (PTE_LAYER 4)) ;;
    setupkvm_loop fuel pml4 kmap.

Definition lcr3 (val : Z) : M state unit := modify (fun s => State (pmm s) val).

Definition init_vmm (kpml4 kpdpe : Z) : M state unit :=
  for_loop 510 0 (fun i => on_mem (store_pte (pt_entry kpdpe i)
    (finit pte_t [("p", 1); ("w", 1); ("large", 1); ("addr", PA_TO_PTE_ADDR (i * _1GB))]))) ;;
  on_mem (store_pte (pt_entry kpdpe 510)
    (finit pte_t [("p", 1); ("w", 1); ("large", 1); ("addr", PA_TO_PTE_ADDR 0)])) ;;
  on_mem (store_pte (pt_entry kpdpe 511)
    (finit pte_t [("p", 1); ("w", 1); ("large", 1); ("addr", PA_TO_PTE_ADDR _1GB)])) ;;
  on_mem (store_pte (pt_entry kpml4 511)
    (finit pte_t [("p", 1); ("w", 1); ("addr", KVA_TO_PTE_ADDR kpdpe)])) ;;
  lcr3 (KV2P kpml4).

End Vmm.

(** ** Facts *)
Module VmmFacts.
Import Pmm PmmFacts Vmm.

Abbreviation kmem s := (memory (pmm s)).

Definition with_mem (s : state) (m : mem) : state :=
  State (Pmm.State (lock (pmm s)) (use_lock (pmm s)) (freelist (pmm s)) m) (cr3 s).

Lemma on_mem_Ok {A} (c : M mem A) s a m :
  c (kmem s) = Ok (a, m) -> on_mem c s = Ok (a, with_mem s m).
Proof. intros H. unfold on_mem, on_pmm, Pmm.on_mem, zoom. by rewrite H. Qed.

Lemma with_mem_same s : with_mem s (kmem s) = s.
Proof. by destruct s as [[] ?]. Qed.

(** Loads leave the state alone. *)
Lemma on_mem_load n a s :
  mapped_range (kmem s) a (Z.of_nat n) -> on_mem (load n a) s = Ok (peek n (kmem s) a, s).
Proof. intros H. erewrite on_mem_Ok by by apply load_ok. by rewrite with_mem_same. Qed.

Lemma on_mem_store n a v s :
  mapped_range (kmem s) a (Z.of_nat n) ->
  on_mem (store n a v) s = Ok (tt, with_mem s (poke n (kmem s) a v)).
Proof. intros H. by apply on_mem_Ok, store_ok. Qed.

(** The byte that [memset] receives for a table of any layer is 0. *)
Lemma PTE_LAYER_byte x : u8 (PTE_LAYER x) = 0.
Proof.
  unfold PTE_LAYER, swrap, wrap. rewrite Z.shiftl_mul_pow2 by lia.
  set (r := (x * 2 ^ 9) mod 2 ^ 32). assert (r mod 2 ^ 8 = 0) as Hr.
  { unfold r. rewrite Z.mod_mod_divide by (by exists (2 ^ 24)).
    replace (x * 2 ^ 9) with (x * 2 * 2 ^ 8) by lia. apply Z_mod_mult. }
  destruct (r <? 2 ^ (32 - 1)); [done|].
  replace (r - 2 ^ 32) with (r + - 2 ^ 24 * 2 ^ 8) by lia. by rewrite Z_mod_plus_full.
Qed.

Lemma PGSIZE_nat : Z.of_nat (Z.to_nat PGSIZE) = PGSIZE.
Proof. by rewrite Z2Nat.id. Qed.

(** A cleared page. *)
Lemma byte_at_clear m p x :
  byte_at (fill (Z.to_nat PGSIZE) m p 0) x =
  if (p <=? x) && (x <? p + PGSIZE) then 0 else byte_at m x.
Proof. by rewrite byte_at_fill, PGSIZE_nat. Qed.

Lemma fill_layer n m a x : fill n m a (PTE_LAYER x) = fill n m a 0.
Proof. apply fill_byte, PTE_LAYER_byte. Qed.

Lemma derefpte_present s pte a :
  mapped_range (kmem s) pte 12 -> fget pte_t "p" (peek 12 (kmem s) pte) = 1 ->
  derefpte pte a s = Ok (P2KV (PTE_ADDR (peek 12 (kmem s) pte)), s).
Proof. intros Hm Hp. unfold derefpte. mrun by apply (on_mem_load 12). by rewrite Hp. Qed.

(** The state after a table has been allocated for an absent entry. *)
Definition table_added (s : state) (pte p : Z) : state :=
  let m := fill (Z.to_nat PGSIZE) (kmem s) p 0 in
  State (Pmm.State (lock (pmm s)) (use_lock (pmm s)) (peek 8 (kmem s) p)
    (poke 12 m pte (finit pte_t [("p", 1); ("w", 1); ("addr", KVA_TO_PTE_ADDR p)]))) (cr3 s).

Section derefpte.
Context (s : state) (p : Z) (l : list Z) (pte : Z).
Hypothesis Hfp : free_pages (pmm s) (p :: l).
Hypothesis Hm : mapped_range (kmem s) pte 12.
Hypothesis Habsent : fget pte_t "p" (peek 12 (kmem s) pte) = 0.
Hypothesis Hapart : forall q, q ∈ p :: l -> pte + 12 <= q \/ q + PGSIZE <= pte.

Lemma page_ok_head : page_ok (kmem s) p.
Proof. destruct Hfp as [_ Hok _]. by apply Forall_cons in Hok as [? _]. Qed.

Lemma derefpte_run a : a <> 0 -> derefpte pte a s = Ok (p, table_added s pte p).
Proof.
  intros Ha. unfold derefpte. mrun by apply (on_mem_load 12). rewrite Habsent. simpl.
  destruct (Z.eqb_spec a 0); [done|].
  destruct (pmm_alloc_pop _ _ _ Hfp) as [Hrun _].
  mrun by apply zoom_Ok. destruct page_ok_head as [_ Hpm Hp0 _].
  destruct (Z.eqb_spec p 0); [lia|].
  mrun by apply (on_mem_load 12).
  mrun by apply on_mem_Ok, memset_ok. rewrite fill_layer.
  mrun (apply (on_mem_store 12); by apply mapped_range_fill). done.
Qed.

Lemma table_added_free : free_pages (pmm (table_added s pte p)) l.
Proof.
  destruct (pmm_alloc_pop _ _ _ Hfp) as [_ Hfp']. pose proof page_ok_head as Hp.
  apply (free_pages_frame _ l (poke 12 (fill (Z.to_nat PGSIZE) (kmem s) p 0) pte
    (finit pte_t [("p", 1); ("w", 1); ("addr", KVA_TO_PTE_ADDR p)])) Hfp').
  - intros x. cbn [memory set_freelist]. by rewrite mapped_poke, mapped_fill.
  - intros q Hq. cbn [memory set_freelist].
    assert (p + PGSIZE <= q \/ q + PGSIZE <= p) as Hd.
    { destruct Hfp as [_ Hok Hnd]. rewrite Forall_forall in Hok.
      apply NoDup_cons in Hnd as [Hnin _].
      apply (page_disjoint (kmem s)); [done|by apply Hok, list_elem_of_further|congruence]. }
    assert (pte + 12 <= q \/ q + PGSIZE <= pte) by by apply Hapart, list_elem_of_further.
    rewrite peek_poke_other by (unfold PGSIZE in *; lia).
    apply peek_fill_other. rewrite PGSIZE_nat. unfold PGSIZE in *. lia.
Qed.

Lemma table_added_zero x :
  p <= x < p + PGSIZE -> byte_at (kmem (table_added s pte p)) x = 0.
Proof.
  intros Hx. cbn [table_added pmm memory].
  assert (pte + 12 <= p \/ p + PGSIZE <= pte) by by apply Hapart, list_elem_of_here.
  rewrite byte_at_poke_other by lia. rewrite byte_at_clear. by zcase; try lia.
Qed.

Lemma table_added_other x :
  x < p \/ p + PGSIZE <= x -> x < pte \/ pte + 12 <= x ->
  byte_at (kmem (table_added s pte p)) x = byte_at (kmem s) x.
Proof.
  intros Hx Hy. cbn [table_added pmm memory].
  rewrite byte_at_poke_other by lia. rewrite byte_at_clear. by zcase; try lia.
Qed.

(** The entry written for a page of the kernel window leads back to it. *)
Lemma table_added_deref a :
  KVA_KERNEL_BEGIN <= p -> derefpte pte a (table_added s pte p) = Ok (p, table_added s pte p).
Proof.
  intros Hw. destruct page_ok_head as [[k Hk] _ _ Hhi].
  set (s' := table_added s pte p).
  assert (peek 12 (kmem s') pte = 3 + 2 ^ 32 * ((p - KVA_KERNEL_BEGIN) / 4096)) as E.
  { unfold s'. cbn [table_added pmm memory]. rewrite peek_poke_same, pte_table_value.
    rewrite KVA_TO_PTE_ADDR_window by (unfold PGSIZE in *; lia).
    assert (in_range 19 ((p - KVA_KERNEL_BEGIN) / 4096)) as Hr
      by (unfold in_range, KVA_KERNEL_BEGIN, PGSIZE in *; split;
          [apply Z.div_pos; lia|apply Z.div_lt_upper_bound; lia]).
    rewrite (wrap_small 28) by (unfold in_range in *; lia).
    apply wrap_small. change (8 * Z.of_nat 12) with 96. unfold in_range in *. lia. }
  rewrite derefpte_present.
  - rewrite E. f_equal. f_equal. unfold PTE_ADDR. rewrite pte_value_addr by lia.
    assert (p - KVA_KERNEL_BEGIN = (k - 0xFFFFFFFF80000) * 4096) as Ek
      by (unfold KVA_KERNEL_BEGIN, PGSIZE in *; lia).
    rewrite Ek, Z.div_mul by lia. unfold KVA_KERNEL_BEGIN, PGSIZE in *.
    rewrite (wrap_small 28) by (unfold in_range; lia).
    rewrite Z.shiftl_mul_pow2, (wrap_small 64) by (unfold in_range; lia).
    unfold P2KV. rewrite wrap_small by (unfold in_range, KVA_KERNEL_BEGIN; lia).
    unfold KVA_KERNEL_BEGIN. lia.
  - cbn [table_added pmm memory]. by apply mapped_range_poke, mapped_range_fill.
  - rewrite E, pte_value_p by lia. reflexivity.
Qed.

End derefpte.

(** ** The static tables *)

(** Frame of entry [i] of [kpdpe]: 1 GiB pages from 0, and the first two again. *)
Definition kpdpe_frame (i : Z) : Z := (if i <? 510 then i else i - 510) * 2 ^ 18.

Record kpdpe_filled (m m' : mem) (kpdpe j : Z) : Prop := {
  kf_mapped : forall x, mapped m' x = mapped m x;
  kf_entry : forall i, 0 <= i < j -> peek 12 m' (kpdpe + 12 * i) = 131 + 2 ^ 32 * kpdpe_frame i;
  kf_other : forall x, x < kpdpe \/ kpdpe + 12 * j <= x -> byte_at m' x = byte_at m x }.

Lemma kpdpe_frame_range i : 0 <= i < 512 -> in_range 28 (kpdpe_frame i).
Proof. intros Hi. unfold in_range, kpdpe_frame. zcase; lia. Qed.

Lemma pt_entry_small pt i : 0 <= pt -> 0 <= i < 512 -> pt + 6144 <= 2 ^ 64 -> pt_entry pt i = pt + 12 * i.
Proof. intros. unfold pt_entry. change sizeof_pte_t with 12. apply wrap_small. unfold in_range. lia. Qed.

Lemma PA_TO_PTE_ADDR_GB i : 0 <= i < 512 -> PA_TO_PTE_ADDR (i * _1GB) = i * 2 ^ 18.
Proof.
  intros Hi. unfold PA_TO_PTE_ADDR. change _1GB with (2 ^ 30).
  rewrite (wrap_small 64) by (unfold in_range; lia). rewrite Z.shiftr_div_pow2 by lia.
  replace (i * 2 ^ 30) with (i * 2 ^ 18 * 2 ^ 12) by lia. rewrite Z.div_mul by lia.
  apply wrap_small. unfold in_range. lia.
Qed.

Lemma kpdpe_step m m' kpdpe j a :
  kpdpe_filled m m' kpdpe j -> 0 <= j < 512 -> a = kpdpe_frame j ->
  kpdpe_filled m (poke 12 m' (kpdpe + 12 * j)
    (finit pte_t [("p", 1); ("w", 1); ("large", 1); ("addr", a)])) kpdpe (j + 1).
Proof.
  intros [Hm He Ho] Hj ->. pose proof (kpdpe_frame_range j Hj) as Hr. split.
  - intros x. by rewrite mapped_poke.
  - intros i Hi. destruct (decide (i = j)) as [->|].
    + rewrite peek_poke_same, pte_large_value, (wrap_small 28) by done.
      apply wrap_small. change (8 * Z.of_nat 12) with 96. unfold in_range in *. lia.
    + rewrite peek_poke_other by lia. apply He. lia.
  - intros x Hx. rewrite byte_at_poke_other by lia. apply Ho. lia.
Qed.

(** One iteration of the loop of [init_vmm], and the two stores after it. *)
Lemma kpdpe_store s m' kpdpe j a :
  0 <= kpdpe -> kpdpe + 6144 <= 2 ^ 64 -> mapped_range (kmem s) kpdpe 6144 ->
  kpdpe_filled (kmem s) m' kpdpe j -> 0 <= j < 512 -> a = kpdpe_frame j ->
  exists m'', on_mem (store_pte (pt_entry kpdpe j)
      (finit pte_t [("p", 1); ("w", 1); ("large", 1); ("addr", a)])) (with_mem s m') =
    Ok (tt, with_mem s m'') /\ kpdpe_filled (kmem s) m'' kpdpe (j + 1).
Proof.
  intros Hk Hk' Hmap Hf Hj Ha. rewrite pt_entry_small by done. eexists. split.
  - etrans; [apply (on_mem_store 12)|reflexivity].
    intros x Hx. simpl. rewrite (kf_mapped _ _ _ _ Hf). apply Hmap. lia.
  - by apply kpdpe_step.
Qed.

Lemma init_kpdpe s kpdpe :
  0 <= kpdpe -> kpdpe + 6144 <= 2 ^ 64 -> mapped_range (kmem s) kpdpe 6144 ->
  exists m', for_loop 510 0 (fun i => on_mem (store_pte (pt_entry kpdpe i)
      (finit pte_t [("p", 1); ("w", 1); ("large", 1); ("addr", PA_TO_PTE_ADDR (i * _1GB))]))) s =
    Ok (tt, with_mem s m') /\ kpdpe_filled (kmem s) m' kpdpe 510.
Proof.
  intros Hk Hk' Hmap.
  destruct (for_loop_inv (fun j t => exists m', t = with_mem s m' /\ kpdpe_filled (kmem s) m' kpdpe j)
    (fun i => on_mem (store_pte (pt_entry kpdpe i)
      (finit pte_t [("p", 1); ("w", 1); ("large", 1); ("addr", PA_TO_PTE_ADDR (i * _1GB))])))
    510 0 s) as (s' & Hrun & m' & -> & Hf).
  - exists (kmem s). split; [by rewrite with_mem_same|]. split; [done|lia|done].
  - intros j t Hj (m' & -> & Hf). rewrite PA_TO_PTE_ADDR_GB by lia.
    destruct (kpdpe_store s m' kpdpe j (j * 2 ^ 18)) as (m'' & Hrun & Hf'); try done; [lia| |eauto].
    unfold kpdpe_frame. by zcase; lia.
  - by exists m'.
Qed.

(** The result of [mappages] is 0 or 1. *)
Lemma mappages_result fuel pml4 va size pa w u s r s' :
  mappages fuel pml4 va size pa w u s = Ok (r, s') -> r = 0 \/ r = 1.
Proof.
  unfold mappages. generalize (PGROUNDDOWN va), pa, s.
  induction fuel as [|fuel IH]; intros va' pa' s0 H; cbn [mappages_loop] in H; [done|].
  destruct (va' <=? _); minv; [|tauto].
  match type of H with context [?a =? 0] => destruct (a =? 0) end; minv; eauto.
Qed.

(** A range that ends in the last page of the address space never ends: the
    loop does not report success. *)
Lemma mappages_loop_top pml4 last_page pa w u : forall fuel va s s',
  (forall x, in_range 64 x -> x <= last_page \/ x mod PGSIZE <> 0) -> va mod PGSIZE = 0 ->
  in_range 64 va ->
  mappages_loop fuel pml4 va last_page pa w u s <> Ok (0, s').
Proof.
  intros fuel. revert pa. induction fuel as [|fuel IH]; intros pa va s s' Htop Hal Hr H; [done|].
  cbn [mappages_loop] in H. destruct (Z.leb_spec va last_page).
  - minv. match type of H with context [?a =? 0] => destruct (Z.eqb_spec a 0) end; minv; [done|].
    eapply IH; [exact Htop| | |exact H].
    + unfold wrap. rewrite Z.mod_mod_divide by (by exists (2 ^ 52)).
      rewrite <- Zplus_mod_idemp_l, Hal. done.
    + by apply wrap_range.
  - destruct (Htop va Hr); [lia|done].
Qed.

Lemma mappages_empty fuel pml4 w s s' :
  mappages fuel pml4 0 (u64 (0 - 0)) 0 w 0 s <> Ok (0, s').
Proof.
  unfold mappages. apply mappages_loop_top; [|done|done].
  intros x Hx. change (PGROUNDDOWN _) with 0xFFFFFFFFFFFFF000. unfold in_range, PGSIZE in *.
  destruct (decide (x <= 0xFFFFFFFFFFFFF000)); [by left|right].
  intros H. pose proof (Z.div_mod x 4096). lia.
Qed.

Lemma init_vmm_run s kpml4 kpdpe :
  0 <= kpdpe -> kpdpe + 6144 <= 2 ^ 64 -> 0 <= kpml4 -> kpml4 + 6144 <= 2 ^ 64 ->
  mapped_range (kmem s) kpdpe 6144 -> mapped_range (kmem s) kpml4 6144 ->
  kpdpe + 6144 <= kpml4 \/ kpml4 + 6144 <= kpdpe ->
  exists s', init_vmm kpml4 kpdpe s = Ok (tt, s') /\ cr3 s' = KV2P kpml4 /\
    (forall i, 0 <= i < 512 -> peek 12 (kmem s') (kpdpe + 12 * i) = 131 + 2 ^ 32 * kpdpe_frame i) /\
    (forall i, 0 <= i < 512 -> peek 8 (kmem s') (kpml4 + 8 * i) = peek 8 (kmem s) (kpml4 + 8 * i)).
Proof.
  intros Hd Hd' Hl Hl' Hmd Hml Hap. unfold init_vmm.
  destruct (init_kpdpe s kpdpe) as (m1 & Hr1 & Hf1); [done..|]. rewrite (bind_Ok _ _ _ _ _ Hr1).
  destruct (kpdpe_store s m1 kpdpe 510 (PA_TO_PTE_ADDR 0)) as (m2 & Hr2 & Hf2); [done..|].
  rewrite (bind_Ok _ _ _ _ _ Hr2).
  destruct (kpdpe_store s m2 kpdpe 511 (PA_TO_PTE_ADDR _1GB)) as (m3 & Hr3 & Hf3); [done..|].
  rewrite (bind_Ok _ _ _ _ _ Hr3). rewrite (pt_entry_small kpml4) by (done || lia).
  mrun (apply (on_mem_store 12); intros x Hx; simpl; rewrite (kf_mapped _ _ _ _ Hf3); apply Hml; lia).
  eexists. split; [done|]. split; [done|]. split; simpl.
  - intros i Hi. rewrite peek_poke_other by lia. by apply (kf_entry _ _ _ _ Hf3).
  - intros i Hi. rewrite peek_poke_other by lia. apply peek_ext. intros x Hx.
    apply (kf_other _ _ _ _ Hf3). lia.
Qed.

End VmmFacts.

(** ** Properties *)
Module VmmProps.
Import Pmm PmmFacts Vmm VmmFacts.

(** C21. [derefpte] on an absent entry outside the free pages, when the allocator
    has a page of the kernel window: it returns that page, the allocator keeps
    the others, the 4096 bytes of the page are zero whatever layer the entry
    had, nothing else changes but the entry, and from then on [derefpte] of the
    same entry, allocating or not, returns the same page without a further
    change.  An entry of paging.h takes 12 bytes, so that this clears the first
    341 of the 512 entries of the new table; the others lie behind the page. *)
Theorem derefpte_allocates s p l pte alloc :
  free_pages (pmm s) (p :: l) -> KVA_KERNEL_BEGIN <= p ->
  mapped_range (kmem s) pte 12 -> fget pte_t "p" (peek 12 (kmem s) pte) = 0 ->
  (forall q, q ∈ p :: l -> pte + 12 <= q \/ q + PGSIZE <= pte) -> alloc <> 0 ->
  exists s', derefpte pte alloc s = Ok (p, s') /\ free_pages (pmm s') l /\ cr3 s' = cr3 s /\
    (forall x, p <= x < p + PGSIZE -> byte_at (kmem s') x = 0) /\
    (forall i, 0 <= i < 341 -> peek 12 (kmem s') (p + 12 * i) = 0) /\
    (forall x, x < p \/ p + PGSIZE <= x -> x < pte \/ pte + 12 <= x ->
      byte_at (kmem s') x = byte_at (kmem s) x) /\
    (forall a, derefpte pte a s' = Ok (p, s')).
Proof.
  intros Hfp Hw Hm Habs Hapart Ha. exists (table_added s pte p).
  assert (forall x, p <= x < p + PGSIZE -> byte_at (kmem (table_added s pte p)) x = 0) as Hz
    by (intros x; by eapply table_added_zero).
  split_and!.
  - by eapply derefpte_run.
  - by apply table_added_free.
  - done.
  - exact Hz.
  - intros i Hi. apply peek_zero. intros x Hx. apply Hz. unfold PGSIZE. lia.
  - intros x. by apply table_added_other.
  - intros a. by eapply table_added_deref.
Qed.

Definition window_page : Z := KVA_KERNEL_BEGIN + 0x200000.
Definition one_page : state :=
  State (Pmm.State 0 0 window_page (Mem [(window_page, 4096); (0x1000, 12)] ∅)) 0.

Lemma one_page_free : free_pages (pmm one_page) [window_page].
Proof.
  split; simpl.
  - constructor; [done|]. replace (peek 8 _ _) with 0 by done. constructor.
  - constructor; [|constructor]. split; [by exists 0xFFFFFFFF80200|by apply mapped_range_check| |];
      unfold window_page, KVA_KERNEL_BEGIN, PGSIZE; lia.
  - apply NoDup_singleton.
Qed.

Lemma derefpte_allocates_witness :
  exists s', derefpte 0x1000 1 one_page = Ok (window_page, s') /\ free_pages (pmm s') [].
Proof.
  destruct (derefpte_allocates one_page window_page [] 0x1000 1) as (s' & Hrun & Hfp & _).
  - apply one_page_free.
  - unfold window_page. lia.
  - by apply mapped_range_check.
  - done.
  - intros q Hq. apply list_elem_of_singleton in Hq as ->. left.
    unfold window_page, KVA_KERNEL_BEGIN. lia.
  - done.
  - exists s'. exact (conj Hrun Hfp).
Defined.

(** [init_vmm] on tables in the kernel window: it fills the 512 entries of
    [kpdpe] with present 1 GiB pages (0, 1, ..., 509, and again 0 and 1) and
    loads CR3, but because of the size of an entry, [kpml4[511]] lies outside
    the page of [kpml4]: none of the 512 entries the processor reads there
    changes. *)
Theorem init_vmm_tables s kpml4 kpdpe :
  0 <= kpdpe -> kpdpe + 6144 <= 2 ^ 64 -> 0 <= kpml4 -> kpml4 + 6144 <= 2 ^ 64 ->
  mapped_range (kmem s) kpdpe 6144 -> mapped_range (kmem s) kpml4 6144 ->
  kpdpe + 6144 <= kpml4 \/ kpml4 + 6144 <= kpdpe ->
  exists s', init_vmm kpml4 kpdpe s = Ok (tt, s') /\ cr3 s' = KV2P kpml4 /\
    (forall i, 0 <= i < 512 -> peek 12 (kmem s') (kpdpe + 12 * i) = 131 + 2 ^ 32 * kpdpe_frame i) /\
    (forall i, 0 <= i < 512 -> peek 8 (kmem s') (kpml4 + 8 * i) = peek 8 (kmem s) (kpml4 + 8 * i)).
Proof. apply init_vmm_run. Qed.

Lemma init_vmm_tables_witness :
  exists s', init_vmm KVA_KERNEL_BEGIN (KVA_KERNEL_BEGIN + 0x2000)
    (State (Pmm.State 0 0 0 (Mem [(KVA_KERNEL_BEGIN, 0x4000)] ∅)) 0) = Ok (tt, s') /\
    cr3 s' = 0 /\ peek 12 (kmem s') (KVA_KERNEL_BEGIN + 0x2000 + 12 * 3) = 131 + 2 ^ 32 * (3 * 2 ^ 18).
Proof.
  destruct (init_vmm_tables (State (Pmm.State 0 0 0 (Mem [(KVA_KERNEL_BEGIN, 0x4000)] ∅)) 0)
    KVA_KERNEL_BEGIN (KVA_KERNEL_BEGIN + 0x2000)) as (s' & Hrun & Hc & He & _).
  1-4: unfold KVA_KERNEL_BEGIN; lia.
  1-2: by apply mapped_range_check.
  1: right; lia.
  exists s'. split; [exact Hrun|]. split; [exact Hc|]. rewrite He by lia. reflexivity.
Defined.

(** The linker script places [kpml4] below the kernel window, at its
    physical address; [init_vmm] then loads CR3 with that address plus 2 GiB,
    not with the address of the table. *)
Theorem init_vmm_cr3_low s s' kpml4 kpdpe :
  0 <= kpml4 < 2 ^ 31 -> init_vmm kpml4 kpdpe s = Ok (tt, s') -> cr3 s' = kpml4 + 2 ^ 31.
Proof.
  intros Hk H. unfold init_vmm, lcr3 in H. minv. simpl.
  unfold KV2P, wrap, KVA_KERNEL_BEGIN.
  rewrite <- (Z_mod_plus_full _ 1 (2 ^ 64)). rewrite Z.mod_small; lia.
Qed.

Definition boot_memory : state :=
  State (Pmm.State 0 0 0 (Mem [(0x101000, 0x4000); (0x200000, 0x2000)] ∅)) 0.

Lemma init_vmm_cr3_low_witness :
  exists s', init_vmm 0x101000 0x200000 boot_memory = Ok (tt, s') /\ cr3 s' = 0x80101000.
Proof.
  destruct (init_vmm_run boot_memory 0x101000 0x200000) as (s' & Hrun & _).
  1-4: lia.
  1-2: by apply mapped_range_check.
  1: right; lia.
  exists s'. split; [exact Hrun|].
  apply (init_vmm_cr3_low boot_memory s' 0x101000 0x200000); [lia|exact Hrun].
Defined.

(** [getaddrpte] reads the table indices from the memory at the virtual
    address, so the page to be mapped has to be accessible already:
    [mappages] of a page that is not faults instead of mapping it. *)
Theorem mappages_unmapped_page fuel s pml4 va size pa w u :
  (PGSIZE | va) -> 0 <= va -> 0 < size -> va + size <= 2 ^ 64 -> (0 < fuel)%nat ->
  mapped (kmem s) va = false ->
  mappages fuel pml4 va size pa w u s = Fault (Unmapped va).
Proof.
  intros [k Hk] Hva Hsz Hov Hf Hm. unfold mappages, PGROUNDDOWN.
  change PGSIZE with (2 ^ 12) in *.
  destruct (ROUNDDOWN2N_spec va 12) as [[Hlo Hhi] [j Hj]]; [lia|unfold in_range; lia|].
  assert (ROUNDDOWN2N va (2 ^ 12) = va) as -> by lia.
  rewrite (wrap_small 64) by (unfold in_range; lia).
  destruct (ROUNDDOWN2N_spec (va + size - 1) 12) as [[Hlo2 Hhi2] [i Hi]]; [lia|unfold in_range; lia|].
  destruct fuel as [|fuel]; [lia|]. cbn [mappages_loop].
  destruct (Z.leb_spec va (ROUNDDOWN2N (va + size - 1) (2 ^ 12))); [|lia].
  apply bind_Fault. unfold getaddrpte. apply bind_Fault.
  unfold on_mem, on_pmm, Pmm.on_mem, zoom, load64, load. unfold mbind, M_bind, load8. by rewrite Hm.
Qed.

Lemma mappages_unmapped_page_witness :
  mappages 5 0x1000 0x400000 4096 0x5000 1 0 one_page = Fault (Unmapped 0x400000).
Proof. apply mappages_unmapped_page; (by exists 0x400) || done || lia. Defined.

(** [setupkvm] tests the result of [mappages] the wrong way round, and the
    never initialised table [kmap] asks for a range that never ends: whenever
    it returns, it returns the page it allocated (the null pointer with none),
    and if that is a page, both calls of [mappages] for it have reported a
    failure. *)
Theorem setupkvm_returns fuel s l r s' :
  free_pages (pmm s) l -> setupkvm fuel s = Ok (r, s') ->
  r = default 0 (head l) /\
  (r <> 0 -> exists s1 s2 : state, mappages fuel r 0 0 0 0 0 s1 = Ok (1, s2) /\
                mappages fuel r 0 0 0 0 0 s2 = Ok (1, s')).
Proof.
  intros Hfp H. unfold setupkvm in H. apply bind_inv in H as (p & s0 & Ha & H).
  apply zoom_inv in Ha as (t & Ha & _). destruct l as [|q l].
  { rewrite pmm_alloc_nil in Ha by done. simplify_eq. simpl in H. by minv. }
  destruct (pmm_alloc_pop _ _ _ Hfp) as [Hpop _]. rewrite Hpop in Ha. simplify_eq. simpl.
  destruct Hfp as [_ Hok _]. apply Forall_cons in Hok as [[_ _ Hp _] _].
  destruct (Z.eqb_spec p 0); [lia|].
  apply bind_inv in H as ([] & s1 & _ & H). unfold kmap in H. cbn [setupkvm_loop] in H.
  apply bind_inv in H as (r1 & s2 & H1 & H).
  destruct (mappages_result _ _ _ _ _ _ _ _ _ _ H1) as [->| ->].
  { by apply mappages_empty in H1. }
  apply bind_inv in H as (r2 & s3 & H2 & H).
  destruct (mappages_result _ _ _ _ _ _ _ _ _ _ H2) as [->| ->].
  { by apply mappages_empty in H2. }
  cbn in H. minv. split; [done|]. intros _. exists s1, s2. exact (conj H1 H2).
Qed.

Definition last_page : state :=
  State (Pmm.State 0 0 window_page (Mem [(window_page, 4096); (0, 12)] ∅)) 0.

Lemma setupkvm_returns_witness : exists s', setupkvm 1 last_page = Ok (window_page, s').
Proof.
  destruct (result_of_Some (setupkvm 1 last_page) window_page) as [s' Hs']; [vm_compute; reflexivity|].
  exists s'. enough (window_page = default 0 (head [window_page])) by exact Hs'.
  apply (setupkvm_returns 1 last_page [window_page] window_page s'); [|exact Hs'].
  split; simpl.
  - constructor; [done|]. replace (peek 8 _ _) with 0 by done. constructor.
  - constructor; [|constructor]. split; [by exists 0xFFFFFFFF80200|by apply mapped_range_check| |];
      unfold window_page, KVA_KERNEL_BEGIN, PGSIZE; lia.
  - apply NoDup_singleton.
Defined.

End VmmProps.
