(* ===== verification/Kmalloc.v ===== *)
(** kernel/memory/kmalloc.cpp: the kernel heap, an array of bytes divided into
    blocks with a two-byte header, the free ones linked by 16-bit indices.

    Pointers are addresses, [kmem] the address of the array.  The state has
    the two static variables and the memory; a read outside the 65535 bytes of
    the array is a fault. *)
From S2P Require Import Prelude Layout Memory Libk.
Import Utils ErrorOr.

(** ** Definitions *)
Module Kmalloc.

Definition MAX_ALLOC : Z := 65535.

Record state := State { freelist : Z; bytes_allocated : Z; memory : mem }.

Definition set_freelist (p : Z) (s : state) : state := State p (bytes_allocated s) (memory s).
Definition set_bytes (n : Z) (s : state) : state := State (freelist s) n (memory s).
Definition on_mem {A} (c : M mem A) : M state A :=
  zoom memory (fun m s => State (freelist s) (bytes_allocated s) m) c.

(** [block_header]: a 16-bit number whose two low bits are flags. *)
Definition header_members : list member :=
  [Bits "left_allocated" cu16 1; Bits "allocated" cu16 1; Bits "__size" cu16 14].
Definition block_header : list placed := layout false header_members.
Definition sizeof_block_header : Z := sizeof false header_members.

(** [free_block]: a header and the links. *)
Definition free_block_members : list member :=
  [Plain "header" (struct_type false header_members); Plain "prev" cu16; Plain "next" cu16].
Definition free_block : list placed := layout false free_block_members.
Definition sizeof_free_block : Z := sizeof false free_block_members.
Definition MIN_BLOCK_SIZE : Z := sizeof_free_block + sizeof_block_header.

(** [size()] read through the proxy, and assigned through it. *)
Definition size_of (h : Z) : Z := u16 (Z.land h (Z.lnot 3)).
Definition assign_size (val h : Z) : Z := u16 (Z.lor (Z.land val (Z.lnot 3)) (Z.land h 3)).

Definition get_header (b : Z) : M state Z := on_mem (load16 b).
Definition set_header (b h : Z) : M state unit := on_mem (store16 b h).
Definition get_size (b : Z) : M state Z := h ← get_header b; mret (size_of h).
Definition set_size (b val : Z) : M state unit :=
  h ← get_header b; set_header b (assign_size (u16 val) h).
Definition get_flag (b : Z) (f : string) : M state Z :=
  h ← get_header b; mret (fget block_header f h).
Definition set_flag (b : Z) (f : string) (v : Z) : M state unit :=
  h ← get_header b; set_header b (fset block_header f v h).

Definition prev_of (b : Z) : Z := u64 (b + offsetof free_block "prev").
Definition next_of (b : Z) : Z := u64 (b + offsetof free_block "next").

Definition copy_header_to_footer (block : Z) : M state unit :=
  sz ← get_size block;
  let footer := u64 (block + sz - sizeof_block_header) in
  h ← get_header block;
  set_header footer h.

Section heap.
Context (kmem : Z).

(** [&kmem[i]] *)
Definition at_idx (i : Z) : Z := u64 (kmem + i).

Definition init_kheap : M state unit :=
  f ← gets freelist; set_size f MAX_ALLOC ;;
  f ← gets freelist; on_mem (store16 (prev_of f) 0) ;;
  f ← gets freelist; on_mem (store16 (next_of f) 0).

Definition block_idx (block : Z) : Z := u16 (block - kmem).

Definition insert_into_free_list (block : Z) : M state unit :=
  previousFreelist ← gets freelist;
  modify (set_freelist block) ;;
  on_mem (store16 (next_of block) (block_idx previousFreelist)).

Definition remove_from_free_list (block : Z) : M state unit :=
  prev ← on_mem (load16 (prev_of block));
  (if prev =? 0 then
     next ← on_mem (load16 (next_of block));
     if next =? 0 then modify (set_freelist 0)
     else next ← on_mem (load16 (next_of block)); modify (set_freelist (at_idx next))
   else
     prev ← on_mem (load16 (prev_of block));
     next ← on_mem (load16 (next_of block));
     on_mem (store16 (next_of (at_idx prev)) next)) ;;
  next ← on_mem (load16 (next_of block));
  if negb (next =? 0) then
    next ← on_mem (load16 (next_of block));
    prev ← on_mem (load16 (prev_of block));
    on_mem (store16 (prev_of (at_idx next)) prev)
  else mret tt.

Definition place (suitable_block alloc_size : Z) : M state Z :=
  remove_from_free_list suitable_block ;;
  sz ← get_size suitable_block;
  allocated_block ←
    (if MIN_BLOCK_SIZE <=? u64 (sz - alloc_size) then
       sz ← get_size suitable_block;
       let allocated_block := u64 (suitable_block + sz - alloc_size) in
       set_size allocated_block alloc_size ;;
       set_flag allocated_block "left_allocated" 0 ;;
       sz ← get_size suitable_block;
       set_size suitable_block (sz - alloc_size) ;;
       set_flag suitable_block "allocated" 0 ;;
       copy_header_to_footer suitable_block ;;
       insert_into_free_list suitable_block ;;
       mret allocated_block
     else
       let allocated_block := suitable_block in
       sz ← get_size suitable_block;
       set_size allocated_block sz ;;
       set_flag allocated_block "left_allocated" 1 ;;
       mret allocated_block);
  set_flag allocated_block "allocated" 1 ;;
  sz ← get_size allocated_block;
  let next_block := u64 (allocated_block + sz) in
  set_flag next_block "left_allocated" 1 ;;
  sz ← get_size allocated_block;
  modify (fun s => set_bytes (u16 (bytes_allocated s + sz)) s) ;;
  mret allocated_block.

(** The search of [kmalloc]; [ptr] is [cur_free_block_ptr], the result
    [suitable_block]. *)
Fixpoint find_block (fuel : nat) (ptr alloc_size : Z) : M state Z :=
  match fuel with
  | O => fail OutOfFuel
  | S fuel =>
      idx ← on_mem (load16 ptr);
      let cur_free_block := at_idx idx in
      sz ← get_size cur_free_block;
      if u64 (alloc_size + sizeof_block_header) <=? sz then mret cur_free_block
      else
        idx ← on_mem (load16 ptr);
        if idx =? 0 then mret 0
        else idx ← on_mem (load16 ptr); find_block fuel (next_of (at_idx idx)) alloc_size
  end.

Definition kmalloc (fuel : nat) (alloc_size : Z) : M state Z :=
  if (alloc_size =? 0) || (MAX_ALLOC <? alloc_size) then mret 0
  else
    let alloc_size := ROUNDUP2N alloc_size 4 in
    let alloc_size := MAX alloc_size sizeof_free_block in
    f ← gets freelist;
    suitable_block ← find_block fuel (next_of f) alloc_size;
    if suitable_block =? 0 then mret 0
    else b ← place suitable_block alloc_size; mret (u64 (b + sizeof_block_header)).

Definition coalesce (block : Z) : M state unit :=
  sz ← get_size block;
  let right_block := u64 (block + sz) in
  coalesced_size ← get_size block;
  left ← get_flag block "left_allocated";
  '(coalescedBlock, coalesced_size) ←
    (if left =? 0 then
       let left_footer := u64 (block - sizeof_block_header) in
       lsz ← get_size left_footer;
       let coalesced_size := u16 (coalesced_size + lsz) in
       lsz ← get_size left_footer;
       let left_block := u64 (block - lsz) in
       remove_from_free_list left_block ;;
       mret (left_block, coalesced_size)
     else mret (block, coalesced_size));
  alloc ← get_flag right_block "allocated";
  coalesced_size ←
    (if alloc =? 0 then
       rsz ← get_size right_block;
       let coalesced_size := u16 (coalesced_size + rsz) in
       remove_from_free_list right_block ;;
       mret coalesced_size
     else
       set_flag right_block "left_allocated" 0 ;;
       mret coalesced_size);
  set_size coalescedBlock coalesced_size ;;
  set_flag coalescedBlock "allocated" 0 ;;
  set_flag coalescedBlock "left_allocated" 1 ;;
  copy_header_to_footer coalescedBlock ;;
  insert_into_free_list coalescedBlock.

Definition kfree (ptr : Z) : M state unit :=
  if ptr =? 0 then mret tt
  else
    let freed_block := u64 (ptr - sizeof_block_header) in
    sz ← get_size freed_block;
    modify (fun s => set_bytes (u16 (bytes_allocated s - sz)) s) ;;
    coalesce freed_block.

(** The operators: [new] and [new[]] halt without memory, their [nothrow]
    forms return the null pointer, every [delete] is [kfree]. *)
Definition operator_new (hlt : M state unit) (fuel : nat) (size : Z) : M state Z :=
  ptr ← kmalloc fuel size; ASSERTHALT hlt (negb (ptr =? 0)) ;; mret ptr.
Definition operator_new_nothrow (fuel : nat) (size : Z) : M state Z := kmalloc fuel size.
Definition operator_new_array (hlt : M state unit) (fuel : nat) (size : Z) : M state Z :=
  ptr ← kmalloc fuel size; ASSERTHALT hlt (negb (ptr =? 0)) ;; mret ptr.
Definition operator_new_array_nothrow (fuel : nat) (size : Z) : M state Z := kmalloc fuel size.
Definition operator_delete (ptr : Z) : M state unit := kfree ptr.
Definition operator_delete_sized (ptr size : Z) : M state unit := kfree ptr.
Definition operator_delete_array (ptr : Z) : M state unit := kfree ptr.
Definition operator_delete_array_sized (ptr size : Z) : M state unit := kfree ptr.

(** [std::allocator<T>] of devices/pci/Allocator.hpp, for a type of [sizeof_T]
    bytes, on these operators. *)
Definition allocator_allocate (hlt : M state unit) (sizeof_T : Z) (fuel : nat) (n : Z) : M state Z :=
  operator_new hlt fuel (u64 (n * sizeof_T)).
Definition allocator_deallocate (p n : Z) : M state unit := operator_delete p.

End heap.

(** The heap at boot: [freelist] points to the array, which is zero. *)
Definition boot (kmem : Z) : state := State kmem 0 (Mem [(kmem, MAX_ALLOC)] ∅).

End Kmalloc.

(** ** Headers and single accesses *)
Module KmallocFacts.
Import Kmalloc.

(** A header with size [sz], [allocated] [al] and [left_allocated] [lf]. *)
Definition hdr (sz al lf : Z) : Z := sz + 2 * al + lf.

Record hdr_ok (sz al lf : Z) : Prop := {
  ho_size : 0 <= sz < 65536;
  ho_div : (4 | sz);
  ho_al : al = 0 \/ al = 1;
  ho_lf : lf = 0 \/ lf = 1 }.

Ltac hdr_solve :=
  unfold bits, wrap, in_range, hdr in *; rewrite ?Z.shiftr_div_pow2 by lia;
  change (2 ^ 16) with 65536 in *; change (2 ^ 14) with 16384 in *; change (2 ^ 1) with 2 in *;
  change (2 ^ 2) with 4 in *; change (2 ^ 0) with 1 in *;
  Z.to_euclidean_division_equations; lia.

Lemma hdr_range sz al lf : hdr_ok sz al lf -> in_range 16 (hdr sz al lf).
Proof. intros [? [k ->] ? ?]. hdr_solve. Qed.

Lemma hdr_decompose h : in_range 16 h -> exists sz al lf, h = hdr sz al lf /\ hdr_ok sz al lf.
Proof.
  intros H. exists (h - h mod 4), (bits 1 1 h), (bits 0 1 h). split; [hdr_solve|].
  split; [hdr_solve|exists (h / 4); hdr_solve|hdr_solve|hdr_solve].
Qed.

Lemma land_lnot3 x : Z.land x (Z.lnot 3) = x - x mod 4.
Proof.
  transitivity (Z.ldiff x (Z.ones 2)); [by rewrite Z.ldiff_land|].
  rewrite Z.ldiff_ones_r, Z.shiftl_mul_pow2, Z.shiftr_div_pow2 by lia.
  pose proof (Z.div_mod x 4). change (2 ^ 2) with 4. lia.
Qed.

Lemma size_of_hdr sz al lf : hdr_ok sz al lf -> size_of (hdr sz al lf) = sz.
Proof.
  intros H. pose proof (hdr_range _ _ _ H). destruct H as [? [k ->] ? ?].
  unfold size_of. rewrite land_lnot3. hdr_solve.
Qed.

Lemma assign_size_hdr v sz al lf :
  hdr_ok sz al lf -> 0 <= v < 65536 -> assign_size v (hdr sz al lf) = hdr (v - v mod 4) al lf.
Proof.
  intros [? [k ->] ? ?] Hv. unfold assign_size. rewrite land_lnot3.
  change 3 with (Z.ones 2) at 1. rewrite Z.land_ones by lia.
  replace (v - v mod 4) with (Z.shiftl (v / 4) 2)
    by (rewrite Z.shiftl_mul_pow2 by lia; hdr_solve).
  rewrite Z.lor_comm, lor_shiftl_add by (try lia; apply Z.mod_pos_bound; lia).
  rewrite Z.shiftl_mul_pow2 by lia. hdr_solve.
Qed.

Lemma get_left_hdr sz al lf :
  hdr_ok sz al lf -> fget block_header "left_allocated" (hdr sz al lf) = lf.
Proof. intros [? [k ->] ? ?]. layout_eval. hdr_solve. Qed.

Lemma get_allocated_hdr sz al lf :
  hdr_ok sz al lf -> fget block_header "allocated" (hdr sz al lf) = al.
Proof. intros [? [k ->] ? ?]. layout_eval. hdr_solve. Qed.

Lemma set_left_hdr v sz al lf :
  hdr_ok sz al lf -> v = 0 \/ v = 1 ->
  fset block_header "left_allocated" v (hdr sz al lf) = hdr sz al v.
Proof.
  intros H Hv. pose proof (get_left_hdr _ _ _ H) as Hg. layout_eval.
  rewrite set_bits_arith by lia. rewrite Hg.
  rewrite (wrap_small 1) by (unfold in_range; lia). unfold hdr. lia.
Qed.

Lemma set_allocated_hdr v sz al lf :
  hdr_ok sz al lf -> v = 0 \/ v = 1 ->
  fset block_header "allocated" v (hdr sz al lf) = hdr sz v lf.
Proof.
  intros H Hv. pose proof (get_allocated_hdr _ _ _ H) as Hg. layout_eval.
  rewrite set_bits_arith by lia. rewrite Hg.
  rewrite (wrap_small 1) by (unfold in_range; lia). unfold hdr. lia.
Qed.

(** ** Accesses at backed addresses *)

Lemma on_mem_load16 fl by_ m a :
  mapped_range m a 2 -> on_mem (load16 a) (State fl by_ m) = Ok (peek 2 m a, State fl by_ m).
Proof. intros H. unfold on_mem, zoom. simpl. unfold load16. by rewrite load_ok. Qed.

Lemma on_mem_store16 fl by_ m a v :
  mapped_range m a 2 -> on_mem (store16 a v) (State fl by_ m) = Ok (tt, State fl by_ (poke 2 m a v)).
Proof. intros H. unfold on_mem, zoom. simpl. unfold store16. by rewrite store_ok. Qed.

(** [init_kheap], wherever the first block is: it gets the whole array and no
    neighbours, and keeps the flags it had. *)
Definition heap_init (m : mem) (base : Z) : mem :=
  poke 2 (poke 2 (poke 2 m base (assign_size MAX_ALLOC (peek 2 m base))) (base + 2) 0) (base + 4) 0.

Lemma init_kheap_any base n m :
  0 <= base -> base + 6 <= 2 ^ 64 -> mapped_range m base 6 ->
  init_kheap (State base n m) = Ok (tt, State base n (heap_init m base)).
Proof.
  intros Hl Hh Hm.
  assert (forall m' o, mapped_range m' base 6 -> 0 <= o <= 4 -> mapped_range m' (base + o) 2) as Hsub
    by (intros; eapply mapped_range_mono; eauto; lia).
  pose proof (Hsub m 0 Hm ltac:(lia)) as H0. rewrite Z.add_0_r in H0.
  unfold init_kheap. mrun done. cbn [freelist].
  mrun (unfold set_size, get_header; mrun (by apply on_mem_load16); by apply on_mem_store16).
  mrun done. cbn [freelist]. unfold prev_of, next_of.
  change (offsetof free_block "prev") with 2. change (offsetof free_block "next") with 4.
  rewrite !wrap_small by (unfold in_range; lia).
  mrun (apply on_mem_store16, Hsub; [by apply mapped_range_poke|lia]).
  mrun done. cbn [freelist]. rewrite wrap_small by (unfold in_range; lia).
  apply on_mem_store16, Hsub; [by do 2 apply mapped_range_poke|lia].
Qed.

Section header.
Context (fl by_ : Z) (m : mem) (b sz al lf : Z).
Hypothesis Hm : mapped_range m b 2.
Hypothesis Hh : peek 2 m b = hdr sz al lf.
Hypothesis Hok : hdr_ok sz al lf.

Lemma get_header_run : get_header b (State fl by_ m) = Ok (hdr sz al lf, State fl by_ m).
Proof. unfold get_header. rewrite on_mem_load16 by done. by rewrite Hh. Qed.

Lemma get_size_run : get_size b (State fl by_ m) = Ok (sz, State fl by_ m).
Proof. unfold get_size. mrun apply get_header_run. by rewrite size_of_hdr. Qed.

Lemma set_size_run v :
  0 <= v < 65536 -> (4 | v) ->
  set_size b v (State fl by_ m) = Ok (tt, State fl by_ (poke 2 m b (hdr v al lf))).
Proof.
  intros Hv [k Hk]. unfold set_size. mrun apply get_header_run.
  rewrite wrap_small by done. rewrite assign_size_hdr by done.
  unfold set_header. rewrite on_mem_store16 by done. do 4 f_equal. hdr_solve.
Qed.

Lemma get_left_run : get_flag b "left_allocated" (State fl by_ m) = Ok (lf, State fl by_ m).
Proof. unfold get_flag. mrun apply get_header_run. by rewrite get_left_hdr. Qed.

Lemma get_allocated_run : get_flag b "allocated" (State fl by_ m) = Ok (al, State fl by_ m).
Proof. unfold get_flag. mrun apply get_header_run. by rewrite get_allocated_hdr. Qed.

Lemma set_left_run v :
  v = 0 \/ v = 1 ->
  set_flag b "left_allocated" v (State fl by_ m) = Ok (tt, State fl by_ (poke 2 m b (hdr sz al v))).
Proof.
  intros Hv. unfold set_flag. mrun apply get_header_run. rewrite set_left_hdr by done.
  by apply on_mem_store16.
Qed.

Lemma set_allocated_run v :
  v = 0 \/ v = 1 ->
  set_flag b "allocated" v (State fl by_ m) = Ok (tt, State fl by_ (poke 2 m b (hdr sz v lf))).
Proof.
  intros Hv. unfold set_flag. mrun apply get_header_run. rewrite set_allocated_hdr by done.
  by apply on_mem_store16.
Qed.

Lemma copy_header_run :
  0 <= b + sz - 2 < 2 ^ 64 -> mapped_range m (b + sz - 2) 2 ->
  copy_header_to_footer b (State fl by_ m) =
  Ok (tt, State fl by_ (poke 2 m (b + sz - 2) (hdr sz al lf))).
Proof.
  intros Hr Hf. unfold copy_header_to_footer. mrun apply get_size_run.
  mrun apply get_header_run. change sizeof_block_header with 2.
  rewrite wrap_small by done. by apply on_mem_store16.
Qed.

End header.

Lemma peek_hdr_poke m a sz al lf :
  hdr_ok sz al lf -> peek 2 (poke 2 m a (hdr sz al lf)) a = hdr sz al lf.
Proof. intros H. rewrite peek_poke_same. apply wrap_small. by apply hdr_range. Qed.

(** ** The heap as one free block below a stack of allocated ones *)

Fixpoint blocks_at (m : mem) (a left : Z) (bs : list Z) : Prop :=
  match bs with
  | [] => True
  | b :: bs => peek 2 m a = hdr b 1 left /\ blocks_at m (a + b) 1 bs
  end.

Definition total (bs : list Z) : Z := foldr Z.add 0 bs.

Definition block_ok (b : Z) : Prop := 8 <= b /\ (4 | b).

(** The array is at a multiple of 64 KiB, and ends inside the address space. *)
Record base_ok (base : Z) : Prop := {
  bo_low : 0 < base;
  bo_high : base + 65536 <= 2 ^ 64;
  bo_align : (65536 | base) }.

(** [f] bytes free at the bottom, the allocated blocks [bs] above it, lowest
    first; the last four bytes of the array are never part of a block. *)
Record heap_rep (base f : Z) (bs : list Z) (s : state) : Prop := {
  hr_mapped : mapped_range (memory s) base 65535;
  hr_freelist : freelist s = base;
  hr_header : exists lf, peek 2 (memory s) base = hdr f 0 lf /\ (lf = 0 \/ lf = 1);
  hr_prev : peek 2 (memory s) (base + 2) = 0;
  hr_next : peek 2 (memory s) (base + 4) = 0;
  hr_footer : bs <> [] -> exists lf, peek 2 (memory s) (base + f - 2) = hdr f 0 lf /\ (lf = 0 \/ lf = 1);
  hr_blocks : blocks_at (memory s) (base + f) 0 bs;
  hr_sum : f + total bs = 65532;
  hr_free_ok : block_ok f;
  hr_ok : Forall block_ok bs;
  hr_bytes : bytes_allocated s = total bs }.

Lemma total_nonneg bs : Forall block_ok bs -> 0 <= total bs.
Proof. induction 1 as [|b bs [? _] _ IH]; simpl; lia. Qed.

(** Changes below the blocks, and inside their payload, keep the blocks. *)
Lemma blocks_at_ext m m' bs : forall a left,
  Forall block_ok bs ->
  (forall x, a <= x -> byte_at m' x = byte_at m x) -> blocks_at m a left bs -> blocks_at m' a left bs.
Proof.
  induction bs as [|b bs IH]; intros a left Hok Hx H; simpl in *; [done|].
  destruct H as [Hh Hb]. apply Forall_cons in Hok as [[Hb8 _] Hok]. split.
  - rewrite <- Hh. apply peek_ext. intros. apply Hx. lia.
  - apply IH; auto. intros. apply Hx. lia.
Qed.

Ltac hmap := repeat apply mapped_range_poke; eapply mapped_range_mono; [eassumption|lia|lia].
Ltac pk := repeat first [rewrite peek_hdr_poke by done | rewrite peek_poke_other by lia]; first [eassumption | reflexivity].

Section runs.
Context (base : Z).
Hypothesis Hbase : base_ok base.

Lemma block_idx_null : block_idx base 0 = 0.
Proof using Hbase.
  destruct Hbase as [_ _ [k Hk]]. unfold block_idx, wrap. change (2 ^ 16) with 65536.
  replace (0 - base) with (- k * 65536) by lia. apply Z_mod_mult.
Qed.

Lemma prev_of_base i : 0 <= i < 65530 -> prev_of (base + i) = base + i + 2.
Proof using Hbase.
  intros Hi. destruct Hbase. unfold prev_of. change (offsetof free_block "prev") with 2.
  apply wrap_small. unfold in_range. lia.
Qed.

Lemma next_of_base : next_of base = base + 4.
Proof using Hbase.
  destruct Hbase. unfold next_of. change (offsetof free_block "next") with 4.
  apply wrap_small. unfold in_range. lia.
Qed.

Lemma remove_only by_ m :
  mapped_range m base 65535 -> peek 2 m (base + 2) = 0 -> peek 2 m (base + 4) = 0 ->
  remove_from_free_list base base (State base by_ m) = Ok (tt, State 0 by_ m).
Proof using Hbase.
  intros Hm Hp Hn. pose proof (prev_of_base 0 ltac:(lia)) as Hpo. rewrite Z.add_0_r in Hpo.
  unfold remove_from_free_list. rewrite Hpo, next_of_base.
  mrun (rewrite on_mem_load16 by hmap; rewrite Hp; reflexivity).
  change (0 =? 0) with true. cbn iota.
  mrun (mrun (rewrite on_mem_load16 by hmap; rewrite Hn; reflexivity); reflexivity).
  unfold set_freelist; cbn [freelist bytes_allocated memory].
  mrun (rewrite on_mem_load16 by hmap; rewrite Hn; reflexivity). done.
Qed.

Lemma insert_only by_ m :
  mapped_range m base 65535 ->
  insert_into_free_list base base (State 0 by_ m) = Ok (tt, State base by_ (poke 2 m (base + 4) 0)).
Proof using Hbase.
  intros Hm. unfold insert_into_free_list. mrun done. mrun done. cbn [freelist].
  rewrite next_of_base, block_idx_null. unfold set_freelist. simpl. apply on_mem_store16. hmap.
Qed.

(** Memory after splitting [r] bytes off the top of the free block; [gal] is
    the flag found where the new header goes, [nsz] and [nal] belong to the
    header above the free block. *)
Definition split_mem (m : mem) (f r lf gal nsz nal : Z) : mem :=
  let A := base + f - r in
  let m := poke 2 m A (hdr r gal 0) in
  let m := poke 2 m base (hdr (f - r) 0 lf) in
  let m := poke 2 m (A - 2) (hdr (f - r) 0 lf) in
  let m := poke 2 m (base + 4) 0 in
  let m := poke 2 m A (hdr r 1 0) in
  poke 2 m (base + f) (hdr nsz nal 1).

Lemma place_split by_ m f r lf gsz gal glf nsz nal nlf :
  mapped_range m base 65535 -> peek 2 m (base + 2) = 0 -> peek 2 m (base + 4) = 0 ->
  block_ok r -> block_ok f -> r + 8 <= f -> f <= 65532 ->
  peek 2 m base = hdr f 0 lf -> hdr_ok f 0 lf ->
  peek 2 m (base + f - r) = hdr gsz gal glf -> hdr_ok gsz gal glf ->
  peek 2 m (base + f) = hdr nsz nal nlf -> hdr_ok nsz nal nlf ->
  place base base r (State base by_ m) =
  Ok (base + f - r, State base (u16 (by_ + r)) (split_mem m f r lf gal nsz nal)).
Proof using Hbase.
  intros Hm Hp Hn [Hr4 Hrd] [Hf4 Hfd] Hfr Hf Hh Hok Hg Hgok Hx Hxok.
  assert (hdr_ok r gal glf) by (destruct Hgok; split; lia || done).
  assert (hdr_ok r gal 0) by (destruct Hgok; split; lia || done).
  assert (hdr_ok r 1 0) by (split; auto; lia).
  assert (4 | f - r) by by apply Z.divide_sub_r.
  assert (hdr_ok (f - r) 0 lf) by (destruct Hok; split; auto; lia).
  assert (0 < base /\ base + 65536 <= 2 ^ 64) as [Hb0 Hb1] by by destruct Hbase.
  unfold place. mrun by apply remove_only.
  mrun (eapply get_size_run; [hmap|done|done]).
  rewrite (wrap_small 64 (f - r)) by (unfold in_range; lia).
  change MIN_BLOCK_SIZE with 8. change sizeof_block_header with 2.
  destruct (Z.leb_spec 8 (f - r)); [|lia].
  rewrite (bind_Ok _ _ _ (base + f - r) (State base by_ (poke 2 (poke 2 (poke 2 (poke 2 m
    (base + f - r) (hdr r gal 0)) base (hdr (f - r) 0 lf)) (base + f - r - 2) (hdr (f - r) 0 lf))
    (base + 4) 0))).
  2: {
    mrun (eapply get_size_run; [hmap|done|done]).
    rewrite (wrap_small 64 (base + f - r)) by (unfold in_range; lia).
    mrun (eapply set_size_run; [hmap|done|done|lia|done]).
    mrun (eapply set_left_run; [hmap|pk|done|tauto]). rewrite poke_poke_same.
    mrun (eapply get_size_run; [hmap|pk|done]).
    mrun (eapply set_size_run; [hmap|pk|done|lia|done]).
    mrun (eapply set_allocated_run; [hmap|pk|done|tauto]). rewrite poke_poke_same.
    mrun (eapply copy_header_run; [hmap|pk|done|lia|hmap]).
    mrun (apply insert_only; hmap).
    replace (base + (f - r) - 2) with (base + f - r - 2) by lia. done. }
  cbn beta. mrun (eapply set_allocated_run; [hmap|pk|done|tauto]).
  mrun (eapply get_size_run; [hmap|pk|done]).
  replace (base + f - r + r) with (base + f) by lia.
  rewrite (wrap_small 64 (base + f)) by (unfold in_range; lia).
  mrun (eapply set_left_run; [hmap|pk|done|tauto]).
  mrun (eapply get_size_run; [hmap|pk|done]). done.
Qed.

Lemma byte_at_split_mem m f r lf gal nsz nal x :
  8 <= r -> r + 8 <= f -> base + f + 2 <= x -> byte_at (split_mem m f r lf gal nsz nal) x = byte_at m x.
Proof. intros. unfold split_mem. by rewrite !byte_at_poke_other by lia. Qed.

Lemma at_idx_0 : at_idx base 0 = base.
Proof using Hbase. destruct Hbase. unfold at_idx. rewrite Z.add_0_r. apply wrap_small. unfold in_range. lia. Qed.

(** The search looks at the only free block. *)
Lemma find_only by_ m f lf fuel r :
  mapped_range m base 65535 -> peek 2 m (base + 4) = 0 -> peek 2 m base = hdr f 0 lf -> hdr_ok f 0 lf ->
  0 <= r < 2 ^ 32 ->
  find_block base (S fuel) (next_of base) r (State base by_ m) =
  Ok (if r + 2 <=? f then base else 0, State base by_ m).
Proof using Hbase.
  intros Hm Hn Hh Hok Hr. destruct Hbase. rewrite next_of_base. cbn [find_block].
  mrun (rewrite on_mem_load16 by hmap; rewrite Hn; reflexivity). rewrite at_idx_0.
  mrun (eapply get_size_run; [hmap|done|done]).
  change sizeof_block_header with 2. rewrite wrap_small by (unfold in_range; lia).
  destruct (r + 2 <=? f); [done|].
  mrun (rewrite on_mem_load16 by hmap; rewrite Hn; reflexivity). done.
Qed.

(** The size [kmalloc] works with. *)
Lemma kmalloc_size n : 5 <= n <= MAX_ALLOC ->
  n <= ROUNDUP2N n 4 < n + 4 /\ block_ok (ROUNDUP2N n 4) /\
  MAX (ROUNDUP2N n 4) sizeof_free_block = ROUNDUP2N n 4.
Proof.
  unfold MAX_ALLOC. intros Hn.
  destruct (ROUNDUP2N_spec n 2) as [Hr Hd]; [lia|lia|lia|]. change (2 ^ 2) with 4 in *.
  assert (8 <= ROUNDUP2N n 4) by (destruct Hd; lia).
  split; [done|]. split; [by split|]. unfold MAX. change sizeof_free_block with 6.
  by destruct (Z.ltb_spec 6 (ROUNDUP2N n 4)); [|lia].
Qed.

Lemma hdr_ok_free f lf : block_ok f -> f <= 65532 -> lf = 0 \/ lf = 1 -> hdr_ok f 0 lf.
Proof. intros [? ?] ? ?. split; auto. lia. Qed.

Lemma kmalloc_full f bs s n fuel :
  heap_rep base f bs s -> 5 <= n <= MAX_ALLOC -> f < ROUNDUP2N n 4 + 2 ->
  kmalloc base (S fuel) n s = Ok (0, s).
Proof using Hbase.
  intros [Hm Hfl (lf & Hh & Hlf) Hp Hn _ _ Hs Hf Hok _] Hsz Hbig.
  destruct (kmalloc_size n Hsz) as (Hr & _ & Hmax). pose proof (total_nonneg bs Hok).
  destruct s as [fl by_ m]; simpl in *; subst fl. unfold kmalloc, MAX_ALLOC in *.
  destruct (Z.eqb_spec n 0), (Z.ltb_spec 65535 n); try lia. simpl.
  rewrite Hmax. mrun done. cbn [freelist].
  mrun (eapply find_only; [done|done|done|apply hdr_ok_free; auto; lia|lia]).
  by destruct (Z.leb_spec (ROUNDUP2N n 4 + 2) f); [lia|].
Qed.

Lemma kmalloc_rep f bs s n fuel :
  heap_rep base f bs s -> 5 <= n -> ROUNDUP2N n 4 + 8 <= f -> n <= MAX_ALLOC ->
  exists s', kmalloc base (S fuel) n s = Ok (base + f - ROUNDUP2N n 4 + 2, s') /\
    heap_rep base (f - ROUNDUP2N n 4) (ROUNDUP2N n 4 :: bs) s' /\
    (forall x, base + f + 2 <= x -> byte_at (memory s') x = byte_at (memory s) x).
Proof using Hbase.
  intros [Hm Hfl (lf & Hh & Hlf) Hp Hn _ Hbl Hs Hf Hok Hby] Hn5 Hfit Hmx.
  destruct (kmalloc_size n ltac:(lia)) as (Hr & Hrok & Hmax). set (r := ROUNDUP2N n 4) in *.
  pose proof (total_nonneg bs Hok). destruct s as [fl by_ m]; simpl in *; subst fl by_.
  assert (hdr_ok f 0 lf) as Hfok by (apply hdr_ok_free; auto; lia).
  destruct (hdr_decompose (peek 2 m (base + f - r)) (peek_range 2 _ _)) as (gsz & gal & glf & Hg & Hgok).
  assert (exists nsz nal nlf, peek 2 m (base + f) = hdr nsz nal nlf /\ hdr_ok nsz nal nlf /\
    blocks_at (split_mem m f r lf gal nsz nal) (base + f) 1 bs) as (nsz & nal & nlf & Hx & Hxok & Hbl').
  { destruct bs as [|b bs].
    - destruct (hdr_decompose (peek 2 m (base + f)) (peek_range 2 _ _)) as (? & ? & ? & ? & ?).
      by do 3 eexists.
    - simpl in Hbl, Hs. destruct Hbl as [Hx Hbl]. apply Forall_cons in Hok as [[Hb8 Hb4] Hok].
      pose proof (total_nonneg bs Hok).
      exists b, 1, 0. assert (hdr_ok b 1 1) by (split; auto; lia).
      split_and!; [done|split; auto; lia|]. cbn [blocks_at]. split.
      + unfold split_mem. by rewrite peek_hdr_poke.
      + destruct Hrok. eapply blocks_at_ext; [done| |exact Hbl].
        intros x Hxx. apply byte_at_split_mem; lia. }
  exists (State base (u16 (total bs + r)) (split_mem m f r lf gal nsz nal)).
  destruct Hbase as [Hb0 Hb1 _]. destruct Hf as [Hf8 Hf4]. pose proof Hrok as [Hr8 Hr4].
  assert (hdr_ok r 1 0) by (split; auto; lia). assert (4 | f - r) by by apply Z.divide_sub_r.
  assert (hdr_ok (f - r) 0 lf) by (split; auto; lia). split_and!.
  - unfold kmalloc, MAX_ALLOC in *. destruct (Z.eqb_spec n 0), (Z.ltb_spec 65535 n); try lia. simpl.
    fold r. rewrite Hmax. mrun done. cbn [freelist].
    mrun (eapply find_only; [done|done|done|done|lia]).
    destruct (Z.leb_spec (r + 2) f); [|lia].
    destruct (Z.eqb_spec base 0); [lia|].
    mrun (apply (place_split (total bs) m f r lf gsz gal glf nsz nal nlf); (done || lia)). change sizeof_block_header with 2.
    by rewrite wrap_small by (unfold in_range; lia).
  - unfold split_mem in *. split; cbn [memory freelist bytes_allocated total foldr].
    + hmap.
    + done.
    + exists lf. split; [pk|done].
    + pk.
    + rewrite peek_poke_other, peek_poke_other by lia. by rewrite peek_poke_same.
    + intros _. exists lf. replace (base + (f - r) - 2) with (base + f - r - 2) by lia.
      split; [|done]. pk.
    + replace (base + (f - r)) with (base + f - r) by lia. cbn [blocks_at].
      replace (base + f - r + r) with (base + f) by lia. split; [pk|done].
    + unfold total in *. lia.
    + split; [lia|done].
    + by constructor.
    + unfold total in *. rewrite wrap_small by (unfold in_range; lia). lia.
  - intros x Hxx. by apply byte_at_split_mem.
Qed.

(** Memory after the lowest block [b] has been freed into the free block, with
    the block [b2] above it. *)
Definition merge_mem (m : mem) (f b b2 lf : Z) : mem :=
  let m := poke 2 m (base + f + b) (hdr b2 1 0) in
  let m := poke 2 m base (hdr (f + b) 0 1) in
  let m := poke 2 m (base + f + b - 2) (hdr (f + b) 0 1) in
  poke 2 m (base + 4) 0.

Lemma coalesce_left by_ m f b b2 lf lf' :
  mapped_range m base 65535 -> peek 2 m (base + 2) = 0 -> peek 2 m (base + 4) = 0 ->
  block_ok f -> block_ok b -> block_ok b2 -> f + b + b2 <= 65532 ->
  peek 2 m base = hdr f 0 lf -> hdr_ok f 0 lf ->
  peek 2 m (base + f - 2) = hdr f 0 lf' -> hdr_ok f 0 lf' ->
  peek 2 m (base + f) = hdr b 1 0 -> peek 2 m (base + f + b) = hdr b2 1 1 ->
  coalesce base (base + f) (State base by_ m) = Ok (tt, State base by_ (merge_mem m f b b2 lf)).
Proof using Hbase.
  intros Hm Hp Hn [Hf8 Hf4] [Hb8 Hb4] [Hc8 Hc4] Hsum Hh Hok Hft Hftok Hb Hb2.
  assert (hdr_ok b 1 0) by (split; auto; lia). assert (hdr_ok b2 1 1) by (split; auto; lia).
  assert (hdr_ok b2 1 0) by (split; auto; lia).
  assert (4 | f + b) by by apply Z.divide_add_r.
  assert (hdr_ok (f + b) 0 lf) by (destruct Hok; split; auto; lia).
  assert (hdr_ok (f + b) 0 1) by (split; auto; lia).
  destruct Hbase as [Hb0 Hb1 _]. unfold coalesce. change sizeof_block_header with 2.
  mrun (eapply get_size_run; [hmap|done|done]).
  mrun (eapply get_size_run; [hmap|done|done]).
  mrun (eapply get_left_run; [hmap|done|done]).
  rewrite (bind_Ok _ _ _ (base, f + b) (State 0 by_ m)).
  2: {
    change (0 =? 0) with true. cbn iota.
    rewrite (wrap_small 64 (base + f - 2)) by (unfold in_range; lia).
    mrun (eapply get_size_run; [hmap|done|done]).
    mrun (eapply get_size_run; [hmap|done|done]).
    replace (base + f - f) with base by lia.
    rewrite (wrap_small 64 base) by (unfold in_range; lia).
    mrun (by apply remove_only). rewrite wrap_small by (unfold in_range; lia).
    by rewrite Z.add_comm. }
  cbn beta iota. rewrite (wrap_small 64 (base + f + b)) by (unfold in_range; lia).
  mrun (eapply get_allocated_run; [hmap|done|done]).
  mrun (cbn; mrun (eapply set_left_run; [hmap|done|done|tauto]); reflexivity).
  mrun (eapply set_size_run; [hmap|pk|done|lia|done]).
  mrun (eapply set_allocated_run; [hmap|pk|done|tauto]). rewrite poke_poke_same.
  mrun (eapply set_left_run; [hmap|pk|done|tauto]). rewrite poke_poke_same.
  mrun (eapply copy_header_run; [hmap|pk|done|lia|hmap]).
  replace (base + (f + b) - 2) with (base + f + b - 2) by lia. apply insert_only. hmap.
Qed.

Lemma kfree_rep f b b2 bs s :
  heap_rep base f (b :: b2 :: bs) s ->
  exists s', kfree base (base + f + 2) s = Ok (tt, s') /\ heap_rep base (f + b) (b2 :: bs) s' /\
    (forall x, base + f + b + 2 <= x -> byte_at (memory s') x = byte_at (memory s) x).
Proof using Hbase.
  intros [Hm Hfl (lf & Hh & Hlf) Hp Hn Hft (Hb & Hb2 & Hbl) Hs Hf Hok Hby].
  destruct Hft as (lf' & Hft & Hlf'); [done|].
  apply Forall_cons in Hok as [Hbok Hok]. pose proof Hok as [Hb2ok Hok']%Forall_cons.
  pose proof (total_nonneg bs Hok'). pose proof Hf as [Hf8 Hf4]. pose proof Hbok as [Hb8 Hb4].
  pose proof Hb2ok as [Hc8 Hc4].
  destruct s as [fl by_ m]; cbn [memory freelist bytes_allocated total foldr] in *; subst fl by_.
  change (foldr Z.add 0 bs) with (total bs) in *.
  assert (4 | f + b) by by apply Z.divide_add_r.
  assert (hdr_ok (f + b) 0 1) by (split; auto; lia). assert (hdr_ok b2 1 0) by (split; auto; lia).
  exists (State base (b2 + total bs) (merge_mem m f b b2 lf)).
  assert (forall x, base + f + b + 2 <= x -> byte_at (merge_mem m f b b2 lf) x = byte_at m x) as Hfr.
  { intros x Hx. unfold merge_mem. by rewrite !byte_at_poke_other by lia. }
  destruct Hbase as [Hb0 Hb1 _]. split_and!; [| |done].
  - unfold kfree. destruct (Z.eqb_spec (base + f + 2) 0); [lia|]. change sizeof_block_header with 2.
    replace (base + f + 2 - 2) with (base + f) by lia.
    rewrite (wrap_small 64 (base + f)) by (unfold in_range; lia).
    mrun (eapply get_size_run; [hmap|done|split; auto; lia]). mrun done.
    unfold set_bytes; cbn [memory freelist bytes_allocated].
    rewrite wrap_small by (unfold in_range; lia).
    replace (b + (b2 + total bs) - b) with (b2 + total bs) by lia.
    apply (coalesce_left _ m f b b2 lf lf'); (done || (by apply hdr_ok_free; auto; lia) || lia).
  - unfold merge_mem in *. split; cbn [memory freelist bytes_allocated].
    + hmap.
    + done.
    + exists 1. split; [pk|tauto].
    + pk.
    + by rewrite peek_poke_same.
    + intros _. exists 1. replace (base + (f + b) - 2) with (base + f + b - 2) by lia.
      split; [|tauto]. pk.
    + replace (base + (f + b)) with (base + f + b) by lia. cbn [blocks_at]. split; [pk|].
      eapply blocks_at_ext; [done| |exact Hbl]. intros x Hx. apply Hfr. lia.
    + simpl. change (foldr Z.add 0 bs) with (total bs). lia.
    + split; [lia|done].
    + done.
    + done.
Qed.

Lemma load16_tail m a :
  mapped m a = true -> mapped m (a + 1) = false -> load16 a m = Fault (Unmapped (a + 1)).
Proof. intros H1 H2. unfold load16, load, load8, mbind, M_bind. by rewrite H1, H2. Qed.

(** Freeing the block at the top: the word above it is taken for a free block. *)
Lemma coalesce_top by_ m r :
  mapped_range m base 65535 -> mapped m (base + 65535) = false ->
  block_ok r -> r + 8 <= 65532 ->
  peek 2 m (base + 2) = 0 -> peek 2 m (base + 4) = 0 ->
  peek 2 m (base + 65532 - r) = hdr r 1 0 ->
  peek 2 m (base + 65532 - r - 2) = hdr (65532 - r) 0 0 -> peek 2 m (base + 65532) = hdr 0 0 1 ->
  coalesce base (base + 65532 - r) (State base by_ m) = Fault (Unmapped (base + 65535)).
Proof using Hbase.
  intros Hm Hend [Hr8 Hr4] Hr Hp Hn HA HF HT.
  assert (4 | 65532 - r) by (apply Z.divide_sub_r; [by exists 16383|done]).
  assert (hdr_ok r 1 0) by (split; auto; lia). assert (hdr_ok (65532 - r) 0 0) by (split; auto; lia).
  assert (hdr_ok 0 0 1) by (split; auto; [lia|by exists 0]).
  destruct Hbase as [Hb0 Hb1 _]. unfold coalesce. change sizeof_block_header with 2.
  mrun (eapply get_size_run; [hmap|done|done]).
  mrun (eapply get_size_run; [hmap|done|done]).
  mrun (eapply get_left_run; [hmap|done|done]).
  rewrite (bind_Ok _ _ _ (base, 65532) (State 0 by_ m)).
  2: {
    change (0 =? 0) with true. cbn iota.
    rewrite (wrap_small 64 (base + 65532 - r - 2)) by (unfold in_range; lia).
    mrun (eapply get_size_run; [hmap|done|done]).
    mrun (eapply get_size_run; [hmap|done|done]).
    replace (base + 65532 - r - (65532 - r)) with base by lia.
    rewrite (wrap_small 64 base) by (unfold in_range; lia).
    mrun (by apply remove_only). rewrite wrap_small by (unfold in_range; lia).
    by replace (r + (65532 - r)) with 65532 by lia. }
  cbn beta iota. replace (base + 65532 - r + r) with (base + 65532) by lia.
  rewrite (wrap_small 64 (base + 65532)) by (unfold in_range; lia).
  mrun (eapply get_allocated_run; [hmap|done|done]). apply bind_Fault. cbn.
  mrun (eapply get_size_run; [hmap|done|done]). apply bind_Fault.
  unfold remove_from_free_list. apply bind_Fault. unfold prev_of.
  change (offsetof free_block "prev") with 2. rewrite wrap_small by (unfold in_range; lia).
  unfold on_mem, zoom. simpl. rewrite load16_tail.
  - by replace (base + 65532 + 2 + 1) with (base + 65535) by lia.
  - apply Hm. lia.
  - rewrite <- Hend. f_equal. lia.
Qed.

(** A byte inside the payload of an allocated block, the last two bytes of
    the block included, is not part of any header. *)
Fixpoint in_payload (a : Z) (bs : list Z) (x : Z) : Prop :=
  match bs with
  | [] => False
  | b :: bs => a + 2 <= x < a + b \/ in_payload (a + b) bs x
  end.

Lemma in_payload_range bs : forall a x,
  Forall block_ok bs -> in_payload a bs x -> a + 2 <= x < a + total bs.
Proof.
  induction bs as [|b bs IH]; intros a x Hok Hx; simpl in *; [done|].
  apply Forall_cons in Hok as [[Hb _] Hok]. pose proof (total_nonneg bs Hok).
  change (foldr Z.add 0 bs) with (total bs). destruct Hx as [?|Hx]; [lia|].
  specialize (IH (a + b) x Hok Hx). lia.
Qed.

Lemma blocks_at_write m bs v x : forall a left,
  Forall block_ok bs -> in_payload a bs x -> blocks_at m a left bs -> blocks_at (set_byte m x v) a left bs.
Proof.
  induction bs as [|b bs IH]; intros a left Hok Hx Hb; cbn [blocks_at in_payload] in *; [done|].
  destruct Hb as [Hh Hb]. pose proof Hok as Hok0. apply Forall_cons in Hok as [[Hb8 _] Hok].
  destruct Hx as [Hx|Hx].
  - split; [by rewrite peek_set_byte_other by lia|]. eapply blocks_at_ext; [done| |done].
    intros y Hy. rewrite byte_at_set_byte. case_decide; [lia|done].
  - pose proof (in_payload_range bs (a + b) x Hok Hx). split; [by rewrite peek_set_byte_other by lia|auto].
Qed.

Lemma write_rep f bs s x v :
  heap_rep base f bs s -> in_payload (base + f) bs x ->
  exists s', on_mem (store8 x v) s = Ok (tt, s') /\ heap_rep base f bs s' /\
    (forall y, y <> x -> byte_at (memory s') y = byte_at (memory s) y) /\ byte_at (memory s') x = u8 v.
Proof using Hbase.
  intros Hrep Hx. pose proof Hrep as [Hm Hfl Hh Hp Hn Hft Hbl Hs Hf Hok Hby].
  pose proof (in_payload_range _ _ _ Hok Hx). destruct Hf as [Hf8 Hf4]. destruct s as [fl by_ m].
  simpl in *. exists (State fl by_ (set_byte m x v)). split_and!; simpl.
  - unfold on_mem, zoom. simpl. rewrite store8_ok; [done|]. apply Hm. lia.
  - split; simpl; [intros y Hy; by apply Hm|done|..].
    1,2,3: by rewrite peek_set_byte_other by lia.
    + rewrite peek_set_byte_other by lia. done.
    + by apply blocks_at_write.
    + done.
    + by split.
    + done.
    + done.
  - intros y Hy. rewrite byte_at_set_byte. by case_decide.
  - rewrite byte_at_set_byte. by case_decide.
Qed.

End runs.

End KmallocFacts.

(** ** Specification: a stack of blocks with the bytes their owners stored *)
Module KmallocSpec.
Import Kmalloc KmallocFacts.

Inductive op := KMalloc (n : Z) | KFree (p : Z) | KWrite (x v : Z).

Section spec.
Context (base : Z).

Definition exec (o : op) : M state Z :=
  match o with
  | KMalloc n => kmalloc base 1 n
  | KFree p => kfree base p ;; mret 0
  | KWrite x v => on_mem (store8 x v) ;; mret 0
  end.

Fixpoint run (ops : list op) : M state (list Z) :=
  match ops with
  | [] => mret []
  | o :: ops => r ← exec o; rs ← run ops; mret (r :: rs)
  end.

(** Free bytes, blocks from the lowest up, and the client's data. *)
Definition astate : Type := Z * list Z * gmap Z Z.

Inductive spec_step : astate -> op -> Z -> astate -> Prop :=
| ks_malloc f bs D n :
    5 <= n <= MAX_ALLOC -> ROUNDUP2N n 4 + 8 <= f ->
    spec_step (f, bs, D) (KMalloc n) (base + f - ROUNDUP2N n 4 + 2)
      (f - ROUNDUP2N n 4, ROUNDUP2N n 4 :: bs, D)
| ks_full f bs D n :
    5 <= n <= MAX_ALLOC -> f < ROUNDUP2N n 4 + 2 ->
    spec_step (f, bs, D) (KMalloc n) 0 (f, bs, D)
| ks_free f b b2 bs D :
    spec_step (f, b :: b2 :: bs, D) (KFree (base + f + 2)) 0
      (f + b, b2 :: bs, filter (fun kv => base + f + b + 2 <= kv.1) D)
| ks_free_null f bs D : spec_step (f, bs, D) (KFree 0) 0 (f, bs, D)
| ks_write f bs D x v :
    in_payload (base + f) bs x -> spec_step (f, bs, D) (KWrite x v) 0 (f, bs, <[x := u8 v]> D).

Inductive spec_run : astate -> list op -> list Z -> astate -> Prop :=
| sr_nil a : spec_run a [] [] a
| sr_cons a o r b ops rs c :
    spec_step a o r b -> spec_run b ops rs c -> spec_run a (o :: ops) (r :: rs) c.

Record implements (s : state) (a : astate) : Prop := {
  im_heap : heap_rep base a.1.1 a.1.2 s;
  im_data : forall x v, a.2 !! x = Some v ->
    in_payload (base + a.1.1) a.1.2 x /\ byte_at (memory s) x = v }.

Hypothesis Hbase : base_ok base.

Lemma heap_exec_simulates s a o r b :
  implements s a -> spec_step a o r b -> exists s', exec o s = Ok (r, s') /\ implements s' b.
Proof using Hbase.
  intros [Hh Hd] Hs. inversion Hs as [f bs D n Hn Hfit|f bs D n Hn Hfull|f b1 b2 bs D|f bs D|f bs D x v Hx];
    subst; cbn [fst snd exec] in *.
  - destruct (kmalloc_rep base Hbase f bs s n 0 Hh) as (s' & Hrun & Hh' & Hfr); [lia..|].
    exists s'. split; [done|]. split; cbn [fst snd]; [done|]. intros x v Hxv.
    destruct (Hd x v Hxv) as [Hin Hv]. pose proof (in_payload_range _ _ _ (hr_ok _ _ _ _ Hh) Hin).
    split; [|rewrite Hfr by lia; done]. right.
    by replace (base + (f - ROUNDUP2N n 4) + ROUNDUP2N n 4) with (base + f) by lia.
  - exists s. split; [|done]. by eapply kmalloc_full.
  - destruct (kfree_rep base Hbase f b1 b2 bs s Hh) as (s' & Hrun & Hh' & Hfr).
    exists s'. split; [mrun exact Hrun; done|]. split; cbn [fst snd]; [done|]. intros x v Hxv.
    apply map_lookup_filter_Some in Hxv as [Hxv Hlo]. simpl in Hlo.
    destruct (Hd x v Hxv) as [[?|Hin] Hv]; [lia|].
    split; [by rewrite Z.add_assoc|rewrite Hfr by lia; done].
  - exists s. done.
  - destruct (write_rep base Hbase f bs s x v Hh Hx) as (s' & Hrun & Hh' & Hother & Hsame).
    exists s'. split; [mrun exact Hrun; done|]. split; cbn [fst snd]; [done|]. intros y w Hyw.
    apply lookup_insert_Some in Hyw as [[<- <-]|[Hne Hyw]]; [done|].
    destruct (Hd y w Hyw). split; [done|]. by rewrite Hother.
Qed.

Lemma heap_run_simulates a ops rs b :
  spec_run a ops rs b -> forall s, implements s a -> exists s', run ops s = Ok (rs, s') /\ implements s' b.
Proof using Hbase.
  induction 1 as [|a o r b ops rs c Hs _ IH]; intros s Hi; [by exists s|].
  destruct (heap_exec_simulates _ _ _ _ _ Hi Hs) as (s1 & Hrun & Hi1).
  destruct (IH s1 Hi1) as (s2 & Hrun2 & Hi2).
  exists s2. split; [|done]. cbn [run]. mrun exact Hrun. mrun exact Hrun2. done.
Qed.

(** ** The heap after [init_kheap] *)

Definition init_mem : mem :=
  poke 2 (poke 2 (poke 2 (Mem [(base, MAX_ALLOC)] ∅) base (hdr 65532 0 0)) (base + 2) 0) (base + 4) 0.

Lemma boot_mapped : mapped_range (Mem [(base, MAX_ALLOC)] ∅) base 65535.
Proof using. apply (mapped_in_region _ _ _ base MAX_ALLOC); [apply list_elem_of_here|lia|unfold MAX_ALLOC; lia]. Qed.

Lemma boot_end : mapped (Mem [(base, MAX_ALLOC)] ∅) (base + 65535) = false.
Proof using.
  unfold mapped, in_region, MAX_ALLOC. simpl. rewrite orb_false_r.
  destruct (Z.ltb_spec (base + 65535) (base + 65535)); [lia|]. apply andb_false_r.
Qed.

Lemma init_kheap_run : init_kheap (boot base) = Ok (tt, State base 0 init_mem).
Proof using Hbase.
  destruct Hbase. unfold boot. rewrite init_kheap_any; [reflexivity|lia|lia|].
  eapply mapped_range_mono; [apply boot_mapped|lia|lia].
Qed.

Lemma init_mem_zero x : base + 6 <= x -> byte_at init_mem x = 0.
Proof using.
  intros Hx. unfold init_mem. rewrite !byte_at_poke_other by lia.
  unfold byte_at. simpl. by rewrite lookup_empty.
Qed.

Lemma init_rep : heap_rep base 65532 [] (State base 0 init_mem).
Proof using Hbase.
  destruct Hbase. assert (hdr_ok 65532 0 0) by (split; [lia|by exists 16383|tauto|tauto]).
  pose proof boot_mapped as Hm. unfold init_mem. split; cbn [memory freelist bytes_allocated].
  - hmap.
  - done.
  - exists 0. split; [pk|tauto].
  - rewrite peek_poke_other by lia. by rewrite peek_poke_same.
  - by rewrite peek_poke_same.
  - done.
  - done.
  - done.
  - split; [lia|by exists 16383].
  - constructor.
  - done.
Qed.

(** The block at the top of the heap: its header, the one before it and the
    word above it, after the first allocation. *)
Lemma first_alloc n fuel :
  5 <= n -> ROUNDUP2N n 4 + 8 <= 65532 -> n <= MAX_ALLOC ->
  let r := ROUNDUP2N n 4 in
  kmalloc base (S fuel) n (State base 0 init_mem) =
  Ok (base + 65532 - r + 2, State base r (split_mem base init_mem 65532 r 0 0 0 0)).
Proof using Hbase.
  intros Hn Hfit Hmx r. destruct (kmalloc_size n ltac:(lia)) as (Hr & Hrok & Hmax). fold r in Hr, Hrok, Hmax, Hfit.
  pose proof Hrok as [Hr8 _]. pose proof init_rep as [Hm _ _ Hp Hnx _ _ _ Hf _ _].
  cbn [memory freelist] in *. destruct Hbase as [Hb0 Hb1 _].
  assert (hdr_ok 65532 0 0) by (split; [lia|by exists 16383|tauto|tauto]).
  assert (hdr_ok 0 0 0) by (split; [lia|by exists 0|tauto|tauto]).
  assert (peek 2 init_mem base = hdr 65532 0 0) as Hh by (unfold init_mem; pk).
  unfold kmalloc, MAX_ALLOC in *. destruct (Z.eqb_spec n 0), (Z.ltb_spec 65535 n); try lia. simpl.
  fold r. rewrite Hmax. mrun done. cbn [freelist].
  mrun (eapply find_only; [done|done|done|exact Hh|done|lia]).
  destruct (Z.leb_spec (r + 2) 65532); [|lia]. destruct (Z.eqb_spec base 0); [lia|].
  mrun (apply (place_split base Hbase 0 init_mem 65532 r 0 0 0 0 0 0 0);
    try (done || lia); apply peek_zero; intros x Hx; apply init_mem_zero; lia).
  change sizeof_block_header with 2. rewrite wrap_small by (unfold in_range; lia).
  rewrite wrap_small by (unfold in_range; lia). done.
Qed.

End spec.

End KmallocSpec.

(** ** Properties *)
Module KmallocProps.
Import Kmalloc KmallocFacts KmallocSpec.

(** C2. The kernel heap, at a multiple of 64 KiB, refines a stack of blocks:
    after [init_kheap], any sequence of [kmalloc] (of 5 bytes and more), [kfree]
    of the block allocated last (while another is live) and client stores
    inside the blocks that the specification allows runs without a fault and
    returns exactly the pointers the specification gives; the blocks never
    overlap and the bytes the clients stored are still there. *)
Theorem kmalloc_refines_stack base ops rs b :
  base_ok base -> spec_run base (65532, [], ∅) ops rs b ->
  exists s', (init_kheap ;; run base ops) (boot base) = Ok (rs, s') /\ implements base s' b.
Proof.
  intros Hb Hr. mrun by apply init_kheap_run. eapply heap_run_simulates; [done|done|].
  split; simpl; [by apply init_rep|]. intros x v Hx. by rewrite lookup_empty in Hx.
Qed.

Lemma base_ok_64K : base_ok 0x10000.
Proof. split; [lia|lia|by exists 1]. Qed.

Lemma kmalloc_refines_stack_witness :
  exists s' a, (init_kheap ;; run 0x10000 [KMalloc 20; KMalloc 9; KWrite 0x1FFDE 7; KFree 0x1FFDE;
      KMalloc 60000; KMalloc 60000]) (boot 0x10000) =
    Ok ([0x1FFEA; 0x1FFDE; 0; 0; 0x1158A; 0], s') /\ implements 0x10000 s' a.
Proof.
  set (a := (5512, [60000; 20], filter (fun kv : Z * Z => 0x10000 + 65500 + 12 + 2 <= kv.1) (<[0x1FFDE := 7]> ∅))
    : astate).
  destruct (kmalloc_refines_stack 0x10000 [KMalloc 20; KMalloc 9; KWrite 0x1FFDE 7; KFree 0x1FFDE;
      KMalloc 60000; KMalloc 60000] [0x1FFEA; 0x1FFDE; 0; 0; 0x1158A; 0] a base_ok_64K)
    as (s' & Hrun & Hi); [|exists s', a; exact (conj Hrun Hi)].
  eapply sr_cons; [apply (ks_malloc 0x10000 65532 [] ∅ 20); [done|by vm_compute]|].
  eapply sr_cons; [apply (ks_malloc 0x10000 65512 [20] ∅ 9); [done|by vm_compute]|].
  eapply sr_cons; [apply (ks_write 0x10000 65500 [12; 20] ∅ 0x1FFDE 7); simpl; lia|].
  eapply sr_cons; [apply (ks_free 0x10000 65500 12 20 [] _)|].
  eapply sr_cons; [apply (ks_malloc 0x10000 65512 [20] _ 60000); [done|by vm_compute]|].
  eapply sr_cons; [apply (ks_full 0x10000 5512 [60000; 20] _ 60000); [done|by vm_compute]|].
  constructor.
Defined.

(** The header is not counted in the size of a block: when the request is
    a multiple of 4 (or one less), the last requested byte is a byte of the
    header of the block above, which a client that fills its allocation
    overwrites. *)
Theorem kmalloc_reaches_header base f b bs s n fuel :
  base_ok base -> heap_rep base f (b :: bs) s -> 5 <= n <= MAX_ALLOC -> n mod 4 = 0 \/ n mod 4 = 3 ->
  ROUNDUP2N n 4 + 8 <= f ->
  exists p s', kmalloc base (S fuel) n s = Ok (p, s') /\
    peek 2 (memory s') (base + f) = hdr b 1 1 /\ base + f <= p + n - 1 < base + f + 2.
Proof.
  intros Hb Hh Hn Hmod Hfit.
  destruct (kmalloc_rep base Hb f (b :: bs) s n fuel Hh) as (s' & Hrun & Hh' & _); [lia..|].
  destruct (kmalloc_size n Hn) as (Hr & [_ [k Hk]] & _).
  exists (base + f - ROUNDUP2N n 4 + 2), s'. split; [done|]. split.
  - destruct (hr_blocks _ _ _ _ Hh') as (_ & Hx & _).
    by replace (base + (f - ROUNDUP2N n 4) + ROUNDUP2N n 4) with (base + f) in Hx by lia.
  - pose proof (Z.div_mod n 4). lia.
Qed.

Lemma kmalloc_reaches_header_witness :
  exists s p s', heap_rep 0x10000 65512 [20] s /\
    kmalloc 0x10000 1 8 s = Ok (p, s') /\ 0x10000 + 65512 <= p + 8 - 1 < 0x10000 + 65512 + 2.
Proof.
  pose proof base_ok_64K as Hb.
  destruct (kmalloc_rep 0x10000 Hb 65532 [] _ 20 0 (init_rep _ Hb)) as (s & _ & Hh & _);
    [lia|by vm_compute|by vm_compute|].
  change (ROUNDUP2N 20 4) with 20 in Hh. change (65532 - 20) with 65512 in Hh.
  destruct (kmalloc_reaches_header 0x10000 65512 20 [] s 8 0 Hb Hh) as (p & s' & Hrun & _ & Hp);
    [by vm_compute|by left|by vm_compute|].
  exists s, p, s'. exact (conj Hh (conj Hrun Hp)).
Defined.

(** [kfree] of the block at the top of the heap leaves the array: the word
    above the last block has no allocated bit, [coalesce] takes it for a free
    block and reads its links past the end of [kmem]. *)
Theorem kfree_top_out_of_bounds base n fuel :
  base_ok base -> 5 <= n <= MAX_ALLOC -> ROUNDUP2N n 4 + 8 <= 65532 ->
  (init_kheap ;; p ← kmalloc base (S fuel) n; kfree base p) (boot base) =
  Fault (Unmapped (base + 65535)).
Proof.
  intros Hb Hn Hfit. mrun by apply init_kheap_run. mrun by (apply first_alloc; (done || lia)).
  destruct (kmalloc_size n Hn) as (Hr & [Hr8 Hr4] & _). set (r := ROUNDUP2N n 4) in *.
  set (m := split_mem base (init_mem base) 65532 r 0 0 0 0).
  assert (mapped_range m base 65535) as Hm by (repeat apply mapped_range_poke; apply boot_mapped).
  assert (4 | 65532 - r) by (apply Z.divide_sub_r; [by exists 16383|done]).
  assert (hdr_ok r 1 0) by (split; auto; lia). assert (hdr_ok (65532 - r) 0 0) by (split; auto; lia).
  assert (hdr_ok 0 0 1) by (split; auto; [lia|by exists 0]).
  destruct Hb as [Hb0 Hb1 Hb2]. assert (base_ok base) as Hb by done.
  assert (peek 2 m (base + 65532 - r) = hdr r 1 0) as HA by (unfold m, split_mem; pk).
  assert (peek 2 m (base + 65532 - r - 2) = hdr (65532 - r) 0 0) as HF by (unfold m, split_mem; pk).
  assert (peek 2 m (base + 65532) = hdr 0 0 1) as HT by (unfold m, split_mem; pk).
  assert (peek 2 m (base + 4) = 0) as HN
    by (unfold m, split_mem; rewrite peek_poke_other, peek_poke_other by lia; by rewrite peek_poke_same).
  assert (peek 2 m (base + 2) = 0) as HP.
  { unfold m, split_mem, init_mem. do 7 rewrite peek_poke_other by lia.
    by rewrite peek_poke_same. }
  unfold kfree. destruct (Z.eqb_spec (base + 65532 - r + 2) 0); [lia|]. change sizeof_block_header with 2.
  replace (base + 65532 - r + 2 - 2) with (base + 65532 - r) by lia.
  rewrite (wrap_small 64 (base + 65532 - r)) by (unfold in_range; lia).
  mrun (eapply get_size_run; [hmap|done|done]). mrun done.
  unfold set_bytes; cbn [memory freelist bytes_allocated]. rewrite Z.sub_diag.
  apply (coalesce_top base Hb); try done.
  unfold m, split_mem, init_mem. rewrite !mapped_poke. by apply boot_end.
Qed.

Lemma kfree_top_out_of_bounds_witness :
  (init_kheap ;; p ← kmalloc 0x10000 1 20; kfree 0x10000 p) (boot 0x10000) = Fault (Unmapped 0x1FFFF).
Proof. apply (kfree_top_out_of_bounds 0x10000 20 0); [apply base_ok_64K|by vm_compute|by vm_compute]. Defined.



(** A request of 1 to 4 bytes is rounded to 6, which the header cannot
    hold: the block is recorded with 4 bytes, header included, so only 2 bytes
    lie between the returned pointer and the next header. *)
Theorem kmalloc_small_block n :
  1 <= n <= 4 ->
  result_of ((init_kheap ;; p ← kmalloc 0x10000 1 n; sz ← get_size (p - 2); mret (p - 2 + sz - p))
    (boot 0x10000)) = Some 2.
Proof.
  intros Hn. assert (n = 1 \/ n = 2 \/ n = 3 \/ n = 4) as [->|[->|[->| ->]]] by lia;
    vm_compute; reflexivity.
Qed.

Lemma kmalloc_small_block_witness :
  result_of ((init_kheap ;; p ← kmalloc 0x10000 1 4; sz ← get_size (p - 2); mret (p - 2 + sz - p))
    (boot 0x10000)) = Some 2.
Proof. apply kmalloc_small_block. lia. Defined.

(** At an address that is not a multiple of 64 KiB the heap is unsound:
    once the last block has left the free list, the index of the null pointer
    is stored as the next free block.  A client that stores one number in its
    own 64-byte allocation gets a second allocation inside the first. *)
Theorem kmalloc_overlap :
  exists base p q,
    result_of ((init_kheap ;; p ← kmalloc base 2 64; on_mem (store16 (p + 8) 32) ;;
      q ← kmalloc base 2 16; mret (p, q)) (boot base)) = Some (p, q) /\
    p <= q /\ q + 16 <= p + 64.
Proof. exists 0x1003A, 0x1FFF8, 0x20012. split; [vm_compute; reflexivity|lia]. Qed.

(** Freeing two neighbours can overwrite a third allocation, also at an aligned
    address: a freed block keeps, as its [prev] link, the first two bytes its
    client stored, and coalescing it with the next freed block stores through
    that link.  Here the owner of [a] stores 0xFFFF, the client of [b] a number
    in its own allocation; after [b] and [c] are freed [a] reads 0. *)
Theorem kfree_stale_prev :
  exists v, result_of ((init_kheap ;;
      a ← kmalloc 0x10000 4 16; b ← kmalloc 0x10000 4 16; c ← kmalloc 0x10000 4 16; d ← kmalloc 0x10000 4 16;
      on_mem (store16 a 0xFFFF) ;; on_mem (store16 b v) ;;
      kfree 0x10000 b ;; kfree 0x10000 c ;; on_mem (load16 a)) (boot 0x10000)) = Some 0.
Proof. exists 65514. vm_compute. reflexivity. Qed.

(** When no block is free, [kmalloc] does not return the null pointer: it
    follows the null free list and reads address 4. *)
Theorem kmalloc_exhausted_faults base fuel n s :
  freelist s = 0 -> mapped (memory s) 4 = false -> 1 <= n <= MAX_ALLOC ->
  kmalloc base (S fuel) n s = Fault (Unmapped 4).
Proof.
  intros Hf Hm Hn. unfold kmalloc, MAX_ALLOC in *.
  destruct (Z.eqb_spec n 0), (Z.ltb_spec 65535 n); try lia. simpl. mrun done. rewrite Hf.
  apply bind_Fault. cbn [find_block]. apply bind_Fault.
  change (next_of 0) with 4. unfold on_mem, zoom, load16, load, mbind, M_bind, load8. by rewrite Hm.
Qed.

Lemma kmalloc_exhausted_faults_witness :
  exists s, result_of ((init_kheap ;; kmalloc 0x10000 1 65528) (boot 0x10000)) = Some 0x10002 /\
    (init_kheap ;; kmalloc 0x10000 1 65528) (boot 0x10000) = Ok (0x10002, s) /\
    kmalloc 0x10000 1 100 s = Fault (Unmapped 4).
Proof.
  eexists. split; [vm_compute; reflexivity|]. split; [vm_compute; reflexivity|].
  apply kmalloc_exhausted_faults; [reflexivity|reflexivity|by vm_compute].
Defined.

End KmallocProps.
