(* ===== verification/Interrupts.v ===== *)
(** kernel/arch/x86: segmentation.hpp, idt.h, idt.c, tss.h, tss.c: segment
    selectors and descriptors, the interrupt descriptor table and the task
    state segment.

    Descriptors are raw integers read and written through the layouts the
    compiler gives the structures, and compared with the formats of the
    processor. *)
From S2P Require Import Prelude Layout Memory.

(** ** Segmentation *)
Module Segmentation.

Inductive DPL := KERNEL | USER.
Definition dpl_value (d : DPL) : Z := match d with KERNEL => 0 | USER => 3 end.

(** The declared types are wider than the 16 bits of a selector: the structure
    takes 4 bytes. *)
Definition segsel_members : list member :=
  [Bits "rpl" cu8 2; Bits "ti" cu8 1; Bits "index" cu32 13].
Definition segsel : list placed := layout false segsel_members.

Definition mk_segsel (rpl ti index : Z) : Z :=
  finit segsel [("rpl", rpl); ("ti", ti); ("index", index)].

Definition SEGSEL_NULL : Z := mk_segsel 0 0 0.
Definition SEGSEL_KCODE : Z := mk_segsel 0 0 1.
Definition SEGSEL_KDATA : Z := mk_segsel 0 0 2.
Definition SEGSEL_UCODE : Z := mk_segsel 0 0 3.
Definition SEGSEL_UDATA : Z := mk_segsel 0 0 4.
Definition SEGSEL_TSS_LOW : Z := mk_segsel 0 0 5.
Definition SEGSEL_TSS_HIGH : Z := mk_segsel 0 0 6.

Definition SEGIDX_NULL : Z := 0.
Definition SEGIDX_KCODE : Z := 1.
Definition SEGIDX_KDATA : Z := 2.
Definition SEGIDX_UCODE : Z := 3.
Definition SEGIDX_UDATA : Z := 4.
Definition SEGIDX_TSS_LOW : Z := 5.
Definition SEGIDX_TSS_HIGH : Z := 6.
Definition SEGIDX : list Z :=
  [SEGIDX_NULL; SEGIDX_KCODE; SEGIDX_KDATA; SEGIDX_UCODE; SEGIDX_UDATA; SEGIDX_TSS_LOW; SEGIDX_TSS_HIGH].

Inductive sysdesc_type :=
| SYSDESC_TYPE_LDT | SYSDESC_TYPE_TSS_AVAIL | SYSDESC_TYPE_TSS_BUSY
| SYSDESC_TYPE_CALL_GATE | SYSDESC_TYPE_INT_GATE | SYSDESC_TYPE_TRAP_GATE.
Definition sysdesc_value (t : sysdesc_type) : Z :=
  match t with
  | SYSDESC_TYPE_LDT => 2 | SYSDESC_TYPE_TSS_AVAIL => 9 | SYSDESC_TYPE_TSS_BUSY => 11
  | SYSDESC_TYPE_CALL_GATE => 12 | SYSDESC_TYPE_INT_GATE => 14 | SYSDESC_TYPE_TRAP_GATE => 15
  end.

Definition segdesc_members : list member :=
  [Bits "lim_15_0" cu32 16; Bits "base_23_0" cu32 24; Bits "type" cu32 4; Bits "s" cu32 1;
   Bits "dpl" cu8 2; Bits "p" cu32 1; Bits "lim_19_16" cu32 4; Bits "avail" cu32 1;
   Bits "lm" cu32 1; Bits "db" cu32 1; Bits "g" cu32 1; Bits "base_31_24" cu32 8].
Definition segdesc : list placed := layout true segdesc_members.

Definition GDTR : list placed := layout true [Plain "lenm1" cu16; Plain "addr" cu64].

Definition SEG_KCODE : Z := Z.shiftl 1 3.
Definition SEG_KDATA : Z := Z.shiftl 2 3.
Definition SEG_UCODE : Z := Z.shiftl 3 3.
Definition SEG_UDATA : Z := Z.shiftl 4 3.
Definition SEG_TSS : Z := Z.shiftl 5 3.

Definition STA_X : Z := 0x8.
Definition STA_W : Z := 0x2.
Definition STA_R : Z := 0x2.

(** Bytes in memory order, as one little-endian number. *)
Definition of_bytes (l : list Z) : Z := foldr (fun b acc => u8 b + 256 * acc) 0 l.

(** The assembler macros: two words and four bytes. *)
Definition SEG_ASM (type dpl : Z) : Z :=
  of_bytes [0; 0; 0; 0; 0;
    Z.lor (Z.lor (Z.lor type 0x10) (Z.shiftl dpl 5)) 0x80; Z.shiftl (Z.land type STA_X) 2; 0].
Definition SEG_NULLASM : Z := of_bytes [0; 0; 0; 0; 0; 0; 0; 0].
Definition SEG32_ASM (type dpl : Z) : Z :=
  of_bytes [0xFF; 0xFF; 0; 0; 0;
    Z.lor (Z.lor (Z.lor type 0x10) (Z.shiftl dpl 5)) 0x80; 0xCF; 0].

(** The table of boot.S. *)
Definition gdt64 : list Z :=
  [SEG_NULLASM; SEG_ASM (Z.lor STA_X STA_R) 0; SEG_ASM STA_W 0; SEG_ASM (Z.lor STA_X STA_R) 3;
   SEG_ASM STA_W 3; SEG_NULLASM; SEG_NULLASM].

End Segmentation.

(** ** The interrupt descriptor table *)
Module Idt.
Import Segmentation.

Definition idtdesc_members : list member :=
  [Plain "offset_low" cu16; Plain "cs" (struct_type false segsel_members);
   Bits "ist" cu8 2; Bits "zero" cu8 6; Bits "type" cenum 4; Bits "zero2" cu8 1; Bits "dpl" cu8 2;
   Bits "p" cu8 1; Plain "offset_mid" cu16; Plain "offset_high" cu32; Plain "rsrv" cu32].
Definition idtdesc : list placed := layout true idtdesc_members.
Definition sizeof_idtdesc : Z := sizeof true idtdesc_members.

Definition IDTR : list placed := layout true [Plain "lenm1" cu16; Plain "offset" cu64].

Definition trapframe_members : list member :=
  [Plain "r15" cu64; Plain "r14" cu64; Plain "r13" cu64; Plain "r12" cu64; Plain "r11" cu64;
   Plain "r10" cu64; Plain "r9" cu64; Plain "r8" cu64; Plain "rdi" cu64; Plain "rsi" cu64;
   Plain "rbp" cu64; Plain "rdx" cu64; Plain "rcx" cu64; Plain "rbx" cu64; Plain "rax" cu64;
   Plain "gs" cu16; Plain "fs" cu16; Plain "es" cu16; Plain "ds" cu16;
   Plain "interrupt_num" cu64; Plain "error_code" cu64; Plain "rip" cu64; Plain "cs" cu64;
   Plain "rflags" cu64; Plain "rsp" cu64; Plain "ss" cu64].
Definition trapframe : list placed := layout true trapframe_members.
Definition sizeof_trapframe : Z := sizeof true trapframe_members.

(** The processor's exceptions, by the names of the header. *)
Definition exceptions : list (string * Z) :=
  [("DIVIDE_ERROR", 0); ("DEBUG_EXC", 1); ("NMI_INTERRUPT", 2); ("BREAKPOINT", 3); ("OVERFLOW", 4);
   ("BOUND_RANGE_EXCEED", 5); ("INVALID_OPCODE", 6); ("DEV_NOT_AVL", 7); ("DOUBLE_FAULT", 8);
   ("COPROC_SEG_OVERRUN", 9); ("INVALID_TSS", 10); ("SEGMENT_NOT_PRESENT", 11); ("STACK_SEGMENT_FAULT", 12);
   ("GENERAL_PROTECTION", 13); ("PAGE_FAULT", 14); ("INT_RSV", 15); ("FLOATING_POINT_ERR", 16);
   ("ALIGNMENT_CHECK", 17); ("MACHINE_CHECK", 18); ("SIMD_FP_EXC", 19)].

Definition PAGE_FAULT : Z := 14.
Definition APIC_TIMER_INTERRUPT_NUM : Z := 32.
Definition APIC_SPURIOUS_INTERRUPT_NUM : Z := 255.
Definition IRQ_VECTOR_BASE : Z := 32.
Definition IRQ_LAPIC_TIMER : Z := 0.
Definition IRQ_KEYBOARD : Z := 1.
Definition IRQ_PIT : Z := 2.
Definition IRQ_COM2 : Z := 3.
Definition IRQ_COM1 : Z := 4.
Definition IRQ_DISK : Z := 14.
Definition irqs : list Z :=
  [IRQ_LAPIC_TIMER; IRQ_KEYBOARD; IRQ_PIT; IRQ_COM2; IRQ_COM1; IRQ_DISK].
Definition KEYBOARD_VECTOR : Z := IRQ_VECTOR_BASE + IRQ_KEYBOARD.
Definition PIT_VECTOR : Z := IRQ_VECTOR_BASE + IRQ_PIT.
Definition DISK_VECTOR : Z := IRQ_VECTOR_BASE + IRQ_DISK.
Definition SYSCALL_VECTOR : Z := 0x80.

(** The vectors and lines of devices, by the names of the header. *)
Definition interrupt_numbers : list (string * Z) :=
  [("APIC_TIMER_INTERRUPT_NUM", APIC_TIMER_INTERRUPT_NUM);
   ("APIC_SPURIOUS_INTERRUPT_NUM", APIC_SPURIOUS_INTERRUPT_NUM); ("IRQ_VECTOR_BASE", IRQ_VECTOR_BASE);
   ("IRQ_LAPIC_TIMER", IRQ_LAPIC_TIMER); ("IRQ_KEYBOARD", IRQ_KEYBOARD); ("IRQ_PIT", IRQ_PIT);
   ("IRQ_COM2", IRQ_COM2); ("IRQ_COM1", IRQ_COM1); ("IRQ_DISK", IRQ_DISK);
   ("KEYBOARD_VECTOR", KEYBOARD_VECTOR); ("PIT_VECTOR", PIT_VECTOR); ("DISK_VECTOR", DISK_VECTOR);
   ("SYSCALL_VECTOR", SYSCALL_VECTOR)].

Definition N_VECTORS : nat := 256.

Definition setidtdesc (type cs off dpl gate : Z) : Z :=
  let gate := fset idtdesc "offset_low" (Z.land off 0xffff) gate in
  let gate := fset idtdesc "cs" cs gate in
  let gate := fset idtdesc "type" type gate in
  let gate := fset idtdesc "dpl" dpl gate in
  let gate := fset idtdesc "p" 1 gate in
  let gate := fset idtdesc "offset_mid" (Z.shiftr off 16) gate in
  fset idtdesc "offset_high" (Z.shiftr off 32) gate.

Section idt.
(** Names idt.c uses and no header of the repository declares for C, and the
    table of entry points that vectors.py generates. *)
Context (IDT_TYPE_INT_GATE IDT_TYPE_TRAP_GATE T_SYSCALL SEG_KCODE DPL_KERNEL DPL_USER : Z).
Context (vectors : Z -> Z).

(** [setidtdesc(&idt[i], ...)] on the table. *)
Definition set_gate (i type cs off dpl : Z) : M (list Z) unit :=
  idt ← get;
  g ← index idt i;
  put (updateZ idt i (setidtdesc type cs off dpl g)).

Definition init_idt : M (list Z) unit :=
  for_loop N_VECTORS 0 (fun i => set_gate i IDT_TYPE_INT_GATE SEG_KCODE (vectors i) DPL_KERNEL) ;;
  set_gate T_SYSCALL IDT_TYPE_TRAP_GATE SEG_KCODE (vectors T_SYSCALL) DPL_USER.

End idt.

(** The operand of [lidt] for the table at address [idt]. *)
Definition lidt (idt size : Z) : Z :=
  finit IDTR [("lenm1", u16 (u16 size - 1)); ("offset", idt)].
Definition load_idt (idt : Z) : Z := lidt idt (sizeof_idtdesc * Z.of_nat N_VECTORS).

(** What a gate says, through its own layout. *)
Definition gate_offset (g : Z) : Z :=
  fget idtdesc "offset_low" g + 2 ^ 16 * fget idtdesc "offset_mid" g +
  2 ^ 32 * fget idtdesc "offset_high" g.

(** The present bit where the processor looks for it in a 16-byte gate. *)
Definition hw_gate_present (g : Z) : Z := bits 47 1 g.

End Idt.

(** ** The task state segment *)
Module Tss.
Import Segmentation.

Definition tssseg_members : list member :=
  [Plain "rsrvz0" cu32; Plain "rsp0" cu64; Plain "rsp1" cu64; Plain "rsp2" cu64;
   Plain "rsrvz1" cu64; Plain "rsrvz2" cu64; Plain "ist1" cu64; Plain "ist2" cu64;
   Plain "ist3" cu64; Plain "ist4" cu64; Plain "ist5" cu64; Plain "ist6" cu64;
   Plain "ist7" cu64; Plain "rsrvz3" cu64; Plain "rsrvz4" cu16; Plain "io_bitmap_offset" cu16].
Definition tssseg_t : list placed := layout true tssseg_members.
Definition sizeof_tssseg_t : Z := sizeof true tssseg_members.

(** The globals of tss.c, and the task register. *)
Record state := State { kernel_tss : Z; gdt : list Z; tr : Z }.

Definition set_desc (i d : Z) : M state unit :=
  s ← get;
  _ ← index (gdt s) i;
  put (State (kernel_tss s) (updateZ (gdt s) i d) (tr s)).

(** [stack] and [tss], the addresses of the boot stack and of [kernel_tss]. *)
Definition initialize_tss (stack : Z) : M state unit :=
  modify (fun s => State (fset tssseg_t "rsp0" (u64 (stack + 16384)) (kernel_tss s)) (gdt s) (tr s)).

Definition ltr (sel : Z) : M state unit := modify (fun s => State (kernel_tss s) (gdt s) sel).

Definition load_tss (tss : Z) : M state unit :=
  set_desc SEGIDX_TSS_LOW (finit segdesc
    [("lim_15_0", u16 sizeof_tssseg_t);
     ("base_23_0", Z.land tss 0xFFFFFF);
     ("type", sysdesc_value SYSDESC_TYPE_TSS_AVAIL);
     ("p", 1);
     ("lim_19_16", u8 (Z.shiftr sizeof_tssseg_t 16));
     ("base_31_24", u8 (Z.shiftr tss 24))]) ;;
  let base_63_32 := u32 (Z.shiftr tss 32) in
  set_desc SEGIDX_TSS_HIGH base_63_32 ;;
  let tss_sel := SEGSEL_TSS_LOW in
  ltr (u16 tss_sel).

(** The 16-byte system descriptor as the processor reads it: base and limit. *)
Definition hw_base (lo hi : Z) : Z :=
  bits 16 24 lo + 2 ^ 24 * bits 56 8 lo + 2 ^ 32 * bits 0 32 hi.
Definition hw_limit (lo : Z) : Z := bits 0 16 lo + 2 ^ 16 * bits 48 4 lo.
(** A selector: index into the table, in units of 8 bytes. *)
Definition hw_selector_index (sel : Z) : Z := Z.shiftr sel 3.

End Tss.

(** ** Facts *)
Module InterruptFacts.
Import Segmentation Idt Tss.

Lemma land_ffff off : Z.land off 0xffff = wrap 16 off.
Proof. change 0xffff with (Z.ones 16). by rewrite Z.land_ones by lia. Qed.

(** A 64-bit number from its 16-, 16- and 32-bit pieces. *)
Lemma split_64 off :
  in_range 64 off ->
  wrap 16 off + 2 ^ 16 * wrap 16 (Z.shiftr off 16) + 2 ^ 32 * wrap 32 (Z.shiftr off 32) = off.
Proof.
  intros H. unfold in_range, wrap in *. rewrite !Z.shiftr_div_pow2 by lia.
  change (2 ^ 16) with 65536. change (2 ^ 32) with 4294967296.
  change (2 ^ 64) with 18446744073709551616 in H. Z.to_euclidean_division_equations. lia.
Qed.

Record gate_is (type cs off dpl g : Z) : Prop := {
  gi_offset : gate_offset g = off;
  gi_type : fget idtdesc "type" g = wrap 4 type;
  gi_cs : fget idtdesc "cs" g = wrap 32 cs;
  gi_dpl : fget idtdesc "dpl" g = wrap 2 dpl;
  gi_p : fget idtdesc "p" g = 1 }.

Lemma setidtdesc_gate type cs off dpl g :
  in_range 64 off -> gate_is type cs off dpl (setidtdesc type cs off dpl g).
Proof.
  intros Ho. split; unfold gate_offset, setidtdesc; rewrite ?land_ffff; layout_eval; bits_simpl;
    try done. rewrite (wrap_wrap 16 off) by lia. by apply split_64.
Qed.

(** The members [setidtdesc] does not name keep their value. *)
Lemma setidtdesc_other type cs off dpl g n :
  n ∈ ["ist"; "zero"; "zero2"; "rsrv"] ->
  fget idtdesc n (setidtdesc type cs off dpl g) = fget idtdesc n g.
Proof.
  intros Hn. repeat (apply elem_of_cons in Hn as [->|Hn]);
    [unfold setidtdesc; layout_eval; by bits_simpl..|].
  by apply elem_of_nil in Hn.
Qed.

Section init.
Context (INT TRAP SYS KCODE K U : Z) (vectors : Z -> Z).
Hypothesis Hvec : forall i, in_range 64 (vectors i).

Lemma set_gate_run i type cs off dpl idt :
  0 <= i < Z.of_nat (length idt) ->
  exists g, set_gate i type cs off dpl idt = Ok (tt, updateZ idt i (setidtdesc type cs off dpl g)).
Proof using.
  intros Hi. destruct (lookupZ_is_Some idt i Hi) as [g Hg]. exists g.
  unfold set_gate. mrun done. mrun by apply index_Ok. done.
Qed.

Lemma init_loop idt :
  length idt = N_VECTORS ->
  exists idt', for_loop N_VECTORS 0 (fun i => set_gate i INT KCODE (vectors i) K) idt = Ok (tt, idt') /\
    length idt' = N_VECTORS /\
    forall i, 0 <= i < 256 -> exists g, lookupZ idt' i = Some g /\ gate_is INT KCODE (vectors i) K g.
Proof using Hvec.
  intros Hlen.
  destruct (for_loop_inv (fun j t => length t = N_VECTORS /\
    forall i, 0 <= i < j -> exists g, lookupZ t i = Some g /\ gate_is INT KCODE (vectors i) K g)
    (fun i => set_gate i INT KCODE (vectors i) K) N_VECTORS 0 idt) as (idt' & Hrun & Hl & Hg).
  - split; [done|lia].
  - intros j t Hj [Hl Hg]. change (Z.of_nat N_VECTORS) with 256 in Hj.
    assert (Z.of_nat (length t) = 256) as Hz by by rewrite Hl.
    destruct (set_gate_run j INT KCODE (vectors j) K t) as [g Hrun]; [lia|].
    eexists. split; [exact Hrun|]. split; [by rewrite updateZ_length|]. intros i Hi.
    rewrite lookupZ_update by lia. case_decide; [|apply Hg; lia].
    subst. eexists. split; [done|]. by apply setidtdesc_gate.
  - exists idt'. by split_and!.
Qed.

End init.

Definition tss_low (tss : Z) : Z := finit segdesc
  [("lim_15_0", u16 sizeof_tssseg_t); ("base_23_0", Z.land tss 0xFFFFFF);
   ("type", sysdesc_value SYSDESC_TYPE_TSS_AVAIL); ("p", 1);
   ("lim_19_16", u8 (Z.shiftr sizeof_tssseg_t 16)); ("base_31_24", u8 (Z.shiftr tss 24))].

Lemma tss_base tss : in_range 64 tss -> hw_base (tss_low tss) (u32 (Z.shiftr tss 32)) = tss.
Proof.
  intros H. unfold hw_base, tss_low. layout_eval. bits_simpl.
  change 0xFFFFFF with (Z.ones 24). rewrite Z.land_ones by lia.
  unfold bits, in_range, wrap in *. rewrite !Z.shiftr_div_pow2 by lia.
  change (2 ^ 0) with 1. change (2 ^ 24) with 16777216. change (2 ^ 8) with 256.
  change (2 ^ 32) with 4294967296. change (2 ^ 64) with 18446744073709551616 in H.
  Z.to_euclidean_division_equations. lia.
Qed.

Lemma set_desc_run i d s :
  0 <= i < Z.of_nat (length (gdt s)) ->
  set_desc i d s = Ok (tt, State (kernel_tss s) (updateZ (gdt s) i d) (tr s)).
Proof.
  intros Hi. destruct (lookupZ_is_Some (gdt s) i Hi) as [a Ha]. unfold set_desc.
  mrun done. mrun by apply index_Ok. done.
Qed.

Lemma tss_limit tss : hw_limit (tss_low tss) = sizeof_tssseg_t.
Proof. unfold hw_limit, tss_low. layout_eval. bits_simpl. reflexivity. Qed.

End InterruptFacts.

(** ** Properties *)
Module InterruptProps.
Import Segmentation Idt Tss InterruptFacts.

(** The top bit of a selector of 32 bits is where the processor looks for the
    present bit. *)
Lemma gate_hw_absent type cs off dpl g : gate_is type cs off dpl g -> in_range 16 cs -> hw_gate_present g = 0.
Proof.
  intros [_ _ Hcs _ _] Hr. revert Hcs. unfold hw_gate_present. layout_eval. intros Hcs.
  apply Z.bits_inj'. intros i Hi. rewrite bits_testbit, Z.bits_0 by lia.
  destruct (Z.ltb_spec i 1); [|done]. replace i with 0 by lia.
  apply (f_equal (fun x => Z.testbit x 31)) in Hcs. rewrite bits_testbit, wrap_testbit in Hcs by lia.
  rewrite (in_range_testbit 16 cs 31) in Hcs by (done || lia). exact Hcs.
Qed.

(** C19. [init_idt] fills the whole table, through the layout of idt.h: for every
    vector but the system call the members say a gate of the interrupt type and
    the kernel's privilege, for the system call vector one of the trap type and
    the users' privilege, each with the present member set, the kernel's code
    selector, and an offset whose three pieces reassemble to the entry point of
    the vector.  The values of types, privileges, the selector and the system
    call vector are the names idt.c uses and no header declares.  The layout is
    not the processor's, which reads 16-byte gates where these have 18: it finds
    the first gate, with a 16-bit selector, not present. *)
Theorem init_idt_gates INT TRAP SYS KCODE K U vectors idt :
  (forall i, in_range 64 (vectors i)) -> 0 <= SYS < 256 -> length idt = N_VECTORS ->
  exists idt', init_idt INT TRAP SYS KCODE K U vectors idt = Ok (tt, idt') /\ length idt' = N_VECTORS /\
    (forall i, 0 <= i < 256 -> exists g, lookupZ idt' i = Some g /\
      if decide (i = SYS) then gate_is TRAP KCODE (vectors i) U g
      else gate_is INT KCODE (vectors i) K g) /\
    sizeof_idtdesc = 18 /\
    (in_range 16 KCODE -> exists g, lookupZ idt' 0 = Some g /\ hw_gate_present g = 0).
Proof.
  intros Hvec Hsys Hlen.
  destruct (init_loop INT KCODE K vectors Hvec idt Hlen) as (t & Hrun & Hl & Hg).
  assert (Z.of_nat (length t) = 256) as Hz by by rewrite Hl.
  destruct (set_gate_run SYS TRAP KCODE (vectors SYS) U t) as [g Hrun2]; [lia|].
  assert (forall i, 0 <= i < 256 -> exists g', lookupZ (updateZ t SYS (setidtdesc TRAP KCODE (vectors SYS) U g)) i = Some g' /\
    if decide (i = SYS) then gate_is TRAP KCODE (vectors i) U g' else gate_is INT KCODE (vectors i) K g') as Hall.
  { intros i Hi. rewrite lookupZ_update by lia. case_decide; [|by apply Hg].
    subst. eexists. split; [done|]. by apply setidtdesc_gate. }
  eexists. split_and!; [unfold init_idt; mrun exact Hrun; exact Hrun2|by rewrite updateZ_length|exact Hall|done|].
  intros Hk. destruct (Hall 0 ltac:(lia)) as (g' & Hg' & Hgate). exists g'. split; [done|].
  case_decide; by eapply gate_hw_absent.
Qed.

Lemma init_idt_gates_witness :
  exists idt', init_idt 14 15 SYSCALL_VECTOR SEGSEL_KCODE 0 3 (fun i => 0xFFFFFFFF80100000 + 16 * wrap 8 i)
      (replicate N_VECTORS 0) = Ok (tt, idt') /\ length idt' = N_VECTORS.
Proof.
  destruct (init_idt_gates 14 15 SYSCALL_VECTOR SEGSEL_KCODE 0 3
    (fun i => 0xFFFFFFFF80100000 + 16 * wrap 8 i) (replicate N_VECTORS 0)) as (idt' & Hrun & Hl & _).
  - intros i. pose proof (wrap_range 8 i ltac:(lia)). unfold in_range in *. lia.
  - unfold SYSCALL_VECTOR. lia.
  - apply length_replicate.
  - exists idt'. exact (conj Hrun Hl).
Defined.

(** The selector inside a gate takes 4 bytes instead of 2, so a gate takes
    18 bytes: the processor, which reads 16-byte gates, finds the first gate
    that [setidtdesc] builds (with a 16-bit selector) not present. *)
Theorem idtdesc_not_hardware type cs off dpl g :
  in_range 16 cs ->
  sizeof_idtdesc = 18 /\ hw_gate_present (setidtdesc type cs off dpl g) = 0.
Proof.
  intros Hcs. split; [done|]. unfold hw_gate_present, setidtdesc. layout_eval.
  do 5 rewrite bits_set_other by lia. apply Z.bits_inj'. intros i Hi.
  rewrite bits_testbit, set_bits_testbit, Z.bits_0 by lia.
  destruct (Z.ltb_spec i 1); [|done]. replace i with 0 by lia.
  by apply (in_range_testbit 16 cs 31).
Qed.

Lemma idtdesc_not_hardware_witness :
  hw_gate_present (setidtdesc 14 SEGSEL_KCODE 0xFFFFFFFF80100000 0 0) = 0.
Proof. apply idtdesc_not_hardware. by vm_compute. Defined.

(** [load_tss] installs a descriptor the processor understands: entries 5
    and 6 of the table hold the whole 64-bit address of [kernel_tss] and its
    size as limit, an available 64-bit TSS, present; the task register selects
    entry 5 and the other entries are unchanged. *)
Theorem load_tss_descriptor tss s :
  in_range 64 tss -> length (gdt s) = 7%nat ->
  exists s' lo hi, load_tss tss s = Ok (tt, s') /\ kernel_tss s' = kernel_tss s /\
    lookupZ (gdt s') 5 = Some lo /\ lookupZ (gdt s') 6 = Some hi /\
    hw_base lo hi = tss /\ hw_limit lo = sizeof_tssseg_t /\ bits 40 4 lo = 9 /\ bits 47 1 lo = 1 /\
    hw_selector_index (tr s') = 5 /\
    (forall i, 0 <= i < 5 -> lookupZ (gdt s') i = lookupZ (gdt s) i).
Proof.
  intros Ht Hl. destruct s as [k t r]; simpl in *. assert (Z.of_nat (length t) = 7) as Hz by by rewrite Hl.
  assert (forall i x y, 0 <= i < 7 -> lookupZ (updateZ (updateZ t 5 x) 6 y) i =
    if decide (i = 6) then Some y else if decide (i = 5) then Some x else lookupZ t i) as Hlk.
  { intros i x y Hi. rewrite !lookupZ_update by (rewrite ?updateZ_length; lia). done. }
  unfold load_tss. do 3 eexists. split; [|split_and!].
  - mrun (apply set_desc_run; simpl; unfold SEGIDX_TSS_LOW; lia).
    mrun (apply set_desc_run; simpl; rewrite updateZ_length; unfold SEGIDX_TSS_HIGH; lia).
    reflexivity.
  - done.
  - simpl. by rewrite Hlk by lia.
  - simpl. by rewrite Hlk by lia.
  - by apply tss_base.
  - by apply tss_limit.
  - layout_eval. bits_simpl. reflexivity.
  - layout_eval. bits_simpl. reflexivity.
  - reflexivity.
  - intros i Hi. simpl. rewrite Hlk by lia. case_decide; [lia|]. by case_decide; [lia|].
Qed.

Lemma load_tss_descriptor_witness :
  exists s' lo hi, load_tss 0xFFFFFFFF80123450 (State 0 gdt64 0) = Ok (tt, s') /\
    lookupZ (gdt s') 5 = Some lo /\ lookupZ (gdt s') 6 = Some hi /\ hw_base lo hi = 0xFFFFFFFF80123450.
Proof.
  destruct (load_tss_descriptor 0xFFFFFFFF80123450 (State 0 gdt64 0))
    as (s' & lo & hi & Hrun & _ & Hlo & Hhi & Hb & _); [by vm_compute|done|].
  exists s', lo, hi. exact (conj Hrun (conj Hlo (conj Hhi Hb))).
Defined.

(** The descriptors the assembler macro [SEG_ASM] emits are segment
    descriptors of the structure [segdesc]: the type and privilege given,
    present, 64-bit exactly for code, base and limit 0. *)
Theorem SEG_ASM_segdesc type dpl :
  in_range 4 type -> in_range 2 dpl ->
  unpack segdesc (SEG_ASM type dpl) =
  [0; 0; type; 1; dpl; 1; 0; 0; if Z.testbit type 3 then 1 else 0; 0; 0; 0].
Proof.
  intros Ht Hd.
  assert (Forall (fun t => Forall (fun d => unpack segdesc (SEG_ASM t d) =
    [0; 0; t; 1; d; 1; 0; 0; if Z.testbit t 3 then 1 else 0; 0; 0; 0]) (seqZ 0 4)) (seqZ 0 16)) as H.
  { apply (bool_decide_eq_true _). vm_compute. reflexivity. }
  rewrite Forall_forall in H. specialize (H type). rewrite Forall_forall in H.
  unfold in_range in *. apply H; apply elem_of_seqZ; lia.
Qed.

Lemma SEG_ASM_segdesc_witness :
  unpack segdesc (SEG_ASM (Z.lor STA_X STA_R) 3) = [0; 0; 10; 1; 3; 1; 0; 0; 1; 0; 0; 0].
Proof. apply (SEG_ASM_segdesc 10 3); by vm_compute. Defined.

(** The interrupt stack table of the structure is 8 bytes after its place in
    the 64-bit TSS of the processor (offset 36), the stack pointers are not. *)
Lemma tss_ist_shifted :
  offsetof tssseg_t "rsp0" = 4 /\ offsetof tssseg_t "ist1" = 36 + 8 /\ sizeof_tssseg_t = 104 + 8.
Proof. done. Qed.

End InterruptProps.
