(* ===== verification/Vectors.v ===== *)
(** kernel/arch/x86/vectors.py: the program that writes the interrupt entry
    points and the table of their addresses.

    The output is the list of the lines printed.  A reference reading of the
    lines, labels and the two instructions they use, says what an entry point
    leaves on the stack. *)
From S2P Require Import Prelude Interrupts.
From stdpp Require Import pretty strings.
Local Open Scope Z_scope.

(** ** Definitions *)
Module Vectors.

(** [i == 8 or 10 <= i <= 14 or i == 17]. *)
Definition error_code_pushed (i : Z) : bool := (i =? 8) || ((10 <=? i) && (i <=? 14)) || (i =? 17).

Definition entry_lines (i : Z) : list string :=
  [".global vector" +:+ pretty i; "vector" +:+ pretty i +:+ ":"] ++
  (if negb (error_code_pushed i) then ["  pushl $0"] else []) ++
  ["  pushl $" +:+ pretty i; "  jmp alltraps"].

Definition vectors_py : list string :=
  ["# generated by vectors.py - do not edit"; "# interrupt service routines"; ".global alltraps"] ++
  (seqZ 0 256 ≫= entry_lines) ++
  [""; "# vector table"; ".data"; ".global vectors"; "vectors:"] ++
  ((fun i => "  .quad vector" +:+ pretty i) <$> seqZ 0 256).

End Vectors.

(** ** Reading the lines *)
Module VectorsFacts.
Import Vectors.

Fixpoint strip (p s : string) : option string :=
  match p, s with
  | EmptyString, _ => Some s
  | String a p, String b s => if decide (a = b) then strip p s else None
  | _, _ => None
  end.

Fixpoint decimal (acc : Z) (s : string) : Z :=
  match s with
  | EmptyString => acc
  | String c s => decimal (10 * acc + (Z.of_nat (Ascii.nat_of_ascii c) - 48)) s
  end.

(** The lines that follow a label. *)
Fixpoint at_label (l : string) (lines : list string) : option (list string) :=
  match lines with
  | [] => None
  | x :: lines => if decide (x = l +:+ ":") then Some lines else at_label l lines
  end.

(** Push the operands, the last one on top, until the jump. *)
Fixpoint run (lines : list string) (stack : list Z) : option (string * list Z) :=
  match lines with
  | [] => None
  | x :: lines =>
      match strip "  pushl $" x, strip "  jmp " x with
      | Some n, _ => run lines (decimal 0 n :: stack)
      | _, Some l => Some (l, stack)
      | None, None => None
      end
  end.

(** The label in the given entry of the table at a label. *)
Definition table_entry (lines : list string) (l : string) (i : nat) : option string :=
  table ← at_label l lines; x ← table !! i; strip "  .quad " x.

(** The vectors for which the processor itself pushes an error code: double
    fault, the segment, stack, protection and page faults, alignment check; and
    on newer processors control protection, VMM communication and security. *)
Definition cpu_error_code (i : Z) : bool := bool_decide (i ∈ [8; 10; 11; 12; 13; 14; 17; 21; 29; 30]).

(** Those of them that the generator does not know. *)
Definition two_codes (i : Z) : bool := bool_decide (i ∈ [21; 29; 30]).

Lemma cpu_error_code_cases i :
  cpu_error_code i = error_code_pushed i || two_codes i /\ (two_codes i = true -> error_code_pushed i = false).
Proof.
  assert (two_codes i = (i =? 21) || (i =? 29) || (i =? 30)) as ->.
  { unfold two_codes. case_bool_decide as H; set_unfold in H; lia. }
  assert (cpu_error_code i = (i =? 8) || (i =? 10) || (i =? 11) || (i =? 12) || (i =? 13) || (i =? 14) ||
    (i =? 17) || (i =? 21) || (i =? 29) || (i =? 30)) as ->.
  { unfold cpu_error_code. case_bool_decide as H; set_unfold in H; lia. }
  unfold error_code_pushed. lia.
Qed.

(** The stack at the entry point of an interrupt. *)
Definition interrupt_stack (i err : Z) (frame : list Z) : list Z :=
  if cpu_error_code i then err :: frame else frame.

Lemma run_app lines : forall stack l k,
  run lines [] = Some (l, k) -> run lines stack = Some (l, k ++ stack).
Proof.
  assert (forall stack j l k, run lines j = Some (l, k) -> run lines (j ++ stack) = Some (l, k ++ stack)) as H.
  { induction lines as [|x lines IH]; intros stack j l k; cbn [run]; [done|].
    destruct (strip "  pushl $" x) as [n|]; [apply (IH stack (_ :: j))|].
    destruct (strip "  jmp " x); [|done]. by intros [= <- <-]. }
  intros stack l k. apply (H stack []).
Qed.

(** What each entry point pushes, by evaluation of the generated text. *)
Definition entry_ok (i : Z) : bool :=
  bool_decide ((at_label ("vector" +:+ pretty i) vectors_py ≫= fun ls => run ls []) =
    Some ("alltraps", if error_code_pushed i then [i] else [i; 0])) &&
  bool_decide (table_entry vectors_py "vectors" (Z.to_nat i) = Some ("vector" +:+ pretty i)).

Lemma entries_ok : forallb entry_ok (seqZ 0 (Z.of_nat Idt.N_VECTORS)) = true.
Proof. vm_compute. reflexivity. Qed.

Lemma entry_ok_lookup i : 0 <= i < Z.of_nat Idt.N_VECTORS -> entry_ok i = true.
Proof.
  intros Hi. pose proof (proj1 (forallb_forall _ _) entries_ok i) as H. apply H.
  apply list_elem_of_In, elem_of_seqZ. lia.
Qed.

End VectorsFacts.

(** ** Properties *)
Module VectorsProps.
Import Vectors VectorsFacts.

(** The exceptions of the header for which no zero is pushed; no device
    interrupt and no system call is among them. *)
Theorem error_code_exceptions :
  filter (fun e => error_code_pushed e.2 = true) Idt.exceptions =
    [("DOUBLE_FAULT", 8); ("INVALID_TSS", 10); ("SEGMENT_NOT_PRESENT", 11); ("STACK_SEGMENT_FAULT", 12);
     ("GENERAL_PROTECTION", 13); ("PAGE_FAULT", 14); ("ALIGNMENT_CHECK", 17)] /\
  Forall (fun i => error_code_pushed (Idt.IRQ_VECTOR_BASE + i) = false) Idt.irqs /\
  error_code_pushed Idt.SYSCALL_VECTOR = false /\
  forall i, 20 <= i -> error_code_pushed i = false.
Proof.
  split; [reflexivity|]. split; [repeat constructor|]. split; [reflexivity|].
  intros i Hi. unfold error_code_pushed. repeat zcase; simpl; try done; lia.
Qed.

(** C20. The table entry of vector [i] names an entry point of the generated
    text, and that entry point jumps to [alltraps] with the vector number on top
    of an error code, the processor's where it pushes one and 0 elsewhere, on top
    of the interrupt frame.  This holds for every vector but 21, 29 and 30: on
    these newer exceptions the processor pushes an error code as well, the
    generator does not know it, and a 0 comes to lie on top of it.  An operand
    of [pushl] is taken to be one slot of the stack. *)
Theorem vectors_frame i err frame : 0 <= i < Z.of_nat Idt.N_VECTORS ->
  exists l ls, table_entry vectors_py "vectors" (Z.to_nat i) = Some l /\
    at_label l vectors_py = Some ls /\
    run ls (interrupt_stack i err frame) =
      Some ("alltraps",
        if bool_decide (i ∈ [21; 29; 30]) then i :: 0 :: err :: frame
        else i :: (if cpu_error_code i then err else 0) :: frame).
Proof.
  intros Hi. pose proof (entry_ok_lookup i Hi) as H. unfold entry_ok in H.
  apply andb_prop in H as [H1%bool_decide_eq_true H2%bool_decide_eq_true].
  apply bind_Some in H1 as (ls & Hls & Hrun). exists ("vector" +:+ pretty i), ls.
  split; [exact H2|]. split; [exact Hls|]. rewrite (run_app _ _ _ _ Hrun). unfold interrupt_stack.
  fold (two_codes i). destruct (cpu_error_code_cases i) as [-> Ht].
  destruct (two_codes i); [by rewrite Ht|]. by destruct (error_code_pushed i).
Qed.

Lemma vectors_frame_witness :
  exists l ls, table_entry vectors_py "vectors" 14 = Some l /\ at_label l vectors_py = Some ls /\
    run ls (interrupt_stack 14 2 [0x401000; 8]) = Some ("alltraps", [14; 2; 0x401000; 8]).
Proof. apply (vectors_frame 14 2 [0x401000; 8]). vm_compute. split; congruence. Defined.

End VectorsProps.
