(* ===== verification/Entry.v ===== *)
(** kernel/arch/x86/boot.S: from the entry point the boot loader jumps to, in
    32-bit protected mode without paging, to [kernel_main] in 64-bit mode.

    The registers, the control registers and physical memory are one state;
    once paging is on, memory operands go through the page walk of the
    processor ([Paging.walk]) over the tables the code has just built. *)
From S2P Require Import Prelude Layout Memory Libk Paging Interrupts.
Import MemLayout Paging Segmentation.

Module Entry.

(** ** The processor *)

(** The 64-bit code uses the full width of the general registers. *)
Inductive reg := EAX | EBX | ECX | EDX | EDI | ESI | CR0 | CR3 | CR4
  | CS | SS | DS | ES | FS | GS | RSP | RIP.
#[global] Instance reg_eq_dec : EqDecision reg.
Proof. solve_decision. Defined.

Record machine := Machine {
  regs : reg -> Z;
  msrs : gmap Z Z;
  gdtr : Z * Z;        (* limit and base *)
  cs_desc : Z;         (* descriptor cached with CS *)
  ram : mem
}.

Definition reg_upd (r : reg) (v : Z) (f : reg -> Z) : reg -> Z :=
  fun r' => if decide (r' = r) then v else f r'.

Definition rd (r : reg) : M machine Z := gets (fun c => regs c r).
Definition wr (r : reg) (v : Z) : M machine unit :=
  modify (fun c => Machine (reg_upd r v (regs c)) (msrs c) (gdtr c) (cs_desc c) (ram c)).
Definition set_ram (m : mem) (c : machine) : machine :=
  Machine (regs c) (msrs c) (gdtr c) (cs_desc c) m.
Definition phys {A} : M mem A -> M machine A := zoom ram set_ram.

(** Paging flags and constants of x86.h and msr.h. *)
Definition CR0_PE : Z := Z.shiftl 1 0.
Definition CR0_WP : Z := Z.shiftl 1 16.
Definition CR0_PG : Z := Z.shiftl 1 31.
Definition CR4_PAE : Z := Z.shiftl 1 5.
Definition MSR_EFER : Z := 0xC0000080.
Definition MSR_EFER_LONG_MODE : Z := Z.shiftl 1 8.

(** [rdmsr] and [wrmsr] on EDX:EAX, and [or] of an immediate into EAX. *)
Definition rdmsr_insn : M machine unit :=
  c ← get;
  let v := default 0 (msrs c !! regs c ECX) in
  wr EAX (u32 v) ;; wr EDX (u32 (Z.shiftr v 32)).
Definition wrmsr_insn : M machine unit :=
  modify (fun c => Machine (regs c)
    (<[regs c ECX := Z.lor (Z.shiftl (regs c EDX) 32) (regs c EAX)]> (msrs c))
    (gdtr c) (cs_desc c) (ram c)).
Definition or_eax (v : Z) : M machine unit := a ← rd EAX; wr EAX (u32 (Z.lor a v)).

(** Physical address of a memory operand. *)
Definition translate (c : machine) (va : Z) : option Z :=
  if Z.testbit (regs c CR0) 31 then walk (ram c) (regs c CR3) va else Some va.

Fixpoint vload (n : nat) (va : Z) : M machine Z :=
  match n with
  | O => mret 0
  | S n =>
      c ← get;
      match translate c va with
      | Some pa => lo ← phys (load8 pa); hi ← vload n (va + 1); mret (lo + 256 * hi)
      | None => fail (Unmapped va)
      end
  end.

(** [lgdt] takes 4 bytes of base outside 64-bit mode and 8 in it. *)
Definition lgdt (base_bytes : nat) (a : Z) : M machine unit :=
  limit ← vload 2 a; base ← vload base_bytes (a + 2);
  modify (fun c => Machine (regs c) (msrs c) (limit, base) (cs_desc c) (ram c)).

(** Far jump: the descriptor of the selector is fetched from the GDT. *)
Definition ljmp (sel off : Z) : M machine unit :=
  c ← get;
  if (gdtr c).1 <? sel + 7 then fail (OutOfBounds sel) else
  desc ← vload 8 ((gdtr c).2 + sel);
  modify (fun c => Machine (reg_upd RIP (u32 off) (reg_upd CS sel (regs c))) (msrs c) (gdtr c)
    desc (ram c)).

(** ** boot.S *)

Section Boot.

(** Addresses the linker chooses. *)
Context (kpml4 gdt64_addr kernel_jumper kernel_main : Z).

(** .page_tables and the descriptors behind the GDT. *)
Definition BOOT_PDPT_id : Z := kpml4 + PGSIZE.
Definition BOOT_PD_id : Z := kpml4 + 2 * PGSIZE.
Definition BOOT_PDPT_hh : Z := kpml4 + 3 * PGSIZE.
Definition gdtdesc_pa : Z := gdt64_addr + 8 * Z.of_nat (length gdt64).
Definition gdtdesc_va : Z := gdtdesc_pa + 10.

(** Initial contents of the .data section of boot.S. *)
Definition boot_data : list Z :=
  (e ← gdt64; le_bytes 8 e) ++
  le_bytes 2 (gdtdesc_pa - gdt64_addr - 1) ++ le_bytes 8 (KV2P gdt64_addr) ++
  le_bytes 2 (gdtdesc_pa - gdt64_addr - 1) ++ le_bytes 8 gdt64_addr.

Definition MAPPAGE (pt idx addr : Z) (largepage : bool) : M machine unit :=
  wr EAX (u32 addr) ;;
  or_eax (if largepage then Z.lor (Z.lor PTE_P PTE_W) PTE_PS else Z.lor PTE_P PTE_W) ;;
  a ← rd EAX; phys (store32 (pt + 8 * idx) a).

Definition multiboot2_start : M machine unit :=
  b ← rd EBX; wr EDI b ;;
  a ← rd EAX; wr ESI a ;;
  MAPPAGE kpml4 0 BOOT_PDPT_id false ;;
  MAPPAGE BOOT_PDPT_id 0 BOOT_PD_id false ;;
  MAPPAGE BOOT_PD_id 0 0 true ;;
  MAPPAGE kpml4 511 BOOT_PDPT_hh false ;;
  MAPPAGE BOOT_PDPT_hh 510 BOOT_PD_id false ;;
  a ← rd CR4; wr EAX a ;; or_eax CR4_PAE ;;
  a ← rd EAX; wr CR4 a ;;
  wr ECX MSR_EFER ;;
  rdmsr_insn ;;
  or_eax MSR_EFER_LONG_MODE ;;
  wrmsr_insn ;;
  wr EAX (u32 kpml4) ;;
  a ← rd EAX; wr CR3 a ;;
  a ← rd CR0; wr EAX a ;; or_eax (Z.lor CR0_PG CR0_WP) ;;
  a ← rd EAX; wr CR0 a ;;
  lgdt 4 (KV2P gdtdesc_pa) ;;
  ljmp 0x08 (KV2P kernel_jumper).

(** [movw %ss, %ax]: the source comes first. *)
Definition movw_ax (r : reg) : M machine unit :=
  s ← rd r; a ← rd EAX; wr EAX (set_bits 0 16 s a).

Definition kernel_jumper_code : M machine unit :=
  lgdt 8 gdtdesc_va ;;
  a ← rd EAX; wr EAX (set_bits 0 16 SEG_KDATA a) ;;
  movw_ax SS ;; movw_ax DS ;; movw_ax ES ;; movw_ax FS ;; movw_ax GS ;;
  wr EAX kernel_main ;;
  a ← rd EAX; wr RIP a.

(** The jump goes to [kernel_jumper], in the identity map of the boot tables. *)
Definition boot : M machine unit := multiboot2_start ;; kernel_jumper_code.

End Boot.
End Entry.

Module EntryFacts.
Import Entry.

Lemma peek_app n : forall k m a,
  peek (n + k) m a = peek n m a + 2 ^ (8 * Z.of_nat n) * peek k m (a + Z.of_nat n).
Proof.
  induction n as [|n IH]; intros k m a.
  { change (0 + k)%nat with k. change (2 ^ (8 * Z.of_nat 0)) with 1. change (peek 0 m a) with 0.
    rewrite Z.add_0_r. lia. }
  change (peek (S n + k) m a) with (byte_at m a + 256 * peek (n + k) m (a + 1)).
  change (peek (S n) m a) with (byte_at m a + 256 * peek n m (a + 1)).
  rewrite IH. replace (8 * Z.of_nat (S n)) with (8 + 8 * Z.of_nat n) by lia.
  rewrite Z.pow_add_r by lia. replace (a + 1 + Z.of_nat n) with (a + Z.of_nat (S n)) by lia. lia.
Qed.

(** A 32-bit store into an entry whose upper half is 0. *)
Lemma entry_stored m a v :
  in_range 32 v -> peek 8 m a = 0 -> peek 8 (poke 4 m a v) a = v.
Proof.
  intros Hv H0. change 8%nat with (4 + 4)%nat in *. rewrite peek_app in *.
  rewrite peek_poke_same, peek_poke_other by lia. rewrite wrap_small by done.
  pose proof (peek_range 4 m a) as R1. pose proof (peek_range 4 m (a + Z.of_nat 4)) as R2.
  unfold in_range in *. change (8 * Z.of_nat 4) with 32 in *. lia.
Qed.

Lemma lor_page p f : (4096 | p) -> 0 <= f < 4096 -> Z.lor p f = p + f.
Proof.
  intros [k ->] Hf. rewrite Z.lor_comm. change 4096 with (2 ^ 12).
  rewrite <- Z.shiftl_mul_pow2 by lia. rewrite lor_shiftl_add; [|done|done].
  rewrite Z.shiftl_mul_pow2 by lia. lia.
Qed.

(** An entry for the page [p] with the flags [f]. *)
Lemma entry_fields p f :
  (4096 | p) -> 0 <= p < 2 ^ 32 -> 0 <= f < 4096 ->
  Z.shiftl (bits 12 40 (p + f)) 12 = p /\ pte_present (p + f) = (f mod 2 =? 1) /\
  pte_large (p + f) = ((f / 128) mod 2 =? 1).
Proof.
  intros [k ->] Hp Hf. unfold pte_present, pte_large, bits, wrap.
  rewrite !Z.shiftr_div_pow2, Z.shiftl_mul_pow2, Z.div_1_r by lia.
  change (2 ^ 12) with 4096. change (2 ^ 7) with 128. change (2 ^ 1) with 2.
  replace (k * 4096 + f) with (f + k * 4096) by lia. rewrite Z.div_add, (Z.div_small f), Z.add_0_l by lia.
  rewrite (Z.mod_small k) by lia. split; [done|].
  replace (f + k * 4096) with (f + (k * 32) * 128) by lia. rewrite Z.div_add by lia.
  split; [|replace (f / 128 + k * 32) with (f / 128 + (k * 16) * 2) by lia; by rewrite Z_mod_plus_full].
  replace (f + k * 32 * 128) with (f + (k * 2048) * 2) by lia. by rewrite Z_mod_plus_full.
Qed.

Section tables.
Context (kpml4 : Z) (m : mem).
Hypothesis aligned : (4096 | kpml4).
Hypothesis low : 0 <= kpml4 /\ kpml4 + 4 * PGSIZE <= 2 ^ 32.
(** .page_tables is a @nobits section. *)
Hypothesis zeroed : forall x, kpml4 <= x < kpml4 + 4 * PGSIZE -> byte_at m x = 0.

(** Physical memory when paging is turned on. *)
Definition boot_tables : mem :=
  let m := poke 4 m (kpml4 + 8 * 0) (BOOT_PDPT_id kpml4 + 3) in
  let m := poke 4 m (BOOT_PDPT_id kpml4 + 8 * 0) (BOOT_PD_id kpml4 + 3) in
  let m := poke 4 m (BOOT_PD_id kpml4 + 8 * 0) (0 + 131) in
  let m := poke 4 m (kpml4 + 8 * 511) (BOOT_PDPT_hh kpml4 + 3) in
  poke 4 m (BOOT_PDPT_hh kpml4 + 8 * 510) (BOOT_PD_id kpml4 + 3).

Lemma tables_entry k i :
  0 <= k < 4 -> 0 <= i < 512 ->
  walk_entry boot_tables (kpml4 + k * 4096) i =
    if (k =? 0) && (i =? 0) then BOOT_PDPT_id kpml4 + 3
    else if (k =? 0) && (i =? 511) then BOOT_PDPT_hh kpml4 + 3
    else if (k =? 1) && (i =? 0) then BOOT_PD_id kpml4 + 3
    else if (k =? 2) && (i =? 0) then 0 + 131
    else if (k =? 3) && (i =? 510) then BOOT_PD_id kpml4 + 3
    else 0.
Proof.
  intros Hk Hi. unfold walk_entry, boot_tables, BOOT_PDPT_id, BOOT_PD_id, BOOT_PDPT_hh, PGSIZE in *.
  assert (forall x, kpml4 <= x -> x + 8 <= kpml4 + 4 * 4096 -> peek 8 m x = 0) as Z0.
  { intros x ??. apply peek_zero. intros. apply zeroed. lia. }
  destruct (Z.eqb_spec k 0), (Z.eqb_spec k 1), (Z.eqb_spec k 2), (Z.eqb_spec k 3); try lia; subst k;
    cbn [andb]; zcase; subst; try lia;
    repeat match goal with
    | |- peek 8 (poke 4 ?M ?a ?v) ?b = ?v =>
        replace b with a by lia; apply entry_stored; [unfold in_range; lia|]
    | |- peek 8 (poke 4 _ _ _) _ = _ => rewrite peek_poke_other by lia
    end; apply Z0; lia.
Qed.

Lemma bits_9 o va : 0 <= bits o 9 va < 512.
Proof. apply (bits_range o 9). lia. Qed.

(** The entries that name a table, as the walk reads them. *)
Lemma table_link k : 0 <= k < 4 ->
  Z.shiftl (bits 12 40 (kpml4 + k * 4096 + 3)) 12 = kpml4 + k * 4096 /\
  pte_present (kpml4 + k * 4096 + 3) = true /\ pte_large (kpml4 + k * 4096 + 3) = false.
Proof.
  intros Hk. unfold PGSIZE in low. destruct aligned as [q Hq].
  apply (entry_fields (kpml4 + k * 4096) 3); [exists (q + k)|..]; lia.
Qed.

Lemma root_frame : Z.shiftl (bits 12 40 kpml4) 12 = kpml4.
Proof.
  unfold PGSIZE in low. destruct (entry_fields kpml4 0) as [F _]; [done|lia|lia|].
  by rewrite Z.add_0_r in F.
Qed.

(** The last two levels, below the table [k] that links the page directory at [j]. *)
Lemma lower_walk k j va :
  k = 1 /\ j = 0 \/ k = 3 /\ j = 510 ->
  (let e3 := walk_entry boot_tables (kpml4 + k * 4096) (bits 30 9 va) in
   if negb (pte_present e3) then None
   else if pte_large e3 then Some (Z.shiftl (bits 30 22 e3) 30 + bits 0 30 va) else
   let e2 := walk_entry boot_tables (Z.shiftl (bits 12 40 e3) 12) (bits 21 9 va) in
   if negb (pte_present e2) then None
   else if pte_large e2 then Some (Z.shiftl (bits 21 31 e2) 21 + bits 0 21 va) else
   let e1 := walk_entry boot_tables (Z.shiftl (bits 12 40 e2) 12) (bits 12 9 va) in
   if negb (pte_present e1) then None
   else Some (Z.shiftl (bits 12 40 e1) 12 + bits 0 12 va)) =
  if (bits 30 9 va =? j) && (bits 21 9 va =? 0) then Some (bits 0 21 va) else None.
Proof.
  intros Hkj. pose proof (bits_9 30 va). pose proof (bits_9 21 va).
  destruct (table_link 2 ltac:(lia)) as (F2 & P2 & L2).
  assert (walk_entry boot_tables (kpml4 + k * 4096) (bits 30 9 va) =
    (if bits 30 9 va =? j then kpml4 + 2 * 4096 + 3 else 0)) as ->.
  { rewrite tables_entry by lia. by destruct Hkj as [[-> ->]|[-> ->]]. }
  destruct (bits 30 9 va =? j); [|done]. cbv zeta. rewrite P2, L2, F2. cbn [negb andb].
  rewrite (tables_entry 2) by lia. change ((2 =? 0) && _) with false. cbn [andb Z.eqb].
  destruct (bits 21 9 va =? 0); [|done]. done.
Qed.

(** The tables map one 2 MB page, at index (0, 0, 0) and at (511, 510, 0). *)
Lemma boot_walk va :
  walk boot_tables kpml4 va =
    if bits 39 9 va =? 0 then
      if (bits 30 9 va =? 0) && (bits 21 9 va =? 0) then Some (bits 0 21 va) else None
    else if bits 39 9 va =? 511 then
      if (bits 30 9 va =? 510) && (bits 21 9 va =? 0) then Some (bits 0 21 va) else None
    else None.
Proof.
  unfold walk. pose proof (bits_9 39 va). rewrite root_frame.
  pose proof (tables_entry 0 (bits 39 9 va) ltac:(lia) ltac:(lia)) as E4.
  rewrite Z.mul_0_l, Z.add_0_r in E4. rewrite E4. cbn [andb Z.eqb].
  destruct (table_link 1 ltac:(lia)) as (F1 & P1 & _).
  destruct (table_link 3 ltac:(lia)) as (F3 & P3 & _).
  destruct (bits 39 9 va =? 0); [|destruct (bits 39 9 va =? 511); [|done]]; cbv zeta.
  - change (BOOT_PDPT_id kpml4 + 3) with (kpml4 + 1 * 4096 + 3). rewrite P1, F1.
    apply (lower_walk 1 0). by left.
  - change (BOOT_PDPT_hh kpml4 + 3) with (kpml4 + 3 * 4096 + 3). rewrite P3, F3.
    apply (lower_walk 3 510). by right.
Qed.

(** The walk reads nothing but the tables. *)
Lemma boot_walk_agree m' va :
  (forall x, kpml4 <= x < kpml4 + 4 * PGSIZE -> byte_at m' x = byte_at boot_tables x) ->
  walk m' kpml4 va = walk boot_tables kpml4 va.
Proof.
  intros Ha. assert (forall k i, 0 <= k < 4 -> 0 <= i < 512 ->
    walk_entry m' (kpml4 + k * 4096) i = walk_entry boot_tables (kpml4 + k * 4096) i) as We.
  { intros k i Hk Hi. unfold walk_entry. apply peek_ext. intros x Hx. apply Ha. unfold PGSIZE. lia. }
  pose proof (bits_9 39 va). pose proof (bits_9 30 va). pose proof (bits_9 21 va).
  destruct (table_link 1 ltac:(lia)) as (F1 & P1 & L1). destruct (table_link 2 ltac:(lia)) as (F2 & P2 & L2).
  destruct (table_link 3 ltac:(lia)) as (F3 & P3 & L3).
  unfold walk. rewrite root_frame. pose proof (We 0 (bits 39 9 va) ltac:(lia) ltac:(lia)) as E4.
  rewrite Z.mul_0_l, Z.add_0_r in E4. rewrite E4. clear E4.
  pose proof (tables_entry 0 (bits 39 9 va) ltac:(lia) ltac:(lia)) as E4.
  rewrite Z.mul_0_l, Z.add_0_r in E4. rewrite E4. cbn [andb Z.eqb].
  assert (forall k, k = 1 \/ k = 3 -> exists v, walk_entry boot_tables (kpml4 + k * 4096) (bits 30 9 va) = v /\
    (v = 0 \/ v = kpml4 + 2 * 4096 + 3)) as E3.
  { intros k Hk. eexists. split; [done|]. rewrite tables_entry by lia.
    destruct Hk as [-> | ->]; cbn [andb Z.eqb]; zcase; auto. }
  destruct (bits 39 9 va =? 0); [|destruct (bits 39 9 va =? 511); [|done]]; cbv zeta.
  - change (BOOT_PDPT_id kpml4 + 3) with (kpml4 + 1 * 4096 + 3). rewrite P1, F1, (We 1) by lia.
    destruct (E3 1) as (v & -> & [-> | ->]); [by left|done|]. rewrite P2, L2, F2, (We 2), (tables_entry 2) by lia.
    change ((2 =? 0) && _) with false. cbn [andb Z.eqb]. by destruct (bits 21 9 va =? 0).
  - change (BOOT_PDPT_hh kpml4 + 3) with (kpml4 + 3 * 4096 + 3). rewrite P3, F3, (We 3) by lia.
    destruct (E3 3) as (v & -> & [-> | ->]); [by right|done|]. rewrite P2, L2, F2, (We 2), (tables_entry 2) by lia.
    change ((2 =? 0) && _) with false. cbn [andb Z.eqb]. by destruct (bits 21 9 va =? 0).
Qed.

Definition canonical (va : Z) : Prop := 0 <= va < 2 ^ 47 \/ 2 ^ 64 - 2 ^ 47 <= va < 2 ^ 64.

(** The mapping of the boot tables: the first 2 MB of physical memory, at
    address 0 and at the kernel's window, and nothing else. *)
Lemma boot_mapping va pa :
  canonical va ->
  walk boot_tables kpml4 va = Some pa <->
  (0 <= va < PGSIZE_2M /\ pa = va) \/
  (KVA_KERNEL_BEGIN <= va < KVA_KERNEL_BEGIN + PGSIZE_2M /\ pa = va - KVA_KERNEL_BEGIN).
Proof.
  intros Hc. rewrite boot_walk. unfold canonical, PGSIZE_2M, KVA_KERNEL_BEGIN, bits, wrap in *.
  rewrite !Z.shiftr_div_pow2 by lia.
  change (2 ^ 39) with 549755813888. change (2 ^ 30) with 1073741824.
  change (2 ^ 21) with 2097152. change (2 ^ 9) with 512. change (2 ^ 0) with 1.
  rewrite Z.div_1_r. change (2 ^ 47) with 140737488355328 in *.
  change (2 ^ 64) with 18446744073709551616 in *.
  zcase; cbn [andb]; (split; [intros E; simplify_eq|intros E; f_equal]);
    Z.div_mod_to_equations; lia.
Qed.

End tables.

Lemma reg_upd_eq r v f : reg_upd r v f r = v.
Proof. unfold reg_upd. by rewrite decide_True. Qed.
Lemma reg_upd_ne r r' v f : r <> r' -> reg_upd r v f r' = f r'.
Proof. intros. unfold reg_upd. by rewrite decide_False by congruence. Qed.

(** One instruction whose operands are registers. *)
Ltac insn := mrun reflexivity; cbn [regs msrs gdtr cs_desc ram];
  repeat (rewrite reg_upd_eq || rewrite reg_upd_ne by discriminate).

Lemma MAPPAGE_run pt idx addr (large : bool) c :
  let f := if large then 131 else 3 in
  (4096 | addr) -> 0 <= addr < 2 ^ 32 - 4096 -> mapped_range (ram c) (pt + 8 * idx) 4 ->
  MAPPAGE pt idx addr large c =
    Ok (tt, Machine (reg_upd EAX (addr + f) (reg_upd EAX addr (regs c))) (msrs c) (gdtr c)
              (cs_desc c) (poke 4 (ram c) (pt + 8 * idx) (addr + f))).
Proof.
  intros f Ha Hr Hm. unfold MAPPAGE. rewrite (wrap_small 32 addr) by (unfold in_range; lia).
  replace (if large then _ else _) with f by (by destruct large).
  assert (0 <= f < 4096) by (unfold f; destruct large; lia).
  insn. insn. insn. rewrite lor_page, (wrap_small 32 (addr + f)) by (unfold in_range; lia || done).
  etrans; [apply zoom_Ok, store_ok; exact Hm|reflexivity].
Qed.

Lemma vload_run n : forall va pa c,
  (forall i, 0 <= i < Z.of_nat n -> translate c (va + i) = Some (pa + i)) ->
  mapped_range (ram c) pa (Z.of_nat n) ->
  vload n va c = Ok (peek n (ram c) pa, c).
Proof.
  induction n as [|n IH]; intros va pa c Ht Hm; [done|]. simpl vload.
  mrun reflexivity. pose proof (Ht 0 ltac:(lia)) as H0. rewrite !Z.add_0_r in H0. rewrite H0.
  mrun (apply zoom_Ok, load8_ok, Hm; lia).
  replace (set_ram (ram c) c) with c by (by destruct c).
  rewrite (bind_Ok _ _ c (peek n (ram c) (pa + 1)) c); [done|]. apply IH.
  - intros i Hi. replace (va + 1 + i) with (va + (i + 1)) by lia.
    rewrite Ht by lia. f_equal. lia.
  - eapply mapped_range_mono; [exact Hm|lia|lia].
Qed.

(** The kernel image as the boot loader leaves it in memory: the tables of the
    @nobits section zeroed, the data section loaded behind them, all of it in
    the first 2 MB. *)
Record boot_image (kpml4 gdt64_addr : Z) (m : mem) : Prop := {
  image_aligned : (4096 | kpml4);
  image_window :
    KVA_KERNEL_BEGIN <= gdt64_addr /\ gdt64_addr + 76 <= KVA_KERNEL_BEGIN + PGSIZE_2M;
  image_below : 0 <= kpml4 /\ kpml4 + 4 * PGSIZE <= KV2P gdt64_addr;
  image_zeroed : forall x, kpml4 <= x < kpml4 + 4 * PGSIZE -> byte_at m x = 0;
  image_mapped : mapped_range m 0 PGSIZE_2M;
  image_data : bytes_at m (KV2P gdt64_addr) (boot_data gdt64_addr)
}.

(** The state in which [lgdt] runs. *)
Section booted.
Context (kpml4 gdt64_addr : Z) (m : mem).
Context (image : boot_image kpml4 gdt64_addr m).

Let aligned := image_aligned _ _ _ image.
Let window := image_window _ _ _ image.
Let below := image_below _ _ _ image.
Let zeroed := image_zeroed _ _ _ image.
Let ram_mapped := image_mapped _ _ _ image.
Let data_loaded := image_data _ _ _ image.

Lemma gdt_physical : KV2P gdt64_addr = gdt64_addr - KVA_KERNEL_BEGIN.
Proof. apply KV2P_window. unfold KVA_KERNEL_BEGIN, PGSIZE_2M in *. lia. Qed.

(** Paging is on and the boot tables are in use. *)
Definition paged (c : machine) : Prop :=
  ram c = boot_tables kpml4 m /\ regs c CR3 = kpml4 /\ Z.testbit (regs c CR0) 31 = true.

Lemma translate_low c va : paged c -> 0 <= va < PGSIZE_2M -> translate c va = Some va.
Proof.
  intros (Hr & H3 & H0) Hva. unfold translate. rewrite H0, Hr, H3.
  pose proof gdt_physical. apply boot_mapping; try done;
    unfold canonical, PGSIZE_2M, PGSIZE, KVA_KERNEL_BEGIN in *; lia.
Qed.

Lemma translate_window c va :
  paged c -> KVA_KERNEL_BEGIN <= va < KVA_KERNEL_BEGIN + PGSIZE_2M ->
  translate c va = Some (va - KVA_KERNEL_BEGIN).
Proof.
  intros (Hr & H3 & H0) Hva. unfold translate. rewrite H0, Hr, H3.
  pose proof gdt_physical. apply boot_mapping; try done;
    unfold canonical, PGSIZE_2M, PGSIZE, KVA_KERNEL_BEGIN in *; lia.
Qed.

(** The .data section is behind the tables: building them leaves it alone. *)
Lemma boot_tables_data n x :
  kpml4 + 4 * PGSIZE <= x -> peek n (boot_tables kpml4 m) x = peek n m x.
Proof.
  intros Hx. unfold boot_tables, BOOT_PDPT_hh, BOOT_PD_id, BOOT_PDPT_id, PGSIZE in *.
  by rewrite !peek_poke_other by lia.
Qed.

(** The operands of both [lgdt] and the code segment's descriptor. *)
Lemma boot_data_values :
  peek 8 m (KV2P gdt64_addr + 8) = SEG_ASM (Z.lor STA_X STA_R) 0 /\
  peek 2 m (KV2P gdt64_addr + 56) = 55 /\ peek 4 m (KV2P gdt64_addr + 58) = KV2P gdt64_addr /\
  peek 2 m (KV2P gdt64_addr + 66) = 55 /\ peek 8 m (KV2P gdt64_addr + 68) = gdt64_addr.
Proof.
  pose proof data_loaded as D. unfold boot_data in D.
  assert (gdtdesc_pa gdt64_addr - gdt64_addr - 1 = 55) as E by (unfold gdtdesc_pa; simpl; lia).
  rewrite E in D. change (e ← gdt64; le_bytes 8 e) with
    (le_bytes 8 0 ++ le_bytes 8 (SEG_ASM (Z.lor STA_X STA_R) 0) ++
     (e ← drop 2 gdt64; le_bytes 8 e)) in D.
  rewrite !bytes_at_app, !length_app, !le_bytes_length in D.
  change (length (e ← drop 2 gdt64; le_bytes 8 e)) with 40%nat in D.
  destruct D as ((_ & D1 & _) & D2 & D3 & D4 & D5).
  apply peek_le_bytes in D1, D2, D3, D4, D5.
  set (g := KV2P gdt64_addr) in *.
  replace (g + Z.of_nat (8 + (8 + 40)) + Z.of_nat 2) with (g + 58) in D3, D4, D5 by lia.
  replace (g + 58 + Z.of_nat 8) with (g + 66) in D4, D5 by lia.
  replace (g + 66 + Z.of_nat 2) with (g + 68) in D5 by lia.
  pose proof gdt_physical as P. pose proof (peek_app 4 4 m (g + 58)) as A.
  pose proof (peek_range 4 m (g + 58)) as R.
  pose proof (peek_range 4 m (g + 58 + Z.of_nat 4)) as R'.
  clear data_loaded. unfold KVA_KERNEL_BEGIN, PGSIZE_2M, in_range in *.
  rewrite wrap_small in D3, D5 by (unfold in_range; lia).
  split_and!; [exact D1|exact D2| |exact D4|exact D5].
  change (4 + 4)%nat with 8%nat in A. change (8 * Z.of_nat 4) with 32 in *. lia.
Qed.

Lemma paged_mapped c x n : paged c -> 0 <= x -> x + n <= PGSIZE_2M -> mapped_range (ram c) x n.
Proof.
  intros (-> & _ & _) ??. unfold boot_tables. repeat apply mapped_range_poke.
  eapply mapped_range_mono; [exact ram_mapped|lia|lia].
Qed.

(** Reads of the data section through either mapping. *)
Lemma vload_data c n (high : bool) o :
  paged c -> 0 <= o -> o + Z.of_nat n <= 76 ->
  vload n ((if high then gdt64_addr else KV2P gdt64_addr) + o) c =
    Ok (peek n m (KV2P gdt64_addr + o), c).
Proof.
  intros Hp Ho Hn. pose proof gdt_physical as P.
  rewrite (vload_run n _ (KV2P gdt64_addr + o)).
  - destruct Hp as (-> & _ & _). by rewrite boot_tables_data by lia.
  - intros i Hi. destruct high.
    + rewrite translate_window by (done || lia). f_equal. lia.
    + rewrite translate_low by (done || unfold PGSIZE in *; lia). done.
  - apply paged_mapped; [done|unfold PGSIZE in *; lia|lia].
Qed.

Lemma lgdt_low c : paged c ->
  lgdt 4 (KV2P (gdtdesc_pa gdt64_addr)) c =
    Ok (tt, Machine (regs c) (msrs c) (55, KV2P gdt64_addr) (cs_desc c) (ram c)).
Proof.
  intros Hp. pose proof gdt_physical as P. destruct boot_data_values as (_ & V2 & V4 & _).
  replace (KV2P (gdtdesc_pa gdt64_addr)) with (KV2P gdt64_addr + 56).
  2:{ rewrite P, KV2P_window; unfold gdtdesc_pa, KVA_KERNEL_BEGIN, PGSIZE_2M in *; simpl length; lia. }
  unfold lgdt. rewrite (bind_Ok _ _ c 55 c) by (rewrite <- V2; apply (vload_data c 2 false); lia || done).
  replace (KV2P gdt64_addr + 56 + 2) with (KV2P gdt64_addr + 58) by lia.
  rewrite (bind_Ok _ _ c (KV2P gdt64_addr) c); [done|].
  etrans; [apply (vload_data c 4 false); lia || done|]. by rewrite V4.
Qed.

Lemma lgdt_high c : paged c ->
  lgdt 8 (gdtdesc_va gdt64_addr) c =
    Ok (tt, Machine (regs c) (msrs c) (55, gdt64_addr) (cs_desc c) (ram c)).
Proof.
  intros Hp. destruct boot_data_values as (_ & _ & _ & V2 & V8).
  replace (gdtdesc_va gdt64_addr) with (gdt64_addr + 66)
    by (unfold gdtdesc_va, gdtdesc_pa; simpl length; lia).
  unfold lgdt. rewrite (bind_Ok _ _ c 55 c) by (rewrite <- V2; apply (vload_data c 2 true); lia || done).
  replace (gdt64_addr + 66 + 2) with (gdt64_addr + 68) by lia.
  rewrite (bind_Ok _ _ c gdt64_addr c); [done|].
  etrans; [apply (vload_data c 8 true); lia || done|]. by rewrite V8.
Qed.

Lemma ljmp_kcode c off : paged c -> gdtr c = (55, KV2P gdt64_addr) ->
  ljmp 8 off c =
    Ok (tt, Machine (reg_upd RIP (u32 off) (reg_upd CS 8 (regs c))) (msrs c) (gdtr c)
          (SEG_ASM (Z.lor STA_X STA_R) 0) (ram c)).
Proof.
  intros Hp Hg. destruct boot_data_values as (V & _). unfold ljmp. insn.
  replace ((gdtr c).1 <? 8 + 7) with false by (by rewrite Hg).
  rewrite (bind_Ok _ _ c (SEG_ASM (Z.lor STA_X STA_R) 0) c); [done|]. rewrite <- V, Hg.
  apply (vload_data c 8 false); lia || done.
Qed.

(** The five entries, written one after the other. *)
Lemma tables_run c (k : M machine unit) :
  ram c = m ->
  exists r,
    (MAPPAGE kpml4 0 (BOOT_PDPT_id kpml4) false ;;
     MAPPAGE (BOOT_PDPT_id kpml4) 0 (BOOT_PD_id kpml4) false ;;
     MAPPAGE (BOOT_PD_id kpml4) 0 0 true ;;
     MAPPAGE kpml4 511 (BOOT_PDPT_hh kpml4) false ;;
     MAPPAGE (BOOT_PDPT_hh kpml4) 510 (BOOT_PD_id kpml4) false ;; k) c =
    k (Machine r (msrs c) (gdtr c) (cs_desc c) (boot_tables kpml4 m)) /\
    forall x, x <> EAX -> r x = regs c x.
Proof.
  intros Hm. pose proof aligned as [q Hq]. pose proof gdt_physical as P.
  assert (forall j, (4096 | kpml4 + j * 4096)) as A by (intros j; exists (q + j); lia).
  assert (mapped_range m kpml4 (4 * 4096)) as R.
  { eapply mapped_range_mono; [exact ram_mapped|..]; unfold PGSIZE, PGSIZE_2M in *; lia. }
  unfold boot_tables, BOOT_PDPT_id, BOOT_PD_id, BOOT_PDPT_hh, PGSIZE, PGSIZE_2M, KVA_KERNEL_BEGIN in *.
  destruct c as [r0 ms g cd m0]. simpl in Hm. subst m0. cbn [msrs gdtr cs_desc regs].
  do 5 (mrun (apply MAPPAGE_run; cbn [ram];
    [first [apply (A 1)|apply (A 2)|apply (A 3)|apply Z.divide_0_r]|lia|
     repeat apply mapped_range_poke; eapply mapped_range_mono; [exact R|lia|lia]]);
    cbn [regs msrs gdtr cs_desc ram]).
  eexists. split; [reflexivity|]. intros x Hx. by rewrite !reg_upd_ne by congruence.
Qed.

Lemma flags_set v f : 0 <= f < 2 ^ 32 -> forall i, 0 <= i < 32 -> Z.testbit f i = true ->
  Z.testbit (u32 (Z.lor v f)) i = true.
Proof.
  intros Hf i Hi Ht. rewrite wrap_testbit, Z.lor_spec, Ht, orb_true_r by lia.
  by destruct (Z.ltb_spec i 32); [|lia].
Qed.

(** Long mode is active: protection, paging, PAE and EFER.LME. *)
Definition long_mode (c : machine) : Prop :=
  Z.testbit (regs c CR0) 31 = true /\ Z.testbit (regs c CR0) 16 = true /\
  Z.testbit (regs c CR4) 5 = true /\
  Z.testbit (default 0 (msrs c !! MSR_EFER)) 8 = true.

Definition data_regs : list reg := [SS; DS; ES; FS; GS; RSP].

Lemma rdmsr_run c :
  rdmsr_insn c = Ok (tt, Machine
    (reg_upd EDX (u32 (Z.shiftr (default 0 (msrs c !! regs c ECX)) 32))
      (reg_upd EAX (u32 (default 0 (msrs c !! regs c ECX))) (regs c)))
    (msrs c) (gdtr c) (cs_desc c) (ram c)).
Proof. done. Qed.

Lemma multiboot2_start_run kernel_jumper c :
  ram c = m ->
  exists c1, multiboot2_start kpml4 gdt64_addr kernel_jumper c = Ok (tt, c1) /\
    paged c1 /\ long_mode c1 /\ regs c1 RIP = u32 (KV2P kernel_jumper) /\ regs c1 CS = 8 /\
    cs_desc c1 = SEG_ASM (Z.lor STA_X STA_R) 0 /\ gdtr c1 = (55, KV2P gdt64_addr) /\
    regs c1 EDI = regs c EBX /\ regs c1 ESI = regs c EAX /\
    forall r, r ∈ data_regs -> regs c1 r = regs c r.
Proof.
  intros Hm. unfold multiboot2_start. do 4 insn.
  edestruct tables_run as (r & Hrun & Hr); [|rewrite Hrun]; [exact Hm|]. clear Hrun.
  do 6 insn. mrun (apply rdmsr_run). cbn [regs msrs gdtr cs_desc ram].
  repeat (rewrite reg_upd_eq || rewrite reg_upd_ne by discriminate). do 10 insn.
  assert (in_range 32 kpml4) as K.
  { pose proof gdt_physical as P. unfold in_range, PGSIZE, PGSIZE_2M, KVA_KERNEL_BEGIN in *. lia. }
  rewrite (wrap_small 32 kpml4) by exact K.
  match goal with |- context [(lgdt _ _ ≫= _) ?c] => set (c2 := c) end.
  assert (paged c2) as Hp.
  { split_and!; [done|done|]. apply flags_set; [by vm_compute|lia|done]. }
  rewrite (bind_Ok _ _ _ _ _ (lgdt_low c2 Hp)).
  eexists. split; [apply ljmp_kcode; [exact Hp|done]|].
  split; [exact Hp|]. split.
  { split_and!; [apply flags_set; [by vm_compute|lia|done]..|].
    unfold c2. cbn [msrs]. rewrite lookup_insert_eq. cbn [default from_option id]. rewrite Z.lor_spec.
    rewrite flags_set, orb_true_r; [done|by vm_compute|lia|done]. }
  do 4 (split; [done|]).
  split; [exact (Hr EDI ltac:(done))|]. split; [exact (Hr ESI ltac:(done))|].
  intros x Hx. apply list_elem_of_In in Hx. simpl in Hx.
  destruct Hx as [<-|[<-|[<-|[<-|[<-|[<-|[]]]]]]];
    unfold c2; cbn [regs]; rewrite !reg_upd_ne by discriminate; by rewrite Hr.
Qed.

Lemma kernel_jumper_run kernel_main c :
  paged c ->
  exists c', kernel_jumper_code gdt64_addr kernel_main c = Ok (tt, c') /\
    ram c' = ram c /\ msrs c' = msrs c /\ cs_desc c' = cs_desc c /\ gdtr c' = (55, gdt64_addr) /\
    regs c' RIP = kernel_main /\ (forall r, r <> RIP -> r <> EAX -> regs c' r = regs c r).
Proof.
  intros Hp. unfold kernel_jumper_code. rewrite (bind_Ok _ _ _ _ _ (lgdt_high c Hp)).
  cbn [regs msrs gdtr cs_desc ram]. do 2 insn. unfold movw_ax. do 6 insn.
  insn. eexists. split; [reflexivity|]. do 5 (split; [done|]).
  intros r ??. cbn [regs]. by rewrite !reg_upd_ne by congruence.
Qed.
End booted.

(** The two parts of the entry code together. *)
Lemma boot_run kpml4 gdt64_addr kernel_jumper kernel_main c :
  boot_image kpml4 gdt64_addr (ram c) ->
  KVA_KERNEL_BEGIN <= kernel_jumper < KVA_KERNEL_BEGIN + PGSIZE_2M ->
  exists c1 c',
    multiboot2_start kpml4 gdt64_addr kernel_jumper c = Ok (tt, c1) /\
    regs c1 RIP = kernel_jumper - KVA_KERNEL_BEGIN /\
    boot kpml4 gdt64_addr kernel_jumper kernel_main c = Ok (tt, c') /\
    long_mode c' /\ regs c' CR3 = kpml4 /\ regs c' RIP = kernel_main /\
    regs c' EDI = regs c EBX /\ regs c' ESI = regs c EAX /\
    regs c' CS = SEG_KCODE /\ fget segdesc "lm" (cs_desc c') = 1 /\ gdtr c' = (55, gdt64_addr) /\
    forall va pa, canonical va ->
      walk (ram c') (regs c' CR3) va = Some pa <->
      (0 <= va < PGSIZE_2M /\ pa = va) \/
      (KVA_KERNEL_BEGIN <= va < KVA_KERNEL_BEGIN + PGSIZE_2M /\ pa = va - KVA_KERNEL_BEGIN).
Proof.
  intros I Hj.
  edestruct (multiboot2_start_run kpml4 gdt64_addr (ram c) I kernel_jumper c)
    as (c1 & R1 & Hp & Hl & Hip & Hcs & Hd & Hg & Hdi & Hsi & _); [done|].
  destruct (kernel_jumper_run kpml4 gdt64_addr (ram c) I kernel_main c1 Hp)
    as (c' & R2 & Hm' & Hs' & Hd' & Hg' & Hip' & Hr').
  exists c1, c'. unfold boot. rewrite (bind_Ok _ _ _ _ _ R1), Hip.
  unfold long_mode in *. rewrite Hs', Hd', Hd, (Hr' CR0), (Hr' CR4), (Hr' CR3), (Hr' EDI), (Hr' ESI), (Hr' CS) by done.
  pose proof Hp as (Hm1 & H31 & _). rewrite Hm', Hm1, H31.
  rewrite KV2P_window by (unfold KVA_KERNEL_BEGIN, PGSIZE_2M in *; lia).
  split_and!; try done; try tauto.
  - apply (wrap_small 32). unfold in_range, KVA_KERNEL_BEGIN, PGSIZE_2M in *. lia.
  - intros va pa Hva. pose proof (gdt_physical _ _ _ I). destruct I as [? ? ? ? ? ?].
    apply boot_mapping; try done. unfold KVA_KERNEL_BEGIN, PGSIZE_2M, PGSIZE in *. lia.
Qed.

End EntryFacts.

Module EntryProps.
Import Entry EntryFacts.

(** C8. The entry code reaches [kernel_main] in 64-bit mode.  From a kernel
    image loaded in the first 2 MB, [multiboot2_start] turns on PAE, long mode,
    paging and write protection with CR3 at [kpml4], jumps through the 64-bit
    code segment of its GDT to the identity-mapped address of
    [kernel_jumper], which reloads the GDT at its kernel address and jumps to
    [kernel_main] with the loader's EBX and EAX as arguments; the processor
    then sees the first 2 MB of physical memory at 0 and at
    [KVA_KERNEL_BEGIN], and no other canonical address is mapped. *)
Theorem boot_reaches_kernel_main kpml4 gdt64_addr kernel_jumper kernel_main c :
  boot_image kpml4 gdt64_addr (ram c) ->
  KVA_KERNEL_BEGIN <= kernel_jumper < KVA_KERNEL_BEGIN + PGSIZE_2M ->
  exists c1 c',
    multiboot2_start kpml4 gdt64_addr kernel_jumper c = Ok (tt, c1) /\
    regs c1 RIP = kernel_jumper - KVA_KERNEL_BEGIN /\
    boot kpml4 gdt64_addr kernel_jumper kernel_main c = Ok (tt, c') /\
    long_mode c' /\ regs c' CR3 = kpml4 /\ regs c' RIP = kernel_main /\
    regs c' EDI = regs c EBX /\ regs c' ESI = regs c EAX /\
    regs c' CS = SEG_KCODE /\ fget segdesc "lm" (cs_desc c') = 1 /\ gdtr c' = (55, gdt64_addr) /\
    forall va pa, canonical va ->
      walk (ram c') (regs c' CR3) va = Some pa <->
      (0 <= va < PGSIZE_2M /\ pa = va) \/
      (KVA_KERNEL_BEGIN <= va < KVA_KERNEL_BEGIN + PGSIZE_2M /\ pa = va - KVA_KERNEL_BEGIN).
Proof.
  apply boot_run.
Qed.

(** The instructions that follow the comment "update segment selectors" have
    their operands the wrong way round: the data segment registers are read,
    not written, and no instruction sets the stack pointer, so [kernel_main]
    starts with the loader's values. *)
Theorem boot_keeps_data_segments kpml4 gdt64_addr kernel_jumper kernel_main c c' :
  boot_image kpml4 gdt64_addr (ram c) ->
  boot kpml4 gdt64_addr kernel_jumper kernel_main c = Ok (tt, c') ->
  forall r, r ∈ data_regs -> regs c' r = regs c r.
Proof.
  intros I Hb r Hin.
  edestruct (multiboot2_start_run kpml4 gdt64_addr (ram c) I kernel_jumper c)
    as (c1 & R1 & Hp & _ & _ & _ & _ & _ & _ & _ & Hk); [done|].
  destruct (kernel_jumper_run kpml4 gdt64_addr (ram c) I kernel_main c1 Hp)
    as (c2 & R2 & _ & _ & _ & _ & _ & Hr').
  unfold boot in Hb. rewrite (bind_Ok _ _ _ _ _ R1), R2 in Hb. injection Hb as <-.
  rewrite Hr', Hk; [done|done|..]; intros ->; unfold data_regs in Hin;
    by apply list_elem_of_In in Hin; simpl in Hin; intuition.
Qed.

(** A loaded image: tables at 1 MB + 4 KB, data at 1.5 MB. *)
Definition sample_gdt : Z := KVA_KERNEL_BEGIN + 0x180000.
Definition sample_machine : machine :=
  Machine (fun _ => 7) ∅ (0, 0) 0
    (put_bytes (Mem [(0, PGSIZE_2M)] ∅) 0x180000 (boot_data sample_gdt)).

Lemma sample_image : boot_image 0x101000 sample_gdt (ram sample_machine).
Proof.
  constructor; unfold PGSIZE, PGSIZE_2M, sample_gdt, KVA_KERNEL_BEGIN.
  - by exists 0x101.
  - lia.
  - vm_compute. by split.
  - intros x Hx. cbn [ram sample_machine]. rewrite byte_at_put_bytes_other; [done|].
    replace (length (boot_data sample_gdt)) with 76%nat by (by vm_compute). lia.
  - apply mapped_range_put_bytes, mapped_range_check. by vm_compute.
  - apply bytes_at_put_bytes. eapply (bool_decide_unpack _). by vm_compute.
Qed.

Lemma boot_reaches_kernel_main_witness :
  exists c', boot 0x101000 sample_gdt (KVA_KERNEL_BEGIN + 0x110000) (KVA_KERNEL_BEGIN + 0x120000)
    sample_machine = Ok (tt, c') /\ regs c' RIP = KVA_KERNEL_BEGIN + 0x120000 /\
    walk (ram c') (regs c' CR3) 0xFFFFFFFF80120000 = Some 0x120000.
Proof.
  destruct (boot_reaches_kernel_main 0x101000 sample_gdt (KVA_KERNEL_BEGIN + 0x110000)
    (KVA_KERNEL_BEGIN + 0x120000) sample_machine) as (c1 & c' & _ & _ & R & _ & _ & Hip & H).
  - exact sample_image.
  - unfold KVA_KERNEL_BEGIN, PGSIZE_2M. lia.
  - exists c'. split; [exact R|]. split; [exact Hip|]. apply H.
    + right. lia.
    + right. unfold KVA_KERNEL_BEGIN, PGSIZE_2M. lia.
Defined.

End EntryProps.
