(* ===== verification/Linker.v ===== *)
(** src/linker.ld: where the sections of the kernel are linked and loaded.

    The script is a program on the location counter.  Its inputs are the
    sections of the object files, of which the layout depends on the size and
    the alignment only.  Module Linker has the script, LinkerProps what it
    gives: the image the entry code of Entry.v relies on. *)
From S2P Require Import Prelude Memory Paging Entry.

Module Linker.
Import MemLayout Paging.

(** An input section, and a section of the output: the address it is linked
    at, the address it is loaded at, and its size. *)
Record input := Input { in_size : Z; in_align : Z }.
Record output := Output { vma : Z; lma : Z; out_size : Z }.

Definition align_up (dot a : Z) : Z := (dot + a - 1) / a * a.

(** [ALIGN(4K)] *)
Definition ALIGN_4K (dot : Z) : Z := align_up dot PGSIZE.

(** An output section at the location counter: it starts at an address its
    contents can have, and the counter moves behind it. *)
Definition section_at (lma_of : Z -> Z) (i : input) (dot : Z) : output * Z :=
  let a := u64 (align_up dot (in_align i)) in
  (Output a (lma_of a) (in_size i), u64 (a + in_size i)).

Record inputs := Inputs {
  header_data : input;         (* multiboot2_header.o(.data) *)
  multiboot2_text : input;     (* .multiboot2.text *)
  page_tables : input;         (* .page_tables *)
  text : input; rodata : input; data : input; bss : input
}.

(** The sections of the output and the symbols the script provides. *)
Record image := Image {
  out_header : output; out_multiboot2_text : output; out_page_tables : output;
  out_text : output; out_rodata : output; out_data : output; out_bss : output;
  PA_KERNEL_BEGIN : Z; KVA_KERNEL_DATA_BEGIN : Z; PA_KERNEL_DATA_BEGIN : Z;
  KVA_KERNEL_END : Z; PA_KERNEL_END : Z
}.

(** [AT(ADDR (section) - KVA_KERNEL_BEGIN)] *)
Definition at_physical (a : Z) : Z := u64 (a - KVA_KERNEL_BEGIN).

Definition linker_script (i : inputs) : image :=
  let dot := 0x100000 in
  let pa_kernel_begin := dot in
  let '(o_header, dot) := section_at id (header_data i) dot in
  let '(o_mtext, dot) := section_at id (multiboot2_text i) dot in
  let '(o_tables, dot) := section_at id (page_tables i) dot in
  let dot := u64 (dot + KVA_KERNEL_BEGIN) in
  let '(o_text, dot) := section_at at_physical (text i) (ALIGN_4K dot) in
  let '(o_rodata, dot) := section_at at_physical (rodata i) (ALIGN_4K dot) in
  let kva_data_begin := dot in
  let pa_data_begin := u64 (dot - KVA_KERNEL_BEGIN) in
  let '(o_data, dot) := section_at at_physical (data i) (ALIGN_4K dot) in
  let '(o_bss, dot) := section_at at_physical (bss i) (ALIGN_4K dot) in
  Image o_header o_mtext o_tables o_text o_rodata o_data o_bss
    pa_kernel_begin kva_data_begin pa_data_begin dot (u64 (dot - KVA_KERNEL_BEGIN)).

Definition sections (m : image) : list output :=
  [out_header m; out_multiboot2_text m; out_page_tables m; out_text m; out_rodata m; out_data m; out_bss m].

End Linker.

Module LinkerFacts.
Import MemLayout Paging Entry EntryFacts Linker.

Lemma align_up_spec dot a : 0 < a ->
  (a | align_up dot a) /\ dot <= align_up dot a < dot + a.
Proof.
  intros Ha. unfold align_up. split; [apply Z.divide_factor_r|].
  pose proof (Z.div_mod (dot + a - 1) a). pose proof (Z.mod_pos_bound (dot + a - 1) a Ha). lia.
Qed.

Lemma align_up_id dot a : 0 < a -> (a | dot) -> align_up dot a = dot.
Proof.
  intros Ha [k ->]. unfold align_up. replace (k * a + a - 1) with (a - 1 + k * a) by lia.
  rewrite Z.div_add, Z.div_small by lia. lia.
Qed.

Lemma align_up_add dot b a : 0 < a -> (a | b) -> align_up (b + dot) a = b + align_up dot a.
Proof.
  intros Ha [k ->]. unfold align_up. replace (k * a + dot + a - 1) with (dot + a - 1 + k * a) by lia.
  rewrite Z.div_add by lia. lia.
Qed.

(** Sections the linker can place: alignments of at most a page. *)
Definition input_ok (i : input) : Prop := 0 <= in_size i /\ 0 < in_align i /\ (in_align i | 4096).

Lemma input_align i : input_ok i -> 0 < in_align i <= 4096.
Proof. intros (_ & Ha & Hd). split; [done|]. apply Z.divide_pos_le in Hd; lia. Qed.

(** A section below the jump of the location counter. *)
Lemma section_low i dot : input_ok i -> 0 <= dot -> dot + 4096 + in_size i < 2 ^ 64 ->
  exists a, section_at id i dot = (Output a a (in_size i), a + in_size i) /\
    (in_align i | a) /\ dot <= a < dot + in_align i /\ in_align i <= 4096.
Proof.
  intros Hi Hd Hs. pose proof (input_align i Hi). destruct Hi as (H0 & Ha & _).
  destruct (align_up_spec dot (in_align i) Ha) as [Hdiv Hb]. exists (align_up dot (in_align i)).
  unfold section_at, id. rewrite !wrap_small; unfold in_range; try lia. split; [done|]. split; [done|lia].
Qed.

(** A section above it, and the address it is loaded at. *)
Lemma section_high i p : input_ok i -> 0 <= p -> p + 4096 + in_size i < 2 ^ 31 ->
  exists q, section_at at_physical i (ALIGN_4K (KVA_KERNEL_BEGIN + p)) =
      (Output (KVA_KERNEL_BEGIN + q) q (in_size i), KVA_KERNEL_BEGIN + (q + in_size i)) /\
    (4096 | q) /\ p <= q < p + 4096.
Proof.
  intros Hi Hp Hs. pose proof (input_align i Hi). destruct Hi as (H0 & Ha & Hd).
  destruct (align_up_spec p 4096 ltac:(lia)) as [Hdiv Hb].
  assert (4096 | KVA_KERNEL_BEGIN) as HK by (by exists (KVA_KERNEL_BEGIN / 4096)).
  unfold section_at, ALIGN_4K, PGSIZE. rewrite align_up_add by (done || lia).
  set (q := align_up p 4096) in *. exists q.
  rewrite (align_up_id _ (in_align i) Ha) by (etrans; [exact Hd|by apply Z.divide_add_r]).
  assert (in_range 64 (KVA_KERNEL_BEGIN + q) /\ in_range 64 (KVA_KERNEL_BEGIN + q + in_size i)) as [R1 R2]
    by (unfold in_range, KVA_KERNEL_BEGIN in *; lia).
  rewrite (wrap_small 64 (KVA_KERNEL_BEGIN + q)) by done. unfold at_physical.
  replace (KVA_KERNEL_BEGIN + q - KVA_KERNEL_BEGIN) with q by lia.
  rewrite (wrap_small 64 q) by (unfold in_range; lia). rewrite wrap_small by done.
  split; [by rewrite Z.add_assoc|]. done.
Qed.

Definition all_inputs (i : inputs) : list input :=
  [header_data i; multiboot2_text i; page_tables i; text i; rodata i; data i; bss i].

(** Inputs that fit in the two gigabytes above [KVA_KERNEL_BEGIN]. *)
Definition inputs_ok (i : inputs) : Prop :=
  Forall input_ok (all_inputs i) /\
  0x100000 + foldr (fun s n => in_size s + 4096 + n) 0 (all_inputs i) < 2 ^ 31.

(** Sections loaded one behind the other from [p] to [e]. *)
Fixpoint chain (p : Z) (l : list output) (e : Z) : Prop :=
  match l with
  | [] => p = e
  | o :: l => p <= lma o < p + 4096 /\ chain (lma o + out_size o) l e
  end.

Definition high_sections (m : image) : list output := [out_text m; out_rodata m; out_data m; out_bss m].
Definition low_sections (m : image) : list output := [out_header m; out_multiboot2_text m; out_page_tables m].

Lemma linker_run i : inputs_ok i ->
  let m := linker_script i in
  chain 0x100000 (sections m) (PA_KERNEL_END m) /\ PA_KERNEL_END m < 2 ^ 31 /\
  (out_size <$> sections m) = (in_size <$> all_inputs i) /\
  Forall (fun o => vma o = lma o) (low_sections m) /\
  Forall (fun o => vma o = KVA_KERNEL_BEGIN + lma o /\ (4096 | lma o)) (high_sections m) /\
  (in_align (header_data i) | lma (out_header m)) /\
  lma (out_header m) < 0x100000 + in_align (header_data i) /\ (in_align (page_tables i) | lma (out_page_tables m)) /\
  KVA_KERNEL_END m = KVA_KERNEL_BEGIN + PA_KERNEL_END m /\
  KVA_KERNEL_DATA_BEGIN m = vma (out_rodata m) + in_size (rodata i) /\
  PA_KERNEL_DATA_BEGIN m = lma (out_rodata m) + in_size (rodata i).
Proof.
  intros [Hok Hfit] m. unfold all_inputs in *. cbn [foldr] in Hfit.
  apply Forall_cons in Hok as [O1 Hok]. apply Forall_cons in Hok as [O2 Hok].
  apply Forall_cons in Hok as [O3 Hok]. apply Forall_cons in Hok as [O4 Hok].
  apply Forall_cons in Hok as [O5 Hok]. apply Forall_cons in Hok as [O6 Hok].
  apply Forall_cons in Hok as [O7 _].
  assert (forall s, input_ok s -> 0 <= in_size s) as P by (intros s []; done).
  pose proof (P _ O1). pose proof (P _ O2). pose proof (P _ O3). pose proof (P _ O4).
  pose proof (P _ O5). pose proof (P _ O6). pose proof (P _ O7).
  destruct (section_low (header_data i) 0x100000 O1) as (a1 & E1 & D1 & B1); [lia..|].
  destruct (section_low (multiboot2_text i) (a1 + in_size (header_data i)) O2) as (a2 & E2 & _ & B2); [lia..|].
  destruct (section_low (page_tables i) (a2 + in_size (multiboot2_text i)) O3) as (a3 & E3 & D3 & B3); [lia..|].
  destruct (section_high (text i) (a3 + in_size (page_tables i)) O4) as (a4 & E4 & D4 & B4); [lia..|].
  destruct (section_high (rodata i) (a4 + in_size (text i)) O5) as (a5 & E5 & D5 & B5); [lia..|].
  destruct (section_high (data i) (a5 + in_size (rodata i)) O6) as (a6 & E6 & D6 & B6); [lia..|].
  destruct (section_high (bss i) (a6 + in_size (data i)) O7) as (a7 & E7 & D7 & B7); [lia..|].
  assert (m = Image (Output a1 a1 (in_size (header_data i))) (Output a2 a2 (in_size (multiboot2_text i)))
    (Output a3 a3 (in_size (page_tables i))) (Output (KVA_KERNEL_BEGIN + a4) a4 (in_size (text i)))
    (Output (KVA_KERNEL_BEGIN + a5) a5 (in_size (rodata i))) (Output (KVA_KERNEL_BEGIN + a6) a6 (in_size (data i)))
    (Output (KVA_KERNEL_BEGIN + a7) a7 (in_size (bss i))) 0x100000
    (KVA_KERNEL_BEGIN + (a5 + in_size (rodata i))) (a5 + in_size (rodata i))
    (KVA_KERNEL_BEGIN + (a7 + in_size (bss i))) (a7 + in_size (bss i))) as ->.
  { assert (forall x, 0 <= x < 2 ^ 31 -> u64 (KVA_KERNEL_BEGIN + x - KVA_KERNEL_BEGIN) = x) as Hphys.
    { intros x Hx. replace (KVA_KERNEL_BEGIN + x - KVA_KERNEL_BEGIN) with x by lia.
      apply wrap_small. unfold in_range. lia. }
    unfold m, linker_script. rewrite E1, E2, E3.
    replace (u64 (a3 + in_size (page_tables i) + KVA_KERNEL_BEGIN))
      with (KVA_KERNEL_BEGIN + (a3 + in_size (page_tables i)))
      by (rewrite wrap_small; [lia|unfold in_range, KVA_KERNEL_BEGIN; lia]).
    rewrite E4, E5, E6, E7. rewrite !Hphys by lia. done. }
  cbn. rewrite !Z.add_assoc. split_and!; try done; try lia; repeat constructor; done.
Qed.

Lemma high_in_sections m o : o ∈ high_sections m -> o ∈ sections m.
Proof. unfold high_sections, sections. rewrite !elem_of_cons. tauto. Qed.

(** What a chain of sections says of each of them. *)
Lemma chain_bounds l : forall p e, chain p l e -> Forall (fun o => 0 <= out_size o) l ->
  p <= e /\ Forall (fun o => p <= lma o /\ lma o + out_size o <= e) l.
Proof.
  induction l as [|o l IH]; intros p e Hc Hs; cbn [chain] in Hc; [split; [lia|done]|].
  apply Forall_cons in Hs as [Ho Hs]. destruct Hc as [Hb Hc]. destruct (IH _ _ Hc Hs) as [He Hl].
  split; [lia|]. constructor; [lia|]. eapply Forall_impl; [exact Hl|]. intros x Hx. cbn in Hx. lia.
Qed.

Lemma sections_size i m : inputs_ok i -> (out_size <$> sections m) = (in_size <$> all_inputs i) ->
  Forall (fun o => 0 <= out_size o) (sections m).
Proof.
  intros [Hok _] E.
  apply Forall_forall. intros o Ho.
  assert (out_size o ∈ in_size <$> all_inputs i) as Hin by (rewrite <- E; by apply list_elem_of_fmap_2).
  apply list_elem_of_fmap in Hin as (s & -> & Hs). rewrite Forall_forall in Hok. by destruct (Hok s Hs).
Qed.

Lemma sections_bounds i m : inputs_ok i ->
  chain 0x100000 (sections m) (PA_KERNEL_END m) -> PA_KERNEL_END m < 2 ^ 31 ->
  (out_size <$> sections m) = (in_size <$> all_inputs i) ->
  forall o, o ∈ sections m ->
  0 <= out_size o /\ 0x100000 <= lma o /\ lma o + out_size o <= PA_KERNEL_END m < 2 ^ 31.
Proof.
  intros Hok Hc He Hsz o Ho. pose proof (sections_size i m Hok Hsz) as Hs.
  destruct (chain_bounds _ _ _ Hc Hs) as [_ Hb]. rewrite Forall_forall in Hb, Hs.
  pose proof (Hb o Ho). pose proof (Hs o Ho). lia.
Qed.

(** The tables are loaded below the upper sections. *)
Lemma tables_below m : chain 0x100000 (sections m) (PA_KERNEL_END m) ->
  Forall (fun o => 0 <= out_size o) (sections m) ->
  0 <= lma (out_page_tables m) /\
  forall o, o ∈ high_sections m -> lma (out_page_tables m) + out_size (out_page_tables m) <= lma o.
Proof.
  intros Hc Hs. unfold sections, high_sections in *. rewrite !Forall_cons in Hs. cbn [chain] in Hc.
  split; [lia|]. intros o Ho. rewrite !elem_of_cons, elem_of_nil in Ho. destruct_or! Ho; subst; lia || done.
Qed.

(** A loaded image of the script is an image the entry code can boot, and its
    upper sections are behind the tables. *)
Lemma linked_image i gdt_offset kernel_jumper ram :
  let m := linker_script i in
  let kpml4 := lma (out_page_tables m) in
  let gdt64_addr := vma (out_data m) + gdt_offset in
  inputs_ok i -> page_tables i = Input (4 * PGSIZE) PGSIZE ->
  0 <= gdt_offset -> lma (out_data m) + gdt_offset + 76 <= PGSIZE_2M ->
  vma (out_text m) <= kernel_jumper < vma (out_text m) + in_size (text i) ->
  kernel_jumper < KVA_KERNEL_BEGIN + PGSIZE_2M ->
  mapped_range ram 0 PGSIZE_2M ->
  (forall x, kpml4 <= x < kpml4 + 4 * PGSIZE -> byte_at ram x = 0) ->
  bytes_at ram (lma (out_data m) + gdt_offset) (boot_data gdt64_addr) ->
  boot_image kpml4 gdt64_addr ram /\
  KVA_KERNEL_BEGIN <= kernel_jumper < KVA_KERNEL_BEGIN + PGSIZE_2M /\
  forall o, o ∈ high_sections m ->
    vma o = KVA_KERNEL_BEGIN + lma o /\ 0x100000 <= lma o < 2 ^ 31 /\ lma o + out_size o < 2 ^ 31 /\
    kpml4 + 4 * PGSIZE <= lma o.
Proof.
  intros m kpml4 gdt64_addr Hok Hpt Hg0 Hg Hj Hj2 Hmap Hzero Hdata.
  pose proof (linker_run i Hok) as L. fold m in L. cbv zeta in L. clearbody m.
  destruct L as (Hc & He & Hsz & Hl & Hh & _ & _ & Hpa & _).
  pose proof (sections_bounds i m Hok Hc He Hsz) as Hb. rewrite Forall_forall in Hh.
  assert (out_data m ∈ high_sections m /\ out_text m ∈ high_sections m) as [Hin1 Hin2]
    by (split; apply list_elem_of_In; cbn; tauto).
  destruct (Hh _ Hin1) as [Ed _]. destruct (Hh _ Hin2) as [Et _].
  pose proof (Hb _ (high_in_sections m _ Hin1)). pose proof (Hb _ (high_in_sections m _ Hin2)).
  destruct (tables_below m Hc (sections_size i m Hok Hsz)) as [Htb1 Htb2].
  pose proof (f_equal (fun l => nth 2 l 0) Hsz) as Ept. cbn in Ept. rewrite Hpt in Ept, Hpa. cbn in Ept, Hpa.
  assert (KV2P gdt64_addr = lma (out_data m) + gdt_offset) as Eg.
  { unfold gdt64_addr. rewrite Ed. rewrite KV2P_window by (unfold KVA_KERNEL_BEGIN, PGSIZE_2M in *; lia). lia. }
  rewrite Ept in Htb2. split; [|split; [lia|]].
  - constructor; try done.
    + unfold gdt64_addr. rewrite Ed. unfold PGSIZE_2M in *. lia.
    + rewrite Eg. unfold kpml4. pose proof (Htb2 _ Hin1). unfold PGSIZE in *. lia.
    + by rewrite Eg.
  - intros o Ho. destruct (Hh o Ho) as [Ev _]. pose proof (Hb o (high_in_sections m o Ho)).
    pose proof (Htb2 o Ho). unfold kpml4, PGSIZE in *. split; [done|]. lia.
Qed.

End LinkerFacts.

Module LinkerProps.
Import MemLayout Paging Entry EntryFacts Linker LinkerFacts.

(** C32. The image of the linker script, for every set of input sections that
    fits in 2 GB: the sections are loaded one behind the other, with gaps of
    less than a page, from 1 MB, where the multiboot header is, up to
    [PA_KERNEL_END]; the first three are linked where they are loaded, the
    others at page boundaries [KVA_KERNEL_BEGIN] above; and the symbols of the
    script name the same places in both address spaces. *)
Theorem linker_layout i : inputs_ok i -> (in_align (header_data i) | 0x100000) ->
  let m := linker_script i in
  lma (out_header m) = PA_KERNEL_BEGIN m /\ PA_KERNEL_BEGIN m = 0x100000 /\
  chain 0x100000 (sections m) (PA_KERNEL_END m) /\
  Forall (fun o => vma o = lma o) (low_sections m) /\
  Forall (fun o => vma o = P2KV (lma o) /\ KV2P (vma o) = lma o /\ (PGSIZE | lma o)) (high_sections m) /\
  KVA_KERNEL_END m = P2KV (PA_KERNEL_END m) /\ KVA_KERNEL_DATA_BEGIN m = P2KV (PA_KERNEL_DATA_BEGIN m).
Proof.
  intros Hok Halign m. pose proof (linker_run i Hok) as L. fold m in L. cbv zeta in L.
  assert (PA_KERNEL_BEGIN m = 0x100000) as Hbegin by reflexivity. clearbody m.
  destruct L as (Hc & He & Hsz & Hl & Hh & Hd & Hd' & _ & Hke & Hkd & Hpd).
  pose proof (sections_bounds i m Hok Hc He Hsz) as Hlma.
  assert (forall x, 0 <= x < 2 ^ 31 -> KVA_KERNEL_BEGIN + x = P2KV x /\ KV2P (KVA_KERNEL_BEGIN + x) = x) as Hk.
  { intros x Hx. unfold P2KV, KV2P. rewrite (Z.add_comm x).
    replace (KVA_KERNEL_BEGIN + x - KVA_KERNEL_BEGIN) with x by lia.
    split; [symmetry|]; apply wrap_small; unfold in_range, KVA_KERNEL_BEGIN; lia. }
  rewrite Forall_forall in Hh. split; [|split; [done|]].
  { destruct Hc as [Hc _]. pose proof (Z.divide_sub_r _ _ _ Hd Halign) as Hx.
    destruct (Z.eq_dec (lma (out_header m) - 0x100000) 0) as [|Hne]; [lia|].
    apply Z.divide_pos_le in Hx; lia. }
  split; [done|]. split; [done|]. split; [|split].
  - apply Forall_forall. intros o Ho. destruct (Hh o Ho) as [-> Hp].
    pose proof (Hlma o (high_in_sections m o Ho)).
    destruct (Hk (lma o)) as [E1 E2]; [lia|]. by rewrite E2, <- E1.
  - rewrite Hke. apply Hk. pose proof (Hlma (out_bss m) ltac:(apply list_elem_of_In; cbn; tauto)). lia.
  - assert (out_rodata m ∈ high_sections m) as Hr by (apply list_elem_of_In; cbn; tauto).
    destruct (Hh _ Hr) as [Ev _]. pose proof (Hlma _ (high_in_sections m _ Hr)) as Hb.
    pose proof (f_equal (fun l => nth 4 l 0) Hsz) as E5. cbn in E5. rewrite E5 in Hb.
    rewrite Hkd, Hpd, Ev, <- Z.add_assoc. apply Hk. lia.
Qed.

Definition sample_inputs : inputs :=
  Inputs (Input 24 8) (Input 200 1) (Input 16384 4096) (Input 50000 16) (Input 3000 32)
    (Input 5000 32) (Input 20000 32).

Lemma sample_inputs_ok : inputs_ok sample_inputs.
Proof.
  split; [|by vm_compute].
  assert (Forall (fun s => 0 <= in_size s /\ 0 < in_align s /\ 4096 mod in_align s = 0) (all_inputs sample_inputs))
    as Hall by (apply (bool_decide_unpack _); vm_compute; exact I).
  eapply Forall_impl; [exact Hall|]. intros s (H1 & H2 & H3). split; [done|]. split; [done|].
  apply Z.mod_divide in H3; [done|lia].
Qed.

Lemma linker_layout_witness :
  chain 0x100000 (sections (linker_script sample_inputs)) (PA_KERNEL_END (linker_script sample_inputs)) /\
  lma (out_header (linker_script sample_inputs)) = PA_KERNEL_BEGIN (linker_script sample_inputs).
Proof.
  destruct (linker_layout sample_inputs) as (H1 & _ & H2 & _).
  - exact sample_inputs_ok.
  - by exists 0x20000.
  - split; [exact H2|exact H1].
Defined.

(** C16. A kernel linked with the script boots: if the loader has put the image
    where the script says, the tables of the entry code zeroed, and the parts
    the entry code uses are below 2 MB, then the entry code reaches
    [kernel_main], and afterwards a byte of the kernel's text, constants, data
    or variables is mapped, at the address it is linked at and to the address
    it is loaded at, exactly if it is loaded below 2 MB. *)
Theorem linked_kernel_boots i gdt_offset kernel_jumper kernel_main c :
  let m := linker_script i in
  let kpml4 := lma (out_page_tables m) in
  let gdt64_addr := vma (out_data m) + gdt_offset in
  inputs_ok i -> page_tables i = Input (4 * PGSIZE) PGSIZE ->
  0 <= gdt_offset -> lma (out_data m) + gdt_offset + 76 <= PGSIZE_2M ->
  vma (out_text m) <= kernel_jumper < vma (out_text m) + in_size (text i) ->
  kernel_jumper < KVA_KERNEL_BEGIN + PGSIZE_2M ->
  mapped_range (ram c) 0 PGSIZE_2M ->
  (forall x, kpml4 <= x < kpml4 + 4 * PGSIZE -> byte_at (ram c) x = 0) ->
  bytes_at (ram c) (lma (out_data m) + gdt_offset) (boot_data gdt64_addr) ->
  exists c', boot kpml4 gdt64_addr kernel_jumper kernel_main c = Ok (tt, c') /\
    long_mode c' /\ regs c' RIP = kernel_main /\
    forall o x pa, o ∈ high_sections m -> 0 <= x < out_size o ->
      walk (ram c') (regs c' CR3) (vma o + x) = Some pa <-> lma o + x < PGSIZE_2M /\ pa = lma o + x.
Proof.
  intros m kpml4 gdt64_addr Hok Hpt Hg0 Hg Hj Hj2 Hmap Hzero Hdata.
  destruct (linked_image i gdt_offset kernel_jumper (ram c) Hok Hpt Hg0 Hg Hj Hj2 Hmap Hzero Hdata)
    as (I & Hjb & Hh). fold m in Hh. fold kpml4 in I. fold gdt64_addr in I.
  destruct (boot_run kpml4 gdt64_addr kernel_jumper kernel_main c I Hjb)
    as (_ & c' & _ & _ & Hrun & Hlm & _ & Hrip & _ & _ & _ & _ & _ & Hwalk).
  clearbody m. exists c'. split; [done|]. split; [done|]. split; [done|].
  intros o x pa Ho Hx. destruct (Hh o Ho) as (-> & Hb & Hb2 & _).
  rewrite Hwalk by (right; unfold KVA_KERNEL_BEGIN; lia).
  unfold KVA_KERNEL_BEGIN, PGSIZE_2M. lia.
Qed.

(** The image of the sample inputs in memory. *)
Definition sample_data : Z := vma (out_data (linker_script sample_inputs)).
Definition loaded_machine : machine :=
  Machine (regs EntryProps.sample_machine) (msrs EntryProps.sample_machine) (gdtr EntryProps.sample_machine)
    (cs_desc EntryProps.sample_machine)
    (put_bytes (Mem [(0, PGSIZE_2M)] ∅) (KV2P sample_data) (boot_data sample_data)).

Lemma linked_kernel_boots_witness :
  exists c', boot 0x101000 sample_data 0xFFFFFFFF80105000 0xFFFFFFFF80106000 loaded_machine = Ok (tt, c') /\
    regs c' RIP = 0xFFFFFFFF80106000.
Proof.
  assert (lma (out_data (linker_script sample_inputs)) + 0 = 0x113000) as E by (by vm_compute).
  assert (length (boot_data sample_data) = 76%nat) as El by (by vm_compute).
  destruct (linked_kernel_boots sample_inputs 0 0xFFFFFFFF80105000 0xFFFFFFFF80106000 loaded_machine)
    as (c' & Hrun & _ & Hrip & _).
  - exact sample_inputs_ok.
  - reflexivity.
  - lia.
  - by vm_compute.
  - by vm_compute.
  - by vm_compute.
  - apply mapped_range_put_bytes, mapped_range_check. by vm_compute.
  - change (lma (out_page_tables (linker_script sample_inputs))) with 0x101000. intros x Hx.
    cbn [ram loaded_machine]. rewrite byte_at_put_bytes_other; [done|]. rewrite El.
    change (KV2P sample_data) with 0x113000. unfold PGSIZE in Hx. lia.
  - rewrite E. change (vma (out_data (linker_script sample_inputs)) + 0) with sample_data.
    change 0x113000 with (KV2P sample_data). apply bytes_at_put_bytes.
    eapply (bool_decide_unpack _). by vm_compute.
  - exists c'. split; [exact Hrun|exact Hrip].
Defined.

End LinkerProps.
