(* ===== verification/Classes.v ===== *)
(** The structures and classes whose code is elsewhere, or nowhere: libk/types.h
    and filesystem/stat.h, the process and CPU structures in C and in C++, the
    lock, the keyboard buffer, and the file-system classes.

    They are layouts of the x86-64 ABI.  A class with virtual functions starts
    with the pointer to its table, a derived class with its base. *)
From S2P Require Import Prelude Layout Memory.

Module Classes.

(** *** libk/types.h, filesystem/stat.h *)

Definition ci8 := CType 1 1.
Definition ci16 := CType 2 2.
Definition ci32 := CType 4 4.
Definition ci64 := CType 8 8.

Definition types_h : list (string * ctype) :=
  [("i8", ci8); ("i16", ci16); ("i32", ci32); ("i64", ci64);
   ("u8", cu8); ("u16", cu16); ("u32", cu32); ("u64", cu64);
   ("size_t", cu64); ("uintptr_t", cu64); ("pid_t", ci32); ("byte", cu8); ("boolean", cu8)].

Definition stat_h : list (string * ctype) :=
  [("dev_t", ci32); ("mode_t", cu16); ("nlink_t", cu16); ("ino_t", cu64); ("uid_t", cu32);
   ("gid_t", cu32); ("off_t", ci64); ("blkcnt_t", ci64); ("blksize_t", ci32); ("time_t", ci64)].

Definition named (l : list (string * ctype)) (n : string) : ctype :=
  default (CType 0 1) (snd <$> List.find (fun p => String.eqb p.1 n) l).
Definition T (n : string) : ctype := named (types_h ++ stat_h) n.

(** *** Processes *)

Definition cpu : cstruct := Struct
  [Plain "apicid" cu8; Plain "scheduler" cptr; Plain "started" (T "boolean"); Plain "ncli" cint;
   Plain "saved_IF" cint; Plain "proc" cptr].

(** [struct proc] of proc.h. *)
Definition proc : cstruct := Struct
  [Plain "sz" (T "size_t"); Plain "pml4" cptr; Plain "kstack" cptr; Plain "state" cenum;
   Plain "pid" (T "pid_t"); Plain "parent" cptr; Plain "tf" cptr; Plain "context" cptr;
   Plain "chan" cptr; Plain "killed" cint; Plain "cwd" cptr; Plain "name" (carray cu8 16)].

(** [class Process] of Process.h; an [enum class] without a type is an [int]. *)
Definition Process : cstruct := Struct
  [Plain "sz" (T "size_t"); Plain "pml4" cptr; Plain "kstack" cptr; Plain "state" cint;
   Plain "pid" (T "pid_t"); Plain "parent" cptr; Plain "tf" cptr; Plain "context" cptr;
   Plain "chan" cptr; Plain "killed" cint; Plain "cwd" cptr; Plain "name" (carray cu8 16)].

Definition spinlock : cstruct := Struct
  [Plain "locked" cu32; Plain "name" cptr; Plain "cpu" cptr; Plain "pcs" (carray cu32 10)].

(** [input] of keyboard.c. *)
Definition INPUT_BUF : Z := 128.
Definition input : cstruct := Struct
  [Plain "buf" (carray cu8 INPUT_BUF); Plain "r" cu32; Plain "w" cu32; Plain "e" cu32].

(** The handler of keyboard.c has an empty body. *)
Definition keyboard_interrupt_handler {S} : M S unit := mret tt.

(** *** The file system *)

Definition UnixDateTime : cstruct := Struct [Plain "m_seconds" ci64; Plain "m_nanoseconds" cu32].

Definition InodeMetadata : cstruct := Struct
  [Plain "fs_dev" (T "dev_t"); Plain "ino" (T "ino_t"); Plain "mode" (T "mode_t");
   Plain "nlink" (T "nlink_t"); Plain "uid" (T "uid_t"); Plain "gid" (T "gid_t");
   Plain "device_file_dev" (T "dev_t"); Plain "size" (T "off_t"); Plain "block_count" (T "blkcnt_t");
   Plain "block_size" (T "blksize_t"); Plain "atime" (cs_type UnixDateTime);
   Plain "ctime" (cs_type UnixDateTime); Plain "mtime" (cs_type UnixDateTime);
   Plain "dtime" (cs_type UnixDateTime)].

(** The virtual table is that of [metadata] and [lookup]. *)
Definition Inode : cstruct := Struct [Plain "vptr" cptr; Plain "metadata_dirty" cu8].

Definition File : cstruct := Struct [Plain "refcnt" cint].
Definition InodeFile : cstruct := Struct [Plain "File" (cs_type File); Plain "inode" cptr].

Definition NAME_MAX : Z := 32.
Definition FileSystem : cstruct := Struct
  [Plain "FileSystemID" cu32; Plain "FileSystemName" (carray cu8 NAME_MAX)].

(** [OpenFileDescription]: [access_mode] is a type inside it, not a member. *)
Definition OpenFileDescription : cstruct := Struct
  [Plain "inode" cptr; Plain "offset" (T "off_t"); Plain "status_flags" cu32].
Definition access_mode : cstruct := Struct
  [Bits "readable" cu8 1; Bits "writable" cu8 1; Bits "blocking" cu8 1; Bits "append" cu8 1].
Definition file_description : cstruct := Struct
  [Plain "type" cenum; Plain "ref" cint; Plain "readable" cu8; Plain "writable" cu8; Plain "pipe" cptr].

(** The file system's device switch and its table of descriptions. *)
Definition devsw : cstruct := Struct [Plain "read" cptr; Plain "write" cptr].

End Classes.

Module ClassesProps.
Import Classes.

(** C and C++ agree on a process: [struct proc] and [class Process] have the
    same members at the same places, so that the table of proc.c can be used
    from both; the widths the names of libk/types.h promise are those of the
    types they name; and an [InodeFile] starts with its [File]. *)
Theorem class_layouts :
  cs_layout Process = cs_layout proc /\ cs_sizeof Process = 96 /\
  Forall (fun '(n, w) => ty_size (T n) = w) [("u8", 1); ("u16", 2); ("u32", 4); ("u64", 8);
    ("i8", 1); ("i16", 2); ("i32", 4); ("i64", 8); ("uintptr_t", ty_size cptr)] /\
  offsetof (cs_layout InodeFile) "File" = 0 /\ offsetof (cs_layout InodeFile) "inode" = 8 /\
  cs_sizeof access_mode = 1 /\ cs_sizeof InodeMetadata = 120 /\ cs_sizeof spinlock = 64 /\ cs_sizeof input = 140.
Proof. vm_compute. repeat split; repeat constructor. Qed.

(** The slots of the process table do not overlap, and each member of a slot
    is inside it. *)
Theorem proc_slots table i j n :
  i <> j -> n ∈ (pl_name <$> cs_layout proc) ->
  let slot k := table + cs_sizeof proc * k in
  let p := field_of (cs_layout proc) n in
  (slot i + cs_sizeof proc <= slot j \/ slot j + cs_sizeof proc <= slot i) /\
  slot i <= slot i + pl_off p / 8 /\ slot i + pl_off p / 8 + pl_width p / 8 <= slot i + cs_sizeof proc.
Proof.
  intros Hij Hn. change (cs_sizeof proc) with 96. cbv zeta. split; [lia|].
  assert (Forall (fun n => 0 <= pl_off (field_of (cs_layout proc) n) / 8 /\
    pl_off (field_of (cs_layout proc) n) / 8 + pl_width (field_of (cs_layout proc) n) / 8 <= 96)
    (pl_name <$> cs_layout proc)) as H by (apply (bool_decide_unpack _); vm_compute; exact I).
  rewrite Forall_forall in H. destruct (H n Hn). lia.
Qed.

Lemma proc_slots_witness : 0x1000 + cs_sizeof proc * 0 + cs_sizeof proc <= 0x1000 + cs_sizeof proc * 1 \/
  0x1000 + cs_sizeof proc * 1 + cs_sizeof proc <= 0x1000 + cs_sizeof proc * 0.
Proof. apply (proc_slots 0x1000 0 1 "pid"); [done|]. apply (bool_decide_unpack _). vm_compute. exact I. Defined.

End ClassesProps.
