(* ===== verification/Containers.v ===== *)
(** kernel/libcppk: array.hpp, bitset.hpp and optional.hpp.

    An array is the list of its elements and an access outside it is the fault
    [OutOfBounds].  A bit set is refined to the finite set of its members and
    an [optional] to Rocq's [option]. *)
From S2P Require Import Prelude.

(** ** array.hpp *)
Module Array.
Section array.
Context {T : Type} (T_eqb : T -> T -> bool) (N : Z).

Definition array : Type := list T.

(** [elems[pos] = value] *)
Definition set_elem (pos : Z) (value : T) : M array unit :=
  elems ← get; index elems pos ;; put (updateZ elems pos value).

Definition fill (value : T) : M array unit :=
  for_loop (Z.to_nat N) 0 (fun i => set_elem i value).

Definition operator_index (pos : Z) : M array T := elems ← get; index elems pos.

(** Indices [i .. N-1], [n] of them. *)
Fixpoint eq_loop (n : nat) (i : Z) (other : array) : M array bool :=
  match n with
  | O => mret true
  | S n =>
      elems ← get; x ← index elems i; y ← index other i;
      if negb (T_eqb x y) then mret false else eq_loop n (i + 1) other
  end.

Definition operator_eq (other : array) : M array bool := eq_loop (Z.to_nat N) 0 other.

End array.
End Array.

(** ** bitset.hpp *)
Module Bitset.
Section bitset.
Context (N : Z).

Definition BITS_PER_BLOCK : Z := 8 * 8.
Definition NUM_BLOCKS : Z := u64 (N + BITS_PER_BLOCK - 1) / BITS_PER_BLOCK.

Definition bitset : Type := list Z.

Definition block_index (pos : Z) : Z := pos / BITS_PER_BLOCK.
Definition bit_position (pos : Z) : Z := pos mod BITS_PER_BLOCK.

(** Memory for the blocks holds anything before the constructor runs. *)
Definition bitset_new : M bitset unit := Array.fill NUM_BLOCKS 0.

(** The check of [pos] against [N] has no statement in its body. *)
Definition test (pos : Z) : M bitset bool :=
  let idx := block_index pos in
  let bit := bit_position pos in
  b ← Array.operator_index idx;
  mret (negb (Z.land (Z.shiftr b bit) 1 =? 0)).

Definition set (pos : Z) (value : bool) : M bitset unit :=
  let idx := block_index pos in
  let bit := bit_position pos in
  b ← Array.operator_index idx;
  if value then Array.set_elem idx (Z.lor b (u64 (Z.shiftl 1 bit)))
  else Array.set_elem idx (Z.land b (u64 (Z.lnot (u64 (Z.shiftl 1 bit))))).

Definition size_ : Z := N.

End bitset.
End Bitset.

(** ** optional.hpp

    The storage of a value that has not been constructed holds [None];
    [initialized] is a byte of memory like any other, and a constructor that
    does not set it leaves what was there. *)
Module Optional.
Section optional.
Context {T : Type}.

Record optional := Optional { storage : option T; initialized : bool }.

Definition construct (new_value : T) : M optional unit :=
  put (Optional (Some new_value) true).

(** [value_ref] of storage without a value has no defined result. *)
Definition value : M optional T :=
  o ← get; match storage o with Some v => mret v | None => fail (Unmapped 0) end.

(** The value's destructor, then the flag. *)
Definition reset : M optional unit :=
  o ← get; when (initialized o) (put (Optional None false)).

(** The constructors run in the memory of the new object. *)
Definition optional_default : M optional unit :=
  modify (fun o => Optional (storage o) false).
Definition optional_value (v : T) : M optional unit := construct v.
Definition optional_copy (other : optional) : M optional unit :=
  if initialized other then
    match value other with Ok (v, _) => construct v | Fault f => fail f end
  else mret tt.

(** The moved-from object is emptied: the state is the pair of both. *)
Definition optional_move : M (optional * optional) unit := fun '(new, other) =>
  if initialized other then
    match value other with
    | Ok (v, _) =>
        match construct v new, reset other with
        | Ok (_, new), Ok (_, other) => Ok (tt, (new, other))
        | Fault f, _ | _, Fault f => Fault f
        end
    | Fault f => Fault f
    end
  else Ok (tt, (new, other)).

Definition assign (new_value : T) : M optional unit :=
  o ← get;
  if initialized o then put (Optional (Some new_value) true) else construct new_value.

Definition has_value : M optional bool := gets initialized.

End optional.
Arguments optional : clear implicits.
End Optional.

Module ContainerFacts.
Import Array Bitset.

(** *** Arrays *)

Lemma set_elem_run {T} (l : list T) i v :
  0 <= i < Z.of_nat (length l) -> set_elem i v l = Ok (tt, updateZ l i v).
Proof.
  intros Hi. destruct (lookupZ_is_Some l i Hi) as [x Hx]. unfold set_elem.
  mrun reflexivity. by rewrite (bind_Ok _ _ _ _ _ (index_Ok _ _ _ l Hx)).
Qed.

Lemma operator_index_run {T} (l : list T) i x :
  lookupZ l i = Some x -> operator_index i l = Ok (x, l).
Proof. intros H. unfold operator_index. mrun reflexivity. by apply index_Ok. Qed.

Lemma fill_run {T} (v : T) N l :
  0 <= N -> length l = Z.to_nat N -> fill N v l = Ok (tt, replicate (Z.to_nat N) v).
Proof.
  intros HN Hl. unfold fill.
  destruct (for_loop_inv (fun i (s : list T) => 0 <= i /\ length s = Z.to_nat N /\
    forall j, (j < Z.to_nat i)%nat -> s !! j = Some v) (fun i => set_elem i v) (Z.to_nat N) 0 l)
    as (s' & Hrun & _ & Hs & Hv).
  - split; [lia|]. split; [done|]. intros j Hj. lia.
  - intros j t Hj (_ & Ht & Hv). exists (updateZ t j v). split; [apply set_elem_run; lia|].
    split; [lia|]. rewrite updateZ_length. split; [done|]. intros k Hk. unfold updateZ.
    destruct (decide (k = Z.to_nat j)) as [->|Hn].
    + apply list_lookup_insert_eq. lia.
    + rewrite list_lookup_insert_ne by done. apply Hv. lia.
  - etrans; [exact Hrun|]. do 2 f_equal. symmetry. apply replicate_as_elem_of. split; [done|].
    intros x Hx. apply list_elem_of_lookup in Hx as [j Hj]. pose proof (lookup_lt_Some _ _ _ Hj).
    rewrite Hv in Hj by lia. by injection Hj.
Qed.

Lemma index_nat {S T} (l : list T) i x (s : S) :
  l !! i = Some x -> index l (Z.of_nat i) s = Ok (x, s).
Proof.
  intros H. apply index_Ok. unfold lookupZ. destruct (Z.leb_spec 0 (Z.of_nat i)); [|lia].
  by rewrite Nat2Z.id.
Qed.

Lemma eq_loop_run {T} (T_eqb : T -> T -> bool) (l other : list T) n : forall i,
  (forall x y, T_eqb x y = true <-> x = y) ->
  length l = (i + n)%nat -> length other = (i + n)%nat ->
  exists b, eq_loop T_eqb n (Z.of_nat i) other l = Ok (b, l) /\
    (b = true <-> drop i l = drop i other).
Proof.
  intros i Heq. revert i. induction n as [|n IH]; intros i Hl Ho; cbn [eq_loop].
  { exists true. rewrite !drop_ge by lia. done. }
  destruct (lookup_lt_is_Some_2 l i) as [x Hx]; [lia|].
  destruct (lookup_lt_is_Some_2 other i) as [y Hy]; [lia|].
  mrun reflexivity. rewrite (bind_Ok _ _ _ _ _ (index_nat _ _ _ l Hx)).
  rewrite (bind_Ok _ _ _ _ _ (index_nat _ _ _ l Hy)).
  rewrite (drop_S l x i), (drop_S other y i) by done.
  destruct (T_eqb x y) eqn:E; simpl.
  - apply Heq in E as ->. replace (Z.of_nat i + 1) with (Z.of_nat (S i)) by lia.
    destruct (IH (S i)) as (b & Hb & Hbi); [lia|lia|]. exists b. split; [done|].
    rewrite Hbi. split; [by intros ->|by intros [=]].
  - exists false. split; [done|]. split; [done|]. intros [= Hxy _]. apply Heq in Hxy. congruence.
Qed.

(** *** Bit sets *)

Section bitset.
Context (N : Z) (HN : 0 < N < 2 ^ 63).

Lemma NUM_BLOCKS_eq : NUM_BLOCKS N = (N + 63) / 64.
Proof.
  unfold NUM_BLOCKS, BITS_PER_BLOCK. rewrite wrap_small by (unfold in_range; lia).
  f_equal. lia.
Qed.

Definition wf (bs : list Z) : Prop := Z.of_nat (length bs) = NUM_BLOCKS N.

(** Bit [p] of the block it belongs to. *)
Definition member (bs : list Z) (p : Z) : bool :=
  match lookupZ bs (block_index p) with
  | Some b => Z.testbit b (bit_position p)
  | None => false
  end.

Definition rep (bs : list Z) (X : gset Z) : Prop :=
  wf bs /\ forall p, 0 <= p < N -> member bs p = bool_decide (p ∈ X).

Lemma block_lookup bs p : wf bs -> 0 <= p < N -> exists b, lookupZ bs (block_index p) = Some b.
Proof.
  intros Hw Hp. apply lookupZ_is_Some. rewrite Hw, NUM_BLOCKS_eq.
  unfold block_index, BITS_PER_BLOCK. change (8 * 8) with 64.
  Z.div_mod_to_equations. lia.
Qed.

Lemma bit_position_range p : 0 <= bit_position p < 64.
Proof. apply Z.mod_pos_bound. done. Qed.

Lemma low_bit_test b i : 0 <= i -> negb (Z.land (Z.shiftr b i) 1 =? 0) = Z.testbit b i.
Proof.
  intros Hi. change 1 with (Z.ones 1). rewrite Z.land_ones by lia. change (2 ^ 1) with 2.
  rewrite <- (Z.add_0_l i) at 2. rewrite <- Z.shiftr_spec, Z.bit0_odd, Zmod_odd by lia.
  by destruct (Z.odd _).
Qed.

Lemma test_run bs p : wf bs -> 0 <= p < N -> test p bs = Ok (member bs p, bs).
Proof.
  intros Hw Hp. destruct (block_lookup bs p Hw Hp) as [b Hb]. unfold test, member. rewrite Hb.
  rewrite (bind_Ok _ _ _ _ _ (operator_index_run _ _ _ Hb)).
  by rewrite low_bit_test by apply bit_position_range.
Qed.

(** The masks change one bit. *)
Lemma set_mask b (v : bool) i j : 0 <= i < 64 -> 0 <= j < 64 ->
  Z.testbit (if v then Z.lor b (u64 (Z.shiftl 1 i)) else Z.land b (u64 (Z.lnot (u64 (Z.shiftl 1 i))))) j
  = if decide (j = i) then v else Z.testbit b j.
Proof.
  intros Hi Hj.
  assert (Z.testbit (u64 (Z.shiftl 1 i)) j = bool_decide (j = i)) as E.
  { rewrite wrap_testbit, Z.shiftl_1_l, Z.pow2_bits_eqb by lia.
    destruct (Z.ltb_spec j 64); [|lia]. destruct (Z.eqb_spec i j); simpl; symmetry;
      [by apply bool_decide_eq_true_2|by apply bool_decide_eq_false_2; congruence]. }
  destruct v; rewrite ?Z.lor_spec, ?Z.land_spec, ?wrap_testbit by lia.
  - rewrite wrap_testbit in E by lia. rewrite E. clear E.
    case_decide; case_bool_decide; try done; by rewrite ?orb_true_r, ?orb_false_r.
  - rewrite Z.lnot_spec, E by lia. destruct (Z.ltb_spec j 64); [|lia].
    case_decide; case_bool_decide; try done; simpl; by rewrite ?andb_true_r, ?andb_false_r.
Qed.

Lemma position_eq p q : block_index p = block_index q -> bit_position p = bit_position q -> p = q.
Proof.
  unfold block_index, bit_position. intros H1 H2.
  rewrite (Z.div_mod p BITS_PER_BLOCK), (Z.div_mod q BITS_PER_BLOCK) by done. congruence.
Qed.

Lemma set_run bs p v : wf bs -> 0 <= p < N ->
  exists bs', Bitset.set p v bs = Ok (tt, bs') /\ wf bs' /\
    forall q, member bs' q = if decide (q = p) then v else member bs q.
Proof.
  intros Hw Hp. destruct (block_lookup bs p Hw Hp) as [b Hb].
  set (b' := if v then Z.lor b (u64 (Z.shiftl 1 (bit_position p)))
    else Z.land b (u64 (Z.lnot (u64 (Z.shiftl 1 (bit_position p)))))).
  exists (updateZ bs (block_index p) b'). pose proof (lookupZ_range _ _ _ Hb) as Hr. split_and!.
  - unfold Bitset.set. rewrite (bind_Ok _ _ _ _ _ (operator_index_run _ _ _ Hb)).
    by destruct v; apply set_elem_run.
  - unfold wf. by rewrite updateZ_length.
  - intros q. unfold member. rewrite lookupZ_update by done.
    pose proof (bit_position_range p). pose proof (bit_position_range q).
    destruct (decide (block_index q = block_index p)) as [E|E].
    + unfold b'. rewrite set_mask by done. rewrite E, Hb.
      destruct (decide (q = p)) as [->|Hqp]; [by rewrite decide_True|].
      rewrite decide_False; [done|]. intros Hb'. apply Hqp. by apply position_eq.
    + rewrite (decide_False (P := q = p)) by (by intros ->). done.
Qed.

Lemma bitset_new_run bs : wf bs -> exists bs', bitset_new N bs = Ok (tt, bs') /\ rep bs' ∅.
Proof.
  intros Hw. exists (replicate (Z.to_nat (NUM_BLOCKS N)) 0). unfold bitset_new.
  assert (0 <= NUM_BLOCKS N) by (unfold wf in Hw; lia). split.
  { apply fill_run; [done|]. unfold wf in Hw. lia. }
  split; [unfold wf; rewrite length_replicate; lia|]. intros p Hp. unfold member, lookupZ.
  destruct (0 <=? block_index p); [|done].
  destruct (replicate _ 0 !! _) eqn:E; [|done]. apply lookup_replicate in E as [-> _].
  by rewrite Z.bits_0.
Qed.

End bitset.

(** *** Runs of operations *)

Inductive op := OSet (p : Z) (v : bool) | OTest (p : Z).

Definition op_pos (o : op) : Z := match o with OSet p _ | OTest p => p end.

Definition exec (o : op) : M (list Z) (option bool) :=
  match o with
  | OSet p v => Bitset.set p v ;; mret None
  | OTest p => b ← test p; mret (Some b)
  end.

Fixpoint exec_all (os : list op) : M (list Z) (list (option bool)) :=
  match os with
  | [] => mret []
  | o :: os => r ← exec o; rs ← exec_all os; mret (r :: rs)
  end.

(** The same operations on a set. *)
Definition spec_step (o : op) (X : gset Z) : option bool * gset Z :=
  match o with
  | OSet p true => (None, {[p]} ∪ X)
  | OSet p false => (None, X ∖ {[p]})
  | OTest p => (Some (bool_decide (p ∈ X)), X)
  end.

Fixpoint spec_all (os : list op) (X : gset Z) : list (option bool) * gset Z :=
  match os with
  | [] => ([], X)
  | o :: os =>
      let (r, X) := spec_step o X in
      let (rs, X) := spec_all os X in (r :: rs, X)
  end.

Lemma exec_simulates N o bs X :
  0 < N < 2 ^ 63 -> rep N bs X -> 0 <= op_pos o < N ->
  exists bs', exec o bs = Ok ((spec_step o X).1, bs') /\ rep N bs' (spec_step o X).2.
Proof.
  intros HN [Hw Hm] Ho. destruct o as [p v|p]; simpl in *.
  - destruct (set_run N HN bs p v Hw Ho) as (bs' & Hrun & Hw' & Hm'). exists bs'.
    rewrite (bind_Ok _ _ _ _ _ Hrun). destruct v; (split; [done|]); (split; [done|]);
      intros q Hq; rewrite Hm'; (destruct (decide (q = p)) as [->|Hn]; [|rewrite Hm by done]);
      symmetry.
    + apply bool_decide_eq_true. set_solver +.
    + apply bool_decide_ext. set_solver +Hn.
    + apply bool_decide_eq_false. set_solver +.
    + apply bool_decide_ext. set_solver +Hn.
  - exists bs. rewrite (bind_Ok _ _ _ _ _ (test_run N HN bs p Hw Ho)), Hm by done. done.
Qed.

Lemma exec_all_simulates N os : forall bs X,
  0 < N < 2 ^ 63 -> rep N bs X -> Forall (fun o => 0 <= op_pos o < N) os ->
  exists bs', exec_all os bs = Ok ((spec_all os X).1, bs') /\ rep N bs' (spec_all os X).2.
Proof.
  induction os as [|o os IH]; intros bs X HN HR Hos; [by exists bs|].
  apply Forall_cons in Hos as [Ho Hos].
  destruct (exec_simulates N o bs X HN HR Ho) as (b1 & R1 & HR1).
  simpl. destruct (spec_step o X) as [r X1]. simpl in *.
  destruct (IH b1 X1 HN HR1 Hos) as (b2 & R2 & HR2). destruct (spec_all os X1) as [rs X2].
  exists b2. rewrite (bind_Ok _ _ _ _ _ R1), (bind_Ok _ _ _ _ _ R2). done.
Qed.

End ContainerFacts.

Module ContainerProps.
Import Array Bitset Optional ContainerFacts.

(** C28. A bit set is a set: after the constructor has run in memory with any
    contents, every sequence of assignments and tests of positions below the
    size runs without a fault, and the tests answer what they answer on the
    finite set that starts empty. *)
Theorem bitset_refines_set N os bs :
  0 < N < 2 ^ 63 -> Z.of_nat (length bs) = NUM_BLOCKS N ->
  Forall (fun o => 0 <= op_pos o < N) os ->
  exists bs', (bitset_new N ;; exec_all os) bs = Ok ((spec_all os ∅).1, bs').
Proof.
  intros HN Hw Hos. destruct (bitset_new_run N bs Hw) as (b1 & R1 & HR).
  destruct (exec_all_simulates N os b1 ∅ HN HR Hos) as (b2 & R2 & _).
  exists b2. by rewrite (bind_Ok _ _ _ _ _ R1).
Qed.

Lemma bitset_refines_set_witness :
  exists bs', (bitset_new 256 ;; exec_all [OSet 70 true; OTest 70; OSet 70 false; OTest 70])
    [9; 9; 9; 9] = Ok ([None; Some true; None; Some false], bs').
Proof.
  apply (bitset_refines_set 256 [OSet 70 true; OTest 70; OSet 70 false; OTest 70] [9; 9; 9; 9]).
  - lia.
  - done.
  - repeat constructor; simpl; lia.
Defined.

(** Positions that are not below the size are not refused: the check has an
    empty body.  Up to the end of the last block they name bits that no valid
    position has; past it the access is outside the array. *)
Theorem bitset_unchecked_positions :
  (exists bs', (bitset_new 100 ;; Bitset.set 120 true ;; test 120) [0; 0] = Ok (true, bs')) /\
  Bitset.set 128 true [0; 0] = Fault (OutOfBounds 2).
Proof. split; [by eexists|done]. Qed.

(** Comparison of arrays is equality. *)
Theorem array_operator_eq {T} (T_eqb : T -> T -> bool) N (l other : list T) :
  (forall x y, T_eqb x y = true <-> x = y) ->
  length l = Z.to_nat N -> length other = Z.to_nat N ->
  exists b, operator_eq T_eqb N other l = Ok (b, l) /\ (b = true <-> l = other).
Proof. intros Heq Hl Ho. exact (eq_loop_run T_eqb l other (Z.to_nat N) 0 Heq Hl Ho). Qed.

(** The value an optional stands for. *)
Definition denotes {T} (o : optional T) (v : option T) : Prop :=
  initialized o = bool_decide (is_Some v) /\ (forall x, v = Some x -> storage o = Some x).

(** The operations of an optional on the value it stands for: construction
    from a value, assignment and [reset], copying and moving from a full
    optional, whatever the memory of the new object held. *)
Theorem optional_operations {T} (o new : optional T) v x :
  denotes o v ->
  (exists o', assign x o = Ok (tt, o') /\ denotes o' (Some x)) /\
  (exists o', reset o = Ok (tt, o') /\ denotes o' None) /\
  (exists o', optional_default o = Ok (tt, o') /\ denotes o' None) /\
  has_value o = Ok (bool_decide (is_Some v), o) /\
  (forall y, v = Some y ->
    value o = Ok (y, o) /\
    (exists o', optional_copy o new = Ok (tt, o') /\ denotes o' v) /\
    (exists n' o', optional_move (new, o) = Ok (tt, (n', o')) /\ denotes n' v /\ denotes o' None)).
Proof.
  intros [Hi Hs]. destruct o as [st ini]. simpl in *. subst ini.
  split; [|split; [|split; [|split]]].
  - exists (Optional (Some x) true). unfold assign, construct. destruct (bool_decide _); done.
  - unfold reset. exists (Optional (if bool_decide (is_Some v) then None else st) false).
    by destruct (bool_decide (is_Some v)).
  - by exists (Optional st false).
  - done.
  - intros y ->. rewrite (Hs y eq_refl).
    split; [done|]. split; [by eexists|]. eexists _, _. split; [reflexivity|]. done.
Qed.

Lemma optional_operations_witness :
  exists o', optional_copy (Optional (Some 5) true) (Optional None false) = Ok (tt, o') /\
    denotes o' (Some 5).
Proof.
  destruct (optional_operations (Optional (Some 5) true) (Optional None false) (Some 5) 0)
    as (_ & _ & _ & _ & H).
  - split; [done|]. by intros x [= ->].
  - by apply (H 5).
Defined.

(** Copying an empty optional does not set the new object's flag: when the
    memory it is placed in held a nonzero byte there, the copy claims to have a
    value and reading it has no defined result. *)
Theorem optional_copy_of_empty {T} (o new : optional T) :
  initialized o = false ->
  optional_copy o new = Ok (tt, new) /\
  (initialized new = true -> storage new = None ->
   exists o', optional_copy o new = Ok (tt, o') /\ has_value o' = Ok (true, o') /\
     value o' = Fault (Unmapped 0)).
Proof.
  intros Hi. unfold optional_copy. rewrite Hi. split; [done|]. intros Hn Hs. exists new.
  unfold has_value, value. split; [done|]. split; [by unfold gets; rewrite Hn|].
  mrun reflexivity. by rewrite Hs.
Qed.

Lemma optional_copy_of_empty_witness :
  has_value (Optional (T := Z) None true) = Ok (true, Optional None true).
Proof.
  destruct (optional_copy_of_empty (T := Z) (Optional None false) (Optional None true))
    as [_ H]; [reflexivity|]. destruct H as (o' & H & Hv & _); [reflexivity..|].
  injection H as <-. exact Hv.
Defined.

End ContainerProps.
