(* ===== verification/LinkedList.v ===== *)
(** kernel/libcppk: list.hpp, algorithm.hpp and allocator_traits.hpp.

    The doubly linked list keeps its nodes in a store addressed by pointers; a
    pointer that no live node has is the fault [Unmapped].  The allocator is
    the template argument of the class: the list is proved against the
    interface [Allocator] and refined to a double-ended queue.  The class asks
    its allocator for an object of the element type and uses it as a node; the
    model takes the allocation to be that of a node. *)
From S2P Require Import Prelude.

(** ** The allocator a list is given *)

Class Allocator (A : Type) := {
  allocate : M A Z;
  deallocate : Z -> M A unit;
  live : A -> gset Z          (* addresses in use *)
}.

(** What list.hpp relies on: storage that is not in use, and its return. *)
Class AllocatorSpec (A : Type) `{Allocator A} : Prop := {
  allocate_spec a : exists p a', allocate a = Ok (p, a') /\ p <> 0 /\ (p ∉ live a) /\
    live a' = {[p]} ∪ live a;
  deallocate_spec a p : p ∈ live a ->
    exists a', deallocate p a = Ok (tt, a') /\ live a' = live a ∖ {[p]}
}.

(** ** algorithm.hpp *)
Module Algorithm.
Section find.
Context {S I T : Type}.

(** The operations of an iterator: [!=], [*] and [++]. *)
Class InputIterator := {
  it_ne : I -> I -> bool;
  it_deref : I -> M S T;
  it_next : I -> M S I
}.
Context `{InputIterator}.

Fixpoint find (fuel : nat) (T_eqb : T -> T -> bool) (first last : I) (val : T) : M S I :=
  match fuel with
  | O => fail OutOfFuel
  | Datatypes.S fuel =>
      if it_ne first last then
        x ← it_deref first;
        if T_eqb x val then mret first else
        first ← it_next first; find fuel T_eqb first last val
      else mret last
  end.

Fixpoint find_if (fuel : nat) (first last : I) (p : T -> bool) : M S I :=
  match fuel with
  | O => fail OutOfFuel
  | Datatypes.S fuel =>
      if it_ne first last then
        x ← it_deref first;
        if p x then mret first else
        first ← it_next first; find_if fuel first last p
      else mret last
  end.

(** A loop over the range that collects the elements. *)
Fixpoint collect (fuel : nat) (first last : I) : M S (list T) :=
  match fuel with
  | O => fail OutOfFuel
  | Datatypes.S fuel =>
      if it_ne first last then
        x ← it_deref first; next ← it_next first; l ← collect fuel next last; mret (x :: l)
      else mret []
  end.

(** The iterators and elements met on the way from [first] to [last]. *)
Inductive range (s : S) (last : I) : I -> list (I * T) -> Prop :=
| range_end : it_ne last last = false -> range s last last []
| range_step i j x l : it_ne i last = true -> it_deref i s = Ok (x, s) -> it_next i s = Ok (j, s) ->
    range s last j l -> range s last i ((i, x) :: l).

(** The iterator at the first element that satisfies [p], or [last]. *)
Definition first_match (p : T -> bool) (last : I) (l : list (I * T)) : I :=
  default last (fst <$> head (filter (fun ix => p ix.2) l)).

Lemma find_if_range s first last l p fuel :
  range s last first l -> (length l < fuel)%nat ->
  find_if fuel first last p s = Ok (first_match p last l, s).
Proof.
  intros R. revert fuel. induction R as [Hn|i j x l Hn Hd Hx R IH]; intros [|fuel] Hf;
    simpl in *; try lia; rewrite Hn; [done|].
  rewrite (bind_Ok _ _ _ _ _ Hd). unfold first_match. rewrite filter_cons. simpl.
  destruct (p x) eqn:E; simpl; [done|].
  rewrite (bind_Ok _ _ _ _ _ Hx). apply IH. lia.
Qed.

Lemma find_is_find_if fuel T_eqb last val : forall first s,
  find fuel T_eqb first last val s = find_if fuel first last (fun x => T_eqb x val) s.
Proof.
  induction fuel as [|fuel IH]; intros first s; [done|]. simpl.
  destruct (it_ne first last); [|done]. unfold mbind, M_bind.
  destruct (it_deref first s) as [[x s1]|]; [|done]. destruct (T_eqb x val); [done|].
  destruct (it_next first s1) as [[i s2]|]; [|done]. apply IH.
Qed.

Lemma collect_range s first last l fuel :
  range s last first l -> (length l < fuel)%nat ->
  collect fuel first last s = Ok (l.*2, s).
Proof.
  intros R. revert fuel. induction R as [Hn|i j x l Hn Hd Hx R IH]; intros [|fuel] Hf;
    simpl in *; try lia; rewrite Hn; [done|].
  rewrite (bind_Ok _ _ _ _ _ Hd), (bind_Ok _ _ _ _ _ Hx).
  rewrite (bind_Ok _ _ _ _ _ (IH fuel ltac:(lia))). done.
Qed.

End find.
Arguments InputIterator : clear implicits.
End Algorithm.

(** ** list.hpp *)
Module LinkedList.
Section list.
Context {A : Type} `{Allocator A} {T : Type}.

Record Node := MkNode { data : T; prev : Z; next : Z }.

(** The list object, the storage of the nodes and the allocator. *)
Record list_ := MkList {
  head : Z; tail : Z; list_size : Z; allocator : A; store : gmap Z Node }.

Definition set_head (p : Z) (l : list_) : list_ :=
  MkList p (tail l) (list_size l) (allocator l) (store l).
Definition set_tail (p : Z) (l : list_) : list_ :=
  MkList (head l) p (list_size l) (allocator l) (store l).
Definition set_size (n : Z) (l : list_) : list_ :=
  MkList (head l) (tail l) n (allocator l) (store l).
Definition set_allocator (a : A) (l : list_) : list_ :=
  MkList (head l) (tail l) (list_size l) a (store l).
Definition set_store (h : gmap Z Node) (l : list_) : list_ :=
  MkList (head l) (tail l) (list_size l) (allocator l) h.

Definition load_node (p : Z) : M list_ Node :=
  l ← get; match store l !! p with Some n => mret n | None => fail (Unmapped p) end.
Definition store_node (p : Z) (n : Node) : M list_ unit :=
  load_node p ;; modify (fun l => set_store (<[p := n]> (store l)) l).
Definition set_prev (p v : Z) : M list_ unit :=
  n ← load_node p; store_node p (MkNode (data n) v (next n)).
Definition set_next (p v : Z) : M list_ unit :=
  n ← load_node p; store_node p (MkNode (data n) (prev n) v).

(** Allocation and placement [new] of the node; its constructor does not throw. *)
Definition new_Node (value : T) : M list_ Z :=
  p ← zoom allocator set_allocator allocate;
  modify (fun l => set_store (<[p := MkNode value 0 0]> (store l)) l) ;;
  mret p.

(** Destructor, then the storage goes back. *)
Definition delete_Node (p : Z) : M list_ unit :=
  load_node p ;;
  modify (fun l => set_store (delete p (store l)) l) ;;
  zoom allocator set_allocator (deallocate p).

Definition list_new (alloc : A) : list_ := MkList 0 0 0 alloc ∅.

Definition push_front (value : T) : M list_ unit :=
  new_node ← new_Node value;
  h ← gets head; set_next new_node h ;;
  (if negb (h =? 0) then set_prev h new_node else mret tt) ;;
  modify (set_head new_node) ;;
  t ← gets tail;
  (if t =? 0 then modify (set_tail new_node) else mret tt) ;;
  modify (fun l => set_size (u64 (list_size l + 1)) l).

Definition push_back (value : T) : M list_ unit :=
  new_node ← new_Node value;
  t ← gets tail; set_prev new_node t ;;
  (if negb (t =? 0) then set_next t new_node else mret tt) ;;
  modify (set_tail new_node) ;;
  h ← gets head;
  (if h =? 0 then modify (set_head new_node) else mret tt) ;;
  modify (fun l => set_size (u64 (list_size l + 1)) l).

Definition pop_front : M list_ unit :=
  temp ← gets head;
  if temp =? 0 then mret tt else
  n ← load_node temp; modify (set_head (next n)) ;;
  h ← gets head;
  (if negb (h =? 0) then set_prev h 0 else modify (set_tail 0)) ;;
  delete_Node temp ;;
  modify (fun l => set_size (u64 (list_size l - 1)) l).

Definition pop_back : M list_ unit :=
  temp ← gets tail;
  if temp =? 0 then mret tt else
  n ← load_node temp; modify (set_tail (prev n)) ;;
  t ← gets tail;
  (if negb (t =? 0) then set_next t 0 else modify (set_head 0)) ;;
  delete_Node temp ;;
  modify (fun l => set_size (u64 (list_size l - 1)) l).

Definition size_of_list : M list_ Z := gets list_size.

Fixpoint clear_ (fuel : nat) : M list_ unit :=
  match fuel with
  | O => fail OutOfFuel
  | S fuel => h ← gets head; if h =? 0 then mret tt else pop_front ;; clear_ fuel
  end.

(** The iterator is a node pointer, null at the end. *)
#[export] Instance list_iterator : Algorithm.InputIterator list_ Z T := {
  it_ne i j := negb (i =? j);
  it_deref i := n ← load_node i; mret (data n);
  it_next i := if negb (i =? 0) then n ← load_node i; mret (next n) else mret i
}.

Definition begin_ : M list_ Z := gets head.
Definition end_ : Z := 0.

End list.
Arguments Node : clear implicits.
Arguments list_ : clear implicits.
End LinkedList.

Module LinkedListFacts.
Import Algorithm LinkedList.

Section chain.
Context {T : Type}.
Implicit Types (h : gmap Z (Node T)) (ns : list (Z * T)).

Definition first (ns : list (Z * T)) (d : Z) : Z :=
  match ns with [] => d | (p, _) :: _ => p end.
Definition lastp (d : Z) (ns : list (Z * T)) : Z :=
  match last ns with None => d | Some (p, _) => p end.

(** The nodes [ns] in order, between [pr] and [nx]. *)
Fixpoint chain h (pr : Z) ns (nx : Z) : Prop :=
  match ns with
  | [] => True
  | (p, x) :: ns => h !! p = Some (MkNode x pr (first ns nx)) /\ chain h p ns nx
  end.

Lemma chain_ext h h' ns : forall pr nx,
  (forall p, p ∈ ns.*1 -> h' !! p = h !! p) -> chain h pr ns nx -> chain h' pr ns nx.
Proof.
  induction ns as [|[p x] ns IH]; intros pr nx E; simpl in *; [done|]. intros [H1 H2]. split.
  - rewrite E; [done|]. by left.
  - apply IH; [|done]. intros q Hq. apply E. by right.
Qed.

Lemma chain_insert_other h p n ns pr nx :
  p ∉ ns.*1 -> chain h pr ns nx -> chain (<[p := n]> h) pr ns nx.
Proof. intros Hp. apply chain_ext. intros q Hq. rewrite lookup_insert_ne; [done|]. by intros ->. Qed.

Lemma chain_delete_other h p ns pr nx :
  p ∉ ns.*1 -> chain h pr ns nx -> chain (delete p h) pr ns nx.
Proof. intros Hp. apply chain_ext. intros q Hq. rewrite lookup_delete_ne; [done|]. by intros ->. Qed.

Lemma lastp_snoc d ns p x : lastp d (ns ++ [(p, x)]) = p.
Proof. unfold lastp. by rewrite last_snoc. Qed.

Lemma lastp_cons d p x ns : lastp d ((p, x) :: ns) = lastp p ns.
Proof. unfold lastp. rewrite last_cons. by destruct (last ns) as [[]|]. Qed.

Lemma lastp_in d p x ns : lastp d ((p, x) :: ns) ∈ p :: ns.*1.
Proof.
  rewrite lastp_cons. revert p x. induction ns as [|[q y] ns IH]; intros p x; [by left|].
  rewrite lastp_cons. right. apply (IH q y).
Qed.

Lemma first_app ns ms d : first (ns ++ ms) d = first ns (first ms d).
Proof. by destruct ns as [|[]]. Qed.

Lemma chain_app h ns ms : forall pr nx,
  chain h pr (ns ++ ms) nx <-> chain h pr ns (first ms nx) /\ chain h (lastp pr ns) ms nx.
Proof.
  induction ns as [|[p x] ns IH]; intros pr nx; simpl.
  - unfold lastp. simpl. tauto.
  - rewrite IH, first_app, lastp_cons. tauto.
Qed.

Lemma chain_lookup h pr ns nx p : chain h pr ns nx -> p ∈ ns.*1 -> is_Some (h !! p).
Proof.
  revert pr. induction ns as [|[q x] ns IH]; intros pr; simpl.
  - by intros _ ?%not_elem_of_nil.
  - intros [H1 H2] [->|Hp]%elem_of_cons; [eauto|]. by eapply IH.
Qed.

End chain.

Section run.
Context {A : Type} `{AllocatorSpec A} {T : Type}.
Implicit Types (l : list_ A T) (ns : list (Z * T)).

Lemma load_node_run l p n : store l !! p = Some n -> load_node p l = Ok (n, l).
Proof. intros E. unfold load_node. mrun reflexivity. by rewrite E. Qed.

Lemma store_node_run l p n n' :
  store l !! p = Some n -> store_node p n' l = Ok (tt, set_store (<[p := n']> (store l)) l).
Proof. intros E. unfold store_node. by rewrite (bind_Ok _ _ _ _ _ (load_node_run _ _ _ E)). Qed.

Lemma set_prev_run l p n v :
  store l !! p = Some n ->
  set_prev p v l = Ok (tt, set_store (<[p := MkNode (data n) v (next n)]> (store l)) l).
Proof.
  intros E. unfold set_prev. rewrite (bind_Ok _ _ _ _ _ (load_node_run _ _ _ E)).
  by eapply store_node_run.
Qed.

Lemma set_next_run l p n v :
  store l !! p = Some n ->
  set_next p v l = Ok (tt, set_store (<[p := MkNode (data n) (prev n) v]> (store l)) l).
Proof.
  intros E. unfold set_next. rewrite (bind_Ok _ _ _ _ _ (load_node_run _ _ _ E)).
  by eapply store_node_run.
Qed.

Lemma new_Node_run l v :
  exists p a', new_Node v l = Ok (p, MkList (head l) (tail l) (list_size l) a'
      (<[p := MkNode v 0 0]> (store l))) /\
    p <> 0 /\ (p ∉ live (allocator l)) /\ live a' = {[p]} ∪ live (allocator l).
Proof.
  destruct (allocate_spec (allocator l)) as (p & a' & Ha & Hp & Hl & Hl').
  exists p, a'. split; [|done]. unfold new_Node.
  by rewrite (bind_Ok _ _ _ _ _ (zoom_Ok _ _ _ _ _ _ Ha)).
Qed.

Lemma delete_Node_run l p n :
  store l !! p = Some n -> p ∈ live (allocator l) ->
  exists a', delete_Node p l = Ok (tt, MkList (head l) (tail l) (list_size l) a'
      (delete p (store l))) /\ live a' = live (allocator l) ∖ {[p]}.
Proof.
  intros E Hp. destruct (deallocate_spec (allocator l) p Hp) as (a' & Ha & Hl).
  exists a'. split; [|done]. unfold delete_Node.
  rewrite (bind_Ok _ _ _ _ _ (load_node_run _ _ _ E)). mrun reflexivity.
  etrans; [apply zoom_Ok; exact Ha|reflexivity].
Qed.

(** [ps] are the nodes: the storage [D] holds these and no other, and the
    allocator has handed out [V], that is these and [L]. *)
Record owned (L D V : gset Z) (ps : list Z) : Prop := {
  owned_nodup : NoDup ps;
  owned_nonnull : 0 ∉ ps;
  owned_dom : D = list_to_set ps;
  owned_live : V = L ∪ list_to_set ps;
  owned_disjoint : L ## list_to_set ps
}.

Lemma owned_fresh L D V ps p : owned L D V ps -> p ∉ V -> p ∉ ps.
Proof. intros [_ _ _ -> _]. rewrite elem_of_union, elem_of_list_to_set. tauto. Qed.

Lemma owned_in L D V ps p : owned L D V ps -> p ∈ ps -> p ∈ V.
Proof. intros [_ _ _ -> _] Hp. apply elem_of_union. right. by apply elem_of_list_to_set. Qed.

Lemma owned_add L D V ps p :
  owned L D V ps -> p <> 0 -> p ∉ V -> owned L ({[p]} ∪ D) ({[p]} ∪ V) (p :: ps).
Proof.
  intros O Hp HV. pose proof (owned_fresh _ _ _ _ _ O HV) as Hf. destruct O as [On O0 -> -> OL].
  constructor; rewrite ?list_to_set_cons.
  - by constructor.
  - apply not_elem_of_cons. auto.
  - done.
  - by rewrite !(assoc_L (∪)), (comm_L (∪) L).
  - apply not_elem_of_union in HV as [HL _]. clear -HL OL. set_solver.
Qed.

Lemma owned_perm L D V ps ps' : ps ≡ₚ ps' -> owned L D V ps -> owned L D V ps'.
Proof.
  intros E [On O0 OD OV OL]. assert (list_to_set ps' = (list_to_set ps : gset Z)) as ES.
  { apply list_to_set_perm_L. by symmetry. }
  constructor; rewrite ?ES; [by rewrite <- E|by rewrite <- E|done..].
Qed.

Lemma set_remove (L X : gset Z) p : p ∉ X -> L ## {[p]} ∪ X ->
  X = ({[p]} ∪ X) ∖ {[p]} /\ L ∪ X = (L ∪ ({[p]} ∪ X)) ∖ {[p]} /\ L ## X.
Proof. intros Hp HL. split_and!; set_solver +Hp HL. Qed.

Lemma owned_remove L D V ps p :
  owned L D V (p :: ps) -> owned L (D ∖ {[p]}) (V ∖ {[p]}) ps.
Proof.
  intros [On O0 -> -> OL]. rewrite list_to_set_cons in *. apply NoDup_cons in On as [Hp On].
  rewrite <- (elem_of_list_to_set (C := gset Z)) in Hp. apply not_elem_of_cons in O0 as [_ O0].
  destruct (set_remove _ _ _ Hp OL) as (<- & <- & ?). by constructor.
Qed.

(** The nodes [ns] are the list; [L] is what else the allocator has handed out. *)
Record rep (L : gset Z) l ns : Prop := {
  rep_chain : chain (store l) 0 ns 0;
  rep_owned : owned L (dom (store l)) (live (allocator l)) ns.*1;
  rep_head : head l = first ns 0;
  rep_tail : tail l = lastp 0 ns;
  rep_size : list_size l = u64 (Z.of_nat (length ns))
}.

Lemma rep_new L a : live a = L -> rep L (list_new a) [].
Proof.
  intros <-. constructor; simpl; try done. constructor; simpl; [apply NoDup_nil_2|apply not_elem_of_nil|..].
  - apply dom_empty_L.
  - by rewrite (right_id_L ∅ (∪)).
  - apply disjoint_empty_r.
Qed.

(** Reduce the fields of the list object. *)
Ltac fields := unfold set_store, set_head, set_tail, set_size, set_allocator;
  cbn [head tail list_size allocator store data prev next].
Tactic Notation "mstep" tactic3(t) := mrun t; fields.

Lemma size_succ n : u64 (u64 (Z.of_nat n) + 1) = u64 (Z.of_nat (S n)).
Proof. rewrite wrap_add_wrap_l by lia. f_equal. lia. Qed.

Lemma size_pred n : u64 (u64 (Z.of_nat (S n)) - 1) = u64 (Z.of_nat n).
Proof. unfold Z.sub. rewrite wrap_add_wrap_l by lia. f_equal. lia. Qed.

Lemma push_front_run L l ns v :
  rep L l ns -> exists p l', push_front v l = Ok (tt, l') /\ rep L l' ((p, v) :: ns).
Proof.
  intros [Rc Ro Rh Rt Rs]. destruct (new_Node_run l v) as (p & a' & Hn & Hp0 & Hpl & Hl').
  pose proof (owned_add _ _ _ _ _ Ro Hp0 Hpl) as Ro'. rewrite <- Hl' in Ro'.
  pose proof (owned_fresh _ _ _ _ _ Ro Hpl) as Hp. exists p.
  unfold push_front. rewrite (bind_Ok _ _ _ _ _ Hn). fields. mstep reflexivity.
  mstep (eapply set_next_run; apply lookup_insert_eq). rewrite insert_insert_eq, Rh.
  destruct ns as [|[q x] ns]; simpl in Rc, Ro, Ro', Rt, Rs, Hp |- *.
  - do 3 mstep reflexivity. rewrite Rt. simpl. mstep reflexivity.
    eexists. split; [reflexivity|]. constructor; fields; simpl; try done.
    + by rewrite lookup_insert_eq.
    + by rewrite dom_insert_L.
    + by rewrite Rs.
  - apply not_elem_of_cons in Hp as [Hpq Hp]. destruct Rc as [Rq Rc].
    assert (q <> 0) as Hq by (pose proof (owned_nonnull _ _ _ _ Ro) as []%not_elem_of_cons; auto).
    assert (lastp 0 ((q, x) :: ns) <> 0) as Ht.
    { intros E. apply (owned_nonnull _ _ _ _ Ro). rewrite <- E. apply lastp_in. }
    rewrite (proj2 (Z.eqb_neq q 0) Hq). cbn [negb].
    mstep (eapply set_prev_run; fields; rewrite lookup_insert_ne by done; exact Rq).
    do 2 mstep reflexivity. rewrite Rt, (proj2 (Z.eqb_neq _ 0) Ht). mstep reflexivity.
    eexists. split; [reflexivity|]. constructor; fields; simpl.
    + rewrite lookup_insert_ne, lookup_insert_eq by done. split; [done|].
      rewrite lookup_insert_eq. split; [done|].
      pose proof (owned_nodup _ _ _ _ Ro) as [Hqn _]%NoDup_cons.
      by do 2 (apply chain_insert_other; [done|]).
    + rewrite dom_insert_lookup_L, dom_insert_L; [done|]. rewrite lookup_insert_ne by done. eauto.
    + done.
    + by rewrite !lastp_cons in *.
    + by rewrite Rs, size_succ.
Qed.

(** The last node of a list, seen from the end. *)
Lemma chain_snoc (h : gmap Z (Node T)) pr ns q x nx :
  chain h pr (ns ++ [(q, x)]) nx <->
  chain h pr ns q /\ h !! q = Some (MkNode x (lastp pr ns) nx).
Proof. rewrite chain_app. simpl. tauto. Qed.

Lemma first_in p x ns d : first (ns ++ [(p, x)]) d ∈ (ns ++ [(p, x)]).*1.
Proof. destruct ns as [|[q y] ns]; simpl; by left. Qed.

Lemma owned_snoc L D V ns q (x : T) :
  owned L D V (ns ++ [(q, x)]).*1 <-> owned L D V (q :: ns.*1).
Proof.
  rewrite fmap_app. simpl. split; apply owned_perm; by rewrite Permutation_app_comm.
Qed.

Lemma push_back_run L l ns v :
  rep L l ns -> exists p l', push_back v l = Ok (tt, l') /\ rep L l' (ns ++ [(p, v)]).
Proof.
  intros [Rc Ro Rh Rt Rs]. destruct (new_Node_run l v) as (p & a' & Hn & Hp0 & Hpl & Hl').
  pose proof (owned_add _ _ _ _ _ Ro Hp0 Hpl) as Ro'. rewrite <- Hl' in Ro'.
  pose proof (owned_fresh _ _ _ _ _ Ro Hpl) as Hp. exists p.
  unfold push_back. rewrite (bind_Ok _ _ _ _ _ Hn). fields. mstep reflexivity.
  mstep (eapply set_prev_run; apply lookup_insert_eq). rewrite insert_insert_eq, Rt.
  destruct ns as [|[q x] ns _] using rev_ind.
  - do 3 mstep reflexivity. rewrite Rh. mstep reflexivity.
    eexists. split; [reflexivity|]. constructor; fields; simpl in *; try done.
    + by rewrite lookup_insert_eq.
    + by rewrite dom_insert_L.
    + by rewrite Rs.
  - rewrite lastp_snoc in *. apply chain_snoc in Rc as [Rc Rq].
    pose proof (owned_nonnull _ _ _ _ Ro) as H0'. apply owned_snoc in Ro as Roq.
    assert (q <> 0) as Hq by (pose proof (owned_nonnull _ _ _ _ Roq) as []%not_elem_of_cons; auto).
    assert (first (ns ++ [(q, x)]) 0 <> 0) as Hf.
    { intros E. apply H0'. rewrite <- E at 1. apply first_in. }
    assert ((p <> q) /\ p ∉ ns.*1) as [Hpq Hpn].
    { rewrite fmap_app, elem_of_app in Hp. simpl in Hp. rewrite list_elem_of_singleton in Hp. tauto. }
    rewrite (proj2 (Z.eqb_neq q 0) Hq). cbn [negb].
    mstep (eapply set_next_run; fields; rewrite lookup_insert_ne by done; exact Rq).
    do 2 mstep reflexivity. rewrite Rh, (proj2 (Z.eqb_neq _ 0) Hf). mstep reflexivity.
    eexists. split; [reflexivity|]. constructor; fields.
    + rewrite !chain_snoc, lastp_snoc, lookup_insert_eq, lookup_insert_ne, lookup_insert_eq by done.
      split_and!; [|done..]. pose proof (owned_nodup _ _ _ _ Roq) as [Hqn _]%NoDup_cons.
      by do 2 (apply chain_insert_other; [done|]).
    + apply owned_snoc. rewrite dom_insert_lookup_L, dom_insert_L; [done|].
      rewrite lookup_insert_ne by done. eauto.
    + by destruct ns as [|[]].
    + by rewrite lastp_snoc.
    + rewrite Rs, size_succ. do 2 f_equal. rewrite !length_app. simpl. lia.
Qed.

Lemma pop_front_run L l ns :
  rep L l ns -> exists l', pop_front l = Ok (tt, l') /\ rep L l' (tl ns).
Proof.
  intros R. pose proof R as [Rc Ro Rh Rt Rs]. unfold pop_front. mstep reflexivity. rewrite Rh.
  destruct ns as [|[p x] ns]; [by exists l|]. simpl in Rc, Ro, Rs |- *. destruct Rc as [Rp Rc].
  pose proof (owned_nonnull _ _ _ _ Ro) as [Hp0 Hn0]%not_elem_of_cons.
  pose proof (owned_nodup _ _ _ _ Ro) as [Hpn _]%NoDup_cons.
  rewrite (proj2 (Z.eqb_neq p 0)) by done. mstep (apply load_node_run; exact Rp).
  do 2 mstep reflexivity. pose proof (owned_remove _ _ _ _ _ Ro) as Ro'.
  destruct ns as [|[q y] ns]; simpl in *.
  - mstep reflexivity. destruct (delete_Node_run (MkList 0 0 (list_size l) (allocator l) (store l)) p _ Rp)
      as (a' & Hd & Hl'); [by eapply owned_in; [exact Ro|left]|].
    rewrite (bind_Ok _ _ _ _ _ Hd). fields. eexists. split; [reflexivity|]. simpl in Hl'.
    constructor; fields; simpl; try done.
    + by rewrite dom_delete_L, Hl'.
    + rewrite Rs. apply (size_pred 0).
  - destruct Rc as [Rq Rc]. apply not_elem_of_cons in Hn0 as [Hq0 _].
    apply not_elem_of_cons in Hpn as [Hpq Hpn].
    rewrite (proj2 (Z.eqb_neq q 0)) by done. cbn [negb]. mstep (eapply set_prev_run; exact Rq).
    match goal with |- context [(delete_Node p ≫= _) ?l1] =>
      destruct (delete_Node_run l1 p (MkNode x 0 q)) as (a' & Hd & Hl') end; fields.
    { by rewrite lookup_insert_ne. }
    { by eapply owned_in; [exact Ro|left]. }
    rewrite (bind_Ok _ _ _ _ _ Hd). fields. eexists. split; [reflexivity|]. simpl in Hl'.
    constructor; fields; simpl.
    + rewrite lookup_delete_ne, lookup_insert_eq by done. split; [done|].
      apply chain_delete_other; [done|]. apply chain_insert_other; [|done].
      by pose proof (owned_nodup _ _ _ _ Ro') as [? _]%NoDup_cons.
    + rewrite dom_delete_L, dom_insert_lookup_L, Hl' by eauto. done.
    + done.
    + by rewrite Rt, !lastp_cons.
    + by rewrite Rs, (size_pred (S _)).
Qed.

Lemma pop_back_run L l ns :
  rep L l ns -> exists l', pop_back l = Ok (tt, l') /\ rep L l' (take (length ns - 1) ns).
Proof.
  intros R. pose proof R as [Rc Ro Rh Rt Rs]. unfold pop_back. mstep reflexivity. rewrite Rt.
  destruct ns as [|[p x] ns _] using rev_ind; [by exists l|].
  rewrite lastp_snoc, length_app, Nat.add_sub, take_app_length. apply chain_snoc in Rc as [Rc Rp].
  apply owned_snoc in Ro. pose proof (owned_nonnull _ _ _ _ Ro) as [Hp0 Hn0]%not_elem_of_cons.
  pose proof (owned_nodup _ _ _ _ Ro) as [Hpn _]%NoDup_cons.
  rewrite length_app, Nat.add_comm in Rs. simpl in Rs.
  rewrite (proj2 (Z.eqb_neq p 0)) by done. mstep (apply load_node_run; exact Rp).
  do 2 mstep reflexivity. pose proof (owned_remove _ _ _ _ _ Ro) as Ro'.
  destruct ns as [|[q y] ns _] using rev_ind.
  - simpl in *. mstep reflexivity.
    destruct (delete_Node_run (MkList 0 0 (list_size l) (allocator l) (store l)) p _ Rp)
      as (a' & Hd & Hl'); [by eapply owned_in; [exact Ro|left]|].
    rewrite (bind_Ok _ _ _ _ _ Hd). fields. eexists. split; [reflexivity|]. simpl in Hl'.
    constructor; fields; simpl; try done.
    + by rewrite dom_delete_L, Hl'.
    + rewrite Rs. apply (size_pred 0).
  - rewrite lastp_snoc in *. apply chain_snoc in Rc as [Rc Rq].
    rewrite fmap_app, elem_of_app in Hn0, Hpn. simpl in Hn0, Hpn.
    rewrite list_elem_of_singleton in Hn0, Hpn.
    rewrite (proj2 (Z.eqb_neq q 0)) by (intros ->; tauto). cbn [negb].
    mstep (eapply set_next_run; exact Rq).
    match goal with |- context [(delete_Node p ≫= _) ?l1] =>
      destruct (delete_Node_run l1 p (MkNode x q 0)) as (a' & Hd & Hl') end; fields.
    { rewrite lookup_insert_ne by (intros ->; tauto). done. }
    { by eapply owned_in; [exact Ro|left]. }
    rewrite (bind_Ok _ _ _ _ _ Hd). fields. eexists. split; [reflexivity|]. simpl in Hl'.
    constructor; fields.
    + apply chain_snoc. rewrite lookup_delete_ne, lookup_insert_eq by (intros ->; tauto).
      split; [|done]. apply chain_delete_other; [tauto|]. apply chain_insert_other; [|done].
      by apply owned_snoc in Ro'; pose proof (owned_nodup _ _ _ _ Ro') as [? _]%NoDup_cons.
    + rewrite dom_delete_L, dom_insert_lookup_L, Hl' by eauto. done.
    + rewrite Rh. by destruct ns as [|[]].
    + by rewrite lastp_snoc.
    + by rewrite Rs, size_pred.
Qed.

(** [clear] needs one step per node and one for the final test. *)
Lemma clear_run L ns : forall l fuel,
  rep L l ns -> (length ns < fuel)%nat -> exists l', clear_ fuel l = Ok (tt, l') /\ rep L l' [].
Proof.
  induction ns as [|[p x] ns IH]; intros l [|fuel] R Hf; simpl in Hf; try lia;
    cbn [clear_]; mstep reflexivity; rewrite (rep_head _ _ _ R); simpl; [by exists l|].
  pose proof (owned_nonnull _ _ _ _ (rep_owned _ _ _ R)) as [Hp0 _]%not_elem_of_cons.
  rewrite (proj2 (Z.eqb_neq p 0)) by done.
  destruct (pop_front_run _ _ _ R) as (l1 & R1 & HR1). rewrite (bind_Ok _ _ _ _ _ R1).
  apply IH; [exact HR1|lia].
Qed.

(** Iterating from [begin] to [end] meets the nodes in order. *)
Lemma list_range L l ns : rep L l ns -> range l end_ (head l) ns.
Proof.
  intros [Rc Ro Rh _ _]. rewrite Rh. apply owned_nonnull in Ro. clear Rh. revert Rc Ro.
  generalize 0 at 1 as pr. induction ns as [|[p x] ns IH]; intros pr Rc Rn; simpl in *.
  { by constructor. }
  destruct Rc as [Rp Rc]. apply not_elem_of_cons in Rn as [Hp Rn].
  apply range_step with (j := first ns 0).
  - cbn [it_ne list_iterator]. unfold end_. by rewrite (proj2 (Z.eqb_neq p 0)).
  - simpl. by rewrite (bind_Ok _ _ _ _ _ (load_node_run _ _ _ Rp)).
  - cbn [it_next list_iterator]. rewrite (proj2 (Z.eqb_neq p 0)) by done. cbn [negb].
    by rewrite (bind_Ok _ _ _ _ _ (load_node_run _ _ _ Rp)).
  - by eapply IH.
Qed.

(** *** Runs of operations *)

Inductive op := PushFront (v : T) | PushBack (v : T) | PopFront | PopBack | Clear.

Definition exec (fuel : nat) (o : op) : M (list_ A T) unit :=
  match o with
  | PushFront v => push_front v
  | PushBack v => push_back v
  | PopFront => pop_front
  | PopBack => pop_back
  | Clear => clear_ fuel
  end.

Fixpoint exec_all (fuel : nat) (os : list op) : M (list_ A T) unit :=
  match os with [] => mret tt | o :: os => exec fuel o ;; exec_all fuel os end.

(** The double-ended queue. *)
Definition deque_step (o : op) (xs : list T) : list T :=
  match o with
  | PushFront v => v :: xs
  | PushBack v => xs ++ [v]
  | PopFront => tl xs
  | PopBack => take (length xs - 1) xs
  | Clear => []
  end.

Definition deque (os : list op) (xs : list T) : list T :=
  foldl (fun xs o => deque_step o xs) xs os.

Lemma deque_exec_simulates L o l ns fuel :
  rep L l ns -> (length ns < fuel)%nat ->
  exists l' ns', exec fuel o l = Ok (tt, l') /\ rep L l' ns' /\ ns'.*2 = deque_step o ns.*2.
Proof.
  intros R Hf. destruct o as [v|v| | |]; simpl.
  - destruct (push_front_run _ _ _ v R) as (p & l' & E & R'). by exists l', ((p, v) :: ns).
  - destruct (push_back_run _ _ _ v R) as (p & l' & E & R'). exists l', (ns ++ [(p, v)]).
    by rewrite fmap_app.
  - destruct (pop_front_run _ _ _ R) as (l' & E & R'). exists l', (tl ns). by destruct ns.
  - destruct (pop_back_run _ _ _ R) as (l' & E & R'). eexists l', _. split; [exact E|].
    split; [exact R'|]. by rewrite fmap_take, length_fmap.
  - destruct (clear_run _ _ _ _ R Hf) as (l' & E & R'). by exists l', [].
Qed.

Lemma deque_step_length o xs : (length (deque_step o xs) <= S (length xs))%nat.
Proof.
  destruct o; simpl; rewrite ?length_app, ?length_take; simpl; try lia. destruct xs; simpl; lia.
Qed.

Lemma deque_length os : forall xs, (length (deque os xs) <= length xs + length os)%nat.
Proof.
  induction os as [|o os IH]; intros xs; simpl; [lia|].
  etrans; [apply IH|]. pose proof (deque_step_length o xs). lia.
Qed.

Lemma deque_run_simulates L os : forall l ns fuel,
  rep L l ns -> (length ns + length os < fuel)%nat ->
  exists l' ns', exec_all fuel os l = Ok (tt, l') /\ rep L l' ns' /\ ns'.*2 = deque os ns.*2.
Proof.
  induction os as [|o os IH]; intros l ns fuel R Hf; simpl in *; [by exists l, ns|].
  destruct (deque_exec_simulates L o l ns fuel R) as (l1 & n1 & E1 & R1 & D1); [lia|].
  pose proof (deque_step_length o ns.*2) as Hlen. rewrite <- D1, !length_fmap in Hlen.
  destruct (IH l1 n1 fuel R1) as (l2 & n2 & E2 & R2 & D2); [lia|].
  exists l2, n2. rewrite (bind_Ok _ _ _ _ _ E1). split; [done|]. split; [done|].
  by rewrite D2, D1.
Qed.

End run.
Arguments op : clear implicits.
End LinkedListFacts.

Module LinkedListProps.
Import Algorithm LinkedList LinkedListFacts.

Section props.
Context {A : Type} `{AllocatorSpec A} {T : Type}.

(** C13. The doubly linked list is a double-ended queue.  For any allocator
    that meets the interface, a list that starts empty executes any sequence
    of insertions and removals at either end and of [clear] without a fault;
    [size], and iteration from [begin] to [end], then give the queue's length
    and elements, and destroying the list with [clear] returns every node,
    leaving the allocator with exactly what was in use before. *)
Theorem list_refines_deque (a : A) (os : list (op T)) fuel :
  (length os < fuel)%nat ->
  exists l l',
    exec_all fuel os (list_new a) = Ok (tt, l) /\
    size_of_list l = Ok (u64 (Z.of_nat (length (deque os []))), l) /\
    (h ← begin_; collect fuel h end_) l = Ok (deque os [], l) /\
    clear_ fuel l = Ok (tt, l') /\ live (allocator l') = live a /\ store l' = ∅.
Proof.
  intros Hf. destruct (deque_run_simulates (live a) os (list_new a) [] fuel) as (l & ns & E & R & D);
    [by apply rep_new|done|].
  assert (length ns <= length os)%nat as Hn.
  { rewrite <- (length_fmap snd), D. apply (deque_length os []). }
  destruct (clear_run _ _ _ fuel R) as (l' & E' & R'); [lia|].
  exists l, l'. split; [done|]. split.
  { unfold size_of_list, gets. rewrite (rep_size _ _ _ R).
    change (deque os []) with (deque os (@nil (Z * T)).*2). by rewrite <- D, length_fmap. }
  split. { mrun reflexivity. rewrite (collect_range _ _ _ _ _ (list_range _ _ _ R)) by lia. by rewrite D. }
  split; [done|]. destruct (rep_owned _ _ _ R') as [_ _ Hd Hl _]. simpl in Hd, Hl.
  split; [|by apply dom_empty_inv_L]. by rewrite (right_id_L ∅ (∪)) in Hl.
Qed.

(** [std::find] and [std::find_if] over the list return the iterator at
    the first element that matches, or [end]; the loop stops after at most one
    step per element. *)
Theorem find_in_list L (l : list_ A T) ns fuel p T_eqb x :
  rep L l ns -> (length ns < fuel)%nat ->
  find_if fuel (head l) end_ p l = Ok (first_match p end_ ns, l) /\
  find fuel T_eqb (head l) end_ x l = Ok (first_match (fun y => T_eqb y x) end_ ns, l).
Proof.
  intros R Hf. pose proof (list_range _ _ _ R) as Hr.
  rewrite find_is_find_if. split; by apply find_if_range.
Qed.
End props.

(** An allocator: the set of addresses in use, and one outside it. *)
#[export] Instance set_allocator_ : Allocator (gset Z) := {
  allocate X := let p := fresh ({[0]} ∪ X) in Ok (p, {[p]} ∪ X);
  deallocate p X := Ok (tt, X ∖ {[p]});
  live := id
}.

#[export] Instance set_allocator_spec : AllocatorSpec (gset Z).
Proof.
  constructor.
  - intros X. eexists _, _. split; [reflexivity|].
    pose proof (is_fresh ({[0]} ∪ X)) as [H1 H2]%not_elem_of_union.
    rewrite elem_of_singleton in H1. done.
  - intros X p _. by eexists.
Qed.

Lemma list_refines_deque_witness :
  exists l l' : list_ (gset Z) Z,
    exec_all 9 [PushBack 2; PushFront 1; PushBack 3; PopFront] (list_new {[16]}) = Ok (tt, l) /\
    (h ← begin_; collect 9 h end_) l = Ok ([2; 3], l) /\
    clear_ 9 l = Ok (tt, l') /\ live (allocator l') = {[16]}.
Proof.
  destruct (list_refines_deque (A := gset Z) {[16]} [PushBack 2; PushFront 1; PushBack 3; PopFront] 9)
    as (l & l' & E & _ & C & E' & Hl & _).
  - simpl. lia.
  - exists l, l'. auto.
Defined.

Lemma find_in_list_witness :
  let l := MkList 16 16 1 ({[16]} : gset Z) {[16 := MkNode 8 0 0]} in
  find_if 9 (head l) end_ (fun x => x =? 8) l = Ok (16, l).
Proof.
  intros l. apply (find_in_list ∅ l [(16, 8)] 9 (fun x => x =? 8) Z.eqb 8).
  - constructor; [by split|constructor|done..].
    + apply NoDup_singleton.
    + simpl. by rewrite list_elem_of_singleton.
    + by vm_compute.
    + by vm_compute.
    + apply disjoint_empty_l.
  - simpl. lia.
Defined.

End LinkedListProps.
