(* ===== verification/CppTypes.v ===== *)
(** libcppk/type_traits.hpp, utility.hpp, move.hpp, the member types of
    clang_generator.hpp and the array functions of iterator.hpp.

    Module CppTypes has the types of C++ as data and the traits as functions
    on them: template specialisations are cases, and an overload set that ends
    in [(...)] is a substitution that can fail.  Module ArrayRange has [begin]
    and [end] of arrays with their pointers as iterators of algorithm.hpp. *)
From S2P Require Import Prelude Memory LinkedList.

Module CppTypes.

Inductive cpptype :=
| TVoid
| TArith (name : string)
| TEnum (name underlying : string)
| TClass (name : string)
| TPtr (t : cpptype)
| TArray (t : cpptype) (n : Z)
| TConst (t : cpptype)
| TLRef (t : cpptype)      (* T& *)
| TRRef (t : cpptype).     (* T&& *)

(** *** move.hpp *)

Definition remove_reference (t : cpptype) : cpptype :=
  match t with
  | TLRef u => u
  | TRRef u => u
  | _ => t
  end.

(** [T&] and [T&&] of the language, with the collapsing of references; there
    is no reference to [void], with or without [const]. *)
Definition is_void (t : cpptype) : bool :=
  match t with TVoid | TConst TVoid => true | _ => false end.

Definition lvalue_reference_to (t : cpptype) : option cpptype :=
  if is_void t then None else Some (TLRef (remove_reference t)).

Definition rvalue_reference_to (t : cpptype) : option cpptype :=
  if is_void t then None
  else Some match t with TLRef u => TLRef u | TRRef u => TRRef u | _ => TRRef t end.

(** *** type_traits.hpp *)

(** The overload from [int] is chosen unless its return type cannot be formed. *)
Definition add_lvalue_reference (t : cpptype) : cpptype := default t (lvalue_reference_to t).
Definition add_rvalue_reference (t : cpptype) : cpptype := default t (rvalue_reference_to t).

(** [__underlying_type (Enum)]; it is not defined for other types. *)
Definition underlying_type (t : cpptype) : option cpptype :=
  match t with TEnum _ u => Some (TArith u) | _ => None end.

Definition is_class (t : cpptype) : bool := match t with TClass _ | TConst (TClass _) => true | _ => false end.

(** [integral_constant<T, v>]: its type, and its value, which the conversion
    and [get_value] return. *)
Record integral_constant := IntegralConstant { value_type : cpptype; value : Z }.
Definition true_type : integral_constant := IntegralConstant (TArith "bool") 1.
Definition false_type : integral_constant := IntegralConstant (TArith "bool") 0.

(** *** utility.hpp *)

(** [to_underlying]: the enumerator's value in the underlying type. *)
Definition to_underlying (e : cpptype) (v : Z) : option (cpptype * Z) :=
  t ← underlying_type e; Some (t, v).

(** *** clang_generator.hpp: the member types of [generator<Ref, V>] *)

Definition remove_cv (t : cpptype) : cpptype := match t with TConst u => u | _ => t end.
Definition remove_cvref (t : cpptype) : cpptype := remove_cv (remove_reference t).
Definition is_lvalue_reference (t : cpptype) : bool := match t with TLRef _ => true | _ => false end.
Definition is_rvalue_reference (t : cpptype) : bool := match t with TRRef _ => true | _ => false end.

Definition conditional (b : bool) (t u : cpptype) : cpptype := if b then t else u.

Definition generator_value (Ref V : cpptype) : cpptype := conditional (is_void V) (remove_cvref Ref) V.
(** [Ref&&] does not exist for [void]: both operands of [conditional_t] are
    written out. *)
Definition generator_reference (Ref V : cpptype) : option cpptype :=
  r ← rvalue_reference_to Ref; Some (conditional (is_void V) r Ref).
(** [const] on a reference type is ignored. *)
Definition add_const (t : cpptype) : cpptype :=
  match t with TLRef _ | TRRef _ | TConst _ => t | _ => TConst t end.
Definition generator_yielded (Ref V : cpptype) : option cpptype :=
  r ← generator_reference Ref V;
  c ← lvalue_reference_to (add_const r);
  Some (conditional (is_lvalue_reference r || is_rvalue_reference r) r c).

(** The parameter types of the [yield_value] overloads for a single value: the
    second one exists for rvalue references to types that can be constructed
    from a constant lvalue. *)
Definition yield_value_parameters (copyable : cpptype -> bool) (yielded : cpptype) : list cpptype :=
  yielded :: if is_rvalue_reference yielded && copyable (remove_cvref yielded) then [TLRef (add_const (remove_reference yielded))] else [].

(** [move]: an expression has a type, which is no reference, and a category,
    and may denote an object. *)
Inductive category := LValue | XValue | PRValue.
Record expr := Expr { ex_object : Z; ex_type : cpptype; ex_category : category }.

(** The [T] that the parameter [T&& arg] deduces from an argument. *)
Definition deduce (e : expr) : cpptype :=
  match ex_category e with LValue => TLRef (ex_type e) | _ => ex_type e end.

(** The call of a function with return type [t] that returns the object [o]. *)
Definition call_result (o : Z) (t : cpptype) : expr :=
  Expr o (remove_reference t) match t with TLRef _ => LValue | TRRef _ => XValue | _ => PRValue end.

Definition move (e : expr) : expr :=
  call_result (ex_object e) (default TVoid (rvalue_reference_to (remove_reference (deduce e)))).

(** *** is_base_of

    A program's classes with their direct bases; the flag says whether the
    base is accessible. *)
Definition hierarchy := list (string * list (string * bool)).

Definition bases (h : hierarchy) (d : string) : list (string * bool) :=
  default [] (snd <$> List.find (fun c => String.eqb c.1 d) h).

(** The subobjects of type [b] in an object of type [d], each with whether the
    path to it is accessible; [fuel] bounds the depth of the hierarchy. *)
Fixpoint subobjects (fuel : nat) (h : hierarchy) (d b : string) : list bool :=
  (if String.eqb d b then [true] else []) ++
  match fuel with
  | O => []
  | S fuel => base ← bases h d; andb base.2 <$> subobjects fuel h base.1 b
  end.

(** [static_cast<D*> (nullptr)] as the argument of the two overloads of
    [test_ptr_conv<B>]: the one from [B] is viable when [B] is a base, and then
    the better match; choosing it is an error when the base is ambiguous or
    not accessible. *)
Definition test_ptr_conv (fuel : nat) (h : hierarchy) (b d : string) : option bool :=
  match subobjects fuel h d b with
  | [] => Some false
  | [true] => Some true
  | _ => None
  end.

(** The error is a substitution failure that leaves the second overload. *)
Definition test_is_base_of (fuel : nat) (h : hierarchy) (b d : string) : bool :=
  default true (test_ptr_conv fuel h b d).

(** Both overloads take pointers to const, so that qualifiers of the two types do
    not matter. *)
Definition is_base_of (fuel : nat) (h : hierarchy) (base derived : cpptype) : bool :=
  is_class base && is_class derived &&
  match remove_cv base, remove_cv derived with
  | TClass b, TClass d => test_is_base_of fuel h b d
  | _, _ => false
  end.

End CppTypes.

(** ** The array overloads of [begin] and [end] *)
Module ArrayRange.
Section array.
Context (sizeof_T : nat).

Definition begin (array : Z) : Z := array.
Definition end_ (N array : Z) : Z := array + N * Z.of_nat sizeof_T.

(** A [T*] as an iterator. *)
#[export] Instance pointer_iterator : @Algorithm.InputIterator mem Z Z := {
  it_ne p q := negb (p =? q);
  it_deref p := load sizeof_T p;
  it_next p := mret (p + Z.of_nat sizeof_T) }.

End array.
End ArrayRange.

Module CppTypesProps.
Import CppTypes.

Definition is_reference (t : cpptype) : bool :=
  match t with TLRef _ | TRRef _ => true | _ => false end.

(** Types that can be written: nothing is made of a reference, and there is
    no reference to, or array of, [void]. *)
Fixpoint wf (t : cpptype) : bool :=
  match t with
  | TVoid | TArith _ | TEnum _ _ | TClass _ => true
  | TPtr u => wf u && negb (is_reference u)
  | TArray u n => wf u && negb (is_reference u) && negb (is_void u) && (0 <? n)
  | TConst u => wf u && negb (is_reference u) && match u with TConst _ => false | _ => true end
  | TLRef u | TRRef u => wf u && negb (is_reference u) && negb (is_void u)
  end.

(** The references to a type that can be written. *)
Lemma wf_cases t : wf t = true ->
  (exists u, (t = TLRef u \/ t = TRRef u) /\ wf u = true /\ is_reference u = false /\ is_void u = false) \/
  is_reference t = false.
Proof.
  intros Hw. destruct t as [| | | | | | |u|u]; try (by right); left; exists u; cbn in Hw;
    rewrite !andb_true_iff, !negb_true_iff in Hw; tauto.
Qed.

Lemma remove_nonref t : is_reference t = false -> remove_reference t = t.
Proof. by destruct t. Qed.

Lemma rvalue_of_nonref t : is_reference t = false -> is_void t = false ->
  rvalue_reference_to t = Some (TRRef t).
Proof. unfold rvalue_reference_to. intros Hr ->. by destruct t. Qed.

(** The reference traits on every type that can be written give types that
    can be written: [remove_reference] a type that is no reference,
    [add_lvalue_reference] and [add_rvalue_reference] a reference to it except
    for [void], which they leave alone; references collapse, an rvalue
    reference to an lvalue reference being the lvalue reference; and adding a
    reference is undone by removing it. *)
Theorem reference_traits t : wf t = true ->
  wf (remove_reference t) = true /\ is_reference (remove_reference t) = false /\
  wf (add_lvalue_reference t) = true /\ wf (add_rvalue_reference t) = true /\
  add_lvalue_reference t = (if is_void t then t else TLRef (remove_reference t)) /\
  add_rvalue_reference (add_lvalue_reference t) = add_lvalue_reference t /\
  add_lvalue_reference (add_rvalue_reference t) = add_lvalue_reference t /\
  remove_reference (add_lvalue_reference t) = remove_reference t /\
  remove_reference (add_rvalue_reference t) = remove_reference t.
Proof.
  intros Hw. unfold add_lvalue_reference, add_rvalue_reference.
  destruct (wf_cases t Hw) as [(u & Ht & Hu & Hr & Hv)|Hr].
  - destruct Ht as [-> | ->]; cbn; by rewrite Hu, Hr, Hv.
  - destruct (is_void t) eqn:Hv.
    + unfold lvalue_reference_to, rvalue_reference_to. rewrite Hv. cbn. rewrite Hv. cbn.
      by rewrite (remove_nonref t Hr).
    + rewrite (rvalue_of_nonref t Hr Hv). unfold lvalue_reference_to. rewrite Hv. cbn.
      by rewrite (remove_nonref t Hr), Hw, Hr, Hv.
Qed.

Lemma reference_traits_witness :
  add_rvalue_reference (add_lvalue_reference (TConst (TClass "File"))) = TLRef (TConst (TClass "File")).
Proof. apply (reference_traits (TConst (TClass "File"))). reflexivity. Defined.

Lemma remove_cv_nonref t : wf t = true -> is_reference t = false -> is_reference (remove_cv t) = false.
Proof.
  intros Hw Hr. destruct t; try done. cbn in *. rewrite !andb_true_iff, !negb_true_iff in Hw. tauto.
Qed.

Lemma add_const_spec t : wf t = true -> is_reference t = false -> is_void t = false ->
  wf (add_const t) = true /\ is_reference (add_const t) = false /\ is_void (add_const t) = false /\
  remove_cv (add_const t) = remove_cv t.
Proof. intros Hw Hr Hv. destruct t; cbn in *; rewrite ?Hw; done. Qed.

(** The member types of a [generator] exist for every [Ref] but [void].  What
    is yielded is always a reference, to the type of [Ref]; values are no
    references when [V] is left out; and an lvalue can be yielded by copy
    exactly when the type can be copied and the yielded type is an rvalue
    reference: [Ref] is one, or is no reference and [V] is left out. *)
Theorem generator_types copyable Ref V : wf Ref = true -> is_void Ref = false ->
  exists r y, generator_reference Ref V = Some r /\ generator_yielded Ref V = Some y /\
    wf r = true /\ wf y = true /\ is_reference y = true /\ remove_cvref y = remove_cvref Ref /\
    (is_void V = true -> is_reference (generator_value Ref V) = false) /\
    length (yield_value_parameters copyable y) =
      (if negb (is_lvalue_reference Ref) && (is_void V || is_rvalue_reference Ref) && copyable (remove_cvref Ref)
       then 2 else 1)%nat.
Proof.
  intros Hw Hv. unfold generator_yielded, generator_reference, generator_value, generator_yielded.
  destruct (wf_cases Ref Hw) as [(u & Ht & Hu & Hr & Hvu)|Hr].
  - exists Ref, Ref. pose proof (remove_cv_nonref u Hu Hr).
    destruct Ht as [-> | ->]; cbn; rewrite Hvu; cbn; destruct (is_void V); cbn;
      rewrite ?Hu, ?Hr, ?Hvu; try destruct (copyable _); done.
  - destruct (add_const_spec Ref Hw Hr Hv) as (H1 & H2 & H3 & H4).
    rewrite (rvalue_of_nonref Ref Hr Hv). pose proof (remove_cv_nonref Ref Hw Hr).
    assert (is_lvalue_reference Ref = false /\ is_rvalue_reference Ref = false) as [E1 E2] by by destruct Ref.
    destruct (is_void V).
    + exists (TRRef Ref), (TRRef Ref). unfold remove_cvref. rewrite (remove_nonref Ref Hr). cbn.
      rewrite Hw, Hr, Hv, E1. cbn. by destruct (copyable _).
    + exists Ref, (TLRef (add_const Ref)). unfold remove_cvref. rewrite (remove_nonref Ref Hr).
      unfold lvalue_reference_to. cbn -[add_const remove_cv]. set (c := add_const Ref) in *. clearbody c.
      rewrite E1, E2, H3. cbn. rewrite (remove_nonref _ H2). by rewrite ?Hw, ?H1, ?H2, ?H3, ?H4.
Qed.

Lemma generator_types_witness :
  exists y, generator_yielded (TClass "Device") TVoid = Some y /\ is_reference y = true.
Proof.
  destruct (generator_types (fun _ => true) (TClass "Device") TVoid eq_refl eq_refl) as (r & y & _ & Hy & _ & _ & Hr & _).
  exists y. exact (conj Hy Hr).
Defined.

(** [move] gives, for an argument of any value category and any type an
    object can have, an expiring value of the same type that denotes the same
    object: nothing is copied or converted. *)
Theorem move_same_object o t c : wf t = true -> is_reference t = false -> is_void t = false ->
  move (Expr o t c) = Expr o t XValue.
Proof.
  intros _ Hr Hv. unfold move, deduce. cbn [ex_category ex_type ex_object].
  assert (forall u, u = t -> call_result o (default TVoid (rvalue_reference_to u)) = Expr o t XValue) as Hc.
  { intros u ->. by rewrite rvalue_of_nonref. }
  destruct c; apply Hc; [done|by apply remove_nonref..].
Qed.

Lemma move_same_object_witness :
  move (Expr 0x1000 (TClass "BAR_t") LValue) = Expr 0x1000 (TClass "BAR_t") XValue.
Proof. apply (move_same_object 0x1000 (TClass "BAR_t") LValue); reflexivity. Defined.

(** *** is_base_of *)

Definition inherits (h : hierarchy) (d b : string) : Prop := exists acc, (b, acc) ∈ bases h d.

Lemma test_is_base_of_subobjects fuel h b d :
  test_is_base_of fuel h b d = true <-> subobjects fuel h d b <> [].
Proof.
  unfold test_is_base_of, test_ptr_conv.
  destruct (subobjects fuel h d b) as [|[] [|? ?]]; by split.
Qed.

Lemma bind_not_nil {A B} (l : list A) (f : A -> list B) :
  l ≫= f <> [] <-> exists x, x ∈ l /\ f x <> [].
Proof.
  split.
  - induction l as [|x l IH]; [done|]. rewrite bind_cons. intros Hn.
    destruct (f x) as [|y ys] eqn:E.
    + destruct (IH Hn) as (z & Hz & Hfz). exists z. split; [by apply list_elem_of_further|done].
    + exists x. split; [apply list_elem_of_here|]. by rewrite E.
  - intros (x & Hx & Hf). destruct (f x) as [|y ys] eqn:E; [done|].
    assert (y ∈ l ≫= f) as Hy.
    { apply list_elem_of_bind. exists x. rewrite E. split; [apply list_elem_of_here|done]. }
    intros Hn. rewrite Hn in Hy. by apply not_elem_of_nil in Hy.
Qed.

Lemma subobjects_spec h (rank : string -> nat) :
  (forall d b, inherits h d b -> (rank b < rank d)%nat) ->
  forall fuel d b, (rank d <= fuel)%nat ->
  subobjects fuel h d b <> [] <-> rtc (inherits h) d b.
Proof.
  intros Hrank. induction fuel as [|fuel IH]; intros d b Hf; cbn [subobjects];
    destruct (String.eqb_spec d b) as [->|Hne]; try (split; [intros _; apply rtc_refl|done]).
  - split; [done|]. intros [->|(c & Hc & _)]%rtc_inv; [done|]. apply Hrank in Hc. lia.
  - cbn [app]. rewrite bind_not_nil. split.
    + intros ((c & acc) & Hc & Hs). apply rtc_l with c; [by exists acc|]. apply IH.
      * enough (rank c < rank d)%nat by lia. apply Hrank. by exists acc.
      * intros E. apply Hs. cbn [fst]. by rewrite E.
    + intros [->|(c & [acc Hc] & Hs)]%rtc_inv; [done|]. exists (c, acc). split; [done|].
      apply IH in Hs; [|enough (rank c < rank d)%nat by lia; apply Hrank; by exists acc].
      intros E. by apply fmap_nil_inv in E.
Qed.

(** C24. [is_base_of] decides inheritance: for two classes of any hierarchy
    without cycles it is true exactly when the second is the first or derives
    from it, directly or not, also where the base is private or ambiguous and
    where one of the types is const; it is false when one of them is no class. *)
Theorem is_base_of_correct h (rank : string -> nat) fuel base derived :
  (forall d b, inherits h d b -> (rank b < rank d)%nat) ->
  (forall d, (rank d <= fuel)%nat) ->
  is_base_of fuel h base derived = true <->
  exists b d, remove_cv base = TClass b /\ remove_cv derived = TClass d /\ rtc (inherits h) d b.
Proof.
  assert (forall t c, remove_cv t = TClass c -> is_class t = true) as Hcl by (intros t c H; destruct t as [| | | | | |[]| |]; by try discriminate).
  intros Hrank Hfuel. unfold is_base_of.
  split.
  - intros Ht. destruct (remove_cv base) eqn:Eb, (remove_cv derived) eqn:Ed; rewrite ?andb_false_r in Ht; try done.
    apply andb_prop in Ht as [_ Ht]. do 2 eexists. split; [done|]. split; [done|].
    by apply (subobjects_spec h rank Hrank fuel), test_is_base_of_subobjects.
  - intros (b & d & Eb & Ed & Hr). rewrite (Hcl _ _ Eb), (Hcl _ _ Ed), Eb, Ed. cbn.
    by apply test_is_base_of_subobjects, (subobjects_spec h rank Hrank fuel).
Qed.

(** The classes of devices/pci/Device.hpp. *)
Definition pci_classes : hierarchy :=
  [("Capability", []); ("MSIXCapability", [("Capability", true)]); ("DeviceBase", []);
   ("BARMixin<5>", []); ("BARMixin<2>", []); ("Device", [("DeviceBase", true); ("BARMixin<5>", true)]);
   ("PCIToPCIBridge", [("DeviceBase", true); ("BARMixin<2>", true)]);
   ("PCIToCardBusBridge", [("DeviceBase", true)]); ("AHCIController", [("Device", true)])]%string.

Definition pci_rank (c : string) : nat :=
  if bool_decide (c = "AHCIController"%string) then 2
  else if bool_decide (bases pci_classes c = []) then 0 else 1.

Lemma is_base_of_correct_witness :
  is_base_of 2 pci_classes (TClass "DeviceBase") (TConst (TClass "AHCIController")) = true /\
  ~ rtc (inherits pci_classes) "Device"%string "BARMixin<2>"%string.
Proof.
  assert (forall d b, inherits pci_classes d b -> (pci_rank b < pci_rank d)%nat) as Hrank.
  { intros d b [acc Hb]. unfold bases in Hb.
    destruct (List.find _ _) as [[c l]|] eqn:E; [|by apply not_elem_of_nil in Hb].
    apply List.find_some in E as [Hin Hc]. apply String.eqb_eq in Hc. cbn in Hc. subst c. cbn in Hb.
    assert (Forall (fun c => Forall (fun x => (pci_rank x.1 < pci_rank c.1)%nat) c.2) pci_classes) as Hall
      by (apply (bool_decide_unpack _); vm_compute; exact I).
    rewrite Forall_forall in Hall. specialize (Hall (d, l) ltac:(by apply list_elem_of_In)).
    rewrite Forall_forall in Hall. exact (Hall _ Hb). }
  assert (forall d, (pci_rank d <= 2)%nat) as Hfuel by (intros d; unfold pci_rank; repeat case_bool_decide; lia).
  split.
  - apply (is_base_of_correct pci_classes pci_rank 2 _ _ Hrank Hfuel).
    do 2 eexists. split; [reflexivity|]. split; [reflexivity|].
    apply rtc_l with "Device"%string; [exists true; apply list_elem_of_In; cbn; tauto|].
    apply rtc_once. exists true. apply list_elem_of_In. cbn. tauto.
  - intros Hr. enough (is_base_of 2 pci_classes (TClass "BARMixin<2>") (TClass "Device") = true) as E by by vm_compute in E.
    apply (is_base_of_correct pci_classes pci_rank 2 _ _ Hrank Hfuel). eauto 10.
Defined.

End CppTypesProps.

Module ArrayRangeProps.
Import ArrayRange.

Section array.
Context (sizeof_T : nat) (Hsize : (0 < sizeof_T)%nat).

(** The elements of an array, in order, with their addresses. *)
Definition elements (m : mem) (a : Z) (N : nat) : list (Z * Z) :=
  (fun i : nat => let p := a + Z.of_nat i * Z.of_nat sizeof_T in (p, peek sizeof_T m p)) <$> seq 0 N.

Lemma array_range m N : forall a, mapped_range m a (Z.of_nat N * Z.of_nat sizeof_T) ->
  Algorithm.range (H:=pointer_iterator sizeof_T) m (end_ sizeof_T (Z.of_nat N) a) (begin a) (elements m a N).
Proof using Hsize.
  unfold begin, end_. induction N as [|N IH]; intros a Hm.
  - replace (a + _) with a by lia. constructor. cbn. by rewrite Z.eqb_refl.
  - unfold elements. cbn [seq fmap list_fmap]. rewrite Z.add_0_r.
    apply Algorithm.range_step with (a + Z.of_nat sizeof_T).
    + cbn. apply negb_true_iff, Z.eqb_neq. nia.
    + apply load_ok. eapply mapped_range_mono; [exact Hm|lia|nia].
    + done.
    + replace (a + Z.of_nat (S N) * Z.of_nat sizeof_T)
        with (a + Z.of_nat sizeof_T + Z.of_nat N * Z.of_nat sizeof_T) by lia.
      rewrite <- seq_shift, <- list_fmap_compose.
      replace (_ <$> seq 0 N) with (elements m (a + Z.of_nat sizeof_T) N).
      * apply IH. eapply mapped_range_mono; [exact Hm|lia|nia].
      * apply list_fmap_ext. intros i x _. cbn. f_equal; [|f_equal]; lia.
Qed.

(** The first element with a given value. *)
Lemma first_match_elements m N v : forall a,
  exists i : nat, (i <= N)%nat /\
    Algorithm.first_match (fun x => x =? v) (end_ sizeof_T (Z.of_nat N) a) (elements m a N) =
      a + Z.of_nat i * Z.of_nat sizeof_T /\
    (forall j, (j < i)%nat -> peek sizeof_T m (a + Z.of_nat j * Z.of_nat sizeof_T) <> v) /\
    ((i < N)%nat -> peek sizeof_T m (a + Z.of_nat i * Z.of_nat sizeof_T) = v).
Proof using.
  clear Hsize. unfold Algorithm.first_match, elements, end_. intros a. generalize (Z.of_nat sizeof_T). intros z.
  assert (forall n k, (k + n = N)%nat -> exists i : nat, (k <= i <= N)%nat /\
    default (a + Z.of_nat N * z) (fst <$> head (filter (fun ix : Z * Z => Is_true (ix.2 =? v))
      ((fun i : nat => (a + Z.of_nat i * z, peek sizeof_T m (a + Z.of_nat i * z))) <$> seq k n))) =
      a + Z.of_nat i * z /\
    (forall j, (k <= j < i)%nat -> peek sizeof_T m (a + Z.of_nat j * z) <> v) /\
    ((i < N)%nat -> peek sizeof_T m (a + Z.of_nat i * z) = v)) as Hgen.
  { induction n as [|n IH]; intros k Hk.
    - exists N. split; [lia|]. split; [done|]. split; lia.
    - cbn [seq fmap list_fmap]. rewrite filter_cons. cbn [snd].
      case_decide as Hd; [|destruct (IH (S k) ltac:(lia)) as (i & Hi & He & Hlt & Hv)].
      + exists k. split; [lia|]. split; [done|]. split; [lia|]. intros _. by apply Z.eqb_eq, Is_true_true.
      + exists i. split; [lia|]. split; [done|]. split; [|done]. intros j Hj.
        destruct (decide (j = k)) as [->|Hne]; [|apply Hlt; lia].
        intros E. apply Hd. by rewrite E, Z.eqb_refl. }
  destruct (Hgen N 0%nat eq_refl) as (i & Hi & He & Hlt & Hv). exists i.
  split; [lia|]. split; [exact He|]. split; [|done]. intros j Hj. apply Hlt. lia.
Qed.

End array.

(** [find] over [begin] and [end] of an array in mapped memory returns the
    address of its first element with the value, or the end of the array when
    there is none; it reads nothing outside the array and terminates with any
    fuel above the number of elements. *)
Theorem array_find sizeof_T m a N v fuel :
  (0 < sizeof_T)%nat -> mapped_range m a (Z.of_nat N * Z.of_nat sizeof_T) -> (N < fuel)%nat ->
  exists i : nat, (i <= N)%nat /\
    Algorithm.find (H:=pointer_iterator sizeof_T) fuel Z.eqb (begin a) (end_ sizeof_T (Z.of_nat N) a) v m =
      Ok (a + Z.of_nat i * Z.of_nat sizeof_T, m) /\
    (forall j, (j < i)%nat -> peek sizeof_T m (a + Z.of_nat j * Z.of_nat sizeof_T) <> v) /\
    ((i < N)%nat -> peek sizeof_T m (a + Z.of_nat i * Z.of_nat sizeof_T) = v).
Proof.
  intros Hs Hm Hf. destruct (first_match_elements sizeof_T m N v a) as (i & Hi & He & Hrest).
  exists i. split; [done|]. split; [|done].
  rewrite Algorithm.find_is_find_if, (Algorithm.find_if_range m _ _ (elements sizeof_T m a N)).
  - by rewrite He.
  - by apply array_range.
  - unfold elements. rewrite length_fmap, length_seq. done.
Qed.

Definition array_example : mem := Mem [(0x1000, 12)] (<[0x1004 := 7]> ∅).

Lemma array_find_witness :
  Algorithm.find (H:=pointer_iterator 4) 4 Z.eqb (begin 0x1000) (end_ 4 3 0x1000) 7 array_example =
    Ok (0x1004, array_example).
Proof.
  destruct (array_find 4 array_example 0x1000 3 7 4) as (i & Hi & Hf & Hlt & Hv).
  - lia.
  - by apply mapped_range_check.
  - lia.
  - change (Z.of_nat 3) with 3 in Hf. rewrite Hf.
    destruct i as [|[|i]]; [|done|].
    + specialize (Hv ltac:(lia)). by vm_compute in Hv.
    + exfalso. apply (Hlt 1%nat); [lia|by vm_compute].
Defined.

End ArrayRangeProps.
