(* ===== verification/Pools.v ===== *)
(** kernel/libcppk: memory_resource.hpp and generator.hpp: the monotonic
    buffer and the coroutine frames that live in it. *)
From S2P Require Import Prelude LinkedList.

(** ** memory_resource.hpp *)
Module MemoryResource.
Section resource.

Record monotonic_buffer_resource := Resource { m_current : Z; m_end : Z }.

(** [hlt] stops the processor until an interrupt arrives: it either returns
    or, with interrupts off, never does. *)
Context (hlt : M monotonic_buffer_resource unit).

(** The constructor; [ASSERTHALT] is a test and an [hlt]. *)
Definition resource_new (buffer buffer_size : Z) : M monotonic_buffer_resource unit :=
  put (Resource buffer (u64 (buffer + buffer_size))) ;;
  when (buffer =? 0) hlt.

Definition align_forward_adjustment (address alignment : Z) : Z :=
  let misalignment := Z.land address (u64 (alignment - 1)) in
  if misalignment =? 0 then 0 else u64 (alignment - misalignment).

Definition allocate (bytes alignment : Z) : M monotonic_buffer_resource Z :=
  r ← get;
  let space := u64 (m_end r - m_current r) in
  let adjustment := align_forward_adjustment (m_current r) alignment in
  when (space <? u64 (adjustment + bytes)) hlt ;;
  r ← get;
  put (Resource (u64 (m_current r + u64 (adjustment + bytes))) (m_end r)) ;;
  mret (u64 (m_current r + adjustment)).

Definition deallocate (p bytes alignment : Z) : M monotonic_buffer_resource unit := mret tt.

(** Requests in order, with the blocks they return. *)
Fixpoint allocate_all (reqs : list (Z * Z)) : M monotonic_buffer_resource (list (Z * Z)) :=
  match reqs with
  | [] => mret []
  | (bytes, alignment) :: reqs =>
      p ← allocate bytes alignment; ps ← allocate_all reqs; mret ((p, bytes) :: ps)
  end.

End resource.
End MemoryResource.

Module MemoryResourceFacts.
Import MemoryResource.

Lemma adjustment_spec a k : 0 <= k < 64 -> 0 <= a < 2 ^ 64 ->
  let d := align_forward_adjustment a (2 ^ k) in 0 <= d < 2 ^ k /\ (2 ^ k | a + d).
Proof.
  intros Hk Ha. pose proof (pow2_pos k ltac:(lia)) as Hp.
  assert (2 ^ k < 2 ^ 64) as Hlt by (apply Z.pow_lt_mono_r; lia).
  unfold align_forward_adjustment. rewrite (wrap_small 64 (2 ^ k - 1)) by (unfold in_range; lia).
  replace (2 ^ k - 1) with (Z.ones k) by (rewrite Z.ones_equiv; lia). rewrite Z.land_ones by lia.
  pose proof (Z.mod_pos_bound a (2 ^ k) Hp) as Hm. pose proof (Z.div_mod a (2 ^ k) ltac:(lia)) as Hd.
  destruct (Z.eqb_spec (a mod 2 ^ k) 0) as [E|E].
  - split; [lia|]. exists (a / 2 ^ k). lia.
  - rewrite wrap_small by (unfold in_range; lia). split; [lia|]. exists (a / 2 ^ k + 1). lia.
Qed.

Definition wf (r : monotonic_buffer_resource) : Prop := 0 <= m_current r <= m_end r /\ m_end r < 2 ^ 64.

(** A request whose size does not overflow when the adjustment is added. *)
Definition request_ok (req : Z * Z) : Prop :=
  exists k, 0 <= k < 64 /\ req.2 = 2 ^ k /\ 0 <= req.1 /\ req.1 + 2 ^ k <= 2 ^ 64.

(** Whether it fits in what is left. *)
Definition fits (r : monotonic_buffer_resource) (bytes alignment : Z) : bool :=
  m_current r + align_forward_adjustment (m_current r) alignment + bytes <=? m_end r.

Lemma allocate_run hlt r bytes alignment :
  wf r -> request_ok (bytes, alignment) ->
  let p := m_current r + align_forward_adjustment (m_current r) alignment in
  allocate hlt bytes alignment r =
    if fits r bytes alignment then Ok (p, Resource (p + bytes) (m_end r))
    else (hlt ;; r' ← get;
          put (Resource (u64 (m_current r' + (p - m_current r + bytes))) (m_end r')) ;;
          mret (u64 (m_current r' + (p - m_current r)))) r.
Proof.
  intros [Hc He] (k & Hk & Ha & Hb & Ho) p. simpl in Ha, Hb, Ho. subst alignment.
  destruct (adjustment_spec (m_current r) k) as [Hd _]; [done|lia|].
  unfold allocate, fits. fold p. mrun reflexivity.
  rewrite !(wrap_small 64 (_ - _)), !(wrap_small 64 (_ + bytes)) by (unfold in_range; lia).
  unfold when. destruct (Z.leb_spec (p + bytes) (m_end r)), (Z.ltb_spec (m_end r - m_current r)
    (align_forward_adjustment (m_current r) (2 ^ k) + bytes)); try lia.
  - mrun reflexivity. mrun reflexivity. mrun reflexivity. unfold mret, M_ret.
    rewrite !wrap_small by (unfold in_range; lia). do 2 f_equal. f_equal. lia.
  - unfold p. by replace (m_current r + align_forward_adjustment (m_current r) (2 ^ k) - m_current r)
      with (align_forward_adjustment (m_current r) (2 ^ k)) by lia.
Qed.

(** The processor stays halted. *)
Definition hlt_forever : M monotonic_buffer_resource unit := fail Halted.

(** Blocks in increasing order, each behind the end of the one before. *)
Fixpoint in_order (lo hi : Z) (blocks : list (Z * Z)) : Prop :=
  match blocks with
  | [] => lo <= hi
  | (p, n) :: blocks => lo <= p /\ 0 <= n /\ in_order (p + n) hi blocks
  end.

Lemma allocate_all_in_order reqs : forall r ps r',
  wf r -> Forall request_ok reqs -> allocate_all hlt_forever reqs r = Ok (ps, r') ->
  in_order (m_current r) (m_end r) ps /\ ps.*2 = reqs.*1 /\
  Forall2 (fun p req => (req.2 | p.1)) ps reqs.
Proof.
  induction reqs as [|[bytes al] reqs IH]; intros r ps r' Hw Hr Hrun; simpl in Hrun.
  { minv. simpl. unfold wf in Hw. split; [lia|done]. }
  apply Forall_cons in Hr as [Hq Hr]. minv.
  match goal with E : allocate _ _ _ r = Ok _ |- _ => rename E into Ha end.
  match goal with E : allocate_all _ _ _ = Ok _ |- _ => rename E into Hn end.
  rewrite allocate_run in Ha by done. destruct (fits r bytes al) eqn:Hf; [|done].
  injection Ha as <- <-. unfold fits in Hf. apply Z.leb_le in Hf. pose proof Hq as (k & Hk & Hal & Hb & Ho).
  simpl in Hal, Hb, Ho. subst al. unfold wf in Hw.
  destruct (adjustment_spec (m_current r) k) as [Hd Hdiv]; [done|lia|].
  apply IH in Hn as (H1 & H2 & H3); [|unfold wf; simpl; lia|done].
  simpl in *. split_and!; [lia|lia|done|by f_equal|by constructor].
Qed.

(** Either every request is granted or the first that does not fit halts. *)
Lemma allocate_all_outcome reqs : forall r, wf r -> Forall request_ok reqs ->
  (exists ps r', allocate_all hlt_forever reqs r = Ok (ps, r')) \/
  (allocate_all hlt_forever reqs r = Fault Halted /\
     exists pre bytes al post ps r', reqs = pre ++ (bytes, al) :: post /\
       allocate_all hlt_forever pre r = Ok (ps, r') /\ fits r' bytes al = false).
Proof.
  induction reqs as [|[bytes al] reqs IH]; intros r Hw Hr; [left; by eexists _, _|].
  apply Forall_cons in Hr as [Hq Hr]. pose proof (allocate_run hlt_forever r bytes al Hw Hq) as Ha.
  simpl in Ha. cbn [allocate_all]. destruct (fits r bytes al) eqn:Hf.
  - pose proof Hf as Hle%Z.leb_le. pose proof Hq as (k & Hk & Hal & Hb & _). simpl in Hal, Hb.
    unfold wf in Hw. destruct (adjustment_spec (m_current r) k) as [Hd _]; [done|lia|]. subst al.
    setoid_rewrite (bind_Ok _ _ _ _ _ Ha). edestruct IH as [(ps & r' & E)|(E & H)]; [|done|..].
    2:{ left. eexists _, _. rewrite (bind_Ok _ _ _ _ _ E). reflexivity. }
    { unfold wf. simpl. lia. }
    right. split; [by rewrite (bind_Fault _ _ _ _ E)|].
    destruct H as (pre & b & a & post & ps & r' & -> & E' & Hn).
    exists ((bytes, 2 ^ k) :: pre), b, a, post. eexists _, r'. split; [done|]. split; [|done].
    cbn [allocate_all]. rewrite (bind_Ok _ _ _ _ _ Ha), (bind_Ok _ _ _ _ _ E'). reflexivity.
  - right. split; [by rewrite (bind_Fault _ _ _ _ Ha)|]. exists [], bytes, al, reqs, [], r. done.
Qed.

Lemma in_order_bounds blocks : forall lo hi,
  in_order lo hi blocks -> lo <= hi /\ Forall (fun b => lo <= b.1 /\ b.1 + b.2 <= hi) blocks.
Proof.
  induction blocks as [|[p n] blocks IH]; intros lo hi; simpl; [by auto|].
  intros (H1 & H2 & [H3 H4]%IH). split; [lia|]. constructor; [simpl; lia|].
  eapply Forall_impl; [exact H4|]. simpl. lia.
Qed.

(** Two blocks do not overlap. *)
Definition apart (a b : Z * Z) : Prop := a.1 + a.2 <= b.1 \/ b.1 + b.2 <= a.1.

Lemma in_order_apart blocks : forall lo hi,
  in_order lo hi blocks ->
  forall i j a b, blocks !! i = Some a -> blocks !! j = Some b -> i <> j -> apart a b.
Proof.
  induction blocks as [|[p n] blocks IH]; intros lo hi H i j a b Hi Hj Hij; [done|].
  destruct H as (H1 & H2 & H3). pose proof (in_order_bounds _ _ _ H3) as [_ Hb].
  rewrite Forall_lookup in Hb. unfold apart.
  destruct i as [|i], j as [|j]; simpl in *; simplify_eq/=; [..|by eapply IH; eauto].
  - apply Hb in Hj. lia.
  - apply Hb in Hi. lia.
Qed.

End MemoryResourceFacts.

(** ** generator.hpp

    A coroutine is what remains of its body: the values it still yields.  The
    body itself is the user's code, here the list of values. *)
Module Generator.
Import MemoryResource.

Definition mem_size : Z := 4096.
(** [alignof(std::max_align_t)], the default alignment of [allocate]. *)
Definition max_align : Z := 16.

Record coroutine := Coroutine {
  todo : list Z;              (* what the suspended body will yield *)
  coroValue : option Z;
  finished : bool             (* suspended at its final suspend point *)
}.

(** The generator's handle and its coroutine. *)
Record generator := MkGenerator { handle : bool; frame : coroutine }.

Definition generator_new (body : list Z) : generator := MkGenerator true (Coroutine body None false).

(** [resume]: run to the next [co_yield], whose [yield_value] stores the
    value, or to the end. *)
Definition resume : M generator unit :=
  modify (fun g => MkGenerator (handle g)
    match todo (frame g) with
    | [] => Coroutine [] (coroValue (frame g)) true
    | x :: xs => Coroutine xs (Some x) false
    end).

(** The iterator is the handle, [false] when null. *)
Definition getNext (it : bool) : M generator bool :=
  if it then
    resume ;;
    g ← get; mret (if finished (frame g) then false else it)
  else mret it.

(** The operator returns [int], whatever the element type. *)
Definition deref (it : bool) : M generator Z :=
  if it then
    g ← get; match coroValue (frame g) with Some v => mret (i32 v) | None => fail Panicked end
  else fail Halted.

Definition begin_ : M generator bool :=
  g ← get;
  if negb (handle g) || finished (frame g) then mret false else getNext true.

Definition end_ : bool := false.

#[export] Instance generator_iterator : Algorithm.InputIterator generator bool Z := {
  it_ne i j := negb (Bool.eqb i j);
  it_deref := deref;
  it_next := getNext
}.

(** Frames come from the pool and go back to it. *)
Definition promise_new (hlt : M monotonic_buffer_resource unit) (sz : Z) :
    M monotonic_buffer_resource Z := allocate hlt sz max_align.
Definition promise_delete (ptr sz : Z) : M monotonic_buffer_resource unit := deallocate ptr sz 0.

(** [n] generators with frames of [sz] bytes, each destroyed before the next. *)
Fixpoint create_destroy (hlt : M monotonic_buffer_resource unit) (n : nat) (sz : Z) :
    M monotonic_buffer_resource unit :=
  match n with
  | O => mret tt
  | S n => p ← promise_new hlt sz; promise_delete p sz ;; create_destroy hlt n sz
  end.

End Generator.

Module GeneratorFacts.
Import Algorithm MemoryResource MemoryResourceFacts Generator.

(** From one suspension to the end of the body. *)
Lemma generator_loop xs : forall cv fuel, (length xs < fuel)%nat ->
  exists g, (it ← getNext true; collect fuel it false) (MkGenerator true (Coroutine xs cv false)) =
      Ok (i32 <$> xs, g) /\ handle g = true /\ finished (frame g) = true.
Proof.
  induction xs as [|x xs IH]; intros cv [|f] Hf; simpl in Hf; try lia.
  - eexists. split; [reflexivity|done].
  - destruct (IH (Some x) f) as (g & Hg & Hh); [lia|]. exists g. split; [|done].
    rewrite (bind_Ok _ _ _ true (MkGenerator true (Coroutine xs (Some x) false))) by reflexivity.
    cbn [collect it_ne generator_iterator negb Bool.eqb].
    rewrite (bind_Ok _ _ _ (i32 x) (MkGenerator true (Coroutine xs (Some x) false))) by reflexivity.
    apply bind_inv in Hg as (it & s & Hn & Hc). cbn [it_next generator_iterator].
    rewrite (bind_Ok _ _ _ _ _ Hn), (bind_Ok _ _ _ _ _ Hc). done.
Qed.

(** One frame, when the free part of the pool is aligned. *)
Lemma promise_new_run lo hi sz :
  0 < lo <= hi -> hi < 2 ^ 64 -> (16 | lo) -> 0 < sz <= mem_size ->
  promise_new hlt_forever sz (Resource lo hi) =
    if lo + sz <=? hi then Ok (lo, Resource (lo + sz) hi) else Fault Halted.
Proof.
  intros Hlo Hhi [q Hq] Hsz. unfold promise_new, mem_size in *.
  assert (align_forward_adjustment lo max_align = 0) as E.
  { unfold align_forward_adjustment, max_align. change (u64 (16 - 1)) with (Z.ones 4).
    rewrite Z.land_ones, Hq by lia. change (2 ^ 4) with 16. by rewrite Z_mod_mult. }
  rewrite allocate_run; [|unfold wf; simpl; lia|exists 4; unfold max_align; simpl; lia].
  unfold fits. cbn [m_current m_end]. rewrite E, Z.add_0_r. by destruct (lo + sz <=? hi).
Qed.

Lemma create_destroy_run n : forall lo hi sz,
  0 < lo <= hi -> hi < 2 ^ 64 -> (16 | lo) -> (16 | sz) -> 0 < sz <= mem_size ->
  create_destroy hlt_forever n sz (Resource lo hi) =
    if lo + Z.of_nat n * sz <=? hi then Ok (tt, Resource (lo + Z.of_nat n * sz) hi) else Fault Halted.
Proof.
  induction n as [|n IH]; intros lo hi sz Hlo Hhi Ha Hb Hsz.
  { change (Z.of_nat 0 * sz) with 0. rewrite Z.add_0_r, (proj2 (Z.leb_le _ _)) by lia. done. }
  cbn [create_destroy]. unfold mbind, M_bind. rewrite promise_new_run by done.
  destruct (Z.leb_spec (lo + sz) hi).
  - cbn [promise_delete deallocate mret M_ret]. unfold mret, M_ret. cbn beta iota.
    rewrite IH; [|lia|done|by apply Z.divide_add_r|done|done].
    by replace (lo + sz + Z.of_nat n * sz) with (lo + Z.of_nat (S n) * sz) by lia.
  - rewrite (proj2 (Z.leb_gt _ _)); [done|]. lia.
Qed.

End GeneratorFacts.

Module PoolProps.
Import GeneratorFacts Algorithm MemoryResource MemoryResourceFacts Generator.

(** C36. The monotonic buffer hands out memory safely as long as [hlt] does not
    return: over any sequence of requests with power-of-two alignments whose size
    and alignment add up to no more than 2^64, either every request is granted,
    and the blocks have the requested sizes and alignments, lie inside the buffer
    and are pairwise disjoint, or the processor halts, at the first request that
    does not fit, once aligned, between the last block and the end of the
    buffer. *)
Theorem monotonic_buffer_disjoint buffer size reqs r :
  0 < buffer -> 0 <= size -> buffer + size < 2 ^ 64 -> Forall request_ok reqs ->
  let run reqs := (resource_new hlt_forever buffer size ;; allocate_all hlt_forever reqs) r in
  (exists ps r', run reqs = Ok (ps, r') /\
     ps.*2 = reqs.*1 /\ Forall2 (fun p req => (req.2 | p.1)) ps reqs /\
     Forall (fun b => buffer <= b.1 /\ b.1 + b.2 <= buffer + size) ps /\
     (forall i j a b, ps !! i = Some a -> ps !! j = Some b -> i <> j -> apart a b)) \/
  (run reqs = Fault Halted /\
     exists pre bytes alignment post ps r', reqs = pre ++ (bytes, alignment) :: post /\
       run pre = Ok (ps, r') /\ fits r' bytes alignment = false).
Proof.
  intros Hb Hs He Hr run.
  assert (resource_new hlt_forever buffer size r = Ok (tt, Resource buffer (buffer + size))) as Hn.
  { unfold resource_new. mrun reflexivity. rewrite (wrap_small 64) by (unfold in_range; lia).
    destruct (Z.eqb_spec buffer 0); [lia|done]. }
  assert (forall rs, run rs = allocate_all hlt_forever rs (Resource buffer (buffer + size))) as Hrun.
  { intros rs. unfold run. by rewrite (bind_Ok _ _ _ _ _ Hn). }
  destruct (allocate_all_outcome reqs (Resource buffer (buffer + size))) as [(ps & r' & E)|H];
    [unfold wf; simpl; lia|done| |].
  - left. exists ps, r'. rewrite Hrun. split; [done|].
    apply allocate_all_in_order in E as (Ho & H2 & Ha); [|unfold wf; simpl; lia|done].
    split; [done|]. split; [done|]. split; [by apply in_order_bounds in Ho as [_ Ho]|].
    by eapply in_order_apart.
  - right. setoid_rewrite Hrun. exact H.
Qed.

Lemma monotonic_buffer_disjoint_witness :
  exists ps r', (resource_new hlt_forever 0x1001 256 ;;
    allocate_all hlt_forever [(10, 16); (8, 8); (3, 1)]) (Resource 0 0) = Ok (ps, r') /\
    ps = [(0x1010, 10); (0x1020, 8); (0x1028, 3)] /\ apart (0x1010, 10) (0x1020, 8).
Proof.
  destruct (monotonic_buffer_disjoint 0x1001 256 [(10, 16); (8, 8); (3, 1)] (Resource 0 0))
    as [(ps & r' & E & _ & _ & _ & Hap)|[E _]]; [lia|lia|lia| | |vm_compute in E; discriminate].
  { repeat constructor; [exists 4|exists 3|exists 0]; simpl; lia. }
  exists ps, r'. split; [exact E|]. vm_compute in E. injection E as <- <-. split; [reflexivity|].
  by apply (Hap 0%nat 1%nat).
Defined.

(** When [hlt] returns, because an interrupt arrived, the request that did not
    fit is granted all the same and the block ends outside the buffer. *)
Theorem monotonic_buffer_after_wakeup r bytes k :
  wf r -> 0 <= k < 64 -> 0 <= bytes -> bytes + 2 ^ k <= 2 ^ 64 ->
  m_end r < m_current r + align_forward_adjustment (m_current r) (2 ^ k) + bytes < 2 ^ 64 ->
  exists p r', allocate (mret tt) bytes (2 ^ k) r = Ok (p, r') /\ m_end r < p + bytes.
Proof.
  intros Hw Hk Hb Ho Hf. rewrite allocate_run; [|done|by exists k].
  unfold fits. rewrite (proj2 (Z.leb_gt _ _)) by lia.
  eexists _, _. split; [reflexivity|]. unfold wf in Hw.
  destruct (adjustment_spec (m_current r) k) as [Hd _]; [done|lia|]. rewrite wrap_small; [lia|].
  unfold in_range. lia.
Qed.

Lemma monotonic_buffer_after_wakeup_witness :
  exists p r', allocate (mret tt) 64 16 (Resource 0x1000 0x1020) = Ok (p, r') /\ 0x1020 < p + 64.
Proof.
  apply (monotonic_buffer_after_wakeup (Resource 0x1000 0x1020) 64 4); unfold wf; simpl; try lia.
  vm_compute. by split.
Defined.

(** The sum that is compared with the space left can wrap around: a request
    for almost all of the address space is granted, and the next request is
    given the same address. *)
Theorem monotonic_buffer_size_wraps :
  allocate_all hlt_forever [(2 ^ 64 - 10, 16); (16, 16)] (Resource 0x1031 0x1100) =
    Ok ([(0x1040, 2 ^ 64 - 10); (0x1040, 16)], Resource 0x1050 0x1100).
Proof. by vm_compute. Qed.

(** Iterating over a generator yields the values of its body in order,
    each converted to [int] by the iterator, and ends: one step per value is
    enough.  A second iteration finds the coroutine finished. *)
Theorem generator_yields body fuel :
  (length body < fuel)%nat ->
  exists g, (it ← Generator.begin_; collect fuel it Generator.end_) (generator_new body) =
              Ok (i32 <$> body, g) /\
            Generator.begin_ g = Ok (Generator.end_, g).
Proof.
  intros Hf. destruct (generator_loop body None fuel Hf) as (g & Hg & Hh & Hd). exists g.
  split; [exact Hg|]. unfold Generator.begin_. mrun reflexivity. by rewrite Hd, orb_true_r.
Qed.

Lemma generator_yields_witness :
  exists g, (it ← Generator.begin_; collect 4 it Generator.end_) (generator_new [1; 2; 2 ^ 32 + 3]) =
    Ok ([1; 2; 3], g).
Proof.
  destruct (generator_yields [1; 2; 2 ^ 32 + 3] 4) as (g & Hg & _); [simpl; lia|]. by exists g.
Defined.

(** The pool of coroutine frames only shrinks: destroying a generator
    gives nothing back, so [n] generators with frames of [sz] bytes can be
    created one after the other exactly when all of them fit in the 4096 bytes
    together. *)
Theorem generator_pool_exhausted n sz base :
  0 < base -> base + mem_size < 2 ^ 64 -> (16 | base) -> (16 | sz) -> 0 < sz <= mem_size ->
  (Z.of_nat n * sz <= mem_size ->
   create_destroy hlt_forever n sz (Resource base (base + mem_size)) =
     Ok (tt, Resource (base + Z.of_nat n * sz) (base + mem_size))) /\
  (mem_size < Z.of_nat n * sz ->
   create_destroy hlt_forever n sz (Resource base (base + mem_size)) = Fault Halted).
Proof.
  intros Hb He Ha Hs Hsz. rewrite create_destroy_run by (done || unfold mem_size in *; lia).
  split; intros Hn.
  - by rewrite (proj2 (Z.leb_le _ _)) by lia.
  - by rewrite (proj2 (Z.leb_gt _ _)) by lia.
Qed.

Lemma generator_pool_exhausted_witness :
  create_destroy hlt_forever 32 128 (Resource 0x10000 0x11000) = Ok (tt, Resource 0x11000 0x11000) /\
  create_destroy hlt_forever 33 128 (Resource 0x10000 0x11000) = Fault Halted.
Proof.
  split.
  - apply (generator_pool_exhausted 32 128 0x10000); unfold mem_size; try lia;
      [by exists 0x1000|by exists 8].
  - apply (generator_pool_exhausted 33 128 0x10000); unfold mem_size; try lia;
      [by exists 0x1000|by exists 8].
Defined.

End PoolProps.
