(* ===== verification/StaticPool.v ===== *)
(** kernel/libcppk/test_generator.cpp: an allocator over a static pool, and the
    recursive enumeration of PCI functions by generators whose frames it holds.

    A freed block becomes a list node in place, so that the memory of the pool
    is byte memory.  The allocator is refined to an abstract one: live blocks
    that never overlap and whose contents the allocator never touches. *)
From S2P Require Import Prelude Layout Memory.

(** ** Definitions *)
Module StaticPool.

Definition PoolSize : Z := 512.

Definition Block : cstruct := Struct [Plain "next" cptr; Plain "size" cu64; Plain "address" cptr].

Definition next_of (b : Z) : Z := u64 (b + offsetof (cs_layout Block) "next").
Definition size_of (b : Z) : Z := u64 (b + offsetof (cs_layout Block) "size").
Definition address_of (b : Z) : Z := u64 (b + offsetof (cs_layout Block) "address").

(** [written]: the texts given to the [write] system call, in order. *)
Record state := State {
  heap : mem;
  freeList : Z;
  poolOffset : Z;
  written : list (list Z) }.

Definition on_heap {A} : M mem A -> M state A :=
  zoom heap (fun m s => State m (freeList s) (poolOffset s) (written s)).
Definition set_freeList (p : Z) (s : state) : state := State (heap s) p (poolOffset s) (written s).
Definition set_poolOffset (n : Z) (s : state) : state := State (heap s) (freeList s) n (written s).

(** The characters before the first NUL, which [print] counts. *)
Fixpoint until_nul (msg : list Z) : list Z :=
  match msg with
  | [] => []
  | c :: msg => if c =? 0 then [] else c :: until_nul msg
  end.

Definition print (msg : list Z) : M state unit := modify (fun s =>
  State (heap s) (freeList s) (poolOffset s) (written s ++ [until_nul msg])).

(** ['0' + n / 10] and ['0' + n % 10], stored in a [char]. *)
Definition two_digits (n : Z) : list Z := [u8 (48 + n / 10); u8 (48 + n mod 10)].
Definition AL (n : Z) : list Z := chars "AL " ++ two_digits n ++ [10; 0].
Definition DE (n : Z) : list Z := chars "DE " ++ two_digits n ++ [10; 0].
Definition BAD : list Z := chars "BAD" ++ [10; 0].

Section allocator.
Variable memoryPool : Z.
Variable sizeof_T : Z.

(** A [Block**] is the list head ([None]) or the address of a link. *)
Definition assign (prev : option Z) (v : Z) : M state unit :=
  match prev with
  | None => modify (set_freeList v)
  | Some p => on_heap (store64 p v)
  end.

Fixpoint search (fuel : nat) (prev : option Z) (current requiredSize : Z) : M state (option Z) :=
  match fuel with
  | O => fail OutOfFuel
  | S fuel =>
      if current =? 0 then mret None
      else
        sz ← on_heap (load64 (size_of current));
        if requiredSize <=? sz then
          nx ← on_heap (load64 (next_of current));
          assign prev nx ;;
          a ← on_heap (load64 (address_of current));
          mret (Some a)
        else
          nx ← on_heap (load64 (next_of current));
          search fuel (Some (next_of current)) nx requiredSize
  end.

(** [None]: [std::bad_alloc] is thrown. *)
Definition allocate (fuel : nat) (n : Z) : M state (option Z) :=
  print (AL n) ;;
  let requiredSize := u64 (n * sizeof_T) in
  head ← gets freeList;
  found ← search fuel None head requiredSize;
  match found with
  | Some a => mret (Some a)
  | None =>
      off ← gets poolOffset;
      if PoolSize <? u64 (off + requiredSize) then print BAD ;; mret None
      else
        modify (set_poolOffset (u64 (off + requiredSize))) ;;
        mret (Some (u64 (memoryPool + off)))
  end.

Definition deallocate (p n : Z) : M state unit :=
  print (DE n) ;;
  let blockSize := u64 (n * sizeof_T) in
  on_heap (store64 (address_of p) p) ;;
  on_heap (store64 (size_of p) blockSize) ;;
  head ← gets freeList;
  on_heap (store64 (next_of p) head) ;;
  modify (set_freeList p).

End allocator.

(** The generators, with the sizes of their frames in units of the
    allocator's [T].  A consumer that runs a generator to its end sees the
    body run in order: [co_yield_from] creates the frame, runs the generator
    and destroys the frame, and [co_yield] hands the value to the loop of
    [main], which prints it.  [fuel] bounds the depth of the recursion,
    [steps] the search of the free list.  An exception ends the program. *)
Section enumeration.
Variable memoryPool : Z.
Variable sizeof_T : Z.
Variable steps : nat.
Variables frame_attached frame_bus frame_device frame_function : Z.

Definition message (bus deviceno function : Z) : list Z :=
  two_digits bus ++ [32] ++ two_digits deviceno ++ [32] ++
  [u8 (48 + function / 10); u8 (48 + function / 10); 10; 0].

Definition co_yield (bus deviceno function : Z) : M state unit :=
  print (message bus deviceno function).

Definition co_yield_from (frame : Z) (generator : M state unit) : M state unit :=
  p ← allocate memoryPool sizeof_T steps frame;
  match p with
  | None => fail Panicked
  | Some p => generator ;; deallocate sizeof_T p frame
  end.

Definition enumerate_function (enumerate_pci_bus : Z -> M state unit)
    (bus deviceno function : Z) : M state unit :=
  co_yield bus deviceno function ;;
  when ((bus =? 0) && (deviceno =? 0) && (function =? 0))
    (co_yield_from frame_bus (enumerate_pci_bus 8)).

Definition enumerate_device (enumerate_pci_bus : Z -> M state unit) (bus deviceno : Z) :
    M state unit :=
  co_yield_from frame_function (enumerate_function enumerate_pci_bus bus deviceno 0) ;;
  for_loop 7 1 (fun function =>
    co_yield_from frame_function (enumerate_function enumerate_pci_bus bus deviceno function)).

Fixpoint enumerate_pci_bus (fuel : nat) (bus : Z) : M state unit :=
  match fuel with
  | O => fail OutOfFuel
  | S fuel =>
      for_loop 32 0 (fun device =>
        co_yield_from frame_device (enumerate_device (enumerate_pci_bus fuel) bus device))
  end.

Definition attached_devices (fuel : nat) : M state unit :=
  co_yield_from frame_bus (enumerate_pci_bus fuel 0).

Definition main (fuel : nat) : M state Z :=
  print (chars "hi" ++ [10; 0]) ;;
  co_yield_from frame_attached (attached_devices fuel) ;;
  mret 42.

End enumeration.
End StaticPool.

(** ** Representation *)
Module StaticPoolFacts.
Import StaticPool.

(** A block is its address and its size. *)
Abbreviation block := (Z * Z)%type.

Definition apart (a b : block) : Prop := a.1 + a.2 <= b.1 \/ b.1 + b.2 <= a.1.

(** The free list from [p] holds the blocks [l]. *)
Fixpoint chain (m : mem) (p : Z) (l : list block) : Prop :=
  match l with
  | [] => p = 0
  | b :: l => p = b.1 /\ peek 8 m (b.1 + 8) = b.2 /\ peek 8 m (b.1 + 16) = b.1 /\ chain m (peek 8 m b.1) l
  end.

Definition total (l : list block) : Z := foldr (fun b n => b.2 + n) 0 l.

#[export] Instance total_perm : Proper (Permutation ==> eq) total.
Proof. induction 1; unfold total in *; simpl in *; lia. Qed.

Definition separate : list block -> Prop := ForallOrdPairs apart.

Lemma separate_cons b l : separate (b :: l) <-> Forall (apart b) l /\ separate l.
Proof. split; [by inversion 1|]. intros []. by constructor. Qed.

Lemma apart_sym a b : apart a b -> apart b a.
Proof. unfold apart. lia. Qed.

#[export] Instance separate_perm : Proper (Permutation ==> iff) separate.
Proof.
  assert (forall l k, l ≡ₚ k -> separate l -> separate k) as H.
  { induction 1 as [|x l k Hp IH|x y l|l k r _ IH1 _ IH2]; rewrite ?separate_cons, ?Forall_cons; auto.
    - intros [H ?]. split; [by rewrite <- Hp|auto].
    - intros ([] & ? & ?). auto using apart_sym. }
  intros l k Hp. split; [by apply H|]. by apply H.
Qed.

(** A block may shrink. *)
Lemma separate_shrink a n n' l : n' <= n -> separate ((a, n) :: l) -> separate ((a, n') :: l).
Proof.
  rewrite !separate_cons. intros Hn [H ?]. split; [|done]. eapply Forall_impl; [exact H|].
  unfold apart. simpl. lia.
Qed.

(** First fit: the first block of at least [n] bytes and the others. *)
Fixpoint first_fit (n : Z) (l : list block) : option (block * list block) :=
  match l with
  | [] => None
  | b :: l => if n <=? b.2 then Some (b, l) else
      match first_fit n l with Some (c, k) => Some (c, b :: k) | None => None end
  end.

Lemma first_fit_Some n l b k : first_fit n l = Some (b, k) -> n <= b.2 /\ l ≡ₚ b :: k.
Proof.
  revert k. induction l as [|c l IH]; intros k; simpl; [done|]. destruct (Z.leb_spec n c.2).
  - intros [= <- <-]. done.
  - destruct (first_fit n l) as [[d k']|]; [|done]. intros [= <- <-].
    destruct (IH k' eq_refl) as [? ->]. split; [done|]. by rewrite Permutation_swap.
Qed.

Lemma first_fit_None n l : first_fit n l = None -> Forall (fun b => b.2 < n) l.
Proof.
  induction l as [|c l IH]; simpl; [constructor|]. destruct (Z.leb_spec n c.2); [done|].
  destruct (first_fit n l) as [[d k]|]; [done|]. auto.
Qed.

Lemma free_chain_ext m m' l : forall p,
  (forall b x, b ∈ l -> b.1 <= x < b.1 + 24 -> byte_at m' x = byte_at m x) ->
  chain m p l -> chain m' p l.
Proof.
  induction l as [|b l IH]; intros p H; [done|]. intros (-> & Hs & Ha & Hc).
  assert (forall d, 0 <= d <= 16 -> peek 8 m' (b.1 + d) = peek 8 m (b.1 + d)) as Hp.
  { intros d Hd. apply peek_ext. intros x Hx. apply (H b); [apply list_elem_of_here|lia]. }
  simpl. rewrite !Hp by lia. replace (peek 8 m' b.1) with (peek 8 m b.1)
    by (rewrite <- (Z.add_0_r b.1); symmetry; apply Hp; lia).
  repeat split; auto. apply IH; [|done]. intros c x Hc' Hx. apply (H c); [by apply list_elem_of_further|done].
Qed.

Section pool.
Variable memoryPool : Z.
Hypothesis Hlow : 0 < memoryPool.
Hypothesis Hhigh : memoryPool + PoolSize <= 2 ^ 64.

(** A block inside the carved part of the pool, large enough for a node. *)
Definition inside (off : Z) (b : block) : Prop :=
  memoryPool <= b.1 /\ cs_sizeof Block <= b.2 /\ b.1 + b.2 <= memoryPool + off.

Record rep (s : state) (live free : list block) : Prop := {
  r_mapped : mapped_range (heap s) memoryPool PoolSize;
  r_offset : 0 <= poolOffset s <= PoolSize;
  r_chain : chain (heap s) (freeList s) free;
  r_inside : Forall (inside (poolOffset s)) (live ++ free);
  r_separate : separate (live ++ free);
  r_total : total (live ++ free) <= poolOffset s }.

(** The fields of a node. *)
Lemma fields off b : off <= PoolSize -> inside off b ->
  next_of b.1 = b.1 /\ size_of b.1 = b.1 + 8 /\ address_of b.1 = b.1 + 16.
Proof.
  intros Ho (? & ? & ?). change (cs_sizeof Block) with 24 in *. unfold next_of, size_of, address_of.
  change (offsetof _ "next") with 0. change (offsetof _ "size") with 8. change (offsetof _ "address") with 16.
  rewrite !wrap_small by (unfold in_range; lia). lia.
Qed.

Definition same_bytes (l : list block) (m m' : mem) : Prop :=
  forall x, (forall b, b ∈ l -> ~ b.1 <= x < b.1 + b.2) -> byte_at m' x = byte_at m x.

(** Taking [b] out of the list by its predecessor's link. *)
Lemma chain_unlink m l1 a b l2 off : forall p,
  separate (l1 ++ a :: b :: l2) -> Forall (inside off) (l1 ++ a :: b :: l2) ->
  chain m p (l1 ++ a :: b :: l2) -> chain (poke 8 m a.1 (peek 8 m b.1)) p (l1 ++ a :: l2).
Proof.
  assert (forall c x, apart a c -> inside off c -> inside off a -> c.1 <= x < c.1 + 24 ->
    byte_at (poke 8 m a.1 (peek 8 m b.1)) x = byte_at m x) as Hother.
  { intros c x ? (_ & ? & _) (_ & ? & _) ?. unfold apart in *. change (cs_sizeof Block) with 24 in *.
    apply byte_at_poke_other. change (Z.of_nat 8) with 8. lia. }
  induction l1 as [|c l1 IH]; intros p; cbn [app]; rewrite separate_cons, !Forall_cons.
  - intros ((Hab & Hal) & _) (Ha & Hb & Hl) (-> & Hs & Had & _ & _ & _ & Hc).
    split; [done|]. rewrite !peek_poke_other by (change (Z.of_nat 8) with 8; lia).
    split; [done|]. split; [done|]. rewrite peek_poke_same. rewrite wrap_small by apply (peek_range 8).
    eapply free_chain_ext; [|exact Hc]. intros d x Hd Hx.
    rewrite Forall_forall in Hal, Hl. apply (Hother d); auto.
  - intros (Hc & Hsep) (Hci & Hin) (-> & Hs & Had & Hch).
    assert (apart a c /\ inside off a) as [Hac Ha].
    { apply Forall_app in Hc as [_ Hc]. apply Forall_cons in Hc as [Hc _].
      apply Forall_app in Hin as [_ Hin]. apply Forall_cons in Hin as [? _]. auto using apart_sym. }
    assert (forall d, 0 <= d <= 16 ->
      peek 8 (poke 8 m a.1 (peek 8 m b.1)) (c.1 + d) = peek 8 m (c.1 + d)) as Hp.
    { intros d Hd. apply peek_ext. intros x Hx. apply (Hother c); auto. lia. }
    split; [done|]. rewrite !Hp by lia. split; [done|]. split; [done|].
    rewrite <- (Z.add_0_r c.1), Hp, Z.add_0_r by lia. by apply IH.
Qed.

(** The link through which the search reaches what follows [pre]. *)
Definition link (pre : list block) : option Z := (fun b => next_of b.1) <$> last pre.

Lemma mapped_node m off b d : mapped_range m memoryPool PoolSize -> off <= PoolSize -> inside off b ->
  0 <= d <= 16 -> mapped_range m (b.1 + d) 8.
Proof.
  intros Hm ? (? & ? & ?) ?. change (cs_sizeof Block) with 24 in *.
  eapply mapped_range_mono; [exact Hm|lia..].
Qed.

(** Unlinking through [link pre], whichever of the two it is. *)
Lemma assign_ok s pre b rest off :
  mapped_range (heap s) memoryPool PoolSize -> off <= PoolSize ->
  separate (pre ++ b :: rest) -> Forall (inside off) (pre ++ b :: rest) ->
  chain (heap s) (freeList s) (pre ++ b :: rest) ->
  exists s', assign (link pre) (peek 8 (heap s) b.1) s = Ok (tt, s') /\
    chain (heap s') (freeList s') (pre ++ rest) /\ peek 8 (heap s') (b.1 + 16) = b.1 /\
    poolOffset s' = poolOffset s /\ written s' = written s /\
    mapped_range (heap s') memoryPool PoolSize /\ same_bytes pre (heap s) (heap s').
Proof.
  intros Hm Ho Hs Hi Hc. destruct pre as [|a pre _] using rev_ind.
  - destruct Hc as (? & ? & ? & ?). eexists. split; [done|]. simpl. repeat split; auto.
  - unfold link. rewrite last_snoc. simpl. rewrite <- !app_assoc in *. simpl in *.
    pose proof Hi as Hi'. apply Forall_app in Hi' as [_ Hi']. apply Forall_cons in Hi' as [Ha Hi'].
    apply Forall_cons in Hi' as [Hb _].
    assert (apart a b) as Hab.
    { clear -Hs. induction pre as [|c pre IH]; simpl in Hs; rewrite separate_cons in Hs.
      - destruct Hs as [H _]. by apply Forall_cons in H as [? _].
      - apply IH, Hs. }
    destruct (fields _ _ Ho Ha) as (-> & _ & _). eexists. split.
    { unfold on_heap, zoom, store64. rewrite store_ok; [done|].
      rewrite <- (Z.add_0_r a.1). by eapply (mapped_node _ off). }
    cbn [heap freeList poolOffset written]. pose proof Ha as (_ & Ha24 & _). pose proof Hb as (_ & Hb24 & _).
    change (cs_sizeof Block) with 24 in *. repeat split; auto with jsos.
    + by eapply chain_unlink.
    + rewrite peek_poke_other by (unfold apart in Hab; change (Z.of_nat 8) with 8; lia).
      clear -Hc. revert Hc. generalize (freeList s). induction pre as [|c pre IH]; intros p Hc; simpl in Hc.
      * tauto.
      * eapply IH. apply Hc.
    + intros x Hx. apply byte_at_poke_other. specialize (Hx a). change (Z.of_nat 8) with 8.
      rewrite elem_of_app, list_elem_of_singleton in Hx. specialize (Hx (or_intror eq_refl)). lia.
Qed.

Lemma load_node s off b d : mapped_range (heap s) memoryPool PoolSize -> off <= PoolSize ->
  inside off b -> 0 <= d <= 16 -> on_heap (load64 (b.1 + d)) s = Ok (peek 8 (heap s) (b.1 + d), s).
Proof.
  intros. unfold on_heap, zoom, load64. rewrite load_ok by (by eapply (mapped_node _ off)). by destruct s.
Qed.

Lemma chain_skip m pre b rest : forall p, chain m p (pre ++ b :: rest) ->
  peek 8 m (b.1 + 8) = b.2 /\ chain m (peek 8 m b.1) rest.
Proof.
  induction pre as [|c pre IH]; intros p Hc; simpl in Hc; [tauto|]. eapply IH, Hc.
Qed.

(** The search is first fit; it changes only a link of the list. *)
Lemma search_ok req off rest : forall fuel pre s,
  mapped_range (heap s) memoryPool PoolSize -> off <= PoolSize ->
  separate (pre ++ rest) -> Forall (inside off) (pre ++ rest) ->
  chain (heap s) (freeList s) (pre ++ rest) -> (length rest < fuel)%nat ->
  match first_fit req rest with
  | None => search fuel (link pre) (default 0 (fst <$> head rest)) req s = Ok (None, s)
  | Some (b, k) => exists s', search fuel (link pre) (default 0 (fst <$> head rest)) req s = Ok (Some b.1, s') /\
      chain (heap s') (freeList s') (pre ++ k) /\
      poolOffset s' = poolOffset s /\ written s' = written s /\
      mapped_range (heap s') memoryPool PoolSize /\ same_bytes (pre ++ rest) (heap s) (heap s')
  end.
Proof.
  induction rest as [|b rest IH]; intros [|fuel] pre s Hm Ho Hs Hi Hc Hf; simpl in Hf; try lia; [done|].
  destruct (chain_skip _ _ _ _ _ Hc) as [Hsz Hnext].
  assert (inside off b) as Hb by (apply Forall_app in Hi as [_ Hi]; by apply Forall_cons in Hi as [? _]).
  destruct (fields _ _ Ho Hb) as (Hn & Hz & Ha).
  pose proof (load_node s off b 0 Hm Ho Hb ltac:(lia)) as Hload. rewrite Z.add_0_r in Hload.
  cbn [first_fit head fmap option_fmap option_map default id search]. rewrite Hn, Hz, Ha.
  rewrite (proj2 (Z.eqb_neq b.1 0)) by (destruct Hb; lia).
  destruct (Z.leb_spec req b.2) as [Hr|Hr].
  - destruct (assign_ok s pre b rest off) as (s' & Has & Hc' & Had & Hoff & Hw & Hm' & Hsame); auto.
    exists s'. mrun (apply (load_node s off); auto; lia). rewrite Hsz, (proj2 (Z.leb_le _ _) Hr).
    mrun exact Hload. mrun exact Has. mrun (apply (load_node s' off); auto; lia).
    rewrite Had. repeat split; auto. intros x Hx. apply Hsame. intros c Hc0. apply Hx.
    rewrite elem_of_app. by left.
  - specialize (IH fuel (pre ++ [b]) s). rewrite <- !app_assoc in IH. cbn [app] in IH.
    specialize (IH Hm Ho Hs Hi Hc ltac:(lia)). unfold link in IH. rewrite last_snoc in IH.
    cbn [fmap option_fmap option_map] in IH. rewrite Hn in IH.
    replace (peek 8 (heap s) b.1) with (default 0 (fst <$> head rest))
      in Hload by (destruct rest; simpl in Hnext |- *; intuition).
    assert (forall r, search fuel (Some b.1) (default 0 (fst <$> head rest)) req s = r ->
      (sz ← on_heap (load64 (b.1 + 8));
       if req <=? sz then
         nx ← on_heap (load64 b.1); assign (link pre) nx ;; a ← on_heap (load64 (b.1 + 16)); mret (Some a)
       else nx ← on_heap (load64 b.1); search fuel (Some b.1) nx req) s = r) as Hstep.
    { intros r <-. mrun (apply (load_node s off); auto; lia). rewrite Hsz, (proj2 (Z.leb_gt _ _) Hr).
      mrun exact Hload. done. }
    destruct (first_fit req rest) as [[c k]|]; [|by apply Hstep].
    destruct IH as (s' & Hrun & Hc' & Hrest). exists s'. split; [by apply Hstep|]. by rewrite <- app_assoc in Hc'.
Qed.

Lemma total_length off l : Forall (inside off) l -> 24 * Z.of_nat (length l) <= total l.
Proof.
  induction 1 as [|b l (_ & Hb & _) _ IH]; simpl in *; [unfold total; simpl; lia|].
  change (total (b :: l)) with (b.2 + total l). change (cs_sizeof Block) with 24 in Hb. lia.
Qed.

(** The pool holds at most 21 blocks. *)
Lemma rep_length s live free : rep s live free -> (length live + length free <= 21)%nat.
Proof.
  intros [_ Ho _ Hi _ Ht]. pose proof (total_length _ _ Hi) as H. rewrite length_app in H.
  unfold PoolSize in Ho. lia.
Qed.

Lemma inside_mono off off' b : off <= off' -> inside off b -> inside off' b.
Proof. unfold inside. lia. Qed.

Section requests.
Variable sizeof_T : Z.
Variables (n req : Z).
Hypothesis Hreq : req = n * sizeof_T.
Hypothesis Hmin : cs_sizeof Block <= req.
Hypothesis Hmax : req < 2 ^ 63.

(** Carving a new block from the end of the pool. *)
Lemma rep_carve s w live free :
  rep s live free -> poolOffset s + req <= PoolSize ->
  rep (State (heap s) (freeList s) (poolOffset s + req) w) ((memoryPool + poolOffset s, req) :: live) free.
Proof.
  intros [Hm Ho Hc Hi Hs Ht] Hfit. change (cs_sizeof Block) with 24 in *. split; simpl; auto.
  - lia.
  - constructor; [split; simpl; [lia|]; split; [exact Hmin|lia]|].
    eapply Forall_impl; [exact Hi|]. intros. eapply inside_mono; [|done]. lia.
  - apply separate_cons. split; [|done]. eapply Forall_impl; [exact Hi|].
    intros b (_ & _ & ?). unfold apart. simpl. lia.
  - change (total (?b :: ?l)) with (b.2 + total l). simpl. lia.
Qed.

(** Handing out a free block, possibly larger than what is asked for. *)
Lemma rep_take s s' live free b k :
  rep s live free -> req <= b.2 -> free ≡ₚ b :: k ->
  mapped_range (heap s') memoryPool PoolSize -> poolOffset s' = poolOffset s ->
  chain (heap s') (freeList s') k -> rep s' ((b.1, req) :: live) k.
Proof.
  intros [Hm Ho Hc Hi Hs Ht] Hle Hp Hm' Ho' Hc'.
  assert (live ++ free ≡ₚ b :: live ++ k) as Hq by (by rewrite Hp, Permutation_middle).
  rewrite Hq in Hi, Hs, Ht. destruct b as [a z]. simpl in *.
  apply Forall_cons in Hi as [Hb Hi]. split; rewrite ?Ho'; auto.
  - constructor; [|done]. destruct Hb as (? & ? & ?). split; [done|]. split; [done|]. simpl in *. lia.
  - by apply (separate_shrink a z).
  - change (total (?b :: ?l)) with (b.2 + total l) in *. simpl in *. lia.
Qed.

(** What [allocate] does, on each of its three branches. *)
Lemma allocate_ok fuel s live free :
  rep s live free -> (length free < fuel)%nat ->
  match first_fit req free with
  | Some (b, k) => exists s', allocate memoryPool sizeof_T fuel n s = Ok (Some b.1, s') /\
      rep s' ((b.1, req) :: live) k /\ poolOffset s' = poolOffset s /\
      written s' = written s ++ [until_nul (AL n)] /\ same_bytes free (heap s) (heap s')
  | None => exists s',
      if poolOffset s + req <=? PoolSize then
        allocate memoryPool sizeof_T fuel n s = Ok (Some (memoryPool + poolOffset s), s') /\
        rep s' ((memoryPool + poolOffset s, req) :: live) free /\ poolOffset s' = poolOffset s + req /\
        written s' = written s ++ [until_nul (AL n)] /\ heap s' = heap s
      else
        allocate memoryPool sizeof_T fuel n s = Ok (None, s') /\
        rep s' live free /\ poolOffset s' = poolOffset s /\
        written s' = written s ++ [until_nul (AL n); until_nul BAD] /\ heap s' = heap s
  end.
Proof.
  intros Hrep Hf. change (cs_sizeof Block) with 24 in *. pose proof Hrep as [Hm Ho Hc Hi Hs Ht].
  unfold PoolSize in *. set (s1 := State (heap s) (freeList s) (poolOffset s) (written s ++ [until_nul (AL n)])).
  assert (forall r, search fuel None (freeList s1) req s1 = r ->
    allocate memoryPool sizeof_T fuel n s =
    match r with
    | Ok (Some a, s') => Ok (Some a, s')
    | Ok (None, s') => if 512 <? u64 (poolOffset s' + req) then (print BAD ;; mret None) s'
        else Ok (Some (u64 (memoryPool + poolOffset s')), set_poolOffset (u64 (poolOffset s' + req)) s')
    | Fault f => Fault f
    end) as Hrun.
  { intros r <-. unfold allocate. mrun done. fold s1. rewrite <- Hreq, (wrap_small 64 req) by (unfold in_range; lia).
    mrun done. unfold mbind, M_bind. destruct (search _ _ _ _ _) as [[[a|] s']|]; try done. simpl.
    by destruct (_ <? _). }
  apply Forall_app in Hi as [_ Hi].
  assert (separate free) as Hs'.
  { clear -Hs. induction live as [|b l IH]; [done|]. simpl in Hs. apply separate_cons in Hs as [_ ?]. auto. }
  pose proof (search_ok req (poolOffset s) free fuel [] s1 Hm (proj2 Ho) Hs' Hi Hc Hf) as Hsearch.
  replace (default 0 (fst <$> head free)) with (freeList s1) in Hsearch
    by (destruct free; simpl in Hc |- *; intuition).
  change (link []) with (@None Z) in Hsearch. cbn [app] in Hsearch.
  destruct (first_fit req free) as [[b k]|] eqn:Hff.
  - destruct Hsearch as (s' & Hse & Hc' & Ho' & Hw & Hm' & Hsame). exists s'.
    apply first_fit_Some in Hff as [Hle Hp]. split; [by rewrite (Hrun _ Hse)|].
    split_and!; auto. by eapply (rep_take s).
  - specialize (Hrun _ Hsearch). cbn [s1 poolOffset] in Hrun. rewrite wrap_small in Hrun by (unfold in_range; lia).
    destruct (Z.leb_spec (poolOffset s + req) 512), (Z.ltb_spec 512 (poolOffset s + req)); try lia.
    + eexists. split; [rewrite Hrun, wrap_small by (unfold in_range; lia); reflexivity|].
      split; [exact (rep_carve s _ live free Hrep H)|done].
    + eexists. split; [rewrite Hrun; reflexivity|]. simpl. rewrite <- app_assoc. split_and!; auto. by destruct Hrep.
Qed.

(** [deallocate] turns a live block into the first free one. *)
Lemma deallocate_ok s p live live' free :
  rep s live free -> live ≡ₚ (p, req) :: live' ->
  exists s', deallocate sizeof_T p n s = Ok (tt, s') /\ rep s' live' ((p, req) :: free) /\
    poolOffset s' = poolOffset s /\ written s' = written s ++ [until_nul (DE n)] /\
    same_bytes [(p, req)] (heap s) (heap s').
Proof.
  intros [Hm Ho Hc Hi Hs Ht] Hp. change (cs_sizeof Block) with 24 in *.
  assert (live ++ free ≡ₚ (p, req) :: live' ++ free) as Hq by (by rewrite Hp).
  pose proof Hi as Hi'. pose proof Hs as Hs'. rewrite Hq in Hi', Hs'.
  apply Forall_cons in Hi' as [Hb Hi']. apply separate_cons in Hs' as [Hap _].
  destruct (fields _ _ (proj2 Ho) Hb) as (Hn & Hz & Ha). cbn [fst] in Hn, Hz, Ha.
  assert (forall m d, mapped_range m memoryPool PoolSize -> 0 <= d <= 16 -> mapped_range m (p + d) 8) as Hmap
    by (intros; by apply (mapped_node _ (poolOffset s) (p, req)); try apply Ho).
  unfold deallocate. rewrite <- Hreq, wrap_small, Hn, Hz, Ha by (unfold in_range; lia).
  eexists. split.
  { mrun done. mrun (unfold on_heap, zoom, store64; rewrite store_ok; [done|]; apply Hmap; [exact Hm|lia]).
    mrun (unfold on_heap, zoom, store64; rewrite store_ok; [done|]; apply Hmap; [simpl; auto with jsos|lia]).
    mrun done. mrun (unfold on_heap, zoom, store64; rewrite store_ok; [done|]; rewrite <- (Z.add_0_r p);
      apply Hmap; [simpl; auto with jsos|lia]). done. }
  cbn [heap freeList poolOffset written set_freeList].
  set (m' := poke 8 _ p _). assert (same_bytes [(p, req)] (heap s) m') as Hsame.
  { intros x Hx. specialize (Hx (p, req)). rewrite list_elem_of_singleton in Hx. specialize (Hx eq_refl).
    simpl in Hx. unfold m'. rewrite !byte_at_poke_other; [done|lia..]. }
  split; [|by repeat split].
  assert (live' ++ (p, req) :: free ≡ₚ live ++ free) as Hq' by (rewrite Hq; by rewrite Permutation_middle).
  split; cbn [heap freeList poolOffset written]; rewrite ?Hq'; auto with jsos.
  - destruct Hb as (? & _ & ?). simpl in *. unfold PoolSize in *.
    assert (0 <= freeList s < 2 ^ 64) as Hfree.
    { destruct free as [|b k]; simpl in Hc; [lia|]. apply Forall_app in Hi' as [_ Hi'].
      apply Forall_cons in Hi' as [(? & ? & ?) _]. change (cs_sizeof Block) with 24 in *. lia. }
    cbn [chain fst snd]. unfold m'. rewrite peek_poke_same, (peek_poke_other 8 8 _ (p + 8)), peek_poke_same,
      !(peek_poke_other 8 8 _ (p + 16)), peek_poke_same, !wrap_small
      by (unfold in_range; change (Z.of_nat 8) with 8; lia).
    split_and!; auto. eapply free_chain_ext; [|exact Hc]. intros b x Hbf Hx. apply Hsame.
    intros c ->%list_elem_of_singleton. apply Forall_app in Hap as [_ Hap], Hi' as [_ Hi'].
    rewrite Forall_forall in Hap, Hi'. pose proof (Hap b Hbf) as Hapart. destruct (Hi' b Hbf) as (_ & H24 & _).
    change (cs_sizeof Block) with 24 in *. unfold apart in Hapart. simpl in *. lia.
Qed.

End requests.

Lemma separate_app l k b c : separate (l ++ k) -> b ∈ l -> c ∈ k -> apart b c.
Proof.
  intros Hs Hb Hc. apply list_elem_of_split in Hb as (l1 & l2 & ->).
  assert ((l1 ++ b :: l2) ++ k ≡ₚ b :: (l1 ++ l2) ++ k) as Hp by (by rewrite <- Permutation_middle).
  rewrite Hp, separate_cons in Hs. destruct Hs as [H _]. rewrite Forall_forall in H.
  apply H, elem_of_app. by right.
Qed.

(** A client's store into a live block. *)
Lemma rep_write s live free b off v :
  rep s live free -> b ∈ live -> 0 <= off < b.2 ->
  exists s', on_heap (store8 (b.1 + off) v) s = Ok (tt, s') /\ rep s' live free /\
    poolOffset s' = poolOffset s /\ heap s' = set_byte (heap s) (b.1 + off) v.
Proof.
  intros [Hm Ho Hc Hi Hs Ht] Hb Hoff. pose proof Hi as Hi'. rewrite Forall_forall in Hi'.
  destruct (Hi' b) as (? & ? & ?); [apply elem_of_app; by left|].
  eexists. split; [unfold on_heap, zoom; rewrite store8_ok by (apply Hm; lia); done|].
  split_and!; try done. split; simpl; auto with jsos. eapply free_chain_ext; [|exact Hc].
  intros c x Hcf Hx. rewrite byte_at_set_byte. case_decide as Hx'; [|done].
  pose proof (separate_app _ _ b c Hs Hb Hcf) as Hap. unfold apart in Hap.
  destruct (Hi' c) as (? & ? & ?); [apply elem_of_app; by right|].
  change (cs_sizeof Block) with 24 in *. lia.
Qed.

Lemma rep_read s live free b off :
  rep s live free -> b ∈ live -> 0 <= off < b.2 ->
  on_heap (load8 (b.1 + off)) s = Ok (byte_at (heap s) (b.1 + off), s).
Proof.
  intros [Hm Ho _ Hi _ _] Hb Hoff. rewrite Forall_forall in Hi.
  destruct (Hi b) as (? & ? & ?); [apply elem_of_app; by left|].
  unfold on_heap, zoom. rewrite load8_ok by (apply Hm; lia). by destruct s.
Qed.

End pool.

(** ** The abstract allocator *)

(** A client's request; a live block is named by its position. *)
Inductive op := Alloc (n : Z) | Free (i : nat) | Write (i : nat) (off v : Z) | Read (i : nat) (off : Z).

Section client.
Variable memoryPool : Z.
Variable sizeof_T : Z.

Definition blk (b : Z * Z) : block := (b.1, b.2 * sizeof_T).

(** The client keeps the addresses and sizes of its live blocks. *)
Definition client : Type := state * list (Z * Z).

Definition on_pool {A} : M state A -> M client A := zoom fst (fun s c => (s, c.2)).

Definition access {A} (i : nat) (off : Z) (f : Z -> M state A) : M client (option A) :=
  live ← gets snd;
  match live !! i with
  | Some (p, n) =>
      if (0 <=? off) && (off <? n * sizeof_T) then r ← on_pool (f (p + off)); mret (Some r)
      else mret None
  | None => mret None
  end.

Definition exec (fuel : nat) (o : op) : M client (option Z) :=
  match o with
  | Alloc n =>
      r ← on_pool (allocate memoryPool sizeof_T fuel n);
      match r with
      | Some p => modify (fun c => (c.1, (p, n) :: c.2)) ;; mret (Some p)
      | None => mret None
      end
  | Free i =>
      live ← gets snd;
      match live !! i with
      | Some (p, n) => on_pool (deallocate sizeof_T p n) ;; modify (fun c => (c.1, delete i c.2)) ;; mret None
      | None => mret None
      end
  | Write i off v => access i off (fun a => on_heap (store8 a v)) ;; mret None
  | Read i off => access i off (fun a => on_heap (load8 a))
  end.

Fixpoint exec_all (fuel : nat) (os : list op) : M client (list (option Z)) :=
  match os with
  | [] => mret []
  | o :: os => r ← exec fuel o; rs ← exec_all fuel os; mret (r :: rs)
  end.

(** What a client may rely on: the live blocks, the bytes it has stored in
    them, and how many bytes it has asked for so far. *)
Record abstract := Abstract {
  blocks : list (Z * Z);
  contents : gmap Z Z;
  requested : Z }.

Definition in_block (x : Z) (b : Z * Z) : Prop := b.1 <= x < b.1 + b.2 * sizeof_T.
#[export] Instance in_block_dec x b : Decision (in_block x b).
Proof. unfold in_block. apply _. Defined.

Inductive spec_step : op -> option Z -> abstract -> abstract -> Prop :=
| SAlloc n p a :
    (** a new block, inside the pool and apart from every live block *)
    memoryPool <= p -> p + n * sizeof_T <= memoryPool + PoolSize ->
    Forall (fun b => apart (blk (p, n)) (blk b)) (blocks a) ->
    spec_step (Alloc n) (Some p) a
      (Abstract ((p, n) :: blocks a) (contents a) (requested a + n * sizeof_T))
| SThrow n a :
    (** an exception, not before the requests exceed the pool *)
    PoolSize < requested a + n * sizeof_T -> spec_step (Alloc n) None a a
| SFree i b a :
    blocks a !! i = Some b ->
    spec_step (Free i) None a (Abstract (delete i (blocks a))
      (filter (fun xv => ~ in_block xv.1 b) (contents a)) (requested a))
| SWrite i b off v a :
    blocks a !! i = Some b -> 0 <= off < b.2 * sizeof_T ->
    spec_step (Write i off v) None a (Abstract (blocks a) (<[b.1 + off := u8 v]> (contents a)) (requested a))
| SRead i b off v a :
    (** a byte reads as it was last stored *)
    blocks a !! i = Some b -> 0 <= off < b.2 * sizeof_T ->
    (forall w, contents a !! (b.1 + off) = Some w -> v = w) ->
    spec_step (Read i off) (Some v) a a
| SNothing o a :
    (** no such block, or an offset outside it *)
    match o with
    | Alloc _ => False
    | Free i => blocks a !! i = None
    | Write i off _ | Read i off =>
        forall b, blocks a !! i = Some b -> ~ 0 <= off < b.2 * sizeof_T
    end -> spec_step o None a a.

Inductive spec_steps : list op -> list (option Z) -> abstract -> abstract -> Prop :=
| steps_nil a : spec_steps [] [] a a
| steps_cons o os r rs a b c :
    spec_step o r a b -> spec_steps os rs b c -> spec_steps (o :: os) (r :: rs) a c.

(** Blocks of at least the size of a list node. *)
Definition op_ok (o : op) : Prop :=
  match o with Alloc n => cs_sizeof Block <= n * sizeof_T < 2 ^ 63 | _ => True end.

(** ** The pool implements the abstract allocator *)
Hypothesis Hlow : 0 < memoryPool.
Hypothesis Hhigh : memoryPool + PoolSize <= 2 ^ 64.

Record sim (c : client) (a : abstract) (free : list block) : Prop := {
  sim_rep : rep memoryPool c.1 (blk <$> c.2) free;
  sim_blocks : blocks a = c.2;
  sim_requested : poolOffset c.1 <= requested a;
  sim_contents : forall x v, contents a !! x = Some v ->
    byte_at (heap c.1) x = v /\ exists b, b ∈ c.2 /\ in_block x b }.

Lemma on_pool_Ok {A} (m : M state A) c r s' : m c.1 = Ok (r, s') -> on_pool m c = Ok (r, (s', c.2)).
Proof. intros H. unfold on_pool, zoom. by rewrite H. Qed.

(** Bytes of live blocks are not in free blocks. *)
Lemma live_kept s live free m' x b :
  rep memoryPool s live free -> same_bytes free (heap s) m' -> b ∈ live -> b.1 <= x < b.1 + b.2 ->
  byte_at m' x = byte_at (heap s) x.
Proof.
  intros Hr Hsame Hb Hx. apply Hsame. intros c Hc.
  pose proof (separate_app _ _ b c (r_separate _ _ _ _ Hr) Hb Hc) as H. unfold apart in H. lia.
Qed.

Lemma blk_in b (l : list (Z * Z)) : b ∈ l -> blk b ∈ blk <$> l.
Proof. apply list_elem_of_fmap_2. Qed.

(** A new block satisfies the specification. *)
Lemma sim_alloc c a free free' n p s' :
  sim c a free -> rep memoryPool s' (blk <$> ((p, n) :: c.2)) free' ->
  poolOffset s' <= requested a + n * sizeof_T ->
  (forall x b, b ∈ c.2 -> in_block x b -> byte_at (heap s') x = byte_at (heap c.1) x) ->
  exists a', spec_step (Alloc n) (Some p) a a' /\ sim (s', (p, n) :: c.2) a' free'.
Proof.
  intros [Hr Hb Hq Hc] Hr' Ho Hk. pose proof Hr' as [_ Hoff _ Hi Hs _]. simpl in Hi, Hs.
  apply Forall_cons in Hi as [(? & ? & ?) _]. apply separate_cons in Hs as [Hap _].
  apply Forall_app in Hap as [Hap _]. cbn [blk fst snd] in *.
  eexists. split; [constructor; [done|lia|]|].
  - rewrite Hb. by apply (Forall_fmap blk) in Hap.
  - split; simpl; auto; [by rewrite Hb|]. intros x v Hx. destruct (Hc x v Hx) as (<- & b & Hbl & Hxb).
    split; [by eapply Hk|]. exists b. split; [by apply list_elem_of_further|done].
Qed.

Lemma exec_alloc c a free n fuel :
  sim c a free -> op_ok (Alloc n) -> (21 < fuel)%nat ->
  exists r c' a' free', exec fuel (Alloc n) c = Ok (r, c') /\ spec_step (Alloc n) r a a' /\ sim c' a' free'.
Proof.
  intros Hsim [Hmin Hmax] Hf. pose proof Hsim as [Hr Hb Hq Hc].
  pose proof (rep_length _ _ _ _ Hr) as Hlen. cbn [exec].
  pose proof (allocate_ok memoryPool Hlow Hhigh sizeof_T n _ eq_refl Hmin Hmax fuel _ _ _ Hr ltac:(lia)) as Hal.
  destruct (first_fit _ free) as [[b k]|]; [|destruct Hal as (s' & Hal); destruct (Z.leb_spec (poolOffset c.1 + n * sizeof_T) PoolSize)].
  - destruct Hal as (s' & Hrun & Hr' & Ho & _ & Hsame).
    destruct (sim_alloc c a free k n b.1 s') as (a' & Hstep & Hsim'); auto.
    + pose proof (r_offset _ _ _ _ Hr'). change (cs_sizeof Block) with 24 in Hmin. lia.
    + intros x d Hd Hx. eapply (live_kept c.1); [done..|by apply blk_in|done].
    + exists (Some b.1), (s', (b.1, n) :: c.2), a', k. split; [|done]. by mrun (apply on_pool_Ok; exact Hrun).
  - destruct Hal as (Hrun & Hr' & Ho & _ & Hheap).
    destruct (sim_alloc c a free free n (memoryPool + poolOffset c.1) s') as (a' & Hstep & Hsim'); auto.
    + lia.
    + intros. by rewrite Hheap.
    + exists (Some (memoryPool + poolOffset c.1)), (s', (memoryPool + poolOffset c.1, n) :: c.2), a', free.
      split; [|done]. by mrun (apply on_pool_Ok; exact Hrun).
  - destruct Hal as (Hrun & Hr' & Ho & _ & Hheap). exists None, (s', c.2), a, free.
    split; [by mrun (apply on_pool_Ok; exact Hrun)|]. split; [constructor; lia|].
    split; simpl; auto; [lia|]. by rewrite Hheap.
Qed.

Lemma block_size c a free b :
  sim c a free -> b ∈ c.2 -> cs_sizeof Block <= b.2 * sizeof_T < 2 ^ 63.
Proof.
  intros [[_ Ho _ Hi _ _] _ _ _] Hb. rewrite Forall_forall in Hi.
  destruct (Hi (blk b)) as (? & ? & ?); [apply elem_of_app; left; by apply blk_in|].
  cbn [blk fst snd] in *. unfold PoolSize in *. lia.
Qed.

Lemma exec_free c a free i fuel :
  sim c a free ->
  exists r c' a' free', exec fuel (Free i) c = Ok (r, c') /\ spec_step (Free i) r a a' /\ sim c' a' free'.
Proof.
  intros [Hr Hb Hq Hc]. cbn [exec]. destruct (c.2 !! i) as [[p n]|] eqn:Hi.
  2: { exists None, c, a, free. split; [mrun done; by rewrite Hi|]. split; [|done]. constructor. by rewrite Hb. }
  destruct (block_size c a free (p, n)) as [Hmin Hmax]; [done|by eapply list_elem_of_lookup_2|].
  assert (blk <$> c.2 ≡ₚ (p, n * sizeof_T) :: (blk <$> delete i c.2)) as Hp.
  { change (p, n * sizeof_T) with (blk (p, n)). rewrite <- fmap_cons. f_equiv. by apply delete_Permutation. }
  destruct (deallocate_ok memoryPool Hlow Hhigh sizeof_T n _ eq_refl Hmin Hmax _ p _ _ _ Hr Hp)
    as (s' & Hrun & Hr' & Ho & _ & Hsame).
  exists None, (s', delete i c.2), (Abstract (delete i (blocks a))
    (filter (fun xv => ~ in_block xv.1 (p, n)) (contents a)) (requested a)), ((p, n * sizeof_T) :: free).
  split; [mrun done; rewrite Hi; mrun (apply on_pool_Ok; exact Hrun); done|].
  split; [constructor; by rewrite Hb|]. split; simpl; auto; [by rewrite Hb|lia|].
  intros x v [Hx Hout]%map_lookup_filter_Some. destruct (Hc x v Hx) as (<- & b & Hbl & Hxb).
  assert (b ∈ delete i c.2) as Hbd.
  { rewrite (delete_Permutation _ _ _ Hi) in Hbl. apply elem_of_cons in Hbl as [->|]; [|done].
    by destruct Hout. }
  split; [|by exists b]. apply Hsame. intros d ->%list_elem_of_singleton. exact Hout.
Qed.

(** Where an access goes. *)
Lemma access_ok {A} c a free i off (f : Z -> M state A) :
  sim c a free ->
  (exists b, blocks a !! i = Some b /\ b ∈ c.2 /\ 0 <= off < b.2 * sizeof_T /\
    forall r s', f (b.1 + off) c.1 = Ok (r, s') -> access i off f c = Ok (Some r, (s', c.2))) \/
  (forall b, blocks a !! i = Some b -> ~ 0 <= off < b.2 * sizeof_T) /\ access i off f c = Ok (None, c).
Proof.
  intros [_ Hb _ _]. rewrite Hb. unfold access. destruct (c.2 !! i) as [[p n]|] eqn:Hi.
  2: { right. split; [done|]. mrun done. by rewrite Hi. }
  destruct ((0 <=? off) && (off <? n * sizeof_T)) eqn:Hoff.
  - left. exists (p, n). simpl. split_and!; [done|by eapply list_elem_of_lookup_2|lia..|].
    intros r s' Hf. mrun done. rewrite Hi, Hoff. mrun (apply on_pool_Ok; exact Hf). done.
  - right. split; [intros b [= <-]; simpl; lia|]. mrun done. by rewrite Hi, Hoff.
Qed.

Lemma exec_write c a free i off v fuel :
  sim c a free ->
  exists r c' a' free', exec fuel (Write i off v) c = Ok (r, c') /\ spec_step (Write i off v) r a a' /\ sim c' a' free'.
Proof.
  intros Hsim. cbn [exec].
  destruct (access_ok c a free i off (fun x => on_heap (store8 x v)) Hsim) as [(b & Hi & Hin & Hoff & Hrun)|[Hno Hrun]].
  2: { exists None, c, a, free. split; [by mrun exact Hrun|]. split; [by constructor|done]. }
  destruct Hsim as [Hr Hb Hq Hc].
  destruct (rep_write _ _ _ _ (blk b) off v Hr (blk_in _ _ Hin) Hoff) as (s' & Hst & Hr' & Ho & Hh).
  exists None, (s', c.2), (Abstract (blocks a) (<[b.1 + off := u8 v]> (contents a)) (requested a)), free.
  split; [mrun (apply Hrun; exact Hst); done|]. split; [by constructor|]. split; simpl; auto; [lia|].
  intros x w. rewrite Hh, byte_at_set_byte. cbn [blk fst]. case_decide as Hx.
  - subst. rewrite lookup_insert_eq. intros [= <-]. split; [done|]. exists b. unfold in_block. split; [done|lia].
  - rewrite lookup_insert_ne by congruence. apply Hc.
Qed.

Lemma exec_read c a free i off fuel :
  sim c a free ->
  exists r c' a' free', exec fuel (Read i off) c = Ok (r, c') /\ spec_step (Read i off) r a a' /\ sim c' a' free'.
Proof.
  intros Hsim. cbn [exec].
  destruct (access_ok c a free i off (fun x => on_heap (load8 x)) Hsim) as [(b & Hi & Hin & Hoff & Hrun)|[Hno Hrun]].
  2: { exists None, c, a, free. split; [exact Hrun|]. split; [by constructor|done]. }
  exists (Some (byte_at (heap c.1) (b.1 + off))), c, a, free. split_and!; [|apply (SRead i b); auto|done].
  - rewrite (Hrun _ _ (rep_read _ _ _ _ (blk b) off (sim_rep _ _ _ Hsim) (blk_in _ _ Hin) Hoff)). by destruct c.
  - intros w Hw. by apply (sim_contents _ _ _ Hsim).
Qed.

Lemma exec_ok c a free o fuel :
  sim c a free -> op_ok o -> (21 < fuel)%nat ->
  exists r c' a' free', exec fuel o c = Ok (r, c') /\ spec_step o r a a' /\ sim c' a' free'.
Proof.
  intros. destruct o; [by apply (exec_alloc c a free)|by apply (exec_free c a free)
    |by apply (exec_write c a free)|by apply (exec_read c a free)].
Qed.

Lemma exec_all_ok os : forall c a free fuel,
  sim c a free -> Forall op_ok os -> (21 < fuel)%nat ->
  exists rs c' a' free', exec_all fuel os c = Ok (rs, c') /\ spec_steps os rs a a' /\ sim c' a' free'.
Proof.
  induction os as [|o os IH]; intros c a free fuel Hsim Hos Hf; cbn [exec_all].
  { exists [], c, a, free. split; [done|]. split; [constructor|done]. }
  apply Forall_cons in Hos as [Ho Hos].
  destruct (exec_ok c a free o fuel Hsim Ho Hf) as (r & c1 & a1 & f1 & Hrun & Hstep & Hsim1).
  destruct (IH c1 a1 f1 fuel Hsim1 Hos Hf) as (rs & c2 & a2 & f2 & Hrun2 & Hsteps & Hsim2).
  exists (r :: rs), c2, a2, f2. split; [by mrun exact Hrun; mrun exact Hrun2|]. split; [by econstructor|done].
Qed.

End client.

(** The state the program starts in. *)
Record fresh (memoryPool : Z) (s : state) : Prop := {
  fresh_mapped : mapped_range (heap s) memoryPool PoolSize;
  fresh_list : freeList s = 0;
  fresh_offset : poolOffset s = 0 }.

Lemma fresh_rep memoryPool s : fresh memoryPool s -> rep memoryPool s [] [].
Proof.
  intros [Hm Hl Ho]. split; simpl; try done.
  - rewrite Ho. unfold PoolSize. lia.
  - constructor.
  - rewrite Ho. unfold total. simpl. lia.
Qed.

(** ** Frames of the generators

    Every generator has a frame of its own size, [size] times the unit
    [sizeof_T].  A frame is released before the one it was created in, so that
    the free list, as a list of sizes, is known at every point: a frame is
    either carved from the pool, when the list is empty, or its block is the
    head of the list. *)
Section frames.
Variable memoryPool : Z.
Hypothesis Hlow : 0 < memoryPool.
Hypothesis Hhigh : memoryPool + PoolSize <= 2 ^ 64.
Variables (sizeof_T ka kb kd kf : Z).
Variable steps : nat.
Hypothesis Hsteps : (21 < steps)%nat.

(** A frame of [k] units can hold a list node, and its size does not
    overflow. *)
Definition frame_ok (k : Z) : Prop := cs_sizeof Block <= k * sizeof_T < 2 ^ 63.
Hypothesis Ha : frame_ok ka.
Hypothesis Hb : frame_ok kb.
Hypothesis Hd : frame_ok kd.
Hypothesis Hf : frame_ok kf.

Abbreviation bytes k := (k * sizeof_T).

(** [body] writes [t], keeps the live blocks, and takes the sizes of the free
    list and the offset from the first to the second. *)
Definition runs (F : list Z) (o : Z) (body : M state unit) (F' : list Z) (o' : Z) (t : list (list Z)) : Prop :=
  forall s live free, rep memoryPool s live free -> free.*2 = F -> poolOffset s = o ->
  exists s' free', body s = Ok (tt, s') /\ rep memoryPool s' live free' /\ free'.*2 = F' /\ poolOffset s' = o' /\
    written s' = written s ++ t.

Lemma runs_ret F o : runs F o (mret tt) F o [].
Proof. intros s live free Hr HF Ho. exists s, free. by rewrite app_nil_r. Qed.

Lemma runs_print F o msg : runs F o (print msg) F o [until_nul msg].
Proof. intros s live free [] HF Ho. eexists _, free. split; [done|]. by split. Qed.

Lemma runs_seq F o F1 o1 F2 o2 m1 m2 t1 t2 :
  runs F o m1 F1 o1 t1 -> runs F1 o1 m2 F2 o2 t2 -> runs F o (m1 ;; m2) F2 o2 (t1 ++ t2).
Proof.
  intros H1 H2 s live free Hr HF Ho. destruct (H1 s live free Hr HF Ho) as (s1 & f1 & Hr1 & Hu1 & HF1 & Ho1 & Hw1).
  destruct (H2 s1 live f1 Hu1 HF1 Ho1) as (s2 & f2 & Hr2 & Hu2 & HF2 & Ho2 & Hw2). exists s2, f2.
  split; [mrun exact Hr1; exact Hr2|]. split_and!; try done. by rewrite Hw2, Hw1, app_assoc.
Qed.

Lemma runs_for F o body t n : forall i,
  (forall j, i <= j < i + Z.of_nat n -> runs F o (body j) F o (t j)) ->
  runs F o (for_loop n i body) F o (seqZ i (Z.of_nat n) ≫= t).
Proof.
  induction n as [|n IH]; intros i Hbody; [apply runs_ret|].
  cbn [for_loop]. rewrite seqZ_cons by lia. cbn [mbind list_bind].
  replace (Z.succ i) with (i + 1) by lia. replace (Z.pred (Z.of_nat (S n))) with (Z.of_nat n) by lia.
  eapply runs_seq; [apply Hbody; lia|]. apply IH. intros j Hj. apply Hbody. lia.
Qed.

(** The text of a generator run in a frame of [k] units. *)
Definition framed (k : Z) (t : list (list Z)) : list (list Z) := until_nul (AL k) :: t ++ [until_nul (DE k)].

Lemma release_frame k s p live free t0 t :
  frame_ok k -> rep memoryPool s ((p, bytes k) :: live) free -> written s = t0 ++ until_nul (AL k) :: t ->
  exists s', deallocate sizeof_T p k s = Ok (tt, s') /\ rep memoryPool s' live ((p, bytes k) :: free) /\
    poolOffset s' = poolOffset s /\ written s' = t0 ++ framed k t.
Proof.
  intros [Hmin Hmax] Hr Hw.
  destruct (deallocate_ok memoryPool Hlow Hhigh sizeof_T k _ eq_refl Hmin Hmax s p _ live free Hr (reflexivity _))
    as (s' & Hrun & Hr' & Ho' & Hw' & _).
  exists s'. split_and!; try done. rewrite Hw', Hw. unfold framed. by rewrite <- app_assoc.
Qed.

(** The first frame of its kind is carved from the pool. *)
Lemma runs_carve k o o' F' body t :
  frame_ok k -> o + bytes k <= PoolSize -> runs [] (o + bytes k) body F' o' t ->
  runs [] o (co_yield_from memoryPool sizeof_T steps k body) (bytes k :: F') o' (framed k t).
Proof.
  intros Hk Hroom Hbody s live free Hr HF Ho. pose proof Hk as [Hmin Hmax].
  assert (free = []) as -> by (by destruct free).
  destruct (allocate_ok memoryPool Hlow Hhigh sizeof_T k _ eq_refl Hmin Hmax steps s live [] Hr ltac:(simpl; lia))
    as (s1 & H1). rewrite Ho, (proj2 (Z.leb_le _ _)) in H1 by lia. destruct H1 as (Hr1 & Hu1 & Ho1 & Hw1 & _).
  destruct (Hbody s1 _ [] Hu1 eq_refl ltac:(lia)) as (s2 & f2 & Hr2 & Hu2 & HF2 & Ho2 & Hw2).
  destruct (release_frame k s2 _ live f2 (written s) t Hk Hu2) as (s3 & Hr3 & Hu3 & Ho3 & Hw3).
  { rewrite Hw2, Hw1. by rewrite <- app_assoc. }
  eexists s3, _. split; [unfold co_yield_from; mrun exact Hr1; mrun exact Hr2; exact Hr3|].
  split; [exact Hu3|]. split_and!; [by rewrite fmap_cons, HF2|lia|done].
Qed.

(** Later ones take the block that was released last. *)
Lemma runs_reuse k F F' o o' body t :
  frame_ok k -> (length F < 21)%nat -> runs F o body F' o' t ->
  runs (bytes k :: F) o (co_yield_from memoryPool sizeof_T steps k body) (bytes k :: F') o' (framed k t).
Proof.
  intros Hk Hlen Hbody s live free Hr HF Ho. pose proof Hk as [Hmin Hmax].
  destruct free as [|[p z] free]; [done|]. rewrite fmap_cons in HF. injection HF as Hz HF. cbn [snd] in Hz. subst z.
  pose proof (allocate_ok memoryPool Hlow Hhigh sizeof_T k _ eq_refl Hmin Hmax steps s live ((p, bytes k) :: free) Hr
    ltac:(rewrite <- HF, length_fmap in Hlen; simpl; lia)) as H1.
  cbn [first_fit snd] in H1. rewrite Z.leb_refl in H1. cbn [fst] in H1.
  destruct H1 as (s1 & Hr1 & Hu1 & Ho1 & Hw1 & _).
  destruct (Hbody s1 _ free Hu1 HF ltac:(lia)) as (s2 & f2 & Hr2 & Hu2 & HF2 & Ho2 & Hw2).
  destruct (release_frame k s2 _ live f2 (written s) t Hk Hu2) as (s3 & Hr3 & Hu3 & Ho3 & Hw3).
  { rewrite Hw2, Hw1. by rewrite <- app_assoc. }
  eexists s3, _. split; [unfold co_yield_from; mrun exact Hr1; mrun exact Hr2; exact Hr3|].
  split; [exact Hu3|]. split_and!; [by rewrite fmap_cons, HF2|lia|done].
Qed.

(** The output of the generators, with their frames. *)
Definition function_text (bus_text : Z -> list (list Z)) (b d f : Z) : list (list Z) :=
  until_nul (message b d f) ::
  if (b =? 0) && (d =? 0) && (f =? 0) then framed kb (bus_text 8) else [].

Definition device_text (bus_text : Z -> list (list Z)) (b d : Z) : list (list Z) :=
  framed kf (function_text bus_text b d 0) ++
  (seqZ 1 7 ≫= fun f => framed kf (function_text bus_text b d f)).

Fixpoint bus_text (fuel : nat) (b : Z) : list (list Z) :=
  match fuel with
  | O => []
  | S fuel => seqZ 0 32 ≫= fun d => framed kd (device_text (bus_text fuel) b d)
  end.

Definition main_text (fuel : nat) : list (list Z) :=
  (chars "hi" ++ [10]) :: framed ka (framed kb (bus_text fuel 0)).

Abbreviation enumerate_function := (enumerate_function memoryPool sizeof_T steps kb).
Abbreviation enumerate_device := (enumerate_device memoryPool sizeof_T steps kb kf).
Abbreviation enumerate_pci_bus := (enumerate_pci_bus memoryPool sizeof_T steps kb kd kf).

(** A function that is not (0, 0, 0) prints one line. *)
Lemma function_line F o gen t b d f :
  (b = 0 -> d = 0 -> f <> 0) -> runs F o (enumerate_function gen b d f) F o (function_text t b d f).
Proof.
  intros Hn. unfold StaticPool.enumerate_function, function_text. change (?x :: ?l) with ([x] ++ l).
  eapply runs_seq; [apply runs_print|]. unfold when.
  destruct ((b =? 0) && (d =? 0) && (f =? 0)) eqn:E; [lia|apply runs_ret].
Qed.

(** The functions of a device, the first of which leaves [F] behind. *)
Lemma device_runs F o o' F' gen t b d :
  (length F' < 21)%nat ->
  runs F o (co_yield_from memoryPool sizeof_T steps kf (enumerate_function gen b d 0)) (bytes kf :: F') o'
    (framed kf (function_text t b d 0)) ->
  runs F o (enumerate_device gen b d) (bytes kf :: F') o' (device_text t b d).
Proof.
  intros Hlen H0. unfold StaticPool.enumerate_device, device_text. eapply runs_seq; [exact H0|].
  apply (runs_for _ _ _ (fun f => framed kf (function_text t b d f)) 7 1). intros f Hfr.
  apply runs_reuse; [done|done|]. apply function_line. lia.
Qed.

(** The devices of a bus, the first of which leaves [F] behind. *)
Lemma bus_runs fuel F o o' F' b :
  (length F' < 20)%nat ->
  runs F o (co_yield_from memoryPool sizeof_T steps kd (enumerate_device (enumerate_pci_bus fuel) b 0))
    (bytes kd :: bytes kf :: F') o' (framed kd (device_text (bus_text fuel) b 0)) ->
  runs F o (enumerate_pci_bus (S fuel) b) (bytes kd :: bytes kf :: F') o' (bus_text (S fuel) b).
Proof.
  intros Hlen H0. cbn [StaticPool.enumerate_pci_bus bus_text].
  match goal with |- runs _ _ (for_loop 32 0 ?g) _ _ _ => change (for_loop 32 0 g) with (g 0 ;; for_loop 31 (0 + 1) g) end.
  rewrite seqZ_cons by lia. cbn [mbind list_bind].
  eapply runs_seq; [exact H0|]. change (Z.pred 32) with (Z.of_nat 31). change (Z.succ 0) with (0 + 1).
  apply (runs_for _ _ _ (fun d => framed kd (device_text (bus_text fuel) b d)) 31 (0 + 1)). intros d Hdr.
  apply runs_reuse; [done|simpl; lia|]. apply device_runs; [lia|]. apply runs_reuse; [done|lia|].
  apply function_line. lia.
Qed.

(** Bus 8, whose frames are carved. *)
Lemma bus8_runs fuel o :
  o + bytes kd + bytes kf <= PoolSize ->
  runs [] o (enumerate_pci_bus (S fuel) 8) [bytes kd; bytes kf] (o + bytes kd + bytes kf) (bus_text (S fuel) 8).
Proof.
  intros Hroom. pose proof Hf as [Hmin _]. change (cs_sizeof Block) with 24 in Hmin.
  apply bus_runs; [simpl; lia|]. apply runs_carve; [done|lia|]. apply device_runs; [simpl; lia|].
  apply runs_carve; [done|lia|]. apply function_line. lia.
Qed.

Lemma main_runs fuel s :
  fresh memoryPool s -> bytes ka + 2 * (bytes kb + bytes kd + bytes kf) <= PoolSize ->
  exists s', main memoryPool sizeof_T steps ka kb kd kf (S (S fuel)) s = Ok (42, s') /\
    written s' = written s ++ main_text (S (S fuel)).
Proof.
  intros Hs Hroom. pose proof Ha as [Ma _]. pose proof Hb as [Mb _]. pose proof Hd as [Md _]. pose proof Hf as [Mf _].
  change (cs_sizeof Block) with 24 in Ma, Mb, Md, Mf.
  assert (exists F o, runs [] 0 (print (chars "hi" ++ [10; 0]) ;;
    co_yield_from memoryPool sizeof_T steps ka (attached_devices memoryPool sizeof_T steps kb kd kf (S (S fuel))))
    F o (main_text (S (S fuel)))) as (F & o & Hruns).
  { exists [bytes ka; bytes kb; bytes kd; bytes kf; bytes kb; bytes kd; bytes kf]. eexists. eapply (runs_seq _ _ _ _ _ _ _ _ [chars "hi" ++ [10]]); [apply runs_print|].
    apply runs_carve; [done|lia|]. apply runs_carve; [done|lia|]. apply bus_runs; [simpl; lia|].
    apply runs_carve; [done|lia|]. apply device_runs; [simpl; lia|]. apply runs_carve; [done|lia|].
    unfold StaticPool.enumerate_function, function_text. change (?x :: ?l) with ([x] ++ l).
    eapply runs_seq; [apply runs_print|]. apply runs_carve; [done|lia|]. apply bus8_runs. lia. }
  destruct (Hruns s [] []) as (s' & f & Hrun & _ & _ & _ & Hw); [by apply fresh_rep|done|by apply (fresh_offset memoryPool)|].
  exists s'. split; [|done].
  apply bind_inv in Hrun as (u & s1 & H1 & H2). unfold main. mrun exact H1. mrun exact H2. done.
Qed.

End frames.
End StaticPoolFacts.

(** ** Properties *)
Module StaticPoolProps.
Import StaticPool StaticPoolFacts.

(** C12. Refinement: for every sequence of allocations, releases, stores and
    loads of a client whose blocks hold at least a list node, the pool with
    its free list threaded through released blocks returns normally and
    behaves as the abstract allocator: every new block lies in the pool and
    apart from all live ones, a stored byte reads back until its block is
    released, and no allocation throws before the bytes asked for exceed the
    pool. *)
Theorem static_pool_refines memoryPool sizeof_T s os fuel :
  0 < memoryPool -> memoryPool + PoolSize <= 2 ^ 64 -> fresh memoryPool s ->
  Forall (op_ok sizeof_T) os -> (21 < fuel)%nat ->
  exists rs c a, exec_all memoryPool sizeof_T fuel os (s, []) = Ok (rs, c) /\
    spec_steps memoryPool sizeof_T os rs (Abstract [] ∅ 0) a /\ blocks a = c.2.
Proof.
  intros Hl Hh Hs Hos Hf.
  destruct (exec_all_ok memoryPool sizeof_T Hl Hh os (s, []) (Abstract [] ∅ 0) [] fuel)
    as (rs & c & a & free & Hrun & Hsteps & Hsim); auto.
  - split; simpl; [by apply fresh_rep|done|by rewrite (fresh_offset _ _ Hs)|done].
  - exists rs, c, a. split_and!; [done..|by apply sim_blocks in Hsim].
Qed.

Definition sample_state : state := State (Mem [(0x1000, 512)] ∅) 0 0 [].

Lemma sample_fresh : fresh 0x1000 sample_state.
Proof. split; [by apply mapped_range_check|done..]. Qed.

Lemma static_pool_refines_witness :
  exists c a, exec_all 0x1000 16 22 [Alloc 2; Alloc 3; Write 0 1 7; Free 1; Alloc 2; Read 1 1] (sample_state, []) =
    Ok ([Some 0x1000; Some 0x1020; None; None; Some 0x1000; Some 7], c) /\
    spec_steps 0x1000 16 [Alloc 2; Alloc 3; Write 0 1 7; Free 1; Alloc 2; Read 1 1]
      [Some 0x1000; Some 0x1020; None; None; Some 0x1000; Some 7] (Abstract [] ∅ 0) a.
Proof.
  destruct (static_pool_refines 0x1000 16 sample_state [Alloc 2; Alloc 3; Write 0 1 7; Free 1; Alloc 2; Read 1 1] 22)
    as (rs & c & a & Hrun & Hsteps & _).
  - lia.
  - unfold PoolSize. lia.
  - apply sample_fresh.
  - repeat constructor; vm_compute; done.
  - lia.
  - assert (rs = [Some 0x1000; Some 0x1020; None; None; Some 0x1000; Some 7]) as ->.
    { vm_compute in Hrun. by inversion Hrun. }
    exists c, a. split; [exact Hrun|exact Hsteps].
Defined.

(** The functions of a bus, in order. *)
Definition grid (b : Z) : list (Z * Z * Z) := d ← seqZ 0 32; f ← seqZ 0 8; [(b, d, f)].

(** The order of the enumeration: bus 8 lies behind function (0, 0, 0). *)
Definition device_order : list (Z * Z * Z) := (0, 0, 0) :: grid 8 ++ tail (grid 0).

Definition line (d : Z * Z * Z) : list Z := until_nul (message d.1.1 d.1.2 d.2).

(** A line of the loop of [main] begins with a digit, one of the allocator
    or of the greeting with a letter. *)
Definition is_line (t : list Z) : bool :=
  match t with c :: _ => (48 <=? c) && (c <=? 57) | [] => false end.

(** *** The lines of [main] do not depend on the sizes of the frames *)
Definition same_lines (t t' : list (list Z)) : Prop := filter is_line t = filter is_line t'.

Lemma lines_app t1 t2 u1 u2 : same_lines t1 u1 -> same_lines t2 u2 -> same_lines (t1 ++ t2) (u1 ++ u2).
Proof. unfold same_lines. intros H1 H2. by rewrite !filter_app, H1, H2. Qed.

Lemma lines_framed k k' t t' : same_lines t t' -> same_lines (framed k t) (framed k' t').
Proof.
  intros H. unfold framed. change (?x :: ?l) with ([x] ++ l).
  assert (forall k, same_lines [until_nul (AL k)] [] /\ same_lines [until_nul (DE k)] []) as He by done.
  apply lines_app; [etrans; [apply He|symmetry; apply He]|].
  apply lines_app; [done|etrans; [apply He|symmetry; apply He]].
Qed.

Lemma lines_bind l (f g : Z -> list (list Z)) : (forall x, same_lines (f x) (g x)) -> same_lines (l ≫= f) (l ≫= g).
Proof. intros H. induction l as [|x l IH]; [done|]. apply lines_app; [apply H|exact IH]. Qed.

Lemma device_lines kb kf kb' kf' t t' b d :
  same_lines (t 8) (t' 8) -> same_lines (device_text kb kf t b d) (device_text kb' kf' t' b d).
Proof.
  intros Ht. assert (forall f, same_lines (framed kf (function_text kb t b d f)) (framed kf' (function_text kb' t' b d f))) as H.
  { intros f. apply lines_framed. unfold function_text. change (?x :: ?l) with ([x] ++ l).
    apply lines_app; [done|]. destruct (_ && _); [|done]. by apply lines_framed. }
  apply lines_app; [apply H|]. by apply lines_bind.
Qed.

Lemma bus_lines kb kd kf kb' kd' kf' fuel : forall b,
  same_lines (bus_text kb kd kf fuel b) (bus_text kb' kd' kf' fuel b).
Proof.
  induction fuel as [|fuel IH]; intros b; [done|]. apply lines_bind. intros d. apply lines_framed. by apply device_lines.
Qed.

Lemma main_lines ka kb kd kf ka' kb' kd' kf' fuel :
  same_lines (main_text ka kb kd kf fuel) (main_text ka' kb' kd' kf' fuel).
Proof.
  unfold main_text. change (?x :: ?l) with ([x] ++ l). apply lines_app; [done|].
  do 2 apply lines_framed. apply bus_lines.
Qed.

(** C34. When the pool holds one frame of [attached_devices] and two of each other
    generator, whatever their sizes (each at least a list node's), the recursive
    generators run to the end without an exception, and the lines that [main]
    prints are those of all 512 functions, each once: function (0, 0, 0), then
    every function of bus 8, then the other functions of bus 0. *)
Theorem generators_in_pool memoryPool sizeof_T ka kb kd kf s steps :
  0 < memoryPool -> memoryPool + PoolSize <= 2 ^ 64 -> fresh memoryPool s -> written s = [] -> (21 < steps)%nat ->
  Forall (fun k => cs_sizeof Block <= k * sizeof_T) [ka; kb; kd; kf] ->
  (ka + 2 * (kb + kd + kf)) * sizeof_T <= PoolSize ->
  exists s', main memoryPool sizeof_T steps ka kb kd kf 2 s = Ok (42, s') /\
    filter is_line (written s') = line <$> device_order.
Proof.
  intros Hl Hh Hs Hw Hst Hmin Hroom. rewrite !Forall_cons in Hmin. destruct Hmin as (Ma & Mb & Md & Mf & _).
  assert (forall k, cs_sizeof Block <= k * sizeof_T -> k * sizeof_T <= PoolSize -> frame_ok sizeof_T k) as Hok
    by (intros k ? H; split; [done|unfold PoolSize in H; lia]).
  change (cs_sizeof Block) with 24 in *.
  destruct (main_runs memoryPool Hl Hh sizeof_T ka kb kd kf steps Hst) with (fuel := 0%nat) (s := s)
    as (s' & Hrun & Ht); [apply Hok; lia..|done|lia|].
  exists s'. split; [exact Hrun|]. rewrite Ht, Hw. clear. cbn [app].
  rewrite (main_lines _ _ _ _ 2 2 2 2). vm_compute. reflexivity.
Qed.

Lemma generators_in_pool_witness :
  exists s', main 0x1000 16 22 3 4 5 5 2 sample_state = Ok (42, s') /\
    filter is_line (written s') = line <$> device_order.
Proof.
  apply (generators_in_pool 0x1000 16 3 4 5 5 sample_state 22); try (vm_compute; done); try lia; [apply sample_fresh|].
  repeat constructor; vm_compute; done.
Defined.

(** A list node does not fit in a released [DeviceBase] of 3 bytes: releasing
    one overwrites the live block behind it. *)
Theorem small_block_overwrites :
  exists v c, exec_all 0x1000 3 22 [Alloc 1; Alloc 1; Write 0 0 7; Free 1; Read 0 0] (sample_state, []) =
    Ok ([Some 0x1000; Some 0x1003; None; None; Some v], c) /\ v <> 7.
Proof. eexists _, _. split; [vm_compute; reflexivity|done]. Qed.

(** A block that is reused for a smaller request keeps only the size of that
    request: with nothing live, the pool may have no room left. *)
Theorem reused_block_shrinks :
  exists c, exec_all 0x1000 16 22 [Alloc 32; Free 0; Alloc 2; Free 0; Alloc 3] (sample_state, []) =
    Ok ([Some 0x1000; None; Some 0x1000; None; None], c) /\ c.2 = [].
Proof. eexists. split; [vm_compute; reflexivity|done]. Qed.

(** The lines of the functions of one device are all the same. *)
Theorem message_without_function b d f : 0 <= f < 10 -> message b d f = message b d 0.
Proof. intros Hf. unfold message. by rewrite (Z.div_small f 10) by done. Qed.

End StaticPoolProps.
