(* ===== verification/Apic.v ===== *)
(** kernel/arch/x86: ioapic.c, lapic.c, timer.c and their headers: interrupt
    routing, the local APIC in both access modes, and the calibration of its
    timer against the PIT.

    The I/O APIC is a register file behind a select register and a data
    window; the local APIC is reached by model-specific registers or by
    memory.  Port output is recorded in order. *)
From S2P Require Import Prelude Layout Memory Interrupts.
Import Idt.

(** ** ioapic.h, ioapic.c *)
Module Ioapic.

Definition mmap_ioapic_t : list placed :=
  layout true [Plain "ioregsel" cu8; Plain "rsrv" (carray cu8 7); Plain "iowin" cu32].

Definition IOAPIC_ID_REG_OFFSET : Z := 0x00.
Definition IOAPIC_VER_REG_OFFSET : Z := 0x01.
Definition IOAPIC_ARB_REG_OFFSET : Z := 0x02.
Definition IOAPIC_REDIRECT_TABLE_OFFSET : Z := 0x10.

Definition ioapicid_t : list placed :=
  layout false [Bits "rsrv" cu32 24; Bits "id" cu8 4; Bits "rsrv2" cu8 4].
Definition ioapicver_t : list placed :=
  layout false [Plain "version" cu8; Plain "rsrv" cu8; Plain "max_redir_entry" cu8; Plain "rsrv2" cu8].
Definition ioapicarb_t : list placed :=
  layout false [Bits "rsrv" cu32 24; Bits "arbitration_id" cu8 4; Bits "rsrv2" cu8 4].

Inductive dest_mode := DEST_MODE_PHYSICAL | DEST_MODE_LOGICAL.
Definition dest_mode_value (d : dest_mode) : Z :=
  match d with DEST_MODE_PHYSICAL => 0 | DEST_MODE_LOGICAL => 1 end.
Inductive pin_polarity := PIN_POLARITY_ACTIVE_HIGH | PIN_POLARITY_ACTIVE_LOW.
Definition pin_polarity_value (p : pin_polarity) : Z :=
  match p with PIN_POLARITY_ACTIVE_HIGH => 0 | PIN_POLARITY_ACTIVE_LOW => 1 end.
Inductive trigger_mode_t := TRIGGER_MODE_LEVEL_TRIGGERED | TRIGGER_MODE_EDGE_TRIGGERED.
Definition trigger_mode_value (t : trigger_mode_t) : Z :=
  match t with TRIGGER_MODE_LEVEL_TRIGGERED => 0 | TRIGGER_MODE_EDGE_TRIGGERED => 1 end.

Definition redir_lo_members : list member :=
  [Bits "vector" cu32 8; Bits "delivery_mode" cu32 3; Bits "destination_mode" cenum 1;
   Bits "delivery_status" cu32 1; Bits "polarity" cenum 1; Bits "remote_irr" cu32 1;
   Bits "trigger_mode" cenum 1; Bits "mask" cu32 1; Bits "rsrv" cu32 15].
Definition ioapic_redir_entry_lo : list placed := layout false redir_lo_members.
Definition ioapic_redir_entry_hi : list placed :=
  layout false [Bits "rsrv" cu32 24; Plain "destination" cu8].

(** The device: its registers and the selected one.  [window] is the offset
    of the data window from the base of the device; accesses at offsets other
    than 0 and [window] have no effect.  ioapic.h reaches for the window at
    offset 8; the device has it at offset 16. *)
Record dev := Dev { selected : Z; regs : gmap Z Z }.

Definition reg (d : dev) (i : Z) : Z := default 0 (regs d !! i).

Section ioapic.
Context (window : Z).
(** The offset added to an IRQ, a name no header declares. *)
Context (IRQ_INTERRUPT_OFFSET : Z).

Definition mmio_read (off : Z) : M dev Z :=
  d ← get; mret (if off =? 0 then selected d else if off =? window then reg d (selected d) else 0).
Definition mmio_write (off v : Z) : M dev unit :=
  modify (fun d =>
    if off =? 0 then Dev (u8 v) (regs d)
    else if off =? window then Dev (selected d) (<[selected d := u32 v]> (regs d)) else d).

Definition ioapic_read_register (offset : Z) : M dev Z :=
  mmio_write (offsetof mmap_ioapic_t "ioregsel") (u8 offset) ;;
  mmio_read (offsetof mmap_ioapic_t "iowin").

Definition ioapic_write_register (offset value : Z) : M dev unit :=
  mmio_write (offsetof mmap_ioapic_t "ioregsel") (u8 offset) ;;
  mmio_write (offsetof mmap_ioapic_t "iowin") (u32 value).

(** From the point where [mmio_ioapic_base] is set. *)
Definition init_ioapic : M dev unit :=
  ver ← ioapic_read_register IOAPIC_VER_REG_OFFSET;
  let maxirq := fget ioapicver_t "max_redir_entry" ver + 1 in
  let redir_entry_lo := finit ioapic_redir_entry_lo
    [("polarity", pin_polarity_value PIN_POLARITY_ACTIVE_HIGH);
     ("trigger_mode", trigger_mode_value TRIGGER_MODE_EDGE_TRIGGERED);
     ("mask", 1)] in
  let redir_entry_hi := finit ioapic_redir_entry_hi [("destination", 0)] in
  for_loop (Z.to_nat maxirq) 0 (fun irq =>
    let redir_entry_lo := fset ioapic_redir_entry_lo "vector" (IRQ_INTERRUPT_OFFSET + irq) redir_entry_lo in
    ioapic_write_register (IOAPIC_REDIRECT_TABLE_OFFSET + 2 * irq) redir_entry_lo ;;
    ioapic_write_register (IOAPIC_REDIRECT_TABLE_OFFSET + 2 * irq + 1) redir_entry_hi).

Definition ioapic_route (irq lapicid masked : Z) : M dev unit :=
  let redir_entry_lo := finit ioapic_redir_entry_lo
    [("vector", IRQ_INTERRUPT_OFFSET + irq);
     ("delivery_mode", 0);
     ("destination_mode", dest_mode_value DEST_MODE_PHYSICAL);
     ("polarity", pin_polarity_value PIN_POLARITY_ACTIVE_HIGH);
     ("trigger_mode", trigger_mode_value TRIGGER_MODE_EDGE_TRIGGERED);
     ("mask", masked)] in
  let redir_entry_hi := finit ioapic_redir_entry_hi [("destination", lapicid)] in
  ioapic_write_register (IOAPIC_REDIRECT_TABLE_OFFSET + 2 * irq) redir_entry_lo ;;
  ioapic_write_register (IOAPIC_REDIRECT_TABLE_OFFSET + 2 * irq + 1) redir_entry_hi.

Definition ioapic_setmask (irq mask : Z) : M dev unit :=
  raw ← ioapic_read_register (IOAPIC_REDIRECT_TABLE_OFFSET + 2 * irq);
  let redir_entry_lo := fset ioapic_redir_entry_lo "mask" mask raw in
  ioapic_write_register (IOAPIC_REDIRECT_TABLE_OFFSET + 2 * irq) redir_entry_lo.

End ioapic.

End Ioapic.

(** ** lapic.h, lapic.c *)
Module Lapic.

Definition lapic_xapic_id_reg_t : list placed := layout true [Bits "rsrv0" cu32 24; Plain "lapic_id" cu8].

Definition lapic_spurious_interrupt_vector_reg_t : list placed := layout true
  [Plain "vector" cu8; Bits "apic_software_enable" cu8 1; Bits "no_focus_processor_checking" cu8 1;
   Bits "rsrv0" cu8 2; Bits "no_eoi_broadcast" cu8 1; Bits "rsrv2" cu32 19].

Inductive lapic_timer_mode :=
| LAPIC_TIMER_MODE_ONESHOT | LAPIC_TIMER_MODE_PERIODIC | LAPIC_TIMER_MODE_TSC_DEADLINE.
Definition timer_mode_value (m : lapic_timer_mode) : Z :=
  match m with
  | LAPIC_TIMER_MODE_ONESHOT => 0 | LAPIC_TIMER_MODE_PERIODIC => 1 | LAPIC_TIMER_MODE_TSC_DEADLINE => 2
  end.

Definition lapic_timer_lvt_reg_t : list placed := layout false
  [Bits "vector" cu8 8; Bits "rsrv0" cu8 4; Bits "delivery_status" cu8 1; Bits "rsrv1" cu8 3;
   Bits "mask" cu8 1; Bits "mode" cenum 2; Bits "rsrv2" cu16 13].

Inductive lapic_timer_divider :=
| LAPIC_TIMER_DIVIDER_2 | LAPIC_TIMER_DIVIDER_4 | LAPIC_TIMER_DIVIDER_8 | LAPIC_TIMER_DIVIDER_16
| LAPIC_TIMER_DIVIDER_32 | LAPIC_TIMER_DIVIDER_64 | LAPIC_TIMER_DIVIDER_128 | LAPIC_TIMER_DIVIDER_1.
Definition timer_divider_value (d : lapic_timer_divider) : Z :=
  match d with
  | LAPIC_TIMER_DIVIDER_2 => 0 | LAPIC_TIMER_DIVIDER_4 => 1 | LAPIC_TIMER_DIVIDER_8 => 2
  | LAPIC_TIMER_DIVIDER_16 => 3 | LAPIC_TIMER_DIVIDER_32 => 8 | LAPIC_TIMER_DIVIDER_64 => 9
  | LAPIC_TIMER_DIVIDER_128 => 10 | LAPIC_TIMER_DIVIDER_1 => 11
  end.

Definition LAPIC_ID_REG_OFFSET : Z := 0x20.
Definition LAPIC_SPURIOUS_INTERRUPT_VECTOR_REG_OFFSET : Z := 0xF0.
Definition LAPIC_TIMER_LVT_REG_OFFSET : Z := 0x320.
Definition LAPIC_TIMER_INITIAL_COUNT_REG_OFFSET : Z := 0x380.
Definition LAPIC_TIMER_CURRENT_COUNT_REGISTER_OFFSET : Z := 0x390.
Definition LAPIC_TIMER_DIVIDE_CONFIG_REG_OFFSET : Z := 0x3E0.
Definition LAPIC_EOI_REG_OFFSET : Z := 0xB0.
Definition LAPIC_REG_OFFSETS : list Z :=
  [LAPIC_ID_REG_OFFSET; LAPIC_SPURIOUS_INTERRUPT_VECTOR_REG_OFFSET; LAPIC_TIMER_LVT_REG_OFFSET;
   LAPIC_TIMER_INITIAL_COUNT_REG_OFFSET; LAPIC_TIMER_CURRENT_COUNT_REGISTER_OFFSET;
   LAPIC_TIMER_DIVIDE_CONFIG_REG_OFFSET; LAPIC_EOI_REG_OFFSET].

(** msr.h and x86.h *)
Definition MSR_IA32_APIC_BASE : Z := 0x1B.
Definition msr_ia32_apic_base_t : list placed := layout false
  [Plain "rsrv0" cu8; Bits "bsp" cu8 1; Bits "rsrv1" cu8 1; Bits "x2apic_enable" cu8 1;
   Bits "xapic_enable" cu8 1; Bits "mmio_base" cu32 24; Plain "rsrv2" cu32].
Definition CPUID_01_ECX_X2APIC : Z := Z.shiftl 1 21.
Definition CPUID_01_EDX_APIC : Z := Z.shiftl 1 9.

(** The globals of lapic.c and the hardware it touches: model-specific
    registers, memory, and the bytes written to ports, latest first. *)
Record state := State {
  using_x2apic_mode : bool;
  apic_mmio_base : Z;
  msrs : gmap Z Z;
  memory : mem;
  ports : list (Z * Z) }.

Definition rdmsr (msr : Z) : M state Z := s ← get; mret (default 0 (msrs s !! u32 msr)).
Definition wrmsr (msr val : Z) : M state unit := modify (fun s =>
  State (using_x2apic_mode s) (apic_mmio_base s) (<[u32 msr := u64 val]> (msrs s)) (memory s) (ports s)).
Definition on_mem {A} (c : M mem A) : M state A :=
  zoom memory (fun m s => State (using_x2apic_mode s) (apic_mmio_base s) (msrs s) m (ports s)) c.
Definition outb (port val : Z) : M state unit := modify (fun s =>
  State (using_x2apic_mode s) (apic_mmio_base s) (msrs s) (memory s) ((port, u8 val) :: ports s)).
Definition set_mode (b : bool) : M state unit := modify (fun s =>
  State b (apic_mmio_base s) (msrs s) (memory s) (ports s)).
Definition set_mmio_base (a : Z) : M state unit := modify (fun s =>
  State (using_x2apic_mode s) a (msrs s) (memory s) (ports s)).

Definition lapid_read_register (offset : Z) : M state Z :=
  x2 ← gets using_x2apic_mode;
  if x2 : bool then v ← rdmsr (0x800 + Z.shiftr offset 4); mret (u32 v)
  else b ← gets apic_mmio_base; on_mem (load32 (u64 (b + offset))).

Definition lapic_write_register (offset value : Z) : M state unit :=
  x2 ← gets using_x2apic_mode;
  if x2 : bool then wrmsr (0x800 + Z.shiftr offset 4) (u32 value)
  else b ← gets apic_mmio_base; on_mem (store32 (u64 (b + offset)) (u32 value)).

Definition PIC1_DATA_PORT : Z := 0x20.
Definition PIC2_DATA_PORT : Z := 0xA0.

Definition disable_pic : M state unit := outb PIC1_DATA_PORT 0xFF ;; outb PIC2_DATA_PORT 0xFF.

(** [ecx] is the register [cpuid(1, 0)] returns. *)
Definition init_lapic (ecx : Z) : M state unit :=
  apic_base_v ← rdmsr MSR_IA32_APIC_BASE;
  let apic_base := apic_base_v in
  let finish :=
    let sivr := finit lapic_spurious_interrupt_vector_reg_t
      [("vector", APIC_SPURIOUS_INTERRUPT_NUM); ("apic_software_enable", 1)] in
    lapic_write_register LAPIC_SPURIOUS_INTERRUPT_VECTOR_REG_OFFSET (u32 sivr) ;;
    disable_pic in
  if Z.land ecx CPUID_01_ECX_X2APIC =? 0 then
    set_mode true ;;
    let apic_base := fset msr_ia32_apic_base_t "x2apic_enable" 1 apic_base in
    wrmsr MSR_IA32_APIC_BASE apic_base_v ;;
    finish
  else if negb (Z.land ecx CPUID_01_EDX_APIC =? 0) then
    set_mode false ;;
    set_mmio_base (fget msr_ia32_apic_base_t "mmio_base" apic_base) ;;
    finish
  else mret tt.

Definition lapicid : M state Z :=
  x2 ← gets using_x2apic_mode;
  if x2 : bool then lapid_read_register LAPIC_ID_REG_OFFSET
  else
    id_v ← lapid_read_register LAPIC_ID_REG_OFFSET;
    mret (fget lapic_xapic_id_reg_t "lapic_id" id_v).

Definition lapic_eoi : M state unit := lapic_write_register LAPIC_EOI_REG_OFFSET 0.

Definition lapic_is_x2apic_mode : M state bool := gets using_x2apic_mode.

End Lapic.

(** ** pit.h, timer.c *)
Module Timer.
Import Ioapic Lapic.

Definition PIT_FREQUENCY : Z := 1193182.
Definition PIT_CHANNEL_0_DATA_PORT : Z := 0x40.
Definition PIT_MODE_COMMAND_PORT : Z := 0x43.
Inductive pit_mode := PIT_MODE_ONESHOT | PIT_MODE_PERIODIC.
Definition pit_mode_value (m : pit_mode) : Z :=
  match m with PIT_MODE_ONESHOT => 0 | PIT_MODE_PERIODIC => 2 end.
Inductive pit_access_mode := PIT_ACCESS_LOHIBYTE.
Definition pit_access_value (m : pit_access_mode) : Z := match m with PIT_ACCESS_LOHIBYTE => 3 end.
Definition pit_config : list placed := layout false
  [Bits "bcd" cu8 1; Bits "mode" cenum 3; Bits "access_mode" cenum 2; Bits "channel" cu8 2].

Definition PIT_CALIBRATION_RELOAD_VALUE : Z := 1139.
Definition CALIBRATION_MS_TO_WAIT : Z := 30.

Record state := State {
  lapic : Lapic.state;
  ioapic : Ioapic.dev;
  pitTicks : Z;
  lapic_timer_ticks_per_ms : Z;
  divider : Z }.

Definition on_lapic {A} (c : M Lapic.state A) : M state A :=
  zoom lapic (fun l s => State l (ioapic s) (pitTicks s) (lapic_timer_ticks_per_ms s) (divider s)) c.
Definition on_ioapic {A} (c : M Ioapic.dev A) : M state A :=
  zoom ioapic (fun d s => State (lapic s) d (pitTicks s) (lapic_timer_ticks_per_ms s) (divider s)) c.
Definition set_ticks (n : Z) : M state unit := modify (fun s =>
  State (lapic s) (ioapic s) n (lapic_timer_ticks_per_ms s) (divider s)).

Definition pit_irq_handler : M state unit :=
  n ← gets pitTicks; set_ticks (u32 (n + 1)).

(** [while (pitTicks < CALIBRATION_MS_TO_WAIT);] with the interrupts that
    arrive: one element per test of the condition, [true] when the handler
    runs before the next test. *)
Fixpoint wait_ticks (irqs : list bool) : M state unit :=
  n ← gets pitTicks;
  if n <? CALIBRATION_MS_TO_WAIT then
    match irqs with
    | [] => fail OutOfFuel
    | irq :: irqs => when irq pit_irq_handler ;; wait_ticks irqs
    end
  else mret tt.

Section timer.
Context (window IRQ_INTERRUPT_OFFSET : Z).
(** timer.c reads the count with a function lapic.h declares and no file
    defines. *)
Context (lapic_read_register : Z -> M Lapic.state Z).

Definition calibrate_lapic_timer (irqs : list bool) : M state unit :=
  set_ticks 0 ;;
  let cfg := finit pit_config
    [("bcd", 0); ("mode", pit_mode_value PIT_MODE_PERIODIC);
     ("access_mode", pit_access_value PIT_ACCESS_LOHIBYTE); ("channel", 0)] in
  on_lapic (outb PIT_MODE_COMMAND_PORT (u8 cfg)) ;;
  let counter_low := u8 PIT_CALIBRATION_RELOAD_VALUE in
  let counter_high := u8 (Z.shiftr PIT_CALIBRATION_RELOAD_VALUE 8) in
  on_lapic (outb PIT_CHANNEL_0_DATA_PORT counter_low) ;;
  on_lapic (outb PIT_CHANNEL_0_DATA_PORT counter_high) ;;
  on_lapic (lapic_write_register LAPIC_TIMER_INITIAL_COUNT_REG_OFFSET 0) ;;
  on_lapic (lapic_write_register LAPIC_TIMER_DIVIDE_CONFIG_REG_OFFSET
    (timer_divider_value LAPIC_TIMER_DIVIDER_2)) ;;
  on_ioapic (ioapic_setmask window IRQ_PIT 0) ;;
  on_lapic (lapic_write_register LAPIC_TIMER_INITIAL_COUNT_REG_OFFSET (u32 (-1))) ;;
  wait_ticks irqs ;;
  current_lapic_count ← on_lapic (lapic_read_register LAPIC_TIMER_CURRENT_COUNT_REGISTER_OFFSET);
  on_ioapic (ioapic_setmask window IRQ_PIT 1) ;;
  on_lapic (lapic_write_register LAPIC_TIMER_INITIAL_COUNT_REG_OFFSET 0) ;;
  let lapic_timer_ticks_elapsed := u32 (u32 (-1) - current_lapic_count) in
  modify (fun s => State (lapic s) (ioapic s) (pitTicks s)
    (lapic_timer_ticks_elapsed / CALIBRATION_MS_TO_WAIT) (timer_divider_value LAPIC_TIMER_DIVIDER_2)).

Definition start_lapic_timer (initial_count divider : Z) : M Lapic.state unit :=
  lapic_write_register LAPIC_TIMER_INITIAL_COUNT_REG_OFFSET initial_count ;;
  lapic_write_register LAPIC_TIMER_DIVIDE_CONFIG_REG_OFFSET divider ;;
  let timer_lvt_entry := finit lapic_timer_lvt_reg_t
    [("vector", IRQ_INTERRUPT_OFFSET + IRQ_LAPIC_TIMER); ("mask", 0);
     ("mode", timer_mode_value LAPIC_TIMER_MODE_PERIODIC)] in
  lapic_write_register LAPIC_TIMER_LVT_REG_OFFSET timer_lvt_entry.

End timer.

End Timer.

(** ** Facts *)
Module ApicFacts.
Import Ioapic Lapic Timer.

Abbreviation iowin := (offsetof mmap_ioapic_t "iowin").

Lemma write_register_run off v d :
  in_range 8 off ->
  ioapic_write_register iowin off v d = Ok (tt, Dev off (<[off := u32 v]> (regs d))).
Proof.
  intros Ho. unfold ioapic_write_register, mmio_write, mbind, M_bind, modify. simpl.
  by rewrite !wrap_wrap, (wrap_small 8) by (lia || done).
Qed.

Lemma write_register_any off v d :
  ioapic_write_register iowin off v d = Ok (tt, Dev (u8 off) (<[u8 off := u32 v]> (regs d))).
Proof.
  unfold ioapic_write_register, mmio_write, mbind, M_bind, modify. simpl. by rewrite !wrap_wrap by lia.
Qed.

Lemma read_register_run off d :
  in_range 8 off -> ioapic_read_register iowin off d = Ok (reg d off, Dev off (regs d)).
Proof.
  intros Ho. unfold ioapic_read_register, mmio_write, mmio_read, mbind, M_bind, modify, get. simpl.
  by rewrite !wrap_wrap, (wrap_small 8) by (lia || done).
Qed.

Lemma reg_insert s off v r i :
  reg (Dev s (<[off := v]> r)) i = if decide (i = off) then v else reg (Dev s r) i.
Proof. unfold reg. simpl. rewrite lookup_insert. by repeat case_decide; subst. Qed.

(** Redirection register numbers of an IRQ that fit in the select register. *)
Lemma redir_range irq : 0 <= irq < 120 ->
  in_range 8 (IOAPIC_REDIRECT_TABLE_OFFSET + 2 * irq) /\
  in_range 8 (IOAPIC_REDIRECT_TABLE_OFFSET + 2 * irq + 1).
Proof. unfold in_range, IOAPIC_REDIRECT_TABLE_OFFSET. lia. Qed.

(** The low half of the entry [ioapic_route] writes. *)
Definition route_lo (OFF irq masked : Z) : Z :=
  finit ioapic_redir_entry_lo
    [("vector", OFF + irq); ("delivery_mode", 0);
     ("destination_mode", dest_mode_value DEST_MODE_PHYSICAL);
     ("polarity", pin_polarity_value PIN_POLARITY_ACTIVE_HIGH);
     ("trigger_mode", trigger_mode_value TRIGGER_MODE_EDGE_TRIGGERED); ("mask", masked)].
Definition route_hi (lapicid : Z) : Z := finit ioapic_redir_entry_hi [("destination", lapicid)].

Lemma route_lo_range OFF irq masked : in_range 32 (route_lo OFF irq masked).
Proof. unfold route_lo. layout_eval. repeat (apply set_bits_range; [lia..|]). unfold in_range. lia. Qed.

Lemma route_hi_range lapicid : in_range 32 (route_hi lapicid).
Proof. unfold route_hi. layout_eval. apply set_bits_range; [lia..|]. unfold in_range. lia. Qed.

Lemma ioapic_route_run OFF irq lapicid masked d :
  0 <= irq < 120 ->
  ioapic_route iowin OFF irq lapicid masked d =
  Ok (tt, Dev (IOAPIC_REDIRECT_TABLE_OFFSET + 2 * irq + 1)
    (<[IOAPIC_REDIRECT_TABLE_OFFSET + 2 * irq + 1 := route_hi lapicid]>
      (<[IOAPIC_REDIRECT_TABLE_OFFSET + 2 * irq := route_lo OFF irq masked]> (regs d)))).
Proof.
  intros Hi. destruct (redir_range irq Hi) as [H1 H2]. unfold ioapic_route.
  mrun (apply write_register_run; exact H1). rewrite write_register_run by exact H2. cbn [regs].
  fold (route_lo OFF irq masked). fold (route_hi lapicid).
  rewrite (wrap_small 32 (route_lo OFF irq masked)) by apply route_lo_range.
  rewrite (wrap_small 32 (route_hi lapicid)) by apply route_hi_range. reflexivity.
Qed.

Lemma ioapic_setmask_run irq mask d :
  0 <= irq < 120 ->
  ioapic_setmask iowin irq mask d =
  Ok (tt, Dev (IOAPIC_REDIRECT_TABLE_OFFSET + 2 * irq)
    (<[IOAPIC_REDIRECT_TABLE_OFFSET + 2 * irq :=
        u32 (fset ioapic_redir_entry_lo "mask" mask (reg d (IOAPIC_REDIRECT_TABLE_OFFSET + 2 * irq)))]>
      (regs d))).
Proof.
  intros Hi. destruct (redir_range irq Hi) as [H1 _]. unfold ioapic_setmask.
  mrun by apply read_register_run. by rewrite write_register_run.
Qed.

(** [ioapic_setmask] on a device with its data window anywhere. *)
Lemma ioapic_setmask_any window irq mask d :
  0 <= irq < 120 ->
  exists d', ioapic_setmask window irq mask d = Ok (tt, d') /\
    (window = iowin -> fget ioapic_redir_entry_lo "mask" (reg d' (IOAPIC_REDIRECT_TABLE_OFFSET + 2 * irq)) = wrap 1 mask) /\
    (window = 16 -> regs d' = regs d).
Proof.
  intros Hi. destruct (decide (window = iowin)) as [->|Hw].
  - eexists. split; [by apply ioapic_setmask_run|]. split; [|done]. intros _.
    rewrite reg_insert, decide_True by done. layout_eval.
    assert (forall x, bits 16 1 (wrap 32 x) = bits 16 1 x) as Hb.
    { intros x. apply Z.bits_inj'. intros i Hi'. rewrite !bits_testbit, wrap_testbit by lia.
      destruct (Z.ltb_spec i 1); [|done]. by rewrite (proj2 (Z.ltb_lt _ _)) by lia. }
    by rewrite Hb, bits_set_same.
  - assert (forall v e, mmio_write window iowin v e = Ok (tt, e)) as Hwr.
    { intros v e. unfold mmio_write, modify. change (iowin =? 0) with false. cbn iota.
      by rewrite (proj2 (Z.eqb_neq _ _)) by done. }
    eexists. split.
    + unfold ioapic_setmask.
      mrun (unfold ioapic_read_register; mrun reflexivity; unfold mmio_read; mrun reflexivity; reflexivity).
      unfold ioapic_write_register. mrun reflexivity. rewrite Hwr. reflexivity.
    + split; done.
Qed.

(** Setting the mask of an entry made by [ioapic_route]. *)
Lemma set_bits_twice off w v v' raw :
  0 <= off -> 0 <= w -> set_bits off w v (set_bits off w v' raw) = set_bits off w v raw.
Proof.
  intros. apply Z.bits_inj'. intros i Hi. rewrite !set_bits_testbit by done.
  by destruct ((off <=? i) && (i <? off + w)).
Qed.

Lemma route_lo_setmask OFF irq m m' :
  fset ioapic_redir_entry_lo "mask" m (route_lo OFF irq m') = route_lo OFF irq m.
Proof. unfold route_lo. layout_eval. by rewrite set_bits_twice. Qed.

(** Entry [irq] of the redirection table is masked, with its own vector and no
    destination. *)
Definition masked_entry (OFF : Z) (d : dev) (irq : Z) : Prop :=
  fget ioapic_redir_entry_lo "mask" (reg d (IOAPIC_REDIRECT_TABLE_OFFSET + 2 * irq)) = 1 /\
  fget ioapic_redir_entry_lo "vector" (reg d (IOAPIC_REDIRECT_TABLE_OFFSET + 2 * irq)) = u8 (OFF + irq) /\
  reg d (IOAPIC_REDIRECT_TABLE_OFFSET + 2 * irq + 1) = 0.

Lemma masked_entry_written OFF s irq r :
  masked_entry OFF (Dev s
    (<[IOAPIC_REDIRECT_TABLE_OFFSET + 2 * irq + 1 := u32 (finit ioapic_redir_entry_hi [("destination", 0)])]>
      (<[IOAPIC_REDIRECT_TABLE_OFFSET + 2 * irq := u32 (fset ioapic_redir_entry_lo "vector" (OFF + irq)
        (finit ioapic_redir_entry_lo [("polarity", 0); ("trigger_mode", 1); ("mask", 1)]))]> r))) irq.
Proof.
  unfold masked_entry. rewrite !reg_insert.
  case_decide; [lia|]. case_decide; [|done]. case_decide; [|done]. layout_eval.
  assert (in_range 32 (set_bits 0 8 (OFF + irq) (set_bits 16 1 1 (set_bits 15 1 1 (set_bits 13 1 0 0)))))
    by (repeat (apply set_bits_range; [lia..|]); unfold in_range; lia).
  rewrite !wrap_small by done. bits_simpl. by rewrite wrap_small.
Qed.

Lemma masked_entry_other OFF s irq j a b r :
  irq <> j -> masked_entry OFF (Dev 0 r) irq ->
  masked_entry OFF (Dev s (<[IOAPIC_REDIRECT_TABLE_OFFSET + 2 * j + 1 := a]>
    (<[IOAPIC_REDIRECT_TABLE_OFFSET + 2 * j := b]> r))) irq.
Proof.
  intros Hne. unfold masked_entry. rewrite !reg_insert. do 4 (case_decide; [lia|]). done.
Qed.

(** ** The local APIC *)

Lemma wrmsr_run msr v s :
  wrmsr msr v s = Ok (tt, Lapic.State (using_x2apic_mode s) (apic_mmio_base s)
    (<[u32 msr := u64 v]> (msrs s)) (memory s) (Lapic.ports s)).
Proof. done. Qed.

(** A register of the local APIC that can be accessed: by MSR, or backed. *)
Definition lapic_ok (s : Lapic.state) (off : Z) : Prop :=
  using_x2apic_mode s = true \/ mapped_range (memory s) (u64 (apic_mmio_base s + off)) 4.

(** What [lapic_write_register] leaves. *)
Definition lapic_written (s : Lapic.state) (off v : Z) : Lapic.state :=
  if using_x2apic_mode s then
    Lapic.State true (apic_mmio_base s) (<[u32 (0x800 + Z.shiftr off 4) := u32 v]> (msrs s))
      (memory s) (Lapic.ports s)
  else Lapic.State false (apic_mmio_base s) (msrs s)
    (poke 4 (memory s) (u64 (apic_mmio_base s + off)) (u32 v)) (Lapic.ports s).

Lemma lapic_write_run off v s :
  lapic_ok s off -> lapic_write_register off v s = Ok (tt, lapic_written s off v).
Proof.
  intros H. unfold lapic_write_register, lapic_written. mrun done.
  destruct s as [[] b ms m ps]; simpl in *.
  - rewrite wrmsr_run. simpl. by rewrite (wrap_small 64) by (pose proof (wrap_range 32 v ltac:(lia)); unfold in_range in *; lia).
  - destruct H as [|H]; [done|]. mrun done. unfold on_mem, zoom, store32. simpl. by rewrite store_ok.
Qed.

(** What a read of a register finds. *)
Definition lapic_value (s : Lapic.state) (off : Z) : Z :=
  if using_x2apic_mode s then u32 (default 0 (msrs s !! u32 (0x800 + Z.shiftr off 4)))
  else peek 4 (memory s) (u64 (apic_mmio_base s + off)).

Lemma lapid_read_run off s :
  lapic_ok s off -> lapid_read_register off s = Ok (lapic_value s off, s).
Proof.
  intros H. unfold lapid_read_register, lapic_value. mrun done.
  destruct s as [[] b ms m ps]; simpl in *; [done|].
  destruct H as [|H]; [done|]. mrun done. unfold on_mem, zoom, load32. simpl. by rewrite load_ok.
Qed.

Lemma land_bit_false x n : 0 <= n -> Z.testbit x n = false -> Z.land x (Z.shiftl 1 n) = 0.
Proof.
  intros Hn Hb. apply Z.bits_inj'. intros i Hi. rewrite Z.land_spec, Z.bits_0.
  rewrite Z.shiftl_1_l, Z.pow2_bits_eqb by done.
  destruct (Z.eqb_spec n i); [subst; by rewrite Hb|apply andb_false_r].
Qed.

Lemma land_bit_true x n : 0 <= n -> Z.testbit x n = true -> Z.land x (Z.shiftl 1 n) <> 0.
Proof.
  intros Hn Hb H. assert (Z.testbit (Z.land x (Z.shiftl 1 n)) n = true) as Ht.
  { rewrite Z.land_spec, Hb, Z.shiftl_1_l. by rewrite Z.pow2_bits_true. }
  rewrite H, Z.bits_0 in Ht. done.
Qed.

(** A member inside the kept bits. *)
Lemma bits_wrap_high off w n x : 0 <= off -> 0 <= w -> off + w <= n -> bits off w (wrap n x) = bits off w x.
Proof.
  intros. apply Z.bits_inj'. intros i Hi. rewrite !bits_testbit, wrap_testbit by lia.
  destruct (Z.ltb_spec i w); [|done]. by destruct (Z.ltb_spec (i + off) n); [|lia].
Qed.

(** Register offsets: multiples of 16 inside one page. *)
Definition lapic_offset (off : Z) : Prop := (16 | off) /\ 0 <= off < 4096.

Lemma lapic_msr off : lapic_offset off -> u32 (0x800 + Z.shiftr off 4) = 0x800 + off / 16.
Proof.
  intros [_ H]. rewrite Z.shiftr_div_pow2 by lia. apply wrap_small. change (2 ^ 4) with 16.
  unfold in_range. pose proof (Z.div_pos off 16). pose proof (Z.div_lt_upper_bound off 16 256). lia.
Qed.

Lemma lapic_value_written s off off' v :
  lapic_offset off -> lapic_offset off' -> 0 <= apic_mmio_base s -> apic_mmio_base s + 4096 <= 2 ^ 64 ->
  lapic_value (lapic_written s off v) off' = if decide (off' = off) then u32 v else lapic_value s off'.
Proof.
  intros Ho Ho' Hb Hb'. unfold lapic_value, lapic_written.
  pose proof (lapic_msr off Ho) as E. pose proof (lapic_msr off' Ho') as E'.
  destruct Ho as [[k ->] Ho], Ho' as [[k' ->] Ho']. destruct s as [[] b ms m ps]; simpl in *.
  - rewrite E, E', !Z.div_mul by lia. rewrite lookup_insert.
    do 2 case_decide; subst; try lia; simpl; by rewrite ?wrap_wrap by lia.
  - rewrite (wrap_small 64 (b + k * 16)), (wrap_small 64 (b + k' * 16)) by (unfold in_range; lia). case_decide.
    + replace k' with k by lia. rewrite peek_poke_same. by apply wrap_wrap.
    + apply peek_poke_other. lia.
Qed.

(** ** The timer *)

Lemma irq_pit_range : 0 <= IRQ_PIT < 120.
Proof. unfold IRQ_PIT. lia. Qed.

Lemma wait_ticks_run s n : forall irqs,
  pitTicks s = n -> 0 <= n <= CALIBRATION_MS_TO_WAIT ->
  CALIBRATION_MS_TO_WAIT - n <= Z.of_nat (length (filter (fun b => b = true) irqs)) ->
  wait_ticks irqs s = Ok (tt, State (lapic s) (ioapic s) CALIBRATION_MS_TO_WAIT
    (lapic_timer_ticks_per_ms s) (divider s)).
Proof.
  intros irqs. revert s n. unfold CALIBRATION_MS_TO_WAIT.
  induction irqs as [|b irqs IH]; intros s n Hn Hr Hlen; cbn [wait_ticks]; mrun done; rewrite Hn;
    unfold CALIBRATION_MS_TO_WAIT.
  - simpl in Hlen. destruct (Z.ltb_spec n 30); [lia|].
    replace 30 with (pitTicks s) by lia. by destruct s.
  - destruct (Z.ltb_spec n 30).
    + destruct b; simpl.
      * unfold pit_irq_handler, set_ticks. mrun (mrun done; reflexivity). rewrite Hn.
        rewrite wrap_small by (unfold in_range; lia).
        rewrite (IH _ (n + 1)); [done|done|lia|]. rewrite filter_cons in Hlen. simpl in Hlen. lia.
      * mrun done. apply (IH s n); [done|lia|]. rewrite filter_cons in Hlen. simpl in Hlen. done.
    + replace 30 with (pitTicks s) by lia. by destruct s.
Qed.

End ApicFacts.

(** ** Properties *)
Module ApicProps.
Import Ioapic Lapic Timer ApicFacts.

(** C33. [ioapic_route] for every 8-bit [irq].  On a device with its data window
    where the structure of ioapic.h puts it, at offset 8, it programs the pair
    of registers whose numbers are those of the redirection entry, modulo 256
    (from [irq] 120 on they wrap around), and no other register: the vector of
    the IRQ, fixed delivery to the given local APIC (its low 8 bits), the
    requested mask.  On one with the window at offset 16, as the data sheet has
    it, it changes no register. *)
Theorem ioapic_route_programs OFF irq lapicid masked d :
  0 <= irq < 256 ->
  let lo_reg := u8 (IOAPIC_REDIRECT_TABLE_OFFSET + 2 * irq) in
  let hi_reg := u8 (IOAPIC_REDIRECT_TABLE_OFFSET + 2 * irq + 1) in
  (exists d', ioapic_route iowin OFF irq lapicid masked d = Ok (tt, d') /\
    (let lo := reg d' lo_reg in
     fget ioapic_redir_entry_lo "vector" lo = u8 (OFF + irq) /\
     fget ioapic_redir_entry_lo "delivery_mode" lo = 0 /\
     fget ioapic_redir_entry_lo "destination_mode" lo = 0 /\
     fget ioapic_redir_entry_lo "polarity" lo = 0 /\
     fget ioapic_redir_entry_lo "trigger_mode" lo = 1 /\
     fget ioapic_redir_entry_lo "mask" lo = wrap 1 masked) /\
    fget ioapic_redir_entry_hi "destination" (reg d' hi_reg) = u8 lapicid /\
    (forall i, i <> lo_reg -> i <> hi_reg -> reg d' i = reg d i)) /\
  (exists d', ioapic_route 16 OFF irq lapicid masked d = Ok (tt, d') /\ regs d' = regs d).
Proof.
  intros Hi lo_reg hi_reg. split; [|by eexists].
  assert (lo_reg <> hi_reg) as Hne.
  { unfold lo_reg, hi_reg, wrap, IOAPIC_REDIRECT_TABLE_OFFSET. Z.to_euclidean_division_equations. lia. }
  eexists. split; [unfold ioapic_route; mrun apply write_register_any; apply write_register_any|].
  fold (route_lo OFF irq masked) (route_hi lapicid). fold lo_reg hi_reg.
  rewrite (wrap_small 32 (route_lo OFF irq masked)) by apply route_lo_range.
  rewrite (wrap_small 32 (route_hi lapicid)) by apply route_hi_range.
  cbn [regs]. split_and!.
  1-6: rewrite !reg_insert, decide_False, decide_True by done; unfold route_lo; layout_eval; by bits_simpl.
  - rewrite reg_insert, decide_True by done. unfold route_hi. layout_eval. by bits_simpl.
  - intros i Hn1 Hn2. by rewrite !reg_insert, !decide_False by done.
Qed.

Lemma ioapic_route_programs_witness :
  exists d', ioapic_route iowin 32 4 1 0 (Dev 0 ∅) = Ok (tt, d') /\ reg d' 0x18 = 0x8024.
Proof.
  destruct (ioapic_route_programs 32 4 1 0 (Dev 0 ∅)) as [(d' & Hrun & _) _]; [lia|].
  exists d'. split; [exact Hrun|]. revert Hrun. vm_compute. intros H. injection H as <-. reflexivity.
Defined.

(** [ioapic_setmask] changes nothing but the mask: routing an IRQ and then
    setting its mask leaves the registers as if it had been routed with that
    mask at once. *)
Theorem ioapic_setmask_route OFF irq lapicid m m' d :
  0 <= irq < 120 ->
  exists d1 d2, (ioapic_route iowin OFF irq lapicid m' ;; ioapic_setmask iowin irq m) d = Ok (tt, d1) /\
    ioapic_route iowin OFF irq lapicid m d = Ok (tt, d2) /\ regs d1 = regs d2.
Proof.
  intros Hi. do 2 eexists. split; [|split; [by apply ioapic_route_run|]].
  - mrun by apply ioapic_route_run. by apply ioapic_setmask_run.
  - cbn [regs]. rewrite !reg_insert. case_decide; [lia|]. case_decide; [|done].
    rewrite route_lo_setmask, wrap_small by apply route_lo_range.
    rewrite (insert_insert_ne (<[IOAPIC_REDIRECT_TABLE_OFFSET + 2 * irq := route_lo OFF irq m']> (regs d)))
      by lia. by rewrite insert_insert_eq.
Qed.

Lemma ioapic_setmask_route_witness :
  exists d1 d2, (ioapic_route iowin 32 IRQ_PIT 0 1 ;; ioapic_setmask iowin IRQ_PIT 0) (Dev 0 ∅) = Ok (tt, d1) /\
    ioapic_route iowin 32 IRQ_PIT 0 0 (Dev 0 ∅) = Ok (tt, d2) /\ regs d1 = regs d2.
Proof. apply ioapic_setmask_route. unfold IRQ_PIT. lia. Defined.

(** The local APIC registers behave like a register file in both access
    modes: a write to one register is read back from it and does not change
    any other. *)
Theorem lapic_write_read s off off' v :
  lapic_offset off -> lapic_offset off' ->
  0 <= apic_mmio_base s -> apic_mmio_base s + 4096 <= 2 ^ 64 ->
  lapic_ok s off -> lapic_ok s off' ->
  exists s', lapic_write_register off v s = Ok (tt, s') /\
    lapid_read_register off' s' = Ok (if decide (off' = off) then u32 v else lapic_value s off', s').
Proof.
  intros Ho Ho' Hb Hb' Hok Hok'. exists (lapic_written s off v).
  split; [by apply lapic_write_run|]. rewrite lapid_read_run.
  - by rewrite lapic_value_written.
  - unfold lapic_ok, lapic_written in *. destruct s as [[] b ms m ps]; simpl in *; [by left|].
    destruct Hok' as [|Hok']; [done|]. right. by apply mapped_range_poke.
Qed.

Lemma lapic_write_read_witness :
  exists s', lapic_write_register LAPIC_TIMER_INITIAL_COUNT_REG_OFFSET 1000
      (Lapic.State false 0xFEE00000 ∅ (Mem [(0xFEE00000, 4096)] ∅) []) = Ok (tt, s') /\
    lapid_read_register LAPIC_TIMER_INITIAL_COUNT_REG_OFFSET s' = Ok (1000, s').
Proof.
  apply (lapic_write_read (Lapic.State false 0xFEE00000 ∅ (Mem [(0xFEE00000, 4096)] ∅) [])
    LAPIC_TIMER_INITIAL_COUNT_REG_OFFSET LAPIC_TIMER_INITIAL_COUNT_REG_OFFSET 1000).
  1, 2: split; [by exists 56|unfold LAPIC_TIMER_INITIAL_COUNT_REG_OFFSET; lia].
  1, 2: simpl; lia.
  1, 2: right; by apply mapped_range_check.
Defined.

(** [init_lapic] has the x2APIC test the wrong way round and writes back
    the value it read: on a processor without x2APIC it switches the driver to
    MSR access, while the enable bit of the APIC base register stays as it
    was; on one that has it, the driver uses memory at an address made of bits
    32 to 55 of the register, where the base is not. *)
Theorem init_lapic_modes ecx s :
  in_range 64 (default 0 (msrs s !! MSR_IA32_APIC_BASE)) ->
  (Z.testbit ecx 21 = false -> exists s', init_lapic ecx s = Ok (tt, s') /\
    using_x2apic_mode s' = true /\
    default 0 (msrs s' !! MSR_IA32_APIC_BASE) = default 0 (msrs s !! MSR_IA32_APIC_BASE)) /\
  (Z.testbit ecx 21 = true -> forall s', init_lapic ecx s = Ok (tt, s') ->
    s' = s \/ using_x2apic_mode s' = false /\
      apic_mmio_base s' = bits 32 24 (default 0 (msrs s !! MSR_IA32_APIC_BASE))).
Proof.
  intros Hr. unfold init_lapic. split; intros Hb.
  - assert (Z.land ecx CPUID_01_ECX_X2APIC = 0) as Hz by by apply land_bit_false.
    eexists. split; [|split].
    + mrun reflexivity. rewrite Hz. change (0 =? 0) with true. cbn iota.
      mrun reflexivity. mrun reflexivity.
      mrun (apply lapic_write_run; by left). reflexivity.
    + reflexivity.
    + simpl. change (u32 27) with MSR_IA32_APIC_BASE.
      rewrite lookup_insert_ne by done. rewrite lookup_insert_eq. by apply wrap_small.
  - assert (Z.land ecx CPUID_01_ECX_X2APIC <> 0) as Hz by by apply land_bit_true.
    intros s' H. apply bind_inv in H as (v & s0 & Hv & H).
    unfold rdmsr in Hv. minv. destruct (Z.eqb_spec (Z.land ecx CPUID_01_ECX_X2APIC) 0); [done|].
    destruct (negb _); [|minv; by left].
    right. unfold set_mode, set_mmio_base, lapic_write_register, disable_pic, outb in H. minv.
    simpl in *. minv. match goal with Hz : on_mem _ _ = _ |- _ => apply zoom_inv in Hz as (? & _ & ->) end.
    done.
Qed.

Lemma init_lapic_modes_witness :
  exists s', init_lapic 0 (Lapic.State false 0 ∅ (Mem [] ∅) []) = Ok (tt, s') /\
    using_x2apic_mode s' = true.
Proof.
  destruct (init_lapic_modes 0 (Lapic.State false 0 ∅ (Mem [] ∅) [])) as [H _];
    [by vm_compute|]. destruct (H eq_refl) as (s' & Hrun & Hx & _).
  exists s'. exact (conj Hrun Hx).
Defined.

Tactic Notation "tstep" tactic3(t) := mrun t; cbn [lapic ioapic pitTicks lapic_timer_ticks_per_ms divider].

Lemma lapic_ok_written s off off' v : lapic_ok s off' -> lapic_ok (lapic_written s off v) off'.
Proof.
  unfold lapic_ok, lapic_written. destruct s as [[] b ms m ps]; simpl; [by left|].
  intros [|H]; [done|]. right. by apply mapped_range_poke.
Qed.

Lemma lapic_written_base s off v : apic_mmio_base (lapic_written s off v) = apic_mmio_base s.
Proof. unfold lapic_written. by destruct (using_x2apic_mode s). Qed.

Lemma lapic_written_ports s off v : Lapic.ports (lapic_written s off v) = Lapic.ports s.
Proof. unfold lapic_written. by destruct (using_x2apic_mode s). Qed.



(** [init_ioapic] masks every pin the device reports (at most 120, the
    most the 8-bit register number can address) with the vector of its IRQ
    and no destination. *)
Theorem init_ioapic_masks OFF d :
  fget ioapicver_t "max_redir_entry" (reg d IOAPIC_VER_REG_OFFSET) < 120 ->
  exists d', init_ioapic iowin OFF d = Ok (tt, d') /\
    forall irq, 0 <= irq <= fget ioapicver_t "max_redir_entry" (reg d IOAPIC_VER_REG_OFFSET) ->
      masked_entry OFF d' irq.
Proof.
  intros Hmax. unfold init_ioapic.
  mrun (apply read_register_run; by vm_compute).
  set (n := fget ioapicver_t "max_redir_entry" (reg d IOAPIC_VER_REG_OFFSET)) in *.
  assert (0 <= n) by (apply bits_range; by vm_compute).
  edestruct (for_loop_inv (fun j t => forall i, 0 <= i < j -> masked_entry OFF t i))
    as (d' & Hrun & Hd'); [| |exists d'; split; [exact Hrun|]].
  - intros i Hi. lia.
  - intros j t Hj Ht. destruct (redir_range j) as [H1 H2]; [lia|].
    eexists. split; [mrun (apply write_register_run; exact H1); apply write_register_run; exact H2|].
    intros i Hi. destruct (decide (i = j)) as [->|]; [apply masked_entry_written|].
    apply masked_entry_other; [done|]. apply Ht. lia.
  - intros irq Hi. apply Hd'. lia.
Qed.

Lemma init_ioapic_masks_witness :
  exists d', init_ioapic iowin 32 (Dev 0 {[1 := 0x00170011]}) = Ok (tt, d') /\ masked_entry 32 d' 23.
Proof.
  destruct (init_ioapic_masks 32 (Dev 0 {[1 := 0x00170011]})) as (d' & Hrun & H); [by vm_compute|].
  exists d'. split; [exact Hrun|]. apply H. by vm_compute.
Defined.

End ApicProps.
