(* ===== verification/Process.v ===== *)
(** kernel/process (proc.c, proc.h, scheduler.c), kernel/syscall (syscalls.c,
    syscalls.h, trap.c) and kernel/param.h: the process table, the scheduler,
    and the dispatch of interrupts and system calls.

    A pointer to a process is its index in the table.  Context switches, the
    locks and the bodies of the system calls are not in the repository: they
    are parameters. *)
From S2P Require Import Prelude Layout Memory Paging Pmm Vmm Interrupts Apic.
From Stdlib Require Import Sorted.
Import MemLayout Paging Idt.

(** ** param.h, proc.h *)
Module Param.
Definition MAX_PROC : Z := 64.
Definition KSTACKSIZE : Z := 4096.
Definition NCPU : Z := 8.
Definition PROCNFD : Z := 16.
Definition SYSNFD : Z := 100.
Definition NINODE : Z := 50.
Definition NDEV : Z := 10.
Definition ROOTDEV : Z := 1.
Definition MAXARG : Z := 32.
Definition MAXOPBLOCKS : Z := 10.
Definition LOGSIZE : Z := MAXOPBLOCKS * 3.
Definition NBUF : Z := MAXOPBLOCKS * 3.
Definition FSSIZE : Z := 1000.
Definition NOFILEHANDLE : Z := 1000.

(** The header as a table. *)
Definition param_h : list (string * Z) :=
  [("MAX_PROC", MAX_PROC); ("KSTACKSIZE", KSTACKSIZE); ("NCPU", NCPU); ("PROCNFD", PROCNFD);
   ("SYSNFD", SYSNFD); ("NINODE", NINODE); ("NDEV", NDEV); ("ROOTDEV", ROOTDEV); ("MAXARG", MAXARG);
   ("MAXOPBLOCKS", MAXOPBLOCKS); ("LOGSIZE", LOGSIZE); ("NBUF", NBUF); ("FSSIZE", FSSIZE);
   ("NOFILEHANDLE", NOFILEHANDLE)].
End Param.

Module Proc.
Import Param.

Definition context_members : list member :=
  [Plain "rdi" cu64; Plain "rsi" cu64; Plain "rbx" cu64; Plain "rbp" cu64; Plain "rip" cu64].
Definition context : list placed := layout false context_members.
Definition sizeof_context : Z := sizeof false context_members.

Inductive procstate := UNUSED | EMBRYO | SLEEPING | RUNNABLE | RUNNING | ZOMBIE.
#[global] Instance procstate_eq_dec : EqDecision procstate.
Proof. solve_decision. Defined.

Record proc_t := Proc {
  sz : Z; pml4 : Z; kstack : Z; pstate : procstate; pid : Z; parent : Z;
  tf : Z; ctx : Z; chan : Z; killed : Z; cwd : Z; name : list Z }.

Definition set_pstate (st : procstate) (p : proc_t) : proc_t :=
  Proc (sz p) (pml4 p) (kstack p) st (pid p) (parent p) (tf p) (ctx p) (chan p) (killed p) (cwd p) (name p).
Definition set_pid (n : Z) (p : proc_t) : proc_t :=
  Proc (sz p) (pml4 p) (kstack p) (pstate p) n (parent p) (tf p) (ctx p) (chan p) (killed p) (cwd p) (name p).
Definition set_kstack (a : Z) (p : proc_t) : proc_t :=
  Proc (sz p) (pml4 p) a (pstate p) (pid p) (parent p) (tf p) (ctx p) (chan p) (killed p) (cwd p) (name p).
Definition set_tf (a : Z) (p : proc_t) : proc_t :=
  Proc (sz p) (pml4 p) (kstack p) (pstate p) (pid p) (parent p) a (ctx p) (chan p) (killed p) (cwd p) (name p).
Definition set_ctx (a : Z) (p : proc_t) : proc_t :=
  Proc (sz p) (pml4 p) (kstack p) (pstate p) (pid p) (parent p) (tf p) a (chan p) (killed p) (cwd p) (name p).

(** [ptable.procs], [nextpid], and the page allocator with the memory. *)
Record state := State { procs : list proc_t; nextpid : Z; pmm : Pmm.state }.

Definition on_pmm {A} (c : M Pmm.state A) : M state A :=
  zoom pmm (fun p s => State (procs s) (nextpid s) p) c.
Definition on_mem {A} (c : M mem A) : M state A := on_pmm (Pmm.on_mem c).

(** [proc->f = ...] on entry [i] of the table. *)
Definition upd_proc (i : Z) (f : proc_t -> proc_t) : M state unit :=
  s ← get;
  p ← index (procs s) i;
  put (State (updateZ (procs s) i (f p)) (nextpid s) (pmm s)).

(** Index of the first unused slot from [i] on, or one past the table. *)
Fixpoint find_unused_slot (l : list proc_t) (i : Z) : Z :=
  match l with
  | [] => i
  | p :: l => if decide (pstate p = UNUSED) then i else find_unused_slot l (i + 1)
  end.

Definition create_proc (trapret procstart : Z) : M state (option Z) :=
  s ← get;
  let proc := find_unused_slot (procs s) 0 in
  p ← index (procs s) proc;
  if decide (pstate p <> UNUSED) then mret None
  else
    upd_proc proc (set_pstate EMBRYO) ;;
    n ← gets nextpid;
    modify (fun s => State (procs s) (i32 (nextpid s + 1)) (pmm s)) ;;
    upd_proc proc (set_pid n) ;;
    page ← on_pmm Pmm.pmm_alloc;
    upd_proc proc (set_kstack page) ;;
    if page =? 0 then upd_proc proc (set_pstate UNUSED) ;; mret None
    else
      let kstack := u64 (page + KSTACKSIZE) in
      let kstack := u64 (kstack - sizeof_trapframe) in
      upd_proc proc (set_tf kstack) ;;
      let kstack := u64 (kstack - 8) in
      on_mem (store8 kstack (u64 trapret)) ;;
      let kstack := u64 (kstack - sizeof_context) in
      upd_proc proc (set_ctx kstack) ;;
      on_mem (memset (Z.to_nat sizeof_context) kstack 0) ;;
      on_mem (store64 (u64 (kstack + offsetof context "rip")) procstart) ;;
      mret (Some proc).

(** [panic]: prints its message and never returns. *)
Definition panic {S A} : M S A := fail Panicked.

(** [__builtin_memmove]: all bytes are read before any is written. *)
Fixpoint load_bytes (n : nat) (a : Z) : M mem (list Z) :=
  match n with
  | O => mret []
  | S n => b ← load8 a; l ← load_bytes n (a + 1); mret (b :: l)
  end.
Fixpoint store_bytes (a : Z) (l : list Z) : M mem unit :=
  match l with
  | [] => mret tt
  | b :: l => store8 a b ;; store_bytes (a + 1) l
  end.
Definition memmove (dst src : Z) (n : nat) : M mem unit :=
  l ← load_bytes n src; store_bytes dst l.

Definition setup_initproc_uvm (fuel : nat) (pml4 init sz : Z) : M Vmm.state unit :=
  if PGSIZE <=? sz then panic
  else
    mem ← Vmm.on_pmm Pmm.pmm_alloc;
    Vmm.on_mem (memset (Z.to_nat PGSIZE) mem 0) ;;
    Vmm.mappages fuel pml4 0 PGSIZE (KV2P mem) 1 1 ;;
    Vmm.on_mem (memmove mem init (Z.to_nat sz)).

End Proc.

(** ** scheduler.c *)
Module Scheduler.
Import Proc.

(** Per-CPU state the scheduler uses. *)
Record cpu := Cpu { cpu_proc : option Z; saved_IF : Z }.

Record state {E : Type} := State { table : list proc_t; this_cpu : cpu; env : E }.
Arguments state : clear implicits.
Arguments State {E}.

Section scheduler.
Context {E : Type}.
(** Code outside the repository: [switchuvm], [switchkvm], [sti], the locks,
    and what a process does from the switch into it to the switch back. *)
Context (switchuvm : Z -> E -> E) (switchkvm sti acquire release : E -> E).
Context (swtch : Z -> state E -> state E).

Definition on_env (f : E -> E) (s : state E) : state E := State (table s) (this_cpu s) (f (env s)).
Definition set_proc (p : option Z) (s : state E) : state E :=
  State (table s) (Cpu p (saved_IF (this_cpu s))) (env s).
Definition set_state (i : Z) (st : procstate) (s : state E) : state E :=
  match lookupZ (table s) i with
  | Some p => State (updateZ (table s) i (set_pstate st p)) (this_cpu s) (env s)
  | None => s
  end.
Definition state_of (s : state E) (i : Z) : option procstate := pstate <$> lookupZ (table s) i.

(** One iteration of the inner loop: run process [i] if it is runnable.  The
    list records the processes switched to. *)
Definition visit (i : Z) (s : state E) : state E * list Z :=
  if decide (state_of s i = Some RUNNABLE) then
    let s := set_proc (Some i) s in
    let s := on_env (switchuvm i) s in
    let s := set_state i RUNNING s in
    let s := swtch i s in
    let s := on_env switchkvm s in
    (set_proc None s, [i])
  else (s, []).

Fixpoint visit_from (n : nat) (i : Z) (s : state E) : state E * list Z :=
  match n with
  | O => (s, [])
  | S n =>
      let '(s, t) := visit i s in
      let '(s, t') := visit_from n (i + 1) s in
      (s, t ++ t')
  end.

(** One turn of the endless loop; [NPROC] is the size of the table. *)
Definition sched_pass (s : state E) : state E * list Z :=
  let s := on_env sti s in
  let s := on_env acquire s in
  let '(s, t) := visit_from (length (table s)) 0 s in
  (on_env release s, t).

(** [n] turns. *)
Fixpoint scheduler_passes (n : nat) (s : state E) : state E * list Z :=
  match n with
  | O => (s, [])
  | S n =>
      let '(s, t) := sched_pass s in
      let '(s, t') := scheduler_passes n s in
      (s, t ++ t')
  end.

(** [scheduler]: [c->proc = 0], then the loop. *)
Definition scheduler (n : nat) (s : state E) : state E * list Z :=
  scheduler_passes n (set_proc None s).

(** [context_switch(&p->context, mycpu()->scheduler)]: what happens until the
    process is resumed. *)
Context (context_switch : state E -> state E).

Definition sched (s : state E) : state E :=
  let intena := saved_IF (this_cpu s) in
  let s := context_switch s in
  State (table s) (Cpu (cpu_proc (this_cpu s)) intena) (env s).

(** [myproc()] is the process of this CPU; a null one faults. *)
Definition yield : M (state E) unit :=
  s ← get;
  match cpu_proc (this_cpu s) with
  | None => fail (Unmapped 0)
  | Some i => put (sched (set_state i RUNNABLE s))
  end.

End scheduler.

End Scheduler.

(** ** syscalls.h, syscalls.c *)
Module Syscalls.

Inductive syscall :=
| fork | exit | wait | pipe | read | kill | exec | fstat | chdir | dup | getpid | sbrk | sleep
| uptime | open | write | mknod | unlink | link | mkdir | close.
#[global] Instance syscall_eq_dec : EqDecision syscall.
Proof. solve_decision. Defined.

Definition SYSCALL_LIST : list syscall :=
  [fork; exit; wait; pipe; read; kill; exec; fstat; chdir; dup; getpid; sbrk; sleep;
   uptime; open; write; mknod; unlink; link; mkdir; close].

(** The enumerator [SYS_name]. *)
Fixpoint position (c : syscall) (l : list syscall) : Z :=
  match l with
  | [] => 0
  | d :: l => if decide (c = d) then 0 else 1 + position c l
  end.
Definition SYS (c : syscall) : Z := position c SYSCALL_LIST.

Section dispatch.
(** The handlers, functions of files that are not in the repository. *)
Context {S : Type} (sys : syscall -> M S Z).

(** [tf] is the trap frame as a number, in the layout of idt.h. *)
Definition syscall_dispatch (tf : Z) : M S Z :=
  let syscall_num := fget trapframe "rsi" tf in
  match lookupZ SYSCALL_LIST syscall_num with
  | Some c => r ← sys c; mret (fset trapframe "rax" (u64 (i32 r)) tf)
  | None => mret (fset trapframe "rax" (u64 (-1)) tf)
  end.

End dispatch.

End Syscalls.

(** ** trap.c *)
Module Trap.
Import Proc Scheduler Lapic Timer.

Definition GENERAL_PROTECTION : Z := 13.

(** The timer (with the local APIC) and the scheduler state. *)
Record state {E : Type} := State { timer : Timer.state; sch : Scheduler.state E }.
Arguments state : clear implicits.
Arguments State {E}.

Section trap.
Context {E : Type} (context_switch : Scheduler.state E -> Scheduler.state E).
(** Names trap.c uses and no header declares. *)
Context (KEYBOARD_INTERRUPT_NUM PIT_INTERRUPT_NUM SYSCALL_INTERRUPT_NUM : Z).

Definition on_timer {A} (c : M Timer.state A) : M (state E) A :=
  zoom timer (fun t s => State t (sch s)) c.
Definition on_sch {A} (c : M (Scheduler.state E) A) : M (state E) A :=
  zoom sch (fun t s => State (timer s) t) c.
Definition eoi : M (state E) unit := on_timer (on_lapic lapic_eoi).

Definition interrupt_dispatch (tf : Z) : M (state E) Z :=
  let n := fget trapframe "interrupt_num" tf in
  (if n =? PAGE_FAULT then mret tt
   else if n =? GENERAL_PROTECTION then fail Halted
   else if n =? APIC_TIMER_INTERRUPT_NUM then
     eoi ;;
     s ← get;
     match cpu_proc (this_cpu (sch s)) with
     | None => mret tt
     | Some p =>
         if decide (state_of (sch s) p = Some RUNNING) then on_sch (yield context_switch) else mret tt
     end
   else if n =? APIC_SPURIOUS_INTERRUPT_NUM then eoi
   else if n =? KEYBOARD_INTERRUPT_NUM then eoi
   else if n =? PIT_INTERRUPT_NUM then on_timer pit_irq_handler ;; eoi
   else if n =? SYSCALL_INTERRUPT_NUM then mret tt
   else fail Halted) ;;
  mret tf.

End trap.

End Trap.

(** ** Facts *)
Module ProcessFacts.
Import Pmm PmmFacts Param Proc.

Abbreviation kmem s := (memory (Proc.pmm s)).

Lemma find_slot_some l : forall i k p,
  l !! k = Some p -> pstate p = UNUSED ->
  (forall j q, (j < k)%nat -> l !! j = Some q -> pstate q <> UNUSED) ->
  find_unused_slot l i = i + Z.of_nat k.
Proof.
  induction l as [|q l IH]; intros i k p Hk Hp Hlt; [done|]. cbn [find_unused_slot]. destruct k as [|k].
  - injection Hk as ->. case_decide; [lia|done].
  - case_decide; [exfalso; by apply (Hlt 0%nat q); [lia|..]|].
    rewrite (IH _ k p); [lia|done|done|]. intros j r Hj Hr. by apply (Hlt (S j)); [lia|].
Qed.

Lemma find_slot_none l : forall i,
  Forall (fun p => pstate p <> UNUSED) l -> find_unused_slot l i = i + Z.of_nat (length l).
Proof.
  induction l as [|q l IH]; intros i Hl; simpl; [lia|].
  apply Forall_cons in Hl as [Hq Hl]. case_decide; [done|]. rewrite IH by done. lia.
Qed.

Lemma find_slot_first l i p :
  lookupZ l i = Some p -> pstate p = UNUSED ->
  (forall j q, 0 <= j < i -> lookupZ l j = Some q -> pstate q <> UNUSED) -> find_unused_slot l 0 = i.
Proof.
  intros Hi Hp Hlt. pose proof (lookupZ_range _ _ _ Hi). unfold lookupZ in Hi.
  destruct (Z.leb_spec 0 i); [|done]. rewrite (find_slot_some l 0 (Z.to_nat i) p Hi Hp); [lia|].
  intros j q Hj Hq. apply (Hlt (Z.of_nat j)); [lia|]. unfold lookupZ.
  destruct (Z.leb_spec 0 (Z.of_nat j)); [|lia]. by rewrite Nat2Z.id.
Qed.

Lemma upd_proc_run s i p f :
  lookupZ (procs s) i = Some p ->
  upd_proc i f s = Ok (tt, State (updateZ (procs s) i (f p)) (nextpid s) (Proc.pmm s)).
Proof. intros H. unfold upd_proc. mrun done. mrun by apply index_Ok. done. Qed.

Definition with_mem (s : state) (m : mem) : state :=
  State (procs s) (nextpid s)
    (Pmm.State (lock (Proc.pmm s)) (use_lock (Proc.pmm s)) (freelist (Proc.pmm s)) m).

Lemma proc_on_mem {A} (c : M mem A) s a m :
  c (kmem s) = Ok (a, m) -> on_mem c s = Ok (a, with_mem s m).
Proof. intros H. unfold on_mem, on_pmm, Pmm.on_mem, zoom. by rewrite H. Qed.

(** The kernel stack of a new process: the context at 3864, the return address
    at 3904 and the trap frame at 3912, from the bottom. *)
Definition stack_mem (m : mem) (page trapret procstart : Z) : mem :=
  poke 8 (fill 40 (set_byte m (page + 3904) (u64 trapret)) (page + 3864) 0) (page + 3896) procstart.

Definition new_proc (p : proc_t) (page n : Z) : proc_t :=
  Proc (sz p) (pml4 p) page EMBRYO n (parent p) (page + 3912) (page + 3864) (chan p) (killed p)
    (cwd p) (name p).

Tactic Notation "pstep" tactic3(t) :=
  mrun t; cbn [procs nextpid Proc.pmm with_mem]; rewrite ?updateZ_twice.

Section create.
Context (s : state) (i : Z) (p : proc_t) (trapret procstart : Z).
Hypothesis Hi : lookupZ (procs s) i = Some p.
Hypothesis Hp : pstate p = UNUSED.
Hypothesis Hfirst : forall j q, 0 <= j < i -> lookupZ (procs s) j = Some q -> pstate q <> UNUSED.

Lemma lookup_updated x : lookupZ (updateZ (procs s) i x) i = Some x.
Proof using Hi.
  rewrite lookupZ_update by (by eapply lookupZ_range). by rewrite decide_True.
Qed.

Lemma create_proc_no_page :
  free_pages (Proc.pmm s) [] ->
  create_proc trapret procstart s =
  Ok (None, State (updateZ (procs s) i (set_kstack 0 (set_pid (nextpid s) p))) (i32 (nextpid s + 1)) (Proc.pmm s)).
Proof using Hi Hp Hfirst.
  intros Hfp. unfold create_proc. mrun done. rewrite (find_slot_first _ i p) by done.
  mrun by apply index_Ok. rewrite decide_False by (intros H; by apply H).
  mrun by apply upd_proc_run. do 2 (pstep done).
  pstep (apply upd_proc_run, lookup_updated).
  pstep (apply zoom_Ok, pmm_alloc_nil, Hfp).
  pstep (apply upd_proc_run, lookup_updated).
  change (0 =? 0) with true. cbn iota.
  pstep (apply upd_proc_run, lookup_updated). simpl.
  destruct p; simpl in *; subst. done.
Qed.

Lemma create_proc_run page l :
  free_pages (Proc.pmm s) (page :: l) ->
  create_proc trapret procstart s =
  Ok (Some i, State (updateZ (procs s) i (new_proc p page (nextpid s))) (i32 (nextpid s + 1))
    (Pmm.State (lock (Proc.pmm s)) (use_lock (Proc.pmm s)) (peek 8 (kmem s) page)
      (stack_mem (kmem s) page trapret procstart))).
Proof using Hi Hp Hfirst.
  intros Hfp. unfold create_proc. mrun done. rewrite (find_slot_first _ i p) by done.
  mrun by apply index_Ok. rewrite decide_False by (intros H; by apply H).
  mrun by apply upd_proc_run. do 2 (pstep done).
  pstep (apply upd_proc_run, lookup_updated).
  destruct (pmm_alloc_pop _ _ _ Hfp) as [Hpop _].
  destruct Hfp as [_ Hok _]. apply Forall_cons in Hok as [[_ Hm Hlo Hhi] _].
  unfold PGSIZE in *. pstep (apply zoom_Ok, Hpop).
  pstep (apply upd_proc_run, lookup_updated).
  destruct (Z.eqb_spec page 0); [lia|]. unfold KSTACKSIZE.
  change sizeof_trapframe with 184. change sizeof_context with 40. change (offsetof context "rip") with 32.
  assert (u64 (u64 (page + 4096) - 184) = page + 3912) as ->.
  { unfold Z.sub. rewrite wrap_add_wrap_l by lia. rewrite wrap_small by (unfold in_range; lia). lia. }
  pstep (apply upd_proc_run, lookup_updated).
  rewrite (wrap_small 64 (page + 3912 - 8)) by (unfold in_range; lia).
  replace (page + 3912 - 8) with (page + 3904) by lia.
  mrun (apply proc_on_mem, store8_ok, Hm; simpl; lia).
  rewrite (wrap_small 64 (page + 3904 - 40)) by (unfold in_range; lia).
  replace (page + 3904 - 40) with (page + 3864) by lia.
  pstep (apply upd_proc_run, lookup_updated).
  mrun (apply proc_on_mem, memset_ok; intros x Hx; apply Hm; change (Z.of_nat (Z.to_nat 40)) with 40 in Hx; lia).
  rewrite (wrap_small 64 (page + 3864 + 32)) by (unfold in_range; lia).
  replace (page + 3864 + 32) with (page + 3896) by lia.
  mrun (apply proc_on_mem, (store_ok 8); cbn [memory Proc.pmm with_mem]; apply mapped_range_fill;
        intros x Hx; apply Hm; simpl in *; lia).
  done.
Qed.

End create.

Lemma stack_mem_other m page tr ps x :
  x < page + 3864 \/ page + 3904 < x -> byte_at (stack_mem m page tr ps) x = byte_at m x.
Proof.
  intros Hx. unfold stack_mem. rewrite byte_at_poke_other, byte_at_fill, byte_at_set_byte by lia.
  change (Z.of_nat 40) with 40. destruct (Z.leb_spec (page + 3864) x), (Z.ltb_spec x (page + 3864 + 40));
    simpl; try lia; case_decide; try lia; done.
Qed.

Lemma stack_mem_mapped m page tr ps x : mapped (stack_mem m page tr ps) x = mapped m x.
Proof. unfold stack_mem. by rewrite mapped_poke, mapped_fill. Qed.

Lemma stack_mem_free s page l tr ps :
  free_pages s (page :: l) ->
  free_pages (Pmm.State (lock s) (use_lock s) (peek 8 (memory s) page) (stack_mem (memory s) page tr ps)) l.
Proof.
  intros Hfp. destruct (pmm_alloc_pop _ _ _ Hfp) as [_ Hfp'].
  apply (free_pages_frame _ l (stack_mem (memory s) page tr ps) Hfp').
  - intros x. apply stack_mem_mapped.
  - intros q Hq. cbn [memory set_freelist]. apply peek_ext. intros x Hx. apply stack_mem_other.
    destruct Hfp as [_ Hok Hnd]. pose proof Hok as [Hpg Hok']%Forall_cons.
    rewrite Forall_forall in Hok'. apply NoDup_cons in Hnd as [Hnin _].
    destruct (page_disjoint _ page q Hpg (Hok' q Hq)); [congruence|unfold PGSIZE in *; lia..].
Qed.

End ProcessFacts.

(** ** Invariant of the process table *)
Module ProcessInv.
Import Pmm PmmFacts Param Proc ProcessFacts.

Definition live (s : state) (i : Z) (p : proc_t) : Prop :=
  lookupZ (procs s) i = Some p /\ pstate p <> UNUSED.

(** Live processes have distinct pids, all handed out, and distinct kernel
    stacks, none of which is a free page ([l]). *)
Record table_inv (s : state) (l : list Z) : Prop := {
  ti_pages : free_pages (Proc.pmm s) l;
  ti_length : Z.of_nat (length (procs s)) = MAX_PROC;
  ti_next : 1 <= nextpid s;
  ti_pid : forall i p, live s i p -> 1 <= pid p < nextpid s;
  ti_stack : forall i p, live s i p -> page_ok (kmem s) (kstack p) /\ kstack p ∉ l;
  ti_distinct : forall i j p q, live s i p -> live s j q -> i <> j -> pid p <> pid q /\ kstack p <> kstack q }.

Lemma live_update s i x n pm j q :
  0 <= i < Z.of_nat (length (procs s)) ->
  live (State (updateZ (procs s) i x) n pm) j q ->
  (j = i /\ q = x /\ pstate x <> UNUSED) \/ (j <> i /\ live s j q).
Proof.
  intros Hi [Hj Hq]. simpl in Hj. rewrite lookupZ_update in Hj by done. case_decide.
  - left. simplify_eq. auto.
  - right. split; [done|]. by split.
Qed.

Lemma table_inv_failed s l i p n :
  table_inv s l -> lookupZ (procs s) i = Some p -> pstate p = UNUSED -> nextpid s <= n ->
  forall x, pstate x = UNUSED -> table_inv (State (updateZ (procs s) i x) n (Proc.pmm s)) l.
Proof.
  intros [Hf Hl Hnx Hpid Hst Hd] Hi Hp Hn x Hx. pose proof (lookupZ_range _ _ _ Hi) as Hr. split; simpl.
  - done.
  - by rewrite updateZ_length.
  - lia.
  - intros j q H. apply live_update in H as [(_ & _ & H)|[_ H]]; [done| |done]. apply Hpid in H. lia.
  - intros j q H. apply live_update in H as [(_ & _ & H)|[_ H]]; [done| |done]. eauto.
  - intros j k q r Hj Hk Hne. apply live_update in Hj as [(_ & _ & Hj)|[_ Hj]]; [done| |done].
    apply live_update in Hk as [(_ & _ & Hk)|[_ Hk]]; [done| |done]. eauto.
Qed.

Lemma table_inv_created s page l i p tr ps :
  table_inv s (page :: l) -> lookupZ (procs s) i = Some p -> pstate p = UNUSED ->
  table_inv (State (updateZ (procs s) i (new_proc p page (nextpid s))) (nextpid s + 1)
    (Pmm.State (lock (Proc.pmm s)) (use_lock (Proc.pmm s)) (peek 8 (kmem s) page)
      (stack_mem (kmem s) page tr ps))) l.
Proof.
  intros [Hf Hl Hnx Hpid Hst Hd] Hi Hp. pose proof (lookupZ_range _ _ _ Hi) as Hr.
  assert (page_ok (kmem s) page /\ page ∉ l) as [Hpg Hnin].
  { destruct Hf as [_ Hok Hnd]. apply Forall_cons in Hok as [? _]. by apply NoDup_cons in Hnd as [? _]. }
  assert (forall q, page_ok (kmem s) q -> page_ok (stack_mem (kmem s) page tr ps) q) as Hpo
    by (intros q; apply page_ok_mapped; intros; apply stack_mem_mapped).
  split; cbn [procs nextpid Proc.pmm memory].
  - by apply stack_mem_free.
  - by rewrite updateZ_length.
  - lia.
  - intros j q H. apply live_update in H as [(-> & -> & _)|[_ H]]; [simpl; lia| |done].
    apply Hpid in H. lia.
  - intros j q H. apply live_update in H as [(-> & -> & _)|[_ H]]; [simpl; auto| |done].
    destruct (Hst j q H) as [H1 [_ H2]%not_elem_of_cons]. auto.
  - intros j k q r Hj Hk Hne.
    apply live_update in Hj as [(-> & -> & _)|[Hji Hj]]; [| |done];
    apply live_update in Hk as [(-> & -> & _)|[Hki Hk]]; try done; simpl.
    + destruct (Hst k r Hk) as [_ [H _]%not_elem_of_cons]. apply Hpid in Hk. split; [lia|congruence].
    + destruct (Hst j q Hj) as [_ [H _]%not_elem_of_cons]. apply Hpid in Hj. split; [lia|congruence].
    + eauto.
Qed.

(** The first unused slot, when there is one. *)
Lemma first_unused (l : list proc_t) :
  Forall (fun p => pstate p <> UNUSED) l \/
  exists i p, lookupZ l i = Some p /\ pstate p = UNUSED /\
    forall j q, 0 <= j < i -> lookupZ l j = Some q -> pstate q <> UNUSED.
Proof.
  induction l as [|p l IH]; [left; constructor|].
  destruct (decide (pstate p = UNUSED)) as [Hp|Hp].
  - right. exists 0, p. split; [done|]. split; [done|]. lia.
  - destruct IH as [H|(i & q & Hi & Hq & Hlt)]; [left; by constructor|right].
    pose proof (lookupZ_range _ _ _ Hi). exists (i + 1), q.
    assert (forall j, 0 <= j -> lookupZ (p :: l) (j + 1) = lookupZ l j) as Hs.
    { intros j Hj. unfold lookupZ. destruct (Z.leb_spec 0 (j + 1)), (Z.leb_spec 0 j); try lia.
      by replace (Z.to_nat (j + 1)) with (S (Z.to_nat j)) by lia. }
    split; [by rewrite Hs by lia|]. split; [done|]. intros j r Hj Hr.
    destruct (decide (j = 0)) as [->|]; [by injection Hr as <-|].
    apply (Hlt (j - 1)); [lia|]. rewrite <- Hr. rewrite <- Hs by lia. f_equal. lia.
Qed.

End ProcessInv.

(** ** The contract of a context switch, and passes of the scheduler *)
Module SchedulerFacts.
Import Proc Scheduler.

Section sched.
Context {E : Type}.
Abbreviation st := (Scheduler.state E).

(** Process [i], and no other, is running, and the CPU knows it. *)
Definition running_only (i : Z) (s : st) : Prop :=
  cpu_proc (this_cpu s) = Some i /\ forall j, state_of s j = Some RUNNING <-> j = i.

Definition idle (s : st) : Prop := forall j, state_of s j <> Some RUNNING.

(** What the scheduler relies on: a process that was switched to gives up the
    CPU in another state, does not resize the table and does not take other
    runnable processes off the queue. *)
Class SwitchContract (swtch : Z -> st -> st) : Prop := {
  sw_length : forall i s, running_only i s -> length (table (swtch i s)) = length (table s);
  sw_keeps : forall i j s, running_only i s -> j <> i ->
    state_of s j = Some RUNNABLE -> state_of (swtch i s) j = Some RUNNABLE;
  sw_leaves : forall i s, running_only i s -> idle (swtch i s) }.

Lemma state_of_set_state (s : st) i x j :
  is_Some (state_of s i) -> state_of (set_state i x s) j = if decide (j = i) then Some x else state_of s j.
Proof.
  intros [y Hy]. unfold state_of, set_state in *. destruct (lookupZ (table s) i) as [p|] eqn:Hp; [|done].
  simpl. rewrite lookupZ_update by (by eapply lookupZ_range). by case_decide.
Qed.

Lemma set_state_length (s : st) i x : length (table (set_state i x s)) = length (table s).
Proof. unfold set_state. destruct (lookupZ (table s) i); simpl; [apply updateZ_length|done]. Qed.

(** The simplest process: it yields at once. *)
Definition yielding (i : Z) (s : st) : st := set_state i RUNNABLE s.

#[export] Instance yielding_contract : SwitchContract yielding.
Proof.
  split; intros; unfold yielding.
  - apply set_state_length.
  - rewrite state_of_set_state; [by rewrite decide_False|]. exists RUNNING. by apply H.
  - intros j. rewrite state_of_set_state by (exists RUNNING; by apply H).
    case_decide; [done|]. intros Hj. by apply H in Hj.
Qed.

Context (switchuvm : Z -> E -> E) (switchkvm sti acquire release : E -> E).
Context (swtch : Z -> st -> st) `{!SwitchContract swtch}.

Abbreviation visit := (visit switchuvm switchkvm swtch).
Abbreviation visit_from := (visit_from switchuvm switchkvm swtch).

Lemma visit_spec i s :
  idle s ->
  idle (visit i s).1 /\ length (table (visit i s).1) = length (table s) /\
  (forall j, j <> i -> state_of s j = Some RUNNABLE -> state_of (visit i s).1 j = Some RUNNABLE) /\
  (visit i s).2 = if decide (state_of s i = Some RUNNABLE) then [i] else [].
Proof.
  intros Hid. unfold visit, Scheduler.visit. case_decide as Hr; [|by split_and!].
  set (s1 := set_state i RUNNING (on_env (switchuvm i) (set_proc (Some i) s))).
  assert (forall j, state_of s1 j = if decide (j = i) then Some RUNNING else state_of s j) as Hs1.
  { intros j. unfold s1. rewrite state_of_set_state; [done|]. by exists RUNNABLE. }
  assert (running_only i s1) as Hex.
  { split.
    - unfold s1, set_state. by destruct (lookupZ _ _).
    - intros j. rewrite Hs1. case_decide; [done|]. split; [|done]. intros Hj. by apply Hid in Hj. }
  change (set_proc None (on_env switchkvm (swtch i s1)), [i]).1 with
    (set_proc None (on_env switchkvm (swtch i s1))). split_and!.
  - intros j Hj. by apply (sw_leaves i s1 Hex j).
  - simpl. rewrite sw_length by done. unfold s1. by rewrite set_state_length.
  - intros j Hj Hjr. change (state_of (swtch i s1) j = Some RUNNABLE).
    apply sw_keeps; [done|done|]. rewrite Hs1. by rewrite decide_False.
  - done.
Qed.

Lemma visit_from_spec n : forall i s,
  idle s ->
  idle (visit_from n i s).1 /\ length (table (visit_from n i s).1) = length (table s) /\
  (forall j, i <= j < i + Z.of_nat n -> state_of s j = Some RUNNABLE -> j ∈ (visit_from n i s).2) /\
  (forall j, j ∈ (visit_from n i s).2 -> i <= j < i + Z.of_nat n) /\
  NoDup (visit_from n i s).2.
Proof.
  induction n as [|n IH]; intros i s Hid; cbn [Scheduler.visit_from].
  { split_and!; [done|done|lia|set_solver|constructor]. }
  destruct (visit_spec i s Hid) as (Hid1 & Hl1 & Hk1 & Ht1).
  destruct (visit i s) as [s1 t1] eqn:E1; cbn [fst snd] in *.
  destruct (IH (i + 1) s1 Hid1) as (Hid2 & Hl2 & Hk2 & Hb2 & Hn2).
  destruct (visit_from n (i + 1) s1) as [s2 t2] eqn:E2; cbn [fst snd] in *.
  split_and!; [done|congruence| | |].
  - intros j Hj Hr. apply elem_of_app. destruct (decide (j = i)) as [->|].
    + left. rewrite Ht1. rewrite decide_True by done. apply list_elem_of_here.
    + right. apply Hk2; [lia|]. by apply Hk1.
  - intros j Hj. apply elem_of_app in Hj as [Hj|Hj].
    + rewrite Ht1 in Hj. case_decide; [|set_solver]. apply list_elem_of_singleton in Hj. lia.
    + apply Hb2 in Hj. lia.
  - apply NoDup_app. split_and!; [|..|done].
    + rewrite Ht1. case_decide; [apply NoDup_singleton|constructor].
    + intros j Hj Hj2. apply Hb2 in Hj2. rewrite Ht1 in Hj. case_decide; [|set_solver].
      apply list_elem_of_singleton in Hj. lia.
Qed.

(** The slots are visited in order, whatever the processes do. *)
Lemma visit_from_sorted n : forall i s, StronglySorted Z.lt (visit_from n i s).2 /\ Forall (Z.le i) (visit_from n i s).2.
Proof using Type.
  induction n as [|n IH]; intros i s; cbn [Scheduler.visit_from]; [split; constructor|].
  destruct (visit i s) as [s1 t1] eqn:E1. specialize (IH (i + 1) s1).
  destruct (visit_from n (i + 1) s1) as [s2 t2] eqn:E2. cbn [snd] in *. destruct IH as [Hs Hf].
  assert (Forall (Z.lt i) t2) as Hlt by (eapply Forall_impl; [exact Hf|]; simpl; lia).
  assert (Forall (Z.le i) t2) as Hle by (eapply Forall_impl; [exact Hlt|]; simpl; lia).
  unfold Scheduler.visit in E1. case_decide; injection E1 as <- <-; cbn [app]; [|by split].
  split; constructor; auto. lia.
Qed.

End sched.

End SchedulerFacts.

(** ** Properties *)
Module ProcessProps.
Import Pmm PmmFacts Param Proc ProcessFacts ProcessInv Scheduler SchedulerFacts.

(** C15. [create_proc] with a free slot and a free page: the first unused slot
    becomes an embryo with the next pid and the page as its kernel stack; the
    trap frame is at the top, below it the return slot and the context, which
    is zero but for the instruction pointer [procstart]; other processes, other
    free pages and the rest of the memory are unchanged. *)
Theorem create_proc_ok s page l i p trapret procstart :
  free_pages (Proc.pmm s) (page :: l) -> lookupZ (procs s) i = Some p -> pstate p = UNUSED ->
  (forall j q, 0 <= j < i -> lookupZ (procs s) j = Some q -> pstate q <> UNUSED) ->
  0 <= nextpid s < 2 ^ 31 - 1 -> in_range 64 procstart ->
  exists s', create_proc trapret procstart s = Ok (Some i, s') /\
    lookupZ (procs s') i = Some (new_proc p page (nextpid s)) /\
    (forall j, j <> i -> lookupZ (procs s') j = lookupZ (procs s) j) /\
    nextpid s' = nextpid s + 1 /\ free_pages (Proc.pmm s') l /\
    (forall x, page + 3864 <= x < page + 3896 -> byte_at (kmem s') x = 0) /\
    peek 8 (kmem s') (page + 3896) = procstart /\
    (forall x, x < page + 3864 \/ page + 3904 < x -> byte_at (kmem s') x = byte_at (kmem s) x).
Proof.
  intros Hfp Hi Hp Hfirst Hn Hps. pose proof (lookupZ_range _ _ _ Hi).
  eexists. split; [by eapply create_proc_run|]. cbn [procs nextpid Proc.pmm memory]. split_and!.
  - by eapply lookup_updated.
  - intros j Hj. rewrite lookupZ_update by done. by rewrite decide_False.
  - apply swrap_small; [lia|]. simpl. lia.
  - by apply stack_mem_free.
  - intros x Hx. unfold stack_mem. rewrite byte_at_poke_other, byte_at_fill by lia.
    change (Z.of_nat 40) with 40. by zcase; try lia.
  - unfold stack_mem. rewrite peek_poke_same. by apply wrap_small.
  - intros x Hx. by apply stack_mem_other.
Qed.

Definition slot (st : procstate) : proc_t := Proc 0 0 0 st 0 0 0 0 0 0 0 [].
Definition boot_table : Proc.state :=
  Proc.State (replicate 64 (slot UNUSED)) 1 (Pmm.State 0 0 0x1000 (Mem [(0x1000, 4096)] ∅)).

Lemma boot_table_free : free_pages (Proc.pmm boot_table) [0x1000].
Proof.
  split; simpl.
  - constructor; [done|]. replace (peek 8 _ _) with 0 by done. constructor.
  - constructor; [|constructor].
    split; [by exists 1|by apply mapped_range_check|lia|unfold PGSIZE; lia].
  - apply NoDup_singleton.
Qed.

Lemma create_proc_ok_witness :
  exists s', create_proc 0xFFFFFFFF80101234 0xFFFFFFFF80105678 boot_table = Ok (Some 0, s') /\
    nextpid s' = 2.
Proof.
  destruct (create_proc_ok boot_table 0x1000 [] 0 (slot UNUSED) 0xFFFFFFFF80101234 0xFFFFFFFF80105678)
    as (s' & Hrun & _ & _ & Hn & _).
  - apply boot_table_free.
  - reflexivity.
  - reflexivity.
  - lia.
  - simpl; lia.
  - by vm_compute.
  - exists s'. exact (conj Hrun Hn).
Defined.

(** On a full table [create_proc] reads the slot after the last one: with
    every process in use it does not return the null pointer but accesses
    [procs[MAX_PROC]]. *)
Theorem create_proc_full s trapret procstart :
  Z.of_nat (length (procs s)) = MAX_PROC -> Forall (fun p => pstate p <> UNUSED) (procs s) ->
  create_proc trapret procstart s = Fault (OutOfBounds MAX_PROC).
Proof.
  intros Hl Hall. unfold create_proc. mrun done. rewrite find_slot_none by done.
  apply bind_Fault. unfold index, lookupZ. rewrite Hl. simpl.
  rewrite lookup_ge_None_2; [done|]. unfold MAX_PROC in *. lia.
Qed.

(** C11. The invariant of the process table: live processes have distinct pids
    and distinct kernel stacks that are not free pages.  As long as the signed
    32-bit pid counter is below its largest value, [create_proc] keeps the
    invariant whether it succeeds or runs out of pages, and returns the null
    pointer exactly in the second case; on a full table, and only there, it
    indexes the table outside its bounds. *)
Theorem create_proc_invariant s l trapret procstart :
  table_inv s l -> nextpid s < 2 ^ 31 - 1 ->
  (Forall (fun p => pstate p <> UNUSED) (procs s) /\ create_proc trapret procstart s = Fault (OutOfBounds MAX_PROC)) \/
  exists r s', create_proc trapret procstart s = Ok (r, s') /\ table_inv s' (tail l) /\ (r = None <-> l = []).
Proof.
  intros Hinv Hn. pose proof (ti_next _ _ Hinv) as H1.
  assert (i32 (nextpid s + 1) = nextpid s + 1) as Hi32 by (apply swrap_small; [lia|simpl; lia]).
  destruct (first_unused (procs s)) as [H|(i & p & Hi & Hp & Hf)].
  { left. split; [done|]. apply create_proc_full; [apply Hinv|done]. }
  right. destruct l as [|page l].
  - do 2 eexists. split; [apply (create_proc_no_page s i p); try done; apply Hinv|].
    split; [|done]. rewrite Hi32. eapply table_inv_failed; eauto; lia.
  - do 2 eexists. split; [eapply (create_proc_run s i p); try done; apply Hinv|].
    split; [|done]. rewrite Hi32. by apply table_inv_created.
Qed.

Lemma boot_table_inv : table_inv boot_table [0x1000].
Proof.
  assert (forall i p, ~ live boot_table i p) as Hno.
  { intros i p [Hi Hp]. cbn [procs boot_table] in Hi. unfold lookupZ in Hi. destruct (0 <=? i); [|done].
    apply lookup_replicate in Hi as [-> _]. by apply Hp. }
  split; [apply boot_table_free|done|simpl; lia|..]; intros; exfalso; eapply Hno; eauto.
Qed.

Lemma create_proc_invariant_witness :
  exists s', create_proc 1 2 boot_table = Ok (Some 0, s') /\ table_inv s' [].
Proof.
  destruct (create_proc_invariant boot_table [0x1000] 1 2 boot_table_inv) as [[H _]|(r & s' & Hrun & Hi & _)].
  - simpl. lia.
  - apply Forall_cons in H as [H _]. by exfalso; apply H.
  - exists s'. split; [|exact Hi]. rewrite Hrun. f_equal. f_equal.
    assert (result_of (create_proc 1 2 boot_table) = Some (Some 0)) as Hr by (vm_compute; reflexivity).
    rewrite Hrun in Hr. by injection Hr.
Defined.

Lemma create_proc_full_witness :
  create_proc 1 2 (Proc.State (replicate 64 (slot RUNNABLE)) 65 (Pmm.State 0 0 0 (Mem [] ∅))) =
  Fault (OutOfBounds 64).
Proof.
  apply create_proc_full; [done|]. apply Forall_replicate. by intros H.
Defined.

(** Only the low byte of the return address reaches the new stack: after
    [create_proc] the seven bytes above it are those the page held before. *)
Theorem create_proc_return_byte s page l i p trapret procstart :
  free_pages (Proc.pmm s) (page :: l) -> lookupZ (procs s) i = Some p -> pstate p = UNUSED ->
  (forall j q, 0 <= j < i -> lookupZ (procs s) j = Some q -> pstate q <> UNUSED) ->
  exists s', create_proc trapret procstart s = Ok (Some i, s') /\
    byte_at (kmem s') (page + 3904) = u8 trapret /\
    (forall x, page + 3905 <= x < page + 3912 -> byte_at (kmem s') x = byte_at (kmem s) x).
Proof.
  intros Hfp Hi Hp Hfirst. eexists. split; [by eapply create_proc_run|].
  cbn [Proc.pmm memory]. split.
  - unfold stack_mem. rewrite byte_at_poke_other, byte_at_fill, byte_at_set_byte by lia.
    change (Z.of_nat 40) with 40. rewrite decide_True by done. rewrite wrap_wrap_le by lia.
    by zcase; try lia.
  - intros x Hx. apply stack_mem_other. lia.
Qed.

Lemma create_proc_return_byte_witness :
  exists s', create_proc 0xFFFFFFFF80101234 2 boot_table = Ok (Some 0, s') /\
    byte_at (kmem s') (0x1000 + 3904) = 0x34.
Proof.
  destruct (create_proc_return_byte boot_table 0x1000 [] 0 (slot UNUSED) 0xFFFFFFFF80101234 2)
    as (s' & Hrun & Hb & _); [apply boot_table_free|reflexivity|reflexivity|lia|].
  exists s'. exact (conj Hrun Hb).
Defined.

(** C9. One pass of the scheduler is fair, for processes that honour the contract
    of a context switch (a process that has run is no longer running and has
    left the runnable ones runnable): every process that is runnable when the
    pass starts is run; the processes are run in the order of their slots, so
    none twice, and only slots of the table; and as the contract has it for each
    process, no process is running at any point between two slots of the loop,
    and none when the pass ends. *)
Theorem sched_pass_fair {E} uvm kvm sti acq rel swtch (s : Scheduler.state E) :
  SwitchContract swtch -> idle s ->
  let '(s', t) := sched_pass uvm kvm sti acq rel swtch s in
  (forall i, state_of s i = Some RUNNABLE -> i ∈ t) /\ NoDup t /\ StronglySorted Z.lt t /\
  (forall i, i ∈ t -> 0 <= i < Z.of_nat (length (table s))) /\
  (forall n, idle (visit_from uvm kvm swtch n 0 (on_env acq (on_env sti s))).1) /\ idle s'.
Proof.
  intros Hc Hid. unfold sched_pass.
  pose proof (visit_from_sorted uvm kvm swtch (length (table s)) 0 (on_env acq (on_env sti s))) as [Hs _].
  destruct (visit_from_spec uvm kvm swtch (length (table s)) 0 (on_env acq (on_env sti s)) Hid)
    as (Hid' & _ & Hk & Hb & Hn).
  cbn [table on_env] in *. destruct (visit_from _ _ _ (length _) _ _) as [s' t]. cbn [fst snd] in *.
  split_and!; [|done|done|done| |done].
  - intros i Hi. apply Hk; [|done].
    unfold state_of in Hi. destruct (lookupZ (table s) i) eqn:El; [|done].
    apply lookupZ_range in El. lia.
  - intros n. by apply (visit_from_spec uvm kvm swtch n 0 (on_env acq (on_env sti s)) Hid).
Qed.

Definition three : Scheduler.state unit :=
  Scheduler.State [slot RUNNABLE; slot SLEEPING; slot RUNNABLE] (Cpu None 0) tt.

Lemma sched_pass_fair_witness :
  (sched_pass (fun _ e => e) (fun e => e) (fun e => e) (fun e => e) (fun e => e) yielding three).2 = [0; 2] /\
  0 ∈ (sched_pass (fun _ e => e) (fun e => e) (fun e => e) (fun e => e) (fun e => e) yielding three).2.
Proof.
  split; [reflexivity|].
  pose proof (sched_pass_fair (fun _ e => e) (fun e => e) (fun e => e) (fun e => e) (fun e => e) yielding three
    yielding_contract) as H.
  destruct (sched_pass _ _ _ _ _ yielding three) as [s' t] eqn:E. simpl.
  destruct H as [H _].
  - intros j. unfold state_of, lookupZ. simpl. destruct (0 <=? j); [|done].
    destruct (Z.to_nat j) as [|[|[|n]]]; done.
  - apply H. reflexivity.
Defined.

(** [yield] hands the CPU over and restores the interrupt state: the
    current process is runnable when the switch happens, and whatever runs in
    between, the saved interrupt flag of the CPU is the one from before. *)
Theorem yield_preserves_flag {E} (cs : Scheduler.state E -> Scheduler.state E) s i x :
  cpu_proc (this_cpu s) = Some i -> state_of s i = Some x ->
  exists s1, state_of s1 i = Some RUNNABLE /\ (forall j, j <> i -> state_of s1 j = state_of s j) /\
    yield cs s = Ok (tt, Scheduler.State (table (cs s1))
      (Cpu (cpu_proc (this_cpu (cs s1))) (saved_IF (this_cpu s))) (env (cs s1))).
Proof.
  intros Hc Hx. exists (set_state i RUNNABLE s). split_and!.
  - rewrite state_of_set_state by by exists x. by rewrite decide_True.
  - intros j Hj. rewrite state_of_set_state by by exists x. by rewrite decide_False.
  - unfold yield. mrun done. rewrite Hc. unfold sched, put, set_state.
    by destruct (lookupZ (table s) i).
Qed.

Lemma yield_preserves_flag_witness :
  exists s1 : Scheduler.state unit, state_of s1 0 = Some RUNNABLE.
Proof.
  destruct (yield_preserves_flag (fun s => s)
    (Scheduler.State [slot RUNNING] (Cpu (Some 0) 1) tt) 0 RUNNING) as (s1 & H & _); [reflexivity..|].
  exists s1. exact H.
Defined.

End ProcessProps.

(** ** Properties of system calls and interrupts *)
Module TrapProps.
Import Proc Scheduler Syscalls Trap Lapic Timer ApicFacts.

(** The table of handlers and the numbers agree. *)
Lemma SYS_lookup k c : lookupZ SYSCALL_LIST k = Some c -> k = SYS c.
Proof.
  unfold lookupZ. destruct (Z.leb_spec 0 k); [|done]. intros Hc.
  assert (Z.to_nat k < 21)%nat as Hk by (apply lookup_lt_Some in Hc; exact Hc).
  assert (forall n, (n < 21)%nat -> forall d, SYSCALL_LIST !! n = Some d -> SYS d = Z.of_nat n) as Hall.
  { intros n Hn d Hd. do 21 (destruct n as [|n]; [injection Hd as <-; reflexivity|]). lia. }
  specialize (Hall _ Hk _ Hc). lia.
Qed.

Lemma rax_in : "rax" ∈ (pl_name <$> trapframe).
Proof. apply (bool_decide_eq_true_1 _). vm_compute. reflexivity. Qed.

Lemma trapframe_sane : Forall sane_member trapframe_members.
Proof. apply (bool_decide_eq_true_1 _). vm_compute. reflexivity. Qed.

(** C30. [syscall_dispatch] selects the handler by number: the number of each
    call selects that call, whose 32-bit result is sign extended into [rax]; any
    other number gives -1 without calling anything; no other register of the
    trap frame changes. *)
Theorem syscall_dispatch_correct {S} (sys : syscall -> M S Z) tf (s : S) r s' :
  (forall c, fget trapframe "rsi" tf = SYS c -> sys c s = Ok (r, s')) ->
  exists tf' v, syscall_dispatch sys tf s =
      Ok (tf', if decide (fget trapframe "rsi" tf < 21) then s' else s) /\
    v = (if decide (fget trapframe "rsi" tf < 21) then u64 (i32 r) else 2 ^ 64 - 1) /\
    fget trapframe "rax" tf' = v /\
    (forall n, n ∈ (pl_name <$> trapframe) -> n <> "rax" -> fget trapframe n tf' = fget trapframe n tf).
Proof.
  intros Hsys. unfold syscall_dispatch.
  set (k := fget trapframe "rsi" tf) in *. assert (0 <= k) as Hk by (apply bits_range; by vm_compute).
  assert (forall v n, n ∈ (pl_name <$> trapframe) -> fget trapframe n (fset trapframe "rax" v tf) =
    if decide (n = "rax") then wrap 64 v else fget trapframe n tf) as Hf.
  { intros v n Hn. apply (fget_fset true trapframe_members); [apply trapframe_sane|apply rax_in|done]. }
  destruct (decide (k < 21)) as [Hlt|Hge].
  - destruct (lookupZ_is_Some SYSCALL_LIST k) as [c Hc]; [simpl; lia|]. rewrite Hc.
    mrun (apply Hsys; by apply SYS_lookup).
    do 2 eexists. split; [reflexivity|]. split; [reflexivity|]. split.
    + rewrite Hf by apply rax_in. rewrite decide_True by done. by apply wrap_wrap.
    + intros n Hn Hne. rewrite Hf by done. by rewrite decide_False.
  - assert (lookupZ SYSCALL_LIST k = None) as ->.
    { destruct (lookupZ SYSCALL_LIST k) eqn:E; [|done]. apply lookupZ_range in E. simpl in E. lia. }
    do 2 eexists. split; [reflexivity|]. split; [reflexivity|]. split.
    + rewrite Hf by apply rax_in. rewrite decide_True by done. reflexivity.
    + intros n Hn Hne. rewrite Hf by done. by rewrite decide_False.
Qed.

Lemma syscall_dispatch_correct_witness :
  exists tf', syscall_dispatch (fun c (s : nat) => Ok (- SYS c, S s)) (finit trapframe [("rsi", 10)]) 0%nat =
    Ok (tf', 1%nat) /\ fget trapframe "rax" tf' = 2 ^ 64 - 10.
Proof.
  destruct (syscall_dispatch_correct (fun c (s : nat) => Ok (- SYS c, S s)) (finit trapframe [("rsi", 10)])
    0%nat (-10) 1%nat) as (tf' & v & Hrun & -> & Hv & _).
  - intros c Hc. replace (fget trapframe "rsi" _) with 10 in Hc by (vm_compute; reflexivity).
    by rewrite <- Hc.
  - exists tf'. exact (conj Hrun Hv).
Defined.

(** The timer interrupt acknowledges before it switches: [lapic_eoi] has
    been sent when [yield] is called, and [yield] is called exactly when the
    current process is running. *)
Theorem timer_interrupt {E} (cs : Scheduler.state E -> Scheduler.state E) K P SC tf s :
  fget trapframe "interrupt_num" tf = APIC_TIMER_INTERRUPT_NUM ->
  using_x2apic_mode (lapic (timer s)) = true ->
  exists t, on_lapic lapic_eoi (timer s) = Ok (tt, t) /\
    lapic_value (lapic t) LAPIC_EOI_REG_OFFSET = 0 /\
    interrupt_dispatch cs K P SC tf s =
    match cpu_proc (this_cpu (sch s)) with
    | None => Ok (tf, Trap.State t (sch s))
    | Some p =>
        if decide (state_of (sch s) p = Some RUNNING) then
          match yield cs (sch s) with
          | Ok (_, sc) => Ok (tf, Trap.State t sc)
          | Fault f => Fault f
          end
        else Ok (tf, Trap.State t (sch s))
    end.
Proof.
  intros Hn Hx. destruct s as [[l d n tp dv] sc]; cbn [timer lapic sch] in *.
  assert (on_lapic lapic_eoi (Timer.State l d n tp dv) =
    Ok (tt, Timer.State (lapic_written l LAPIC_EOI_REG_OFFSET 0) d n tp dv)) as Heoi
    by (etrans; [apply zoom_Ok, lapic_write_run; by left|reflexivity]).
  eexists. split; [exact Heoi|]. cbn [lapic]. split.
  - unfold lapic_value, lapic_written. rewrite Hx. simpl. by rewrite lookup_insert_eq.
  - unfold interrupt_dispatch. rewrite Hn. simpl.
    unfold eoi, on_timer, zoom, mbind, M_bind, get. cbn [timer sch]. rewrite Heoi. cbn [timer sch].
    destruct (cpu_proc (this_cpu sc)) as [p|]; [|done].
    case_decide; [|done]. unfold on_sch, zoom. cbn [sch timer].
    by destruct (yield cs sc) as [[[] sc']|f].
Qed.

Lemma timer_interrupt_witness :
  exists t, on_lapic lapic_eoi (Timer.State (Lapic.State true 0 ∅ (Mem [] ∅) []) (Ioapic.Dev 0 ∅) 0 0 0) = Ok (tt, t) /\
    interrupt_dispatch (fun s => s) 33 34 128 (finit trapframe [("interrupt_num", 32)])
      (Trap.State (Timer.State (Lapic.State true 0 ∅ (Mem [] ∅) []) (Ioapic.Dev 0 ∅) 0 0 0)
        (Scheduler.State [] (Cpu None 0) tt)) =
    Ok (finit trapframe [("interrupt_num", 32)], Trap.State t (Scheduler.State [] (Cpu None 0) tt)).
Proof.
  destruct (timer_interrupt (fun s : Scheduler.state unit => s) 33 34 128 (finit trapframe [("interrupt_num", 32)])
    (Trap.State (Timer.State (Lapic.State true 0 ∅ (Mem [] ∅) []) (Ioapic.Dev 0 ∅) 0 0 0)
        (Scheduler.State [] (Cpu None 0) tt))) as (t & H1 & _ & H2).
  - vm_compute. reflexivity.
  - reflexivity.
  - exists t. exact (conj H1 H2).
Defined.

(** A system call interrupt reaches no handler: trap.c has the call of
    [syscall_dispatch] in a comment, and the frame is returned as it came. *)
Lemma syscall_interrupt_ignored {E} (cs : Scheduler.state E -> Scheduler.state E) K P SC tf s :
  fget trapframe "interrupt_num" tf = SC -> ~ SC ∈ [PAGE_FAULT; GENERAL_PROTECTION;
    APIC_TIMER_INTERRUPT_NUM; APIC_SPURIOUS_INTERRUPT_NUM; K; P] ->
  interrupt_dispatch cs K P SC tf s = Ok (tf, s).
Proof.
  intros Hn Hout. unfold interrupt_dispatch. rewrite Hn.
  assert (forall x, x ∈ [PAGE_FAULT; GENERAL_PROTECTION; APIC_TIMER_INTERRUPT_NUM;
    APIC_SPURIOUS_INTERRUPT_NUM; K; P] -> (SC =? x) = false) as Hne
    by (intros x Hx; apply Z.eqb_neq; by intros ->).
  do 6 (rewrite Hne by (repeat first [apply list_elem_of_here | apply list_elem_of_further])).
  by rewrite Z.eqb_refl.
Qed.

End TrapProps.
