(* ===== verification/AllTraps.v ===== *)
(** arch/x86/alltraps.S: from an interrupt entry point of vectors.S to the C
    handler and back to the interrupted program.

    The instructions are a list run over registers and memory.  The macros
    stand where the text uses them; the pushes of segment registers take two
    bytes, as the members of the trap frame do, and [pushl] of the generated
    entry points is read as the push of 64-bit mode, of eight bytes (neither
    assembles in 64-bit mode as it is written).

    The C function [trap], which no file defines, is a parameter: a function of
    the trap frame that may change it and the state of the kernel.  What the
    compiled code does besides, on the stack and elsewhere in memory, and
    whatever runs before it returns, is a parameter too, and it may leave any
    value in any register but the stack pointer. *)
From S2P Require Import Prelude Layout Memory Interrupts Vectors Apic Process.
From stdpp Require Import pretty.
Import Segmentation Idt.
Local Open Scope Z_scope.

(** ** Definitions *)
Module AllTraps.

Inductive reg :=
| RAX | RBX | RCX | RDX | RBP | RSI | RDI | R8 | R9 | R10 | R11 | R12 | R13 | R14 | R15
| RSP | DS | ES | FS | GS | CS | SS | RIP | RFLAGS.
#[global] Instance reg_eq_dec : EqDecision reg.
Proof. solve_decision. Defined.

Inductive insn :=
| Pushw (r : reg) | Pushq (r : reg) | Popw (r : reg) | Popq (r : reg)
| MovwImm (v : Z) (r : reg)     (** [movw $v, %r]: the low 16 bits *)
| MovwSeg (r s : reg)           (** [movw %r, %s] to a segment register *)
| Movq (r s : reg)              (** [movq %r, %s] *)
| Cld | CallTrap
| AddlEsp (v : Z)               (** [addl $v, %esp]: clears the upper half *)
| Iretq.

Definition save_context : list insn :=
  [Pushw DS; Pushw ES; Pushw FS; Pushw GS; Pushq RAX; Pushq RBX; Pushq RCX; Pushq RDX; Pushq RBP;
   Pushq RSI; Pushq RDI; Pushq R8; Pushq R9; Pushq R10; Pushq R11; Pushq R12; Pushq R13; Pushq R14;
   Pushq R15].

Definition restore_context : list insn :=
  [Popq R15; Popq R14; Popq R13; Popq R12; Popq R11; Popq R10; Popq R9; Popq R8; Popq RDI; Popq RSI;
   Popq RBP; Popq RDX; Popq RCX; Popq RBX; Popq RAX; Popw GS; Popw FS; Popw ES; Popw DS].

Definition trapret : list insn := Movq RAX RSP :: restore_context ++ [AddlEsp 16; Iretq].

Definition alltraps : list insn :=
  save_context ++
  [MovwImm SEG_KDATA RAX; MovwSeg RAX DS; MovwSeg RAX ES; Movq RSP RDI; Cld; CallTrap] ++
  trapret.

(** Registers, memory and the state of the kernel. *)
Record machine {K : Type} := Machine { regs : reg -> Z; ram : mem; kern : K }.
Arguments machine : clear implicits.
Arguments Machine {K}.

Section machine.
Context {K : Type}.
(** The C function: the trap frame and the kernel before and after. *)
Context (trap : Z -> M K Z).
(** The address that [call] pushes. *)
Context (ret_addr : Z).
(** What else happens to memory until the call returns, and the registers it
    returns with. *)
Context (work : mem -> mem) (clobber : reg -> Z).

Definition reg_upd (r : reg) (v : Z) (f : reg -> Z) : reg -> Z :=
  fun q => if decide (q = r) then v else f q.
Definition rd (r : reg) : M (machine K) Z := gets (fun c => regs c r).
Definition wr (r : reg) (v : Z) : M (machine K) unit :=
  modify (fun c => Machine (reg_upd r v (regs c)) (ram c) (kern c)).
Definition on_ram {A} : M mem A -> M (machine K) A :=
  zoom ram (fun m c => Machine (regs c) m (kern c)).
Definition on_kern {A} : M K A -> M (machine K) A :=
  zoom kern (fun k c => Machine (regs c) (ram c) k).

Definition push (n : nat) (v : Z) : M (machine K) unit :=
  sp ← rd RSP; wr RSP (u64 (sp - Z.of_nat n)) ;; sp ← rd RSP; on_ram (store n sp v).
Definition pop (n : nat) : M (machine K) Z :=
  sp ← rd RSP; v ← on_ram (load n sp); wr RSP (u64 (sp + Z.of_nat n)) ;; mret v.

(** [trapframe *trap(trapframe *tf)]: the result, the frame itself, in [rax];
    by the calling convention the stack pointer is as before. *)
Definition call_trap : M (machine K) unit :=
  push 8 ret_addr ;;
  tf ← rd RDI;
  raw ← on_ram (load (Z.to_nat sizeof_trapframe) tf);
  r ← on_kern (trap raw);
  on_ram (store (Z.to_nat sizeof_trapframe) tf r) ;;
  on_ram (modify work) ;;
  modify (fun c => Machine (reg_upd RSP (regs c RSP) clobber) (ram c) (kern c)) ;;
  wr RAX tf ;;
  rip ← pop 8; wr RIP rip.

Definition exec (i : insn) : M (machine K) unit :=
  match i with
  | Pushw r => v ← rd r; push 2 v
  | Pushq r => v ← rd r; push 8 v
  | Popw r => v ← pop 2; wr r v
  | Popq r => v ← pop 8; wr r v
  | MovwImm v r => x ← rd r; wr r (set_bits 0 16 v x)
  | MovwSeg r s => v ← rd r; wr s (u16 v)
  | Movq r s => v ← rd r; wr s v
  | Cld => f ← rd RFLAGS; wr RFLAGS (Z.ldiff f (Z.shiftl 1 10))
  | CallTrap => call_trap
  | AddlEsp v => sp ← rd RSP; wr RSP (u32 (sp + v))
  | Iretq =>
      rip ← pop 8; cs ← pop 8; rflags ← pop 8; rsp ← pop 8; ss ← pop 8;
      wr RIP rip ;; wr CS (u16 cs) ;; wr RFLAGS rflags ;; wr RSP rsp ;; wr SS (u16 ss)
  end.

Fixpoint run (p : list insn) : M (machine K) unit :=
  match p with
  | [] => mret tt
  | i :: p => exec i ;; run p
  end.

(** Delivery of interrupt [n] in 64-bit mode without a change of stack: the
    stack pointer is aligned, the interrupt frame and the error code, if there
    is one, are pushed; the gate gives the code segment and the entry point. *)
Definition deliver (n err entry sel : Z) : M (machine K) unit :=
  sp ← rd RSP; ss ← rd SS; flags ← rd RFLAGS; cs ← rd CS; rip ← rd RIP;
  wr RSP (Z.land sp (Z.lnot 15)) ;;
  push 8 ss ;; push 8 sp ;; push 8 flags ;; push 8 cs ;; push 8 rip ;;
  when (VectorsFacts.cpu_error_code n) (push 8 err) ;;
  wr RIP entry ;; wr CS sel ;; wr RFLAGS (Z.ldiff flags (Z.shiftl 1 9)).

(** The entry point of vectors.S: its pushes, each a slot of the trap frame. *)
Fixpoint push_all (l : list Z) : M (machine K) unit :=
  match l with
  | [] => mret tt
  | v :: l => push_all l ;; push 8 v
  end.

Definition vector_entry (n : Z) : M (machine K) unit :=
  match VectorsFacts.at_label ("vector" +:+ pretty n) Vectors.vectors_py ≫= fun ls => VectorsFacts.run ls [] with
  | Some (_, pushed) => push_all pushed
  | None => fail (OutOfBounds n)
  end.

(** The whole way of an interrupt. *)
Definition interrupt (n err entry sel : Z) : M (machine K) unit :=
  deliver n err entry sel ;; vector_entry n ;; run alltraps.

End machine.
End AllTraps.

(** ** Facts *)
Module AllTrapsFacts.
Import AllTraps.

(** *** Members in memory *)

(** Numbers of given widths, one after the other. *)
Fixpoint fbytes (fs : list (nat * Z)) : list Z :=
  match fs with [] => [] | (n, v) :: fs => le_bytes n v ++ fbytes fs end.

Definition width (fs : list (nat * Z)) : nat := sum_list_with fst fs.

Lemma fbytes_length fs : length (fbytes fs) = width fs.
Proof.
  induction fs as [|[n v] fs IH]; [done|]. cbn [fbytes]. rewrite length_app, le_bytes_length, IH. done.
Qed.

(** A little-endian number. *)
Fixpoint combine (l : list Z) : Z := match l with [] => 0 | b :: l => b + 256 * combine l end.

Lemma peek_combine m l : forall a, bytes_at m a l -> peek (length l) m a = combine l.
Proof.
  induction l as [|b l IH]; intros a; [done|]. intros [Hb Hl]. cbn [length combine].
  change (peek (S (length l)) m a) with (byte_at m a + 256 * peek (length l) m (a + 1)).
  by rewrite Hb, (IH _ Hl).
Qed.

Lemma combine_le_bytes n l : forall v, combine (le_bytes n v ++ l) = wrap (8 * Z.of_nat n) v + 2 ^ (8 * Z.of_nat n) * combine l.
Proof.
  induction n as [|n IH]; intros v.
  - unfold wrap. change (2 ^ (8 * Z.of_nat 0)) with 1. rewrite Z.mod_1_r. cbn [le_bytes app]. lia.
  - cbn [le_bytes app combine]. rewrite IH.
    replace (8 * Z.of_nat (S n)) with (8 + 8 * Z.of_nat n) by lia.
    rewrite Z.pow_add_r by lia. change (2 ^ 8) with 256. unfold wrap. rewrite Z.pow_add_r by lia.
    change (2 ^ 8) with 256. rewrite (Z.rem_mul_r v 256) by (try apply Z.pow_nonzero; lia). lia.
Qed.

Lemma combine_range fs : in_range (8 * Z.of_nat (width fs)) (combine (fbytes fs)).
Proof.
  induction fs as [|[n v] fs IH]; [done|]. cbn [fbytes]. rewrite combine_le_bytes.
  unfold width in *. cbn [sum_list_with fst]. unfold in_range in *.
  replace (8 * Z.of_nat (n + sum_list_with fst fs))
    with (8 * Z.of_nat n + 8 * Z.of_nat (sum_list_with fst fs)) by lia.
  rewrite Z.pow_add_r by lia. pose proof (wrap_range (8 * Z.of_nat n) v ltac:(lia)) as Hw. unfold in_range in Hw. nia.
Qed.

(** The member at a given place. *)
Lemma combine_field pre n v post :
  bits (8 * Z.of_nat (width pre)) (8 * Z.of_nat n) (combine (fbytes (pre ++ (n, v) :: post))) =
  wrap (8 * Z.of_nat n) v.
Proof.
  induction pre as [|[k u] pre IH].
  - unfold bits. cbn [width sum_list_with app fbytes]. rewrite Z.mul_0_r, Z.shiftr_0_r, combine_le_bytes.
    rewrite (Z.mul_comm (2 ^ _)), wrap_add_pow by lia. apply wrap_wrap. lia.
  - rewrite <- IH. cbn [app fbytes]. rewrite combine_le_bytes. unfold bits. f_equal.
    unfold width. cbn [sum_list_with fst]. set (s := sum_list_with fst pre).
    replace (8 * Z.of_nat (k + s)) with (8 * Z.of_nat k + 8 * Z.of_nat s) by lia.
    rewrite <- Z.shiftr_shiftr by lia. f_equal. rewrite Z.shiftr_div_pow2 by lia.
    pose proof (wrap_range (8 * Z.of_nat k) u ltac:(lia)) as Hw. unfold in_range in Hw.
    rewrite (Z.mul_comm (2 ^ _)), Z.div_add by (apply Z.pow_nonzero; lia). rewrite Z.div_small by done. lia.
Qed.

Lemma le_bytes_split n k v : le_bytes (n + k) v = le_bytes n v ++ le_bytes k (Z.shiftr v (8 * Z.of_nat n)).
Proof.
  revert v. induction n as [|n IH]; intros v.
  - cbn [Nat.add le_bytes app]. by rewrite Z.shiftr_0_r.
  - cbn [Nat.add le_bytes app]. rewrite IH. do 3 f_equal.
    replace (8 * Z.of_nat (S n)) with (8 + 8 * Z.of_nat n) by lia.
    rewrite <- Z.shiftr_shiftr by lia. by rewrite (Z.shiftr_div_pow2 v 8) by lia.
Qed.

Lemma bytes_at_poke n : forall m a v, bytes_at (poke n m a v) a (le_bytes n v).
Proof.
  induction n as [|n IH]; intros m a v; [done|].
  change (poke (S n) m a v) with (poke n (set_byte m a v) (a + 1) (v / 256)). cbn [le_bytes bytes_at].
  split; [|apply IH]. rewrite byte_at_poke_other by lia. rewrite byte_at_set_byte. by case_decide.
Qed.

(** *** The stack *)

Lemma upd_same r v f : reg_upd r v f r = v.
Proof. unfold reg_upd. by rewrite decide_True. Qed.

Lemma upd_other r v f q : q <> r -> reg_upd r v f q = f q.
Proof. intros. unfold reg_upd. by rewrite decide_False. Qed.

Section stack.
Context {K : Type} (trap : Z -> M K Z) (ret_addr : Z) (work : mem -> mem) (clobber : reg -> Z).
(** The stack lies in [lo, top) of the memory [m0]. *)
Variables (m0 : mem) (lo top : Z).
Hypothesis Hmap : mapped_range m0 lo (top - lo).
Hypothesis Hlo : 0 <= lo.
Hypothesis Htop : top < 2 ^ 64.
(** The addresses whose bytes nobody changes. *)
Variable keep : Z -> Prop.
Hypothesis Hkeep : forall x, keep x -> ~ lo <= x < top.
(** The C code maps what was mapped, and leaves the stack above it and those
    addresses alone. *)
Hypothesis Hworkm : forall m x, mapped (work m) x = mapped m x.
Hypothesis Hworkb : forall m x, lo <= x < top \/ keep x -> byte_at (work m) x = byte_at m x.

(** [l]: the bytes between the stack pointer and [top]. *)
Record at_stack (c : machine K) (l : list Z) : Prop := {
  as_sp : regs c RSP = top - Z.of_nat (length l);
  as_bytes : bytes_at (ram c) (regs c RSP) l;
  as_mapped : forall x, mapped (ram c) x = mapped m0 x;
  as_other : forall x, keep x -> byte_at (ram c) x = byte_at m0 x }.

(** Nothing but the stack pointer and memory changed. *)
Definition same (c c' : machine K) : Prop :=
  (forall q, q <> RSP -> regs c' q = regs c q) /\ kern c' = kern c.

Lemma same_refl c : same c c.
Proof. done. Qed.

Lemma same_trans c c1 c2 : same c c1 -> same c1 c2 -> same c c2.
Proof. intros [H1 H2] [H3 H4]. split; [|congruence]. intros q Hq. by rewrite H3, H1. Qed.

Lemma push_ok c l n v :
  at_stack c l -> lo + Z.of_nat n + Z.of_nat (length l) <= top ->
  exists c', push n v c = Ok (tt, c') /\ at_stack c' (le_bytes n v ++ l) /\ same c c'.
Proof.
  intros [Hsp Hb Hm Ho] Hroom. unfold push. mrun done. mrun done. mrun done.
  cbn [regs]. rewrite upd_same. set (sp := regs c RSP) in *. rewrite wrap_small by (unfold in_range; lia).
  eexists. split; [unfold on_ram, zoom; cbn [ram]; rewrite store_ok; [done|]|].
  { intros x Hx. rewrite Hm. apply Hmap. lia. }
  cbn [regs ram kern]. split; [|split; [|done]].
  - split; cbn [regs ram]; rewrite ?upd_same.
    + rewrite length_app, le_bytes_length. lia.
    + apply bytes_at_app. split; [apply bytes_at_poke|]. rewrite le_bytes_length.
      replace (sp - Z.of_nat n + Z.of_nat n) with sp by lia.
      eapply bytes_at_ext; [|exact Hb]. intros x Hx. apply byte_at_poke_other. lia.
    + intros x. by rewrite mapped_poke.
    + intros x Hx. pose proof (Hkeep x Hx). rewrite byte_at_poke_other by lia. by apply Ho.
  - intros q Hq. by apply upd_other.
Qed.

Lemma pop_ok c l n v :
  at_stack c (le_bytes n v ++ l) -> lo + Z.of_nat n + Z.of_nat (length l) <= top ->
  exists c', pop n c = Ok (wrap (8 * Z.of_nat n) v, c') /\ at_stack c' l /\ same c c'.
Proof.
  intros [Hsp Hb Hm Ho] Hroom. rewrite length_app, le_bytes_length in Hsp.
  apply bytes_at_app in Hb as [Hv Hb]. rewrite le_bytes_length in Hb. unfold pop. mrun done.
  set (sp := regs c RSP) in *.
  mrun (unfold on_ram, zoom; rewrite load_ok; [done|]; intros x Hx; rewrite Hm; apply Hmap; lia).
  rewrite (peek_le_bytes _ _ _ _ Hv), (wrap_small 64) by (unfold in_range; lia).
  eexists. split; [by mrun done|]. cbn [regs ram kern]. split; [|split; [|done]].
  - split; cbn [regs ram]; rewrite ?upd_same; auto. lia.
  - intros q Hq. by apply upd_other.
Qed.

Lemma at_stack_regs c l f k :
  at_stack c l -> f RSP = regs c RSP -> at_stack (Machine f (ram c) k) l.
Proof. intros [] Hf. split; cbn [regs ram]; rewrite ?Hf; auto. Qed.

(** *** Saving and restoring *)

Definition push_insn (x : nat * reg) : insn := if decide (x.1 = 2%nat) then Pushw x.2 else Pushq x.2.
Definition pop_insn (x : nat * reg) : insn := if decide (x.1 = 2%nat) then Popw x.2 else Popq x.2.
Definition slot_ok (x : nat * reg) : Prop := (x.1 = 2 \/ x.1 = 8)%nat /\ x.2 <> RSP.

(** The members saved, the last one pushed first in memory. *)
Definition saved (f : reg -> Z) (xs : list (nat * reg)) (fs : list (nat * Z)) : list (nat * Z) :=
  foldl (fun fs x => (x.1, f x.2) :: fs) fs xs.

Lemma saves_ok xs : forall c fs rest,
  Forall slot_ok xs -> at_stack c (fbytes fs) ->
  lo + Z.of_nat (sum_list_with fst xs) + Z.of_nat (width fs) <= top ->
  exists c', run trap ret_addr work clobber ((push_insn <$> xs) ++ rest) c = run trap ret_addr work clobber rest c' /\
    at_stack c' (fbytes (saved (regs c) xs fs)) /\ same c c'.
Proof.
  induction xs as [|[n q] xs IH]; intros c fs rest Hxs Hs Hroom; cbn [saved foldl fst snd].
  { exists c. done. }
  apply Forall_cons in Hxs as [[Hn Hq] Hxs]. cbn [fst snd sum_list_with] in *.
  destruct (push_ok c (fbytes fs) n (regs c q) Hs) as (c1 & Hp & Hs1 & Hsame); [rewrite fbytes_length; lia|].
  destruct (IH c1 ((n, regs c q) :: fs) rest) as (c2 & Hrun & Hs2 & Hsame2); auto.
  { unfold width in *. cbn [sum_list_with fst]. lia. }
  exists c2. split; [|split].
  - rewrite <- Hrun. cbn [fmap list_fmap app run]. unfold push_insn at 1. cbn [fst snd].
    assert (exec trap ret_addr work clobber (if decide (n = 2%nat) then Pushw q else Pushq q) c = Ok (tt, c1)) as He
      by (destruct Hn as [-> | ->]; case_decide; try done; cbn [exec]; mrun done; exact Hp).
    by rewrite (bind_Ok _ _ _ _ _ He).
  - change (at_stack c2 (fbytes (saved (regs c) xs ((n, regs c q) :: fs)))).
    enough (saved (regs c1) xs ((n, regs c q) :: fs) = saved (regs c) xs ((n, regs c q) :: fs)) as <- by done.
    generalize ((n, regs c q) :: fs). clear -Hxs Hsame. destruct Hsame as [Hsame _].
    induction Hxs as [|[k r] xs [_ Hr] _ IH]; intros l; [done|].
    unfold saved in *. cbn [foldl fst snd]. rewrite Hsame by done. apply IH.
  - by eapply same_trans.
Qed.

(** The registers after popping the members of [r] from bit [off] on. *)
Fixpoint restored (xs : list (nat * reg)) (off r : Z) (f : reg -> Z) : reg -> Z :=
  match xs with
  | [] => f
  | (n, q) :: xs => restored xs (off + 8 * Z.of_nat n) r (reg_upd q (bits off (8 * Z.of_nat n) r) f)
  end.

Lemma restored_ext xs : forall off r f g q,
  (forall q, q <> RSP -> f q = g q) -> q <> RSP -> restored xs off r f q = restored xs off r g q.
Proof.
  induction xs as [|[n p] xs IH]; intros off r f g q H Hq; cbn [restored]; [auto|].
  apply IH; [|done]. intros x Hx. unfold reg_upd. case_decide; auto.
Qed.

Lemma restores_ok xs : forall c off r k rest,
  Forall slot_ok xs -> 0 <= off ->
  at_stack c (le_bytes (sum_list_with fst xs + k) (Z.shiftr r off)) ->
  lo + Z.of_nat (sum_list_with fst xs + k) <= top ->
  exists c', run trap ret_addr work clobber ((pop_insn <$> xs) ++ rest) c = run trap ret_addr work clobber rest c' /\
    at_stack c' (le_bytes k (Z.shiftr r (off + 8 * Z.of_nat (sum_list_with fst xs)))) /\
    (forall q, q <> RSP -> regs c' q = restored xs off r (regs c) q) /\ kern c' = kern c.
Proof.
  induction xs as [|[n q] xs IH]; intros c off r k rest Hxs Hoff Hs Hroom; cbn [restored].
  { exists c. split; [done|]. cbn [sum_list_with Nat.add Z.of_nat] in *. by rewrite Z.mul_0_r, Z.add_0_r. }
  apply Forall_cons in Hxs as [[Hn Hq] Hxs]. cbn [fst snd sum_list_with] in *.
  rewrite <- Nat.add_assoc, le_bytes_split, Z.shiftr_shiftr in Hs by lia.
  destruct (pop_ok c _ n _ Hs) as (c1 & Hp & Hs1 & [Hsame Hk]); [rewrite le_bytes_length; lia|].
  destruct (IH (Machine (reg_upd q (bits off (8 * Z.of_nat n) r) (regs c1)) (ram c1) (kern c1))
    (off + 8 * Z.of_nat n) r k rest) as (c2 & Hrun & Hs2 & Hregs & Hk2); auto; try lia.
  { eapply at_stack_regs; [exact Hs1|]. by apply upd_other. }
  exists c2. split_and!.
  - rewrite <- Hrun. cbn [fmap list_fmap app run]. unfold pop_insn at 1. cbn [fst snd].
    assert (exec trap ret_addr work clobber (if decide (n = 2%nat) then Popw q else Popq q) c = Ok (tt,
      Machine (reg_upd q (bits off (8 * Z.of_nat n) r) (regs c1)) (ram c1) (kern c1))) as He
      by (destruct Hn as [-> | ->]; case_decide; try done; cbn [exec]; mrun exact Hp; done).
    by rewrite (bind_Ok _ _ _ _ _ He).
  - replace (off + 8 * Z.of_nat (n + sum_list_with fst xs))
      with (off + 8 * Z.of_nat n + 8 * Z.of_nat (sum_list_with fst xs)) by lia. exact Hs2.
  - intros p Hp'. rewrite Hregs by done. apply restored_ext; [|done]. cbn [regs].
    intros x Hx. unfold reg_upd. case_decide; auto.
  - by rewrite Hk2.
Qed.

Definition saves : list (nat * reg) :=
  [(2, DS); (2, ES); (2, FS); (2, GS); (8, RAX); (8, RBX); (8, RCX); (8, RDX); (8, RBP); (8, RSI); (8, RDI);
   (8, R8); (8, R9); (8, R10); (8, R11); (8, R12); (8, R13); (8, R14); (8, R15)]%nat.

Lemma save_context_saves : save_context = push_insn <$> saves.
Proof. done. Qed.

Lemma restore_context_saves : restore_context = pop_insn <$> reverse saves.
Proof. done. Qed.

Lemma saves_slots : Forall slot_ok saves.
Proof. unfold saves. repeat (apply Forall_cons; split; [split; [by left + by right|done]|]). constructor. Qed.

(** *** The handler *)

Lemma call_trap_ok c fs r k' :
  at_stack c (fbytes fs) -> width fs = Z.to_nat sizeof_trapframe -> regs c RDI = regs c RSP ->
  lo + 8 + sizeof_trapframe <= top -> trap (combine (fbytes fs)) (kern c) = Ok (r, k') ->
  exists c', call_trap trap ret_addr work clobber c = Ok (tt, c') /\
    at_stack c' (le_bytes (Z.to_nat sizeof_trapframe) r) /\ regs c' RAX = regs c' RSP /\ kern c' = k'.
Proof.
  intros Hs Hw Hdi Hroom Ht. change sizeof_trapframe with 184 in *. change (Z.to_nat 184) with 184%nat in *.
  pose proof (fbytes_length fs) as Hlen. rewrite Hw in Hlen.
  destruct (push_ok c _ 8 ret_addr Hs) as (c1 & Hp & Hs1 & [Hr1 Hk1]); [rewrite Hlen; lia|].
  unfold call_trap. change (Z.to_nat sizeof_trapframe) with 184%nat.
  mrun exact Hp. mrun done. rewrite Hr1 by done. rewrite Hdi.
  pose proof Hs as [Hsp _ _ _]. rewrite Hlen in Hsp. pose proof Hs1 as [Hsp1 Hb1 Hm1 Ho1].
  rewrite length_app, le_bytes_length, Hlen in Hsp1.
  apply bytes_at_app in Hb1 as [Hret Hfr]. rewrite le_bytes_length in Hfr.
  replace (regs c1 RSP + Z.of_nat 8) with (regs c RSP) in Hfr by lia.
  assert (forall m, (forall x, mapped m x = mapped m0 x) -> mapped_range m (regs c RSP) (Z.of_nat 184)) as Hmr.
  { intros m Hm x Hx. rewrite Hm. apply Hmap. lia. }
  mrun (unfold on_ram, zoom; rewrite load_ok by (by apply Hmr); done).
  pose proof (peek_combine _ _ _ Hfr) as Hraw. rewrite Hlen in Hraw. rewrite Hraw.
  mrun (unfold on_kern, zoom; cbn [kern]; rewrite Hk1, Ht; done).
  mrun (unfold on_ram, zoom; cbn [ram]; rewrite store_ok by (by apply Hmr); done).
  mrun done. mrun done. mrun done. cbn [regs ram kern].
  set (c2 := Machine (reg_upd RAX (regs c RSP) (reg_upd RSP (regs c1 RSP) clobber))
    (work (poke 184 (ram c1) (regs c RSP) r)) k').
  assert (at_stack c2 (le_bytes 8 ret_addr ++ le_bytes 184 r)) as Hs2.
  { split; cbn [c2 regs ram]; rewrite ?(upd_other RAX), ?upd_same by done.
    - rewrite length_app, !le_bytes_length. lia.
    - eapply bytes_at_ext.
      { intros x Hx. rewrite length_app, !le_bytes_length in Hx. apply Hworkb. lia. }
      apply bytes_at_app. rewrite le_bytes_length. replace (regs c1 RSP + Z.of_nat 8) with (regs c RSP) by lia.
      split; [|apply bytes_at_poke]. eapply bytes_at_ext; [|exact Hret]. rewrite le_bytes_length.
      intros x Hx. apply byte_at_poke_other. lia.
    - intros x. by rewrite Hworkm, mapped_poke.
    - intros x Hx. pose proof (Hkeep x Hx). rewrite Hworkb by auto. rewrite byte_at_poke_other by lia. by apply Ho1. }
  destruct (pop_ok c2 _ 8 _ Hs2) as (c3 & Hpop & Hs3 & [Hr3 Hk3]); [rewrite le_bytes_length; lia|].
  eexists. split; [mrun exact Hpop; done|]. split; [by eapply at_stack_regs|]. cbn [regs kern].
  split; [|by rewrite Hk3]. rewrite !upd_other by done. rewrite Hr3 by done. cbn [c2 regs]. rewrite upd_same.
  rewrite (as_sp _ _ Hs3), le_bytes_length. lia.
Qed.

(** *** The way back *)

(** The member of the trap frame that holds a register. *)
Definition field (q : reg) : string :=
  match q with
  | RAX => "rax" | RBX => "rbx" | RCX => "rcx" | RDX => "rdx" | RBP => "rbp" | RSI => "rsi" | RDI => "rdi"
  | R8 => "r8" | R9 => "r9" | R10 => "r10" | R11 => "r11" | R12 => "r12" | R13 => "r13" | R14 => "r14"
  | R15 => "r15" | RSP => "rsp" | DS => "ds" | ES => "es" | FS => "fs" | GS => "gs" | CS => "cs" | SS => "ss"
  | RIP => "rip" | RFLAGS => "rflags"
  end.

(** Segment registers have 16 bits. *)
Definition reg_width (q : reg) : Z := match q with DS | ES | FS | GS | CS | SS => 16 | _ => 64 end.

Definition loaded (raw : Z) (q : reg) : Z := wrap (reg_width q) (fget trapframe (field q) raw).

(** *** Places of the members *)

(** The members of the trap frame in memory order, with their sizes. *)
Definition slots : list (string * nat) :=
  ((fun x => (field x.2, x.1)) <$> reverse saves) ++
  [("interrupt_num", 8%nat); ("error_code", 8%nat); ("rip", 8%nat); ("cs", 8%nat); ("rflags", 8%nat);
   ("rsp", 8%nat); ("ss", 8%nat)].

Definition slot_check (i : nat) : bool :=
  match slots !! i with
  | Some (s, n) =>
      let p := field_of trapframe s in
      (pl_off p =? 8 * Z.of_nat (sum_list_with snd (take i slots))) && (pl_width p =? 8 * Z.of_nat n)
  | None => true
  end.

(** The layout of idt.h is the order of the pushes. *)
Lemma slot_place i s n : slots !! i = Some (s, n) ->
  fget trapframe s = bits (8 * Z.of_nat (sum_list_with snd (take i slots))) (8 * Z.of_nat n).
Proof.
  intros Hi. assert (forallb slot_check (seq 0 26) = true) as H by (vm_compute; reflexivity).
  rewrite forallb_forall in H. specialize (H i). rewrite in_seq in H.
  assert (i < 26)%nat as Hlt by (apply lookup_lt_Some in Hi; exact Hi).
  specialize (H ltac:(lia)). unfold slot_check in H. rewrite Hi in H. cbv zeta in H.
  apply andb_prop in H as [Ho%Z.eqb_eq Hw%Z.eqb_eq]. unfold fget. by rewrite Ho, Hw.
Qed.

Lemma restored_at post n q : forall pre off r f, q ∉ post.*2 ->
  restored (pre ++ (n, q) :: post) off r f q = bits (off + 8 * Z.of_nat (sum_list_with fst pre)) (8 * Z.of_nat n) r.
Proof.
  induction pre as [|[k p] pre IH]; intros off r f Hq; cbn [app restored sum_list_with fst].
  - rewrite Z.mul_0_r, Z.add_0_r. revert Hq. generalize (off + 8 * Z.of_nat n).
    generalize (eq_refl (reg_upd q (bits off (8 * Z.of_nat n) r) f q)).
    rewrite upd_same at 1. generalize (reg_upd q (bits off (8 * Z.of_nat n) r) f).
    induction post as [|[k p] post IH]; intros g Hg z Hq; cbn [restored]; [done|].
    rewrite fmap_cons, not_elem_of_cons in Hq. destruct Hq as [Hne Hq]. cbn [snd] in Hne.
    apply IH; [|done]. by rewrite upd_other.
  - rewrite IH by done. f_equal. lia.
Qed.

Lemma saves_nodup : NoDup (reverse saves).*2.
Proof. apply (bool_decide_unpack _). vm_compute. exact I. Qed.

Lemma restored_field q r f : q ∈ saves.*2 -> restored (reverse saves) 0 r f q = loaded r q.
Proof.
  intros Hq. assert (q ∈ (reverse saves).*2) as Hq' by (by rewrite fmap_reverse, elem_of_reverse).
  apply list_elem_of_fmap in Hq' as ([n q'] & -> & Hin). cbn [snd] in *.
  apply list_elem_of_lookup in Hin as [i Hi].
  pose proof (take_drop_middle _ _ _ Hi) as Hsplit.
  assert (slots !! i = Some (field q', n)) as Hslot.
  { unfold slots. rewrite lookup_app_l by (rewrite length_fmap; by apply lookup_lt_Some in Hi).
    rewrite list_lookup_fmap, Hi. done. }
  rewrite <- Hsplit at 1. rewrite restored_at.
  - unfold loaded. rewrite (slot_place _ _ _ Hslot).
    assert (sum_list_with snd (take i slots) = sum_list_with fst (take i (reverse saves))) as ->.
    { unfold slots. rewrite take_app_le by (rewrite length_fmap; apply lookup_lt_Some in Hi; lia).
      rewrite <- fmap_take. clear. induction (take i (reverse saves)); simpl; auto. }
    assert (reg_width q' = 8 * Z.of_nat n) as ->.
    { assert (Forall (fun x => reg_width x.2 = 8 * Z.of_nat x.1) (reverse saves)) as Hw
        by (apply (bool_decide_unpack _); vm_compute; exact I).
      eapply Forall_lookup_1 in Hw; [|exact Hi]. exact Hw. }
    rewrite Z.add_0_l. symmetry. apply wrap_wrap. lia.
  - pose proof saves_nodup as Hnd. rewrite <- Hsplit, fmap_app, fmap_cons in Hnd.
    apply NoDup_app in Hnd as (_ & _ & Hnd). apply NoDup_cons in Hnd as [Hnd _]. exact Hnd.
Qed.

Lemma iretq_ok c r :
  at_stack c (le_bytes 40 r) -> lo + 40 <= top ->
  exists c', exec trap ret_addr work clobber Iretq c = Ok (tt, c') /\ kern c' = kern c /\
    (forall x, mapped (ram c') x = mapped m0 x) /\
    (forall x, keep x -> byte_at (ram c') x = byte_at m0 x) /\
    regs c' RIP = bits 0 64 r /\ regs c' CS = u16 (bits 64 64 r) /\ regs c' RFLAGS = bits 128 64 r /\
    regs c' RSP = bits 192 64 r /\ regs c' SS = u16 (bits 256 64 r) /\
    (forall q, q ∉ [RIP; CS; RFLAGS; RSP; SS] -> regs c' q = regs c q).
Proof.
  intros Hs Hroom. change 40%nat with (8 + (8 + (8 + (8 + 8))))%nat in Hs.
  rewrite !le_bytes_split, !Z.shiftr_shiftr in Hs by lia. cbn [exec].
  destruct (pop_ok c _ _ _ Hs) as (c1 & Hp1 & Hs1 & [Hr1 Hk1]); [rewrite !length_app, !le_bytes_length; lia|].
  destruct (pop_ok c1 _ _ _ Hs1) as (c2 & Hp2 & Hs2 & [Hr2 Hk2]); [rewrite !length_app, !le_bytes_length; lia|].
  destruct (pop_ok c2 _ _ _ Hs2) as (c3 & Hp3 & Hs3 & [Hr3 Hk3]); [rewrite !length_app, !le_bytes_length; lia|].
  destruct (pop_ok c3 _ _ _ Hs3) as (c4 & Hp4 & Hs4 & [Hr4 Hk4]); [rewrite !le_bytes_length; lia|].
  rewrite <- (app_nil_r (le_bytes 8 _)) in Hs4.
  destruct (pop_ok c4 _ _ _ Hs4) as (c5 & Hp5 & Hs5 & [Hr5 Hk5]); [simpl; lia|].
  eexists. split; [mrun exact Hp1; mrun exact Hp2; mrun exact Hp3; mrun exact Hp4; mrun exact Hp5; done|].
  cbn [regs ram kern]. destruct Hs5 as [_ _ Hm5 Ho5]. split; [congruence|]. split; [done|]. split; [done|].
  rewrite !(upd_other _ _ _ RIP), !(upd_other _ _ _ CS), !(upd_other _ _ _ RFLAGS), !(upd_other _ _ _ RSP),
    !upd_same by done. split_and!; try done.
  intros q Hq. rewrite !not_elem_of_cons in Hq. destruct Hq as (? & ? & ? & ? & ? & _).
  rewrite !upd_other by done. by rewrite Hr5, Hr4, Hr3, Hr2, Hr1.
Qed.

Lemma bits_shift off o w r : 0 <= off -> 0 <= o -> bits o w (Z.shiftr r off) = bits (off + o) w r.
Proof. intros. unfold bits. by rewrite Z.shiftr_shiftr by lia. Qed.

(** What a program sees after [trapret] from a frame [r] on the stack. *)
Record returned (c' : machine K) (k : K) (r : Z) : Prop := {
  ret_regs : forall q, regs c' q = loaded r q;
  ret_kern : kern c' = k;
  ret_mapped : forall x, mapped (ram c') x = mapped m0 x;
  ret_other : forall x, keep x -> byte_at (ram c') x = byte_at m0 x }.

Lemma trapret_ok c r :
  at_stack c (le_bytes (Z.to_nat sizeof_trapframe) r) -> regs c RAX = regs c RSP ->
  lo + sizeof_trapframe <= top -> top < 2 ^ 32 ->
  exists c', run trap ret_addr work clobber trapret c = Ok (tt, c') /\ returned c' (kern c) r.
Proof.
  intros Hs Hax Hroom H32. change sizeof_trapframe with 184 in *. change (Z.to_nat 184) with 184%nat in *.
  set (c0 := Machine (reg_upd RSP (regs c RAX) (regs c)) (ram c) (kern c)).
  assert (at_stack c0 (le_bytes (128 + 56) (Z.shiftr r 0))) as Hs0.
  { rewrite Z.shiftr_0_r. apply (at_stack_regs c); [exact Hs|]. by rewrite upd_same. }
  destruct (restores_ok (reverse saves) c0 0 r 56 [AddlEsp 16; Iretq]) as (c1 & Hrun & Hs1 & Hr1 & Hk1).
  { apply Forall_reverse, saves_slots. }
  { lia. }
  { exact Hs0. }
  { change (sum_list_with fst (reverse saves) + 56)%nat with 184%nat. lia. }
  change (0 + 8 * Z.of_nat (sum_list_with fst (reverse saves))) with 1024 in Hs1.
  change 56%nat with (16 + 40)%nat in Hs1. rewrite le_bytes_split, Z.shiftr_shiftr in Hs1 by lia.
  pose proof Hs1 as [Hsp1 Hb1 Hm1 Ho1]. rewrite length_app, !le_bytes_length in Hsp1.
  apply bytes_at_app in Hb1 as [_ Hb1]. rewrite le_bytes_length in Hb1.
  set (c2 := Machine (reg_upd RSP (top - 40) (regs c1)) (ram c1) (kern c1)).
  destruct (iretq_ok c2 (Z.shiftr r 1152)) as (c3 & Hi & Hk3 & Hm3 & Ho3 & Hip & Hcs & Hfl & Hsp & Hss & Hq); [|lia|].
  { split; cbn [c2 regs ram]; rewrite ?upd_same; auto.
    replace (top - 40) with (regs c1 RSP + Z.of_nat 16) by lia. exact Hb1. }
  exists c3. split.
  - unfold trapret. cbn [run]. mrun (cbn [exec]; mrun done; done). fold c0.
    rewrite restore_context_saves, Hrun. cbn [run].
    mrun (cbn [exec]; mrun done; rewrite wrap_small by (unfold in_range; lia);
          replace (regs c1 RSP + 16) with (top - 40) by lia; done). fold c2.
    mrun exact Hi. done.
  - split; auto; [|by rewrite Hk3; exact Hk1].
    rewrite bits_shift in Hip, Hcs, Hfl, Hsp, Hss by lia.
    assert (forall q, q ∉ [RIP; CS; RFLAGS; RSP; SS] ->
      regs c3 q = restored (reverse saves) 0 r (regs c0) q) as Hothers.
    { intros q Hn. rewrite Hq by done. cbn [c2 regs]. rewrite !not_elem_of_cons in Hn.
      rewrite upd_other by tauto. apply Hr1. tauto. }
    intros q. destruct (decide (q ∈ saves.*2)) as [Hin|Hout].
    + rewrite Hothers; [by apply restored_field|]. clear -Hin. intros H. revert Hin.
      apply (bool_decide_unpack (q ∉ saves.*2)). revert q H. apply Forall_forall.
      apply (bool_decide_unpack _). vm_compute. exact I.
    + unfold loaded. destruct q; try (destruct Hout; apply (bool_decide_unpack _); vm_compute; exact I);
        cbn [reg_width field].
      * rewrite (slot_place 24 "rsp" 8 eq_refl), Hsp. symmetry. by apply (wrap_wrap 64).
      * by rewrite (slot_place 22 "cs" 8 eq_refl), Hcs.
      * by rewrite (slot_place 25 "ss" 8 eq_refl), Hss.
      * rewrite (slot_place 21 "rip" 8 eq_refl), Hip. symmetry. by apply (wrap_wrap 64).
      * rewrite (slot_place 23 "rflags" 8 eq_refl), Hfl. symmetry. by apply (wrap_wrap 64).
Qed.

(** *** The way in *)

Definition iret_frame (f : reg -> Z) : list (nat * Z) :=
  [(8%nat, f RIP); (8%nat, f CS); (8%nat, f RFLAGS); (8%nat, f RSP); (8%nat, f SS)].

Definition error_code (n err : Z) : Z := if VectorsFacts.cpu_error_code n then err else 0.

(** Registers that delivery does not change. *)
Definition entered (c c' : machine K) : Prop :=
  (forall q, q ∈ saves.*2 -> regs c' q = regs c q) /\ kern c' = kern c.

Lemma same_entered c c1 c2 : entered c c1 -> same c1 c2 -> entered c c2.
Proof.
  intros [H1 H2] [H3 H4]. split; [|congruence]. intros q Hq. rewrite H3; [by apply H1|].
  intros ->. revert Hq. apply (bool_decide_unpack (RSP ∉ saves.*2)). vm_compute. exact I.
Qed.

Lemma deliver_ok c n err entry sel :
  (forall x, mapped (ram c) x = mapped m0 x) -> (forall x, keep x -> byte_at (ram c) x = byte_at m0 x) ->
  top = Z.land (regs c RSP) (Z.lnot 15) -> lo + 48 <= top ->
  exists c', deliver n err entry sel c = Ok (tt, c') /\ entered c c' /\
    at_stack c' (fbytes ((if VectorsFacts.cpu_error_code n then [(8%nat, err)] else []) ++ iret_frame (regs c))).
Proof.
  intros Hm Ho Ht Hroom. unfold deliver. do 5 mrun done. mrun done. rewrite <- Ht.
  set (c0 := Machine (reg_upd RSP top (regs c)) (ram c) (kern c)).
  assert (at_stack c0 []) as Hs0 by (split; cbn [c0 regs ram]; rewrite ?upd_same; simpl; auto; lia).
  assert (entered c c0) as He0.
  { apply (same_entered c c); [done|]. split; [|done]. intros q Hq. by apply upd_other. }
  destruct (push_ok c0 _ 8 (regs c SS) Hs0) as (c1 & Hp1 & Hs1 & Hk1); [simpl; lia|].
  destruct (push_ok c1 _ 8 (regs c RSP) Hs1) as (c2 & Hp2 & Hs2 & Hk2); [rewrite !length_app, !le_bytes_length; simpl; lia|].
  destruct (push_ok c2 _ 8 (regs c RFLAGS) Hs2) as (c3 & Hp3 & Hs3 & Hk3); [rewrite !length_app, !le_bytes_length; simpl; lia|].
  destruct (push_ok c3 _ 8 (regs c CS) Hs3) as (c4 & Hp4 & Hs4 & Hk4); [rewrite !length_app, !le_bytes_length; simpl; lia|].
  destruct (push_ok c4 _ 8 (regs c RIP) Hs4) as (c5 & Hp5 & Hs5 & Hk5); [rewrite !length_app, !le_bytes_length; simpl; lia|].
  mrun exact Hp1. mrun exact Hp2. mrun exact Hp3. mrun exact Hp4. mrun exact Hp5.
  assert (entered c c5) as He5 by eauto 10 using same_entered.
  assert (exists c6, when (VectorsFacts.cpu_error_code n) (push 8 err) c5 = Ok (tt, c6) /\ entered c c6 /\
    at_stack c6 (fbytes ((if VectorsFacts.cpu_error_code n then [(8%nat, err)] else []) ++ iret_frame (regs c))))
    as (c6 & Hp6 & He6 & Hs6).
  { destruct (VectorsFacts.cpu_error_code n).
    - destruct (push_ok c5 _ 8 err Hs5) as (c6 & Hp6 & Hs6 & Hk6); [rewrite !length_app, !le_bytes_length; simpl; lia|].
      exists c6. split; [exact Hp6|]. split; [by eapply same_entered|exact Hs6].
    - exists c5. split; [done|]. split; [exact He5|exact Hs5]. }
  mrun exact Hp6. eexists. split; [mrun done; mrun done; done|]. cbn [regs ram kern]. split.
  - destruct He6 as [Hr Hk]. split; [|exact Hk]. intros q Hq. cbn [regs].
    assert (q <> RFLAGS /\ q <> CS /\ q <> RIP) as (? & ? & ?).
    { split_and!; intros ->; revert Hq; apply (bool_decide_unpack (_ ∉ saves.*2)); vm_compute; exact I. }
    rewrite !upd_other by done. by apply Hr.
  - eapply at_stack_regs; [exact Hs6|]. by rewrite !upd_other.
Qed.

Lemma vector_entry_ok c fs n err :
  0 <= n < 256 -> VectorsFacts.two_codes n = false -> lo + 16 + Z.of_nat (width fs) <= top ->
  at_stack c (fbytes ((if VectorsFacts.cpu_error_code n then [(8%nat, err)] else []) ++ fs)) ->
  exists c', vector_entry n c = Ok (tt, c') /\ same c c' /\
    at_stack c' (fbytes ((8%nat, n) :: (8%nat, error_code n err) :: fs)).
Proof.
  intros Hn H2 Hroom Hs. pose proof (VectorsFacts.entry_ok_lookup n Hn) as H.
  apply andb_prop in H as [H%bool_decide_eq_true _]. unfold vector_entry. rewrite H. unfold error_code.
  rewrite (proj1 (VectorsFacts.cpu_error_code_cases n)), H2, orb_false_r in *.
  destruct (Vectors.error_code_pushed n); cbn [app push_all] in *.
  - destruct (push_ok c _ 8 n Hs) as (c1 & Hp1 & Hs1 & Hk1).
    { cbn [fbytes]. rewrite length_app, le_bytes_length, fbytes_length. lia. }
    exists c1. split; [by mrun done|]. done.
  - destruct (push_ok c _ 8 0 Hs) as (c1 & Hp1 & Hs1 & Hk1); [rewrite fbytes_length; lia|].
    destruct (push_ok c1 _ 8 n Hs1) as (c2 & Hp2 & Hs2 & Hk2).
    { rewrite length_app, le_bytes_length, fbytes_length. lia. }
    exists c2. split; [mrun (mrun done; exact Hp1); exact Hp2|]. split; [by eapply same_trans|done].
Qed.

(** The trap frame that the handler is given, as a number. *)
Definition frame_fields (n err : Z) (f : reg -> Z) : list (nat * Z) :=
  saved f saves ((8%nat, n) :: (8%nat, error_code n err) :: iret_frame f).

Definition trap_frame (n err : Z) (f : reg -> Z) : Z := combine (fbytes (frame_fields n err f)).

Lemma saved_ext f g xs : (forall q, q ∈ xs.*2 -> f q = g q) -> forall fs, saved f xs fs = saved g xs fs.
Proof.
  intros H. induction xs as [|[n q] xs IH]; intros fs; [done|]. unfold saved in *. cbn [foldl fst snd].
  rewrite (H q) by apply list_elem_of_here. apply IH. intros p Hp. apply H. by apply list_elem_of_further.
Qed.

(** Up to the return of the handler. *)
Lemma trap_ok c n err entry sel r k' :
  ram c = m0 -> top = Z.land (regs c RSP) (Z.lnot 15) -> lo + 192 <= top -> 0 <= n < 256 ->
  VectorsFacts.two_codes n = false -> trap (trap_frame n err (regs c)) (kern c) = Ok (r, k') ->
  exists c', interrupt trap ret_addr work clobber n err entry sel c = run trap ret_addr work clobber trapret c' /\
    at_stack c' (le_bytes (Z.to_nat sizeof_trapframe) r) /\ regs c' RAX = regs c' RSP /\ kern c' = k'.
Proof.
  intros Hram Ht Hroom Hn H2 Htrap. unfold interrupt.
  destruct (deliver_ok c n err entry sel) as (c1 & Hd & [He Hk1] & Hs1); [by rewrite Hram..|done|lia|].
  mrun exact Hd.
  destruct (vector_entry_ok c1 (iret_frame (regs c)) n err Hn H2
    ltac:(change (width _) with 40%nat; lia) Hs1) as (c2 & Hv & [Hr2 Hk2] & Hs2). mrun exact Hv.
  assert (forall q, q ∈ saves.*2 -> regs c2 q = regs c q) as Hr.
  { intros q Hq. rewrite Hr2; [by apply He|]. intros ->. revert Hq.
    apply (bool_decide_unpack (RSP ∉ saves.*2)). vm_compute. exact I. }
  unfold alltraps. rewrite save_context_saves.
  destruct (saves_ok saves c2 _ ([MovwImm SEG_KDATA RAX; MovwSeg RAX DS; MovwSeg RAX ES; Movq RSP RDI; Cld; CallTrap]
    ++ trapret) saves_slots Hs2) as (c3 & -> & Hs3 & [_ Hk3]).
  { change (sum_list_with fst saves) with 128%nat. change (width _) with 56%nat. lia. }
  rewrite (saved_ext (regs c2) (regs c) saves Hr) in Hs3. fold (frame_fields n err (regs c)) in Hs3.
  cbn [app run].
  mrun (cbn [exec]; mrun done; done). mrun (cbn [exec]; mrun done; done). mrun (cbn [exec]; mrun done; done).
  mrun (cbn [exec]; mrun done; done). mrun (cbn [exec]; mrun done; done). cbn [regs ram kern].
  match goal with |- context [(exec _ _ _ _ CallTrap ≫= _) ?x] => set (c4 := x) end.
  destruct (call_trap_ok c4 (frame_fields n err (regs c)) r k') as (c5 & Hcall & Hs5 & Hax & Hk5).
  { by eapply at_stack_regs. }
  { done. }
  { done. }
  { change sizeof_trapframe with 184. lia. }
  { cbn [c4 kern]. by rewrite Hk3, Hk2, Hk1. }
  exists c5. split; [by mrun exact Hcall|]. done.
Qed.

Lemma interrupt_ok c n err entry sel r k' :
  ram c = m0 -> top = Z.land (regs c RSP) (Z.lnot 15) -> lo + 192 <= top -> top < 2 ^ 32 -> 0 <= n < 256 ->
  VectorsFacts.two_codes n = false -> trap (trap_frame n err (regs c)) (kern c) = Ok (r, k') ->
  exists c', interrupt trap ret_addr work clobber n err entry sel c = Ok (tt, c') /\ returned c' k' r.
Proof.
  intros Hram Ht Hroom H32 Hn H2 Htrap.
  destruct (trap_ok c n err entry sel r k') as (c5 & -> & Hs5 & Hax & Hk5); auto.
  destruct (trapret_ok c5 r Hs5 Hax) as (c6 & Hrun & Hret).
  { change sizeof_trapframe with 184. lia. }
  { done. }
  exists c6. split; [exact Hrun|]. by rewrite Hk5 in Hret.
Qed.

(** From a stack above 4 GiB the addition to [esp] leaves the stack. *)
Lemma trapret_high c r :
  lo + sizeof_trapframe <= top ->
  at_stack c (le_bytes (Z.to_nat sizeof_trapframe) r) -> regs c RAX = regs c RSP ->
  mapped m0 (u32 (top - 40)) = false ->
  run trap ret_addr work clobber trapret c = Fault (Unmapped (u32 (top - 40))).
Proof.
  intros Hroom Hs Hax Hun. change sizeof_trapframe with 184 in *. change (Z.to_nat 184) with 184%nat in *.
  set (c0 := Machine (reg_upd RSP (regs c RAX) (regs c)) (ram c) (kern c)).
  assert (at_stack c0 (le_bytes (128 + 56) (Z.shiftr r 0))) as Hs0.
  { rewrite Z.shiftr_0_r. apply (at_stack_regs c); [exact Hs|]. by rewrite upd_same. }
  destruct (restores_ok (reverse saves) c0 0 r 56 [AddlEsp 16; Iretq])
    as (c1 & Hrun & [Hsp1 _ Hm1 _] & _); [apply Forall_reverse, saves_slots|lia|exact Hs0| |].
  { change (sum_list_with fst (reverse saves) + 56)%nat with 184%nat. lia. }
  rewrite le_bytes_length in Hsp1. unfold trapret. cbn [run]. mrun (cbn [exec]; mrun done; done). fold c0.
  rewrite restore_context_saves, Hrun. cbn [run]. mrun (cbn [exec]; mrun done; done).
  apply bind_Fault. cbn [exec]. apply bind_Fault. unfold pop. mrun done. cbn [regs]. rewrite upd_same, Hsp1.
  replace (top - Z.of_nat 56 + 16) with (top - 40) by lia. apply bind_Fault. unfold on_ram, zoom. cbn [ram].
  change (load 8 (u32 (top - 40))) with (lo ← load8 (u32 (top - 40)); hi ← load 7 (u32 (top - 40) + 1); mret (lo + 256 * hi)).
  rewrite (bind_Fault _ _ _ (Unmapped (u32 (top - 40)))); [done|]. unfold load8. by rewrite Hm1, Hun.
Qed.

(** *** What the frame holds *)

Definition slot_index (q : reg) : nat :=
  match q with
  | R15 => 0 | R14 => 1 | R13 => 2 | R12 => 3 | R11 => 4 | R10 => 5 | R9 => 6 | R8 => 7 | RDI => 8 | RSI => 9
  | RBP => 10 | RDX => 11 | RCX => 12 | RBX => 13 | RAX => 14 | GS => 15 | FS => 16 | ES => 17 | DS => 18
  | RIP => 21 | CS => 22 | RFLAGS => 23 | RSP => 24 | SS => 25
  end.

Lemma frame_member n err f i s w v : slots !! i = Some (s, w) -> frame_fields n err f !! i = Some (w, v) ->
  fget trapframe s (trap_frame n err f) = wrap (8 * Z.of_nat w) v.
Proof.
  intros Hs Hf. rewrite (slot_place i s w Hs). unfold trap_frame.
  rewrite <- (take_drop_middle _ _ _ Hf) at 1. rewrite <- combine_field with (post := drop (S i) (frame_fields n err f))
    (pre := take i (frame_fields n err f)). f_equal. do 2 f_equal. unfold width.
  assert ((frame_fields n err f).*1 = slots.*2) as Heq by reflexivity.
  assert (forall (l : list (nat * Z)) (k : list (string * nat)) j, l.*1 = k.*2 ->
    sum_list_with snd (take j k) = sum_list_with fst (take j l)) as Hsum; [|by apply Hsum].
  clear. induction l as [|x l IH]; intros [|y k] [|j] H; try done. simpl in *. injection H as -> H. f_equal. by apply IH.
Qed.

Lemma frame_register n err f q : in_range (reg_width q) (f q) -> loaded (trap_frame n err f) q = f q.
Proof.
  intros Hq. unfold loaded. rewrite (frame_member n err f (slot_index q) _
    (if decide (q ∈ [DS; ES; FS; GS]) then 2 else 8)%nat (f q)) by (destruct q; reflexivity).
  rewrite <- (wrap_small _ _ Hq) at 2. apply wrap_wrap_le. destruct q; vm_compute; split; discriminate.
Qed.

Lemma trap_frame_range n err f : in_range (8 * sizeof_trapframe) (trap_frame n err f).
Proof. apply (combine_range (frame_fields n err f)). Qed.

End stack.
End AllTrapsFacts.

(** ** Properties *)
Module AllTrapsProps.
Import AllTraps AllTrapsFacts.

(** The top of the stack an interrupt uses. *)
Definition stack_top {K} (c : machine K) : Z := Z.land (regs c RSP) (Z.lnot 15).

(** Room for a trap frame and a return address. *)
Record stack_ok {K} (c : machine K) : Prop := {
  stack_low : 192 <= stack_top c;
  stack_mapped : mapped_range (ram c) (stack_top c - 192) 192 }.

(** The C code and what runs until it returns keeps memory mapped, and the trap
    frame and its return address as they are. *)
Record respects {K} (c : machine K) (work : mem -> mem) : Prop := {
  work_mapped : forall m x, mapped (work m) x = mapped m x;
  work_stack : forall m x, stack_top c - 192 <= x < stack_top c -> byte_at (work m) x = byte_at m x }.

(** An address outside the stack that the C code does not write to. *)
Definition untouched {K} (c : machine K) (work : mem -> mem) (x : Z) : Prop :=
  ~ stack_top c - 192 <= x < stack_top c /\ forall m, byte_at (work m) x = byte_at m x.

Definition regs_ok (f : reg -> Z) : Prop := forall q, in_range (reg_width q) (f q).

Lemma stack_top_range {K} (c : machine K) : regs_ok (regs c) -> stack_top c < 2 ^ 64.
Proof.
  intros H. specialize (H RSP). unfold in_range in H. cbn [reg_width] in H. unfold stack_top.
  rewrite <- Z.ldiff_land. change 15 with (Z.ones 4). rewrite Z.ldiff_ones_r, Z.shiftl_mul_pow2, Z.shiftr_div_pow2 by lia.
  pose proof (Z.mul_div_le (regs c RSP) (2 ^ 4)). lia.
Qed.

(** An interrupt whose handler returns: below 4 GiB, and where the addition to
    [esp] leaves the mapped memory. *)
Lemma handled {K} (trap : Z -> M K Z) ret_addr work clobber (c : machine K) n err entry sel r k' :
  stack_ok c -> regs_ok (regs c) -> respects c work -> 0 <= n < 256 -> n ∉ [21; 29; 30] ->
  trap (trap_frame n err (regs c)) (kern c) = Ok (r, k') ->
  (stack_top c < 2 ^ 32 ->
   exists c', interrupt trap ret_addr work clobber n err entry sel c = Ok (tt, c') /\
     (forall q, regs c' q = loaded r q) /\ kern c' = k' /\
     (forall x, untouched c work x -> byte_at (ram c') x = byte_at (ram c) x)) /\
  (mapped (ram c) (u32 (stack_top c - 40)) = false ->
   interrupt trap ret_addr work clobber n err entry sel c = Fault (Unmapped (u32 (stack_top c - 40)))).
Proof.
  intros [Hl Hm] Hregs [Hwm Hwb] Hn H2 Ht. pose proof (stack_top_range c Hregs) as Htop.
  assert (VectorsFacts.two_codes n = false) as Htc by (by apply bool_decide_eq_false_2).
  assert (mapped_range (ram c) (stack_top c - 192) (stack_top c - (stack_top c - 192))) as Hm'
    by (by replace (stack_top c - (stack_top c - 192)) with 192 by lia).
  assert (forall m x, stack_top c - 192 <= x < stack_top c \/ untouched c work x -> byte_at (work m) x = byte_at m x)
    as Hb by (intros m x [?|[_ H]]; auto).
  split.
  - intros Hh. destruct (interrupt_ok trap ret_addr work clobber (ram c) (stack_top c - 192) (stack_top c) Hm'
      ltac:(lia) Htop (untouched c work) ltac:(by intros x []) Hwm Hb c n err entry sel r k')
      as (c' & Hrun & [Hr Hk Hmp Ho]); auto; [lia|]. exists c'. auto.
  - intros Hun. destruct (trap_ok trap ret_addr work clobber (ram c) (stack_top c - 192) (stack_top c) Hm'
      ltac:(lia) Htop (untouched c work) ltac:(by intros x []) Hwm Hb c n err entry sel r k')
      as (c5 & -> & Hs & Hax & _); auto; [lia|].
    apply (trapret_high trap ret_addr work clobber (ram c) (stack_top c - 192) (stack_top c) Hm'
      ltac:(lia) Htop (untouched c work) c5 r); auto.
    change sizeof_trapframe with 184. lia.
Qed.


Definition sample_machine : machine unit := Machine
  (fun q => match q with RSP => 0x2008 | RAX => 7 | CS => 8 | SS => 16 | RIP => 0x401000 | RFLAGS => 0x202 | _ => 1 end)
  (Mem [(0x1000, 0x2000)] ∅) tt.

Lemma sample_stack_ok : stack_ok sample_machine.
Proof. split; [by vm_compute|]. by apply mapped_range_check. Qed.

(** Compiled code that pushes below the frame and writes to a variable. *)
Definition sample_work (m : mem) : mem := poke 8 (poke 8 m 0x1f38 0x500123) 0x2800 77.

Lemma sample_respects : respects sample_machine sample_work.
Proof.
  split; unfold sample_work.
  - intros m x. by rewrite !mapped_poke.
  - intros m x Hx. change (stack_top sample_machine) with 0x2000 in Hx. by rewrite !byte_at_poke_other by lia.
Qed.


Lemma interrupt_dispatch_frame {E} (cs : Process.Scheduler.state E -> Process.Scheduler.state E) kb pit sys tf s r s' :
  Process.Trap.interrupt_dispatch cs kb pit sys tf s = Ok (r, s') -> r = tf.
Proof. unfold Process.Trap.interrupt_dispatch. intros H. apply bind_inv in H as (u & s1 & _ & H). by apply ret_inv in H as [<- _]. Qed.

Lemma frame_vector n err f : in_range 64 n -> fget trapframe "interrupt_num" (trap_frame n err f) = n.
Proof. intros Hn. rewrite (frame_member n err f 19 _ 8 n eq_refl eq_refl). by apply wrap_small. Qed.

(** The way through [interrupt_dispatch]: it returns the frame it was given. *)
Lemma dispatch_returns {E} (cs : Process.Scheduler.state E -> Process.Scheduler.state E) kb pit sys ret_addr
    work clobber (c : machine (Process.Trap.state E)) n err entry sel tf k' :
  stack_ok c -> regs_ok (regs c) -> respects c work -> 0 <= n < 256 -> n ∉ [21; 29; 30] ->
  Process.Trap.interrupt_dispatch cs kb pit sys (trap_frame n err (regs c)) (kern c) = Ok (tf, k') ->
  (stack_top c < 2 ^ 32 ->
   exists c', interrupt (Process.Trap.interrupt_dispatch cs kb pit sys) ret_addr work clobber n err entry sel c =
       Ok (tt, c') /\
     (forall q, regs c' q = regs c q) /\ kern c' = k' /\
     (forall x, untouched c work x -> byte_at (ram c') x = byte_at (ram c) x)) /\
  (mapped (ram c) (u32 (stack_top c - 40)) = false ->
   interrupt (Process.Trap.interrupt_dispatch cs kb pit sys) ret_addr work clobber n err entry sel c =
     Fault (Unmapped (u32 (stack_top c - 40)))).
Proof.
  intros Hst Hregs Hw Hn H2 Hd. pose proof (interrupt_dispatch_frame _ _ _ _ _ _ _ _ Hd) as ->.
  destruct (handled _ ret_addr work clobber c n err entry sel _ _ Hst Hregs Hw Hn H2 Hd) as [Hlow Hhigh].
  split; [|exact Hhigh]. intros Hh. destruct (Hlow Hh) as (c' & Hrun & Hr & Hk & Ho). exists c'. split_and!; auto.
  intros q. rewrite Hr. apply frame_register, Hregs.
Qed.


Definition sample_kernel : Process.Trap.state unit :=
  Process.Trap.State (Timer.State (Lapic.State true 0 ∅ (Mem [] ∅) []) (Ioapic.Dev 0 ∅) 0 0 0)
    (Process.Scheduler.State [] (Process.Scheduler.Cpu None 0) tt).

Definition running_machine : machine (Process.Trap.state unit) :=
  Machine (regs sample_machine) (ram sample_machine) sample_kernel.


End AllTrapsProps.
