(* ===== verification/Kernel.v ===== *)
(** The process subsystem as one machine: the table of proc.c, [create_proc],
    the endless loop of scheduler.c and the kernel threads that leave the CPU
    through [yield], interleaved as the code interleaves them.

    Process.v describes the loop as a function, with the code between a switch
    into a process and the switch back as a parameter.  Here that code takes
    part: a state has a control point (booting, at slot [i] of the loop, inside
    process [i]) and the threads that are suspended inside [sched].  A step is
    one iteration of the loop, one switch, or one kernel operation of the
    process that has the CPU.  The invariant of the table and of the CPU is
    proved for every reachable state, and so is a bound on the waiting time of
    a runnable process; what a thread sees of [yield] is related to the
    function of Process.v. *)
From S2P Require Import Prelude Layout Memory Paging Pmm Vmm Interrupts Vectors Apic Process AllTraps.
Import Param Proc Scheduler ProcessFacts ProcessInv SchedulerFacts.

Module Kernel.

(** What the scheduler's environment holds: the pid counter, the page
    allocator, and the machine the locks and [switchuvm] work on. *)
Record env_t {X : Type} := Env { e_nextpid : Z; e_pmm : Pmm.state; hw : X }.
Arguments env_t : clear implicits.
Arguments Env {X}.

(** Where the CPU is: before [scheduler] is called, at slot [i] of its inner
    loop, or in the kernel thread of process [i]. *)
Inductive mode := Booting | InLoop (i : Z) | InProc (i : Z).

(** What a step does. *)
Inductive label :=
| Start                  (* [scheduler] is called *)
| Skip (i : Z)           (* slot [i] is not runnable *)
| Pass                   (* the inner loop ends, the next turn begins *)
| Switch (i : Z)         (* the loop switches to process [i] *)
| Yield (i : Z)          (* process [i] yields *)
| Create (r : option Z)  (* [create_proc] returns *)
| Ready (i : Z)          (* a new process is made runnable, as [userinit] ends *)
| Intena (v : Z).        (* the locks write [saved_IF] *)

#[global] Instance label_eq_dec : EqDecision label.
Proof. solve_decision. Defined.

(** The suspended threads, with the local variable [intena] of [sched]. *)
Record kernel {X : Type} := K { sch : Scheduler.state (env_t X); at_ : mode; suspended : gmap Z Z }.
Arguments kernel : clear implicits.
Arguments K {X}.

Section machine.
Context {X : Type}.
(** The functions of other files, and the two addresses of [create_proc]. *)
Context (switchuvm : Z -> X -> X) (switchkvm sti acquire release : X -> X).
Context (trapret procstart : Z).

Abbreviation st := (Scheduler.state (env_t X)).

Definition on_hw (f : X -> X) (e : env_t X) : env_t X := Env (e_nextpid e) (e_pmm e) (f (hw e)).

Definition to_proc (s : st) : Proc.state := Proc.State (table s) (e_nextpid (env s)) (e_pmm (env s)).
Definition of_proc (p : Proc.state) (s : st) : st :=
  State (procs p) (this_cpu s) (Env (nextpid p) (Proc.pmm p) (hw (env s))).
Definition create : M st (option Z) := zoom to_proc of_proc (create_proc trapret procstart).

Definition set_IF (v : Z) (s : st) : st := State (table s) (Cpu (cpu_proc (this_cpu s)) v) (env s).

(** The two halves of an iteration, around [swtch]. *)
Definition enter (i : Z) (s : st) : st :=
  set_state i RUNNING (on_env (on_hw (switchuvm i)) (set_proc (Some i) s)).
Definition leave (s : st) : st := set_proc None (on_env (on_hw switchkvm) s).

(** The thread that is switched to: one suspended in [sched] restores its
    [intena]; a new process starts. *)
Definition resume (i : Z) (w : gmap Z Z) (s : st) : st :=
  match w !! i with Some v => set_IF v s | None => s end.

Definition begin_turn (s : st) : st := on_env (on_hw acquire) (on_env (on_hw sti) s).

(** The process, or the boot code, is executing kernel code. *)
Definition executing (m : mode) : Prop := match m with InLoop _ => False | _ => True end.

(** Where a function of Process.v faults there is no step: [create_proc] on a
    full table.  Pids are an [int] that is never reused; the runs considered
    are those in which it has not overflowed. *)
Inductive step : kernel X -> label -> kernel X -> Prop :=
| step_start s w :
    step (K s Booting w) Start (K (begin_turn (set_proc None s)) (InLoop 0) w)
| step_skip s w i :
    i < Z.of_nat (length (table s)) -> state_of s i <> Some RUNNABLE ->
    step (K s (InLoop i) w) (Skip i) (K s (InLoop (i + 1)) w)
| step_pass s w i :
    i = Z.of_nat (length (table s)) ->
    step (K s (InLoop i) w) Pass (K (begin_turn (on_env (on_hw release) s)) (InLoop 0) w)
| step_switch s w i :
    state_of s i = Some RUNNABLE ->
    step (K s (InLoop i) w) (Switch i) (K (resume i w (enter i s)) (InProc i) (delete i w))
| step_yield s s' w i :
    yield id s = Ok (tt, s') ->
    step (K s (InProc i) w) (Yield i)
      (K (leave s') (InLoop (i + 1)) (<[i := saved_IF (this_cpu s)]> w))
| step_create s s' w m r :
    executing m -> e_nextpid (env s) < 2 ^ 31 - 1 -> create s = Ok (r, s') ->
    step (K s m w) (Create r) (K s' m w)
| step_ready s w m i :
    executing m -> state_of s i = Some EMBRYO ->
    step (K s m w) (Ready i) (K (set_state i RUNNABLE s) m w)
| step_intena s w m v :
    step (K s m w) (Intena v) (K (set_IF v s) m w).

(** The step with a given label, computed. *)
Definition exec (a : label) (k : kernel X) : option (kernel X) :=
  let s := sch k in
  let w := suspended k in
  let m := at_ k in
  match a, m with
  | Start, Booting => Some (K (begin_turn (set_proc None s)) (InLoop 0) w)
  | Skip j, InLoop i =>
      if decide (j = i /\ i < Z.of_nat (length (table s)) /\ state_of s i <> Some RUNNABLE)
      then Some (K s (InLoop (i + 1)) w) else None
  | Pass, InLoop i =>
      if decide (i = Z.of_nat (length (table s)))
      then Some (K (begin_turn (on_env (on_hw release) s)) (InLoop 0) w) else None
  | Switch j, InLoop i =>
      if decide (j = i /\ state_of s i = Some RUNNABLE)
      then Some (K (resume i w (enter i s)) (InProc i) (delete i w)) else None
  | Yield j, InProc i =>
      match yield id s with
      | Ok (_, s') =>
          if decide (j = i) then Some (K (leave s') (InLoop (i + 1)) (<[i := saved_IF (this_cpu s)]> w)) else None
      | Fault _ => None
      end
  | Intena v, _ => Some (K (set_IF v s) m w)
  | _, InLoop _ => None
  | Create r, _ =>
      match create s with
      | Ok (r', s') => if decide (r = r' /\ e_nextpid (env s) < 2 ^ 31 - 1) then Some (K s' m w) else None
      | Fault _ => None
      end
  | Ready i, _ => if decide (state_of s i = Some EMBRYO) then Some (K (set_state i RUNNABLE s) m w) else None
  | _, _ => None
  end.

Fixpoint exec_all (t : list label) (k : kernel X) : option (kernel X) :=
  match t with
  | [] => Some k
  | a :: t => match exec a k with Some k => exec_all t k | None => None end
  end.

(** A run and what it did. *)
Inductive run : kernel X -> list label -> kernel X -> Prop :=
| run_nil k : run k [] k
| run_cons k a k1 t k2 : step k a k1 -> run k1 t k2 -> run k (a :: t) k2.

(** The kernel before the first process is made: an empty table, pids from 1. *)
Record booted (k : kernel X) : Prop := {
  bo_mode : at_ k = Booting;
  bo_table : Forall (fun p => pstate p = UNUSED) (table (sch k));
  bo_length : Z.of_nat (length (table (sch k))) = MAX_PROC;
  bo_next : e_nextpid (env (sch k)) = 1;
  bo_pages : exists l, PmmFacts.free_pages (e_pmm (env (sch k))) l;
  bo_none : suspended k = ∅ }.

Definition reachable (k : kernel X) : Prop := exists k0 t, booted k0 /\ run k0 t k.

End machine.
End Kernel.

(** ** Facts *)
Module KernelFacts.
Import Kernel.

Section facts.
Context {X : Type}.
Context (switchuvm : Z -> X -> X) (switchkvm sti acquire release : X -> X) (trapret procstart : Z).
Abbreviation st := (Scheduler.state (env_t X)).
Abbreviation step := (step switchuvm switchkvm sti acquire release trapret procstart).
Abbreviation run := (run switchuvm switchkvm sti acquire release trapret procstart).
Abbreviation reachable := (reachable switchuvm switchkvm sti acquire release trapret procstart).
Abbreviation create := (create trapret procstart).
Abbreviation enter := (enter switchuvm).

(** *** Changes of the table *)

Lemma table_inv_restate (s : Proc.state) l i p x n pm :
  table_inv s l -> lookupZ (procs s) i = Some p -> pstate p <> UNUSED -> x <> UNUSED ->
  n = nextpid s -> pm = Proc.pmm s ->
  table_inv (Proc.State (updateZ (procs s) i (set_pstate x p)) n pm) l.
Proof.
  intros [Hf Hl Hnx Hpid Hst Hd] Hi Hp Hx -> ->. pose proof (lookupZ_range _ _ _ Hi) as Hr.
  assert (live s i p) as Hli by done.
  assert (forall j q, live (Proc.State (updateZ (procs s) i (set_pstate x p)) (nextpid s) (Proc.pmm s)) j q ->
    exists q', live s j q' /\ pid q' = pid q /\ kstack q' = kstack q) as Hlive.
  { intros j q H. apply live_update in H as [(-> & -> & _)|[_ H]]; eauto. }
  split; cbn [procs nextpid Proc.pmm]; rewrite ?updateZ_length; try done.
  - intros j q (q' & H & <- & _)%Hlive. eauto.
  - intros j q (q' & H & _ & <-)%Hlive. eauto.
  - intros j k q r (q' & H & <- & <-)%Hlive (r' & H' & <- & <-)%Hlive. eauto.
Qed.

Lemma table_inv_set_state (s : st) l i y x :
  table_inv (to_proc s) l -> state_of s i = Some y -> y <> UNUSED -> x <> UNUSED ->
  table_inv (to_proc (set_state i x s)) l.
Proof.
  unfold state_of, set_state. intros Hinv Hi Hy Hx.
  destruct (lookupZ (table s) i) as [p|] eqn:Hp; [|done]. injection Hi as <-.
  exact (table_inv_restate (to_proc s) l i p x _ _ Hinv Hp Hy Hx eq_refl eq_refl).
Qed.

(** The environment does not matter for the state of a process. *)
Lemma state_of_table (s s' : st) j : table s = table s' -> state_of s j = state_of s' j.
Proof. unfold state_of. by intros ->. Qed.

Lemma set_state_cpu (s : st) i x : this_cpu (set_state i x s) = this_cpu s.
Proof. unfold set_state. by destruct (lookupZ _ _). Qed.

Lemma set_state_env (s : st) i x : env (set_state i x s) = env s.
Proof. unfold set_state. by destruct (lookupZ _ _). Qed.

(** [create_proc] under the invariant: it keeps it, and changes one slot from
    [UNUSED] to [UNUSED] or [EMBRYO]. *)
Lemma create_step (s s' : st) l r :
  table_inv (to_proc s) l -> e_nextpid (env s) < 2 ^ 31 - 1 -> create s = Ok (r, s') ->
  (exists l', table_inv (to_proc s') l') /\ this_cpu s' = this_cpu s /\
  length (table s') = length (table s) /\
  exists i x, state_of s i = Some UNUSED /\ (x = UNUSED \/ x = EMBRYO) /\
    forall j, state_of s' j = if decide (j = i) then Some x else state_of s j.
Proof.
  intros Hinv Hn Hc. pose proof (ti_next _ _ Hinv) as Hn1. cbn [nextpid to_proc] in Hn1.
  apply zoom_inv in Hc as (t & Hc & ->).
  destruct (first_unused (table s)) as [Hfull|(i & p & Hi & Hp & Hlt)].
  { unfold create_proc in Hc. apply bind_inv in Hc as (u & u' & [= <- <-] & Hc).
    rewrite (find_slot_none _ _ Hfull) in Hc. apply bind_inv in Hc as (q & u' & Hx & _).
    unfold index, to_proc in Hx. cbn [procs] in Hx.
    destruct (lookupZ (table s) (0 + Z.of_nat (length (table s)))) eqn:Hl; [|done].
    apply lookupZ_range in Hl. lia. }
  assert (i32 (e_nextpid (env s) + 1) = e_nextpid (env s) + 1) as Hw by (apply swrap_small; lia).
  pose proof (lookupZ_range _ _ _ Hi) as Hr. destruct l as [|page l].
  - pose proof (create_proc_no_page (to_proc s) i p trapret procstart Hi Hp Hlt (ti_pages _ _ Hinv)) as Hrun.
    rewrite Hrun in Hc. injection Hc as <- <-. cbn [nextpid to_proc] in *. rewrite Hw.
    split_and!; [exists []|done|apply updateZ_length|exists i, UNUSED; split_and!; [|by left|]].
    + apply (table_inv_failed (to_proc s) [] i p); try done; simpl; lia.
    + unfold state_of. by rewrite Hi; simpl; rewrite Hp.
    + intros j. unfold state_of. cbn [table of_proc procs]. rewrite lookupZ_update by done.
      case_decide; [|done]. simpl. by rewrite <- Hp.
  - pose proof (create_proc_run (to_proc s) i p trapret procstart Hi Hp Hlt page l (ti_pages _ _ Hinv)) as Hrun.
    rewrite Hrun in Hc. injection Hc as <- <-. cbn [nextpid to_proc] in *. rewrite Hw.
    split_and!; [exists l|done|apply updateZ_length|exists i, EMBRYO; split_and!; [|by right|]].
    + by apply (table_inv_created (to_proc s) page l i p).
    + unfold state_of. by rewrite Hi; simpl; rewrite Hp.
    + intros j. unfold state_of. cbn [table of_proc procs]. rewrite lookupZ_update by done. by case_decide.
Qed.

(** *** The invariant *)

(** Who runs: nobody while the kernel boots or loops, the process of the CPU
    and no other while it has the CPU. *)
Definition mode_inv (m : mode) (s : st) : Prop :=
  match m with
  | Booting => idle s
  | InLoop i => idle s /\ cpu_proc (this_cpu s) = None /\ 0 <= i <= Z.of_nat (length (table s))
  | InProc i => running_only i s
  end.

Record kernel_inv (k : kernel X) : Prop := {
  ki_table : exists l, table_inv (to_proc (sch k)) l;
  ki_mode : mode_inv (at_ k) (sch k);
  ki_suspended : forall i v, suspended k !! i = Some v -> state_of (sch k) i = Some RUNNABLE }.

Lemma booted_inv k : booted k -> kernel_inv k.
Proof.
  intros [Hm Ht Hl Hn [l Hp] Hs]. rewrite Forall_lookup in Ht.
  assert (forall i p, lookupZ (table (sch k)) i = Some p -> pstate p = UNUSED) as Hun.
  { intros i p. unfold lookupZ. destruct (0 <=? i); [|done]. apply Ht. }
  assert (forall i p, ~ live (to_proc (sch k)) i p) as Hno by (intros i p [H1%Hun H2]; by apply H2).
  split.
  - exists l. split; cbn [procs nextpid Proc.pmm to_proc]; try done; try lia.
    all: intros; exfalso; by eapply Hno.
  - rewrite Hm. intros j Hj. unfold state_of in Hj.
    destruct (lookupZ _ j) as [p|] eqn:Hlk; [|done]. apply Hun in Hlk. simpl in Hj. congruence.
  - rewrite Hs. intros i v H. by rewrite lookup_empty in H.
Qed.

(** A change of the table that neither starts nor stops a process. *)
Lemma mode_inv_keep m (s s' : st) :
  mode_inv m s -> this_cpu s' = this_cpu s -> length (table s') = length (table s) ->
  (forall j, state_of s' j = Some RUNNING <-> state_of s j = Some RUNNING) -> mode_inv m s'.
Proof.
  intros Hm Hc Hl Hr. destruct m as [|i|i]; cbn [mode_inv] in *.
  - intros j Hj. by apply Hr, Hm in Hj.
  - destruct Hm as (Hi & Hn & Hb). rewrite Hc, Hl. split; [|done]. intros j Hj. by apply Hr, Hi in Hj.
  - destruct Hm as [Hp Ho]. split; [by rewrite Hc|]. intros j. by rewrite Hr.
Qed.

Lemma enter_states i (s : st) j :
  state_of s i = Some RUNNABLE ->
  state_of (enter i s) j = if decide (j = i) then Some RUNNING else state_of s j.
Proof. intros H. unfold Kernel.enter. rewrite state_of_set_state; [done|]. by exists RUNNABLE. Qed.

Lemma resume_table i w (s : st) : table (resume i w s) = table s.
Proof. unfold resume. by destruct (w !! i). Qed.
Lemma resume_env i w (s : st) : env (resume i w s) = env s.
Proof. unfold resume. by destruct (w !! i). Qed.
Lemma resume_proc i w (s : st) : cpu_proc (this_cpu (resume i w s)) = cpu_proc (this_cpu s).
Proof. unfold resume. by destruct (w !! i). Qed.

(** The state [yield] leaves with: the process of the CPU is runnable. *)
Lemma yield_inv i (s s' : st) :
  cpu_proc (this_cpu s) = Some i -> yield id s = Ok (tt, s') -> s' = set_state i RUNNABLE s.
Proof.
  intros Hc Hy. unfold yield in Hy. apply bind_inv in Hy as (u & u' & [= <- <-] & Hy).
  rewrite Hc in Hy. unfold put in Hy. injection Hy as <-. unfold sched.
  destruct (set_state i RUNNABLE s) as [t [c f] e]. done.
Qed.

Lemma switch_inv s w i :
  kernel_inv (K s (InLoop i) w) -> state_of s i = Some RUNNABLE ->
  kernel_inv (K (resume i w (enter i s)) (InProc i) (delete i w)).
Proof.
  intros [[l Ht] (Hid & Hc & Hb) Hw] Hr. cbn [at_ sch suspended] in *. split; cbn [at_ sch suspended].
  - exists l. replace (to_proc (resume i w (enter i s))) with (to_proc (enter i s))
      by (unfold to_proc; by rewrite resume_table, resume_env).
    by apply (table_inv_set_state _ l i RUNNABLE).
  - split.
    + rewrite resume_proc. unfold Kernel.enter. by rewrite set_state_cpu.
    + intros j. rewrite (state_of_table _ _ j (resume_table i w _)), enter_states by done.
      case_decide; [done|]. split; [|done]. intros Hj. by apply Hid in Hj.
  - intros j v [Hne Hj]%lookup_delete_Some.
    rewrite (state_of_table _ _ j (resume_table i w _)), enter_states by done.
    rewrite decide_False by done. eauto.
Qed.

Lemma yield_step_inv s s' w i :
  kernel_inv (K s (InProc i) w) -> yield id s = Ok (tt, s') ->
  kernel_inv (K (leave switchkvm s') (InLoop (i + 1)) (<[i := saved_IF (this_cpu s)]> w)).
Proof.
  intros [[l Ht] [Hc Ho] Hw] Hy. cbn [at_ sch suspended] in *.
  apply (yield_inv i) in Hy as ->; [|done].
  assert (state_of s i = Some RUNNING) as Hi by by apply Ho.
  assert (forall j, state_of (leave switchkvm (set_state i RUNNABLE s)) j =
    if decide (j = i) then Some RUNNABLE else state_of s j) as Hst.
  { intros j. etrans; [|apply state_of_set_state; by exists RUNNING]. by apply state_of_table. }
  split; cbn [at_ sch suspended].
  - exists l. by apply (table_inv_set_state s l i RUNNING).
  - split_and!; [|done|..].
    + intros j. rewrite Hst. case_decide; [done|]. intros Hj. by apply Ho in Hj.
    + unfold state_of in Hi. destruct (lookupZ (table s) i) eqn:Hl; [|done]. apply lookupZ_range in Hl. lia.
    + cbn [table leave set_proc on_env]. rewrite set_state_length. unfold state_of in Hi.
      destruct (lookupZ (table s) i) eqn:Hl; [|done]. apply lookupZ_range in Hl. lia.
  - intros j v. rewrite Hst. case_decide as Hj; [done|]. rewrite lookup_insert_ne by done. apply Hw.
Qed.

(** Every step keeps the invariant. *)
Lemma step_inv k a k' : step k a k' -> kernel_inv k -> kernel_inv k'.
Proof.
  intros Hs Hk. destruct Hs as [s w|s w i Hi Hr|s w i ->|s w i Hr|s s' w i Hy|s s' w m r Hm Hn Hc|s w m i Hm Hi|s w m v].
  - destruct Hk as [Ht Hm Hw]. split; [done| |done]. split_and!; [done|done|lia|simpl; lia].
  - destruct Hk as [Ht (Hid & Hc & Hb) Hw]. split; [done| |done]. split_and!; [done|done|..]; simpl in *; lia.
  - destruct Hk as [Ht (Hid & Hc & Hb) Hw]. split; [done| |done]. split_and!; [done|done|lia|simpl; lia].
  - by apply switch_inv.
  - by apply yield_step_inv.
  - destruct Hk as [[l Ht] Hmo Hw]. cbn [at_ sch suspended] in *.
    destruct (create_step _ _ _ _ Ht Hn Hc) as (Ht' & Hcpu & Hl & i & x & Hi & Hx & Hst).
    split; cbn [at_ sch suspended]; [done| |].
    + apply (mode_inv_keep _ s); try done. intros j. rewrite Hst. case_decide; [subst j|done].
      rewrite Hi. destruct Hx; subst; done.
    + intros j v Hj%Hw. rewrite Hst. case_decide; [subst; congruence|done].
  - destruct Hk as [[l Ht] Hmo Hw]. cbn [at_ sch suspended] in *.
    assert (forall j, state_of (set_state i RUNNABLE s) j = if decide (j = i) then Some RUNNABLE else state_of s j)
      as Hst by (intros; apply state_of_set_state; by eexists).
    split; cbn [at_ sch suspended].
    + exists l. by apply (table_inv_set_state s l i EMBRYO).
    + apply (mode_inv_keep _ s); [done|apply set_state_cpu|apply set_state_length|].
      intros j. rewrite Hst. case_decide; [subst|done]. rewrite Hi. done.
    + intros j v Hj%Hw. rewrite Hst. by case_decide.
  - destruct Hk as [Ht Hmo Hw]. split; [done| |done]. by destruct m.
Qed.

Lemma run_inv k t k' : run k t k' -> kernel_inv k -> kernel_inv k'.
Proof. induction 1 as [|k a k1 t k2 Hs Hr IH]; [done|]. intros Hk. eapply IH, step_inv; eassumption. Qed.

Lemma reachable_inv k : reachable k -> kernel_inv k.
Proof. intros (k0 & t & Hb & Hr). by eapply run_inv, booted_inv. Qed.

Lemma runs_app k t k' t' k'' : run k t k' -> run k' t' k'' -> run k (t ++ t') k''.
Proof. induction 1; [done|]. intros. econstructor; eauto. Qed.

(** *** Computing the steps *)

Lemma exec_step k a k' : step k a k' <-> exec switchuvm switchkvm sti acquire release trapret procstart a k = Some k'.
Proof.
  split.
  - intros Hs. destruct Hs as [s w|s w i Hi Hr|s w i ->|s w i Hr|s s' w i Hy|s s' w m r Hm Hn Hc|s w m i Hm Hi|s w m v];
      cbn [exec at_ sch suspended]; rewrite ?decide_True by done; try done.
    + by rewrite Hy, decide_True.
    + rewrite Hc. destruct m; try done; by rewrite decide_True.
    + destruct m; try done; by rewrite decide_True.
  - destruct k as [s m w]. destruct a, m; cbn [exec at_ sch suspended]; intros H; try done;
      repeat (case_match; try done); try case_decide; try done; simplify_eq; destruct_and?; subst;
      try (by constructor). all: destruct u; by constructor.
Qed.

Lemma exec_run t : forall k k',
  exec_all switchuvm switchkvm sti acquire release trapret procstart t k = Some k' -> run k t k'.
Proof.
  induction t as [|a t IH]; intros k k' H; cbn [exec_all] in H; [simplify_eq; constructor|].
  destruct (exec _ _ _ _ _ _ _ a k) as [k1|] eqn:He; [|done]. econstructor; [by apply exec_step|by apply IH].
Qed.

(** *** Waiting *)

(** The labels that move the position of the loop. *)
Definition is_move (a : label) : bool := match a with Skip _ | Pass | Switch _ => true | _ => false end.
Definition moves (t : list label) : Z := Z.of_nat (length (filter (fun a => is_move a = true) t)).

(** How many moves the loop makes before it comes to slot [j]. *)
Definition distance (i j : Z) : Z := if i <=? j then j - i else MAX_PROC + 1 - i + j.
Definition rank (j : Z) (m : mode) : Z :=
  match m with Booting => j | InLoop i => distance i j | InProc i => distance (i + 1) j end.

Lemma inv_length k : kernel_inv k -> Z.of_nat (length (table (sch k))) = MAX_PROC.
Proof. intros [[l H] _ _]. exact (ti_length _ _ H). Qed.

Lemma state_of_range (s : st) j x : state_of s j = Some x -> 0 <= j < Z.of_nat (length (table s)).
Proof.
  unfold state_of. destruct (lookupZ (table s) j) eqn:H; [|done]. intros _. by apply lookupZ_range in H.
Qed.

Lemma rank_range k j x :
  kernel_inv k -> state_of (sch k) j = Some x -> 0 <= rank j (at_ k) <= MAX_PROC.
Proof.
  intros Hk Hj. pose proof (inv_length _ Hk) as Hl. apply state_of_range in Hj. destruct Hk as [_ Hm _].
  destruct (at_ k) as [|i|i]; cbn [rank mode_inv] in *; unfold distance.
  - lia.
  - destruct Hm as (_ & _ & Hb). destruct (Z.leb_spec i j); lia.
  - destruct Hm as [_ Ho]. assert (state_of (sch k) i = Some RUNNING) as Hi by by apply Ho.
    apply state_of_range in Hi. destruct (Z.leb_spec (i + 1) j); lia.
Qed.

(** A step that does not switch to the runnable process [j] leaves it
    runnable, and every move of the loop brings its turn nearer. *)
Lemma step_rank k a k' j :
  kernel_inv k -> step k a k' -> a <> Switch j -> state_of (sch k) j = Some RUNNABLE ->
  state_of (sch k') j = Some RUNNABLE /\
  rank j (at_ k) = rank j (at_ k') + (if is_move a then 1 else 0).
Proof.
  intros Hk Hs Ha Hj. pose proof (inv_length _ Hk) as Hl. pose proof (state_of_range _ _ _ Hj) as Hb.
  destruct Hk as [[l Ht] Hm _].
  destruct Hs as [s w|s w i Hi Hr|s w i ->|s w i Hr|s s' w i Hy|s s' w m r Hx Hn Hc|s w m i Hx Hi|s w m v];
    cbn [at_ sch suspended rank is_move] in *.
  - split; [done|]. unfold distance. destruct (Z.leb_spec 0 j); lia.
  - split; [done|]. assert (i <> j) by congruence. destruct Hm as (_ & _ & Hb').
    unfold distance. destruct (Z.leb_spec i j), (Z.leb_spec (i + 1) j); lia.
  - split; [done|]. unfold distance. destruct (Z.leb_spec (Z.of_nat (length (table s))) j), (Z.leb_spec 0 j); lia.
  - assert (i <> j) by congruence. split.
    + rewrite (state_of_table _ _ j (resume_table i w _)), enter_states by done. by rewrite decide_False.
    + destruct Hm as (_ & _ & Hb'). unfold distance. destruct (Z.leb_spec i j), (Z.leb_spec (i + 1) j); lia.
  - destruct Hm as [Hp Ho]. apply (yield_inv i) in Hy as ->; [|done]. split; [|lia].
    assert (state_of s i = Some RUNNING) as Hi by by apply Ho.
    etrans; [apply (state_of_table _ (set_state i RUNNABLE s)); done|].
    rewrite state_of_set_state by by exists RUNNING. by case_decide.
  - destruct (create_step _ _ _ _ Ht Hn Hc) as (_ & _ & _ & i & x & Hi & _ & Hst). split; [|lia].
    rewrite Hst. rewrite decide_False by (intros ->; congruence). done.
  - split; [|lia]. rewrite state_of_set_state by by eexists. by case_decide.
  - split; [done|lia].
Qed.

Lemma moves_cons a t : moves (a :: t) = (if is_move a then 1 else 0) + moves t.
Proof. unfold moves. rewrite filter_cons. destruct (is_move a); cbn [length]; case_decide; try done; cbn [length]; lia. Qed.

Lemma run_rank t : forall k k' j,
  kernel_inv k -> run k t k' -> state_of (sch k) j = Some RUNNABLE -> Switch j ∉ t ->
  rank j (at_ k) = rank j (at_ k') + moves t /\ state_of (sch k') j = Some RUNNABLE.
Proof.
  induction t as [|a t IH]; intros k k' j Hk Hr Hj Hn; inversion Hr as [|? ? k1 ? ? Hs Hr1]; subst.
  - unfold moves. cbn. split; [lia|done].
  - apply not_elem_of_cons in Hn as [Ha Hn].
    destruct (step_rank _ _ _ j Hk Hs) as [Hj1 He]; [congruence|done|].
    destruct (IH k1 k' j) as [He1 Hj']; [by eapply step_inv|done..|]. rewrite moves_cons. split; [lia|done].
Qed.

(** What a suspended thread has saved stays until it is switched to. *)
Lemma run_suspended t : forall k k' i v,
  kernel_inv k -> run k t k' -> suspended k !! i = Some v -> Switch i ∉ t -> suspended k' !! i = Some v.
Proof.
  induction t as [|a t IH]; intros k k' i v Hk Hr Hi Hn; inversion Hr as [|? ? k1 ? ? Hs Hr1]; subst; [done|].
  apply not_elem_of_cons in Hn as [Ha Hn]. apply (IH k1 k'); [by eapply step_inv|done| |done].
  destruct Hk as [_ Hm Hw]. apply Hw in Hi as Hst. destruct Hs; cbn [suspended sch at_] in *; try done.
  - rewrite lookup_delete_ne; [done|]. congruence.
  - destruct Hm as [_ Ho]. rewrite lookup_insert_ne; [done|]. intros ->.
    assert (state_of s i = Some RUNNING) by by apply Ho. congruence.
Qed.

(** *** Progress *)

Definition weight (m : mode) : Z := match m with InLoop _ => 0 | _ => 1 end.

Lemma progress k j :
  kernel_inv k -> state_of (sch k) j = Some RUNNABLE ->
  exists a k', step k a k' /\ (a = Switch j \/ 2 * rank j (at_ k') + weight (at_ k') < 2 * rank j (at_ k) + weight (at_ k)).
Proof.
  intros Hk Hj.
  enough (exists a k', step k a k' /\ (is_move a = true \/ weight (at_ k') < weight (at_ k))) as (a & k' & Hs & Hd).
  { exists a, k'. split; [done|]. destruct (decide (a = Switch j)) as [|Ha]; [by left|right].
    destruct (step_rank _ _ _ j Hk Hs Ha Hj) as [_ He].
    destruct Hd as [Hd|Hd]; [rewrite Hd in He|]; destruct (is_move a), (at_ k), (at_ k'); cbn [weight] in *; lia. }
  pose proof (inv_length _ Hk) as Hl. destruct Hk as [_ Hm _], k as [s m w]. cbn [at_ sch suspended] in *.
  destruct m as [|i|i]; cbn [mode_inv weight] in *.
  - eexists _, _. split; [constructor|right; simpl; lia].
  - destruct Hm as (_ & _ & Hb). destruct (decide (i = Z.of_nat (length (table s)))) as [He|He].
    { eexists _, _. split; [by constructor|by left]. }
    destruct (decide (state_of s i = Some RUNNABLE)).
    all: eexists _, _; (split; [constructor; (done || lia)|by left]).
  - destruct Hm as [Hp _]. exists (Yield i). eexists. split; [constructor|right; simpl; lia].
    unfold yield. rewrite (bind_Ok _ _ _ s s eq_refl), Hp. reflexivity.
Qed.

Lemma eventually_switched j : forall (n : nat) k,
  kernel_inv k -> state_of (sch k) j = Some RUNNABLE ->
  2 * rank j (at_ k) + weight (at_ k) < Z.of_nat n -> exists t k', run k t k' /\ Switch j ∈ t.
Proof.
  induction n as [|n IH]; intros k Hk Hj Hn.
  { pose proof (rank_range _ _ _ Hk Hj). destruct (at_ k); cbn [weight] in *; lia. }
  destruct (progress k j Hk Hj) as (a & k1 & Hs & Hd). destruct (decide (a = Switch j)) as [->|Ha].
  { exists [Switch j], k1. split; [econstructor; [done|constructor]|apply list_elem_of_here]. }
  destruct Hd as [|Hd]; [done|].
  destruct (step_rank _ _ _ j Hk Hs Ha Hj) as [Hj1 _].
  destruct (IH k1) as (t & k' & Hr & Hin); [by eapply step_inv|done|lia|].
  exists (a :: t), k'. split; [by econstructor|by apply list_elem_of_further].
Qed.

(** *** The return of [yield] *)

Lemma yielding_runs k i t k1 :
  reachable k -> run k (Yield i :: t) k1 ->
  cpu_proc (this_cpu (sch k)) = Some i /\ state_of (sch k) i = Some RUNNING.
Proof.
  intros Hk%reachable_inv Hr. inversion Hr as [|? ? k0 ? ? Hy _]; subst.
  inversion Hy as [| | | |s s' w ? Hye| | |]; subst. destruct Hk as [_ [Hp Ho] _]. split; [done|by apply Ho].
Qed.

(** What a thread sees of [yield] is what the function says: when process
    [i] yields and the scheduler switches back to it later, its call returns
    with the table and the environment as the others left them, and with the
    interrupt flag of this CPU as the thread itself had it, whatever the
    others, and the locks, wrote to it. *)
Lemma yield_back k i t k1 k' :
  reachable k -> run k (Yield i :: t) k1 -> Switch i ∉ t -> step k1 (Switch i) k' ->
  yield (fun _ => enter i (sch k1)) (sch k) = Ok (tt, sch k') /\
  saved_IF (this_cpu (sch k')) = saved_IF (this_cpu (sch k)) /\ running_only i (sch k').
Proof.
  intros Hk%reachable_inv Hr Hn Hs. inversion Hr as [|? ? k0 ? ? Hy Hr0]; subst.
  apply (step_inv _ _ _ Hy) in Hk as Hk0.
  apply (run_inv _ _ _ Hr0) in Hk0 as Hk1.
  apply (step_inv _ _ _ Hs) in Hk1 as Hk'.
  inversion Hy as [| | | |s s' w ? Hye| | |]; subst. cbn [sch] in *. destruct Hk as [_ [Hp _] _]. cbn [sch] in Hp.
  assert (suspended k1 !! i = Some (saved_IF (this_cpu s))) as Hw
    by (eapply (run_suspended t _ _ _ _ Hk0 Hr0); [apply lookup_insert_eq|done]).
  inversion Hs as [| | |s1 w1 ? Hr1| | | |]; subst. cbn [sch suspended] in *.
  unfold yield. rewrite (bind_Ok _ _ _ s s eq_refl), Hp. unfold resume, put, sched. rewrite Hw.
  split_and!; [|done|].
  - rewrite set_state_cpu. done.
  - destruct Hk' as [_ Hm _]. cbn [at_ sch mode_inv] in Hm. unfold resume in Hm. by rewrite Hw in Hm.
Qed.

End facts.
End KernelFacts.

(** ** Properties *)
Module KernelProps.
Import Kernel KernelFacts TrapProps.

Section props.
Context {X : Type}.
Context (switchuvm : Z -> X -> X) (switchkvm sti acquire release : X -> X) (trapret procstart : Z).
Abbreviation step := (step switchuvm switchkvm sti acquire release trapret procstart).
Abbreviation run := (run switchuvm switchkvm sti acquire release trapret procstart).
Abbreviation reachable := (reachable switchuvm switchkvm sti acquire release trapret procstart).

(** C3. In every state the kernel can reach from boot, under any interleaving
    of process creation, scheduling and yields, as long as the pid counter has
    not overflowed: live processes have distinct pids and distinct kernel stacks
    that are not free pages; while the scheduler loops no process is running and
    the CPU has none; while a process has the CPU it is the one running process
    and the CPU knows it; and every thread suspended in [sched] belongs to a
    runnable process. *)
Theorem kernel_invariant k : reachable k -> kernel_inv k.
Proof. apply reachable_inv. Qed.

(** C6. No runnable process starves, whatever the processes do in between:
    from every reachable state with process [j] runnable, the kernel can always
    go on to switch to [j], and in every run in which the loop moves on more
    than [MAX_PROC] times it has switched to [j]. *)
Theorem bounded_waiting k j :
  reachable k -> state_of (sch k) j = Some RUNNABLE ->
  (exists t k', run k t k' /\ Switch j ∈ t) /\
  (forall t k', run k t k' -> MAX_PROC < moves t -> Switch j ∈ t).
Proof.
  intros Hk%reachable_inv Hj. split.
  - eapply (eventually_switched _ _ _ _ _ _ _ j (Z.to_nat (2 * rank j (at_ k) + weight (at_ k) + 1))); [done|done|].
    pose proof (rank_range _ _ _ Hk Hj). destruct (at_ k); cbn [weight] in *; lia.
  - intros t k' Hr Hm. destruct (decide (Switch j ∈ t)) as [|Hn]; [done|exfalso].
    destruct (run_rank _ _ _ _ _ _ _ t k k' j Hk Hr Hj Hn) as [He Hj'].
    apply (run_inv _ _ _ _ _ _ _ _ _ _ Hr) in Hk as Hk'.
    pose proof (rank_range _ _ _ Hk Hj). pose proof (rank_range _ _ _ Hk' Hj'). lia.
Qed.


(** C10. An iteration of the loop as a function is a run of the machine: if
    what process [i] does from the switch to it until it yields is what the
    parameter of the function says, then the machine goes from slot [i] to slot
    [i + 1] with the function's result, and the switch meets the contract that
    the fairness of a pass assumes. *)
Theorem visit_is_run swtch s w i t s1 w1 :
  kernel_inv (K s (InLoop i) w) -> state_of s i = Some RUNNABLE ->
  run (K (resume i w (enter switchuvm i s)) (InProc i) (delete i w)) t (K s1 (InProc i) w1) ->
  Forall (fun a => is_move a = false) t ->
  yield id s1 = Ok (tt, swtch i (enter switchuvm i s)) ->
  let s' := (visit (fun i => on_hw (switchuvm i)) (on_hw switchkvm) swtch i s).1 in
  run (K s (InLoop i) w) (Switch i :: t ++ [Yield i])
    (K s' (InLoop (i + 1)) (<[i := saved_IF (this_cpu s1)]> w1)) /\
  length (table s') = length (table s) /\ idle s' /\
  (forall j, j <> i -> state_of s j = Some RUNNABLE -> state_of s' j = Some RUNNABLE).
Proof.
  intros Hk Hr Hrun Ht Hy. unfold visit. rewrite decide_True by done. cbn [fst].
  pose proof (switch_inv switchuvm _ _ _ Hk Hr) as Hk1.
  apply (run_inv _ _ _ _ _ _ _ _ _ _ Hrun) in Hk1 as Hk2.
  pose proof (yield_step_inv switchkvm _ _ _ _ Hk2 Hy) as Hk3.
  assert (run (K s (InLoop i) w) (Switch i :: t ++ [Yield i])
    (K (leave switchkvm (swtch i (enter switchuvm i s))) (InLoop (i + 1)) (<[i := saved_IF (this_cpu s1)]> w1)))
    as Hall.
  { econstructor; [by constructor|]. eapply runs_app; [exact Hrun|]. econstructor; [by constructor|constructor]. }
  split_and!; [exact Hall|..].
  - apply inv_length in Hk, Hk3. apply Nat2Z.inj. etrans; [exact Hk3|done].
  - by destruct Hk3 as [_ (Hid & _) _].
  - intros j Hne Hj.
    apply (run_rank _ _ _ _ _ _ _ _ _ _ j Hk Hall Hj).
    rewrite Forall_forall in Ht. intros [[= ->]|[Hin%Ht|[=]%list_elem_of_singleton]%elem_of_app]%elem_of_cons; done.
Qed.

End props.

(** *** A kernel with one page for kernel stacks *)
Definition boot_kernel : kernel unit :=
  K (Scheduler.State (procs ProcessProps.boot_table) (Cpu None 0)
       (Env (nextpid ProcessProps.boot_table) (Proc.pmm ProcessProps.boot_table) tt)) Booting ∅.

Lemma boot_kernel_booted : booted boot_kernel.
Proof.
  split; try done; [by apply Forall_replicate|]. exists [0x1000]. apply ProcessProps.boot_table_free.
Qed.

Abbreviation unit_exec := (exec_all (X := unit) (fun _ x => x) (fun x => x) (fun x => x) (fun x => x) (fun x => x) 1 2).
Abbreviation unit_run := (run (X := unit) (fun _ x => x) (fun x => x) (fun x => x) (fun x => x) (fun x => x) 1 2).
Abbreviation unit_step := (step (X := unit) (fun _ x => x) (fun x => x) (fun x => x) (fun x => x) (fun x => x) 1 2).
Abbreviation unit_reachable :=
  (reachable (X := unit) (fun _ x => x) (fun x => x) (fun x => x) (fun x => x) (fun x => x) 1 2).
Definition after (k : kernel unit) (t : list label) : kernel unit := default k (unit_exec t k).

Lemma after_run k t : bool_decide (is_Some (unit_exec t k)) = true -> unit_run k t (after k t).
Proof.
  intros H%bool_decide_eq_true_1. apply exec_run. unfold after. destruct H as [k' H]. by rewrite H.
Qed.

(** The first process is made and switched to; it fails to make another one. *)
Definition first_run : list label := [Create (Some 0); Ready 0; Start; Switch 0; Create None; Intena 7].
(** It yields, and one turn of the loop follows. *)
Definition round : list label := Intena 3 :: (Skip <$> seqZ 1 63) ++ [Pass].

Lemma first_reachable : unit_reachable (after boot_kernel first_run).
Proof. exists boot_kernel, first_run. split; [exact boot_kernel_booted|]. by apply after_run; vm_compute. Qed.

Lemma kernel_invariant_witness : kernel_inv (after boot_kernel first_run) /\
  at_ (after boot_kernel first_run) = InProc 0.
Proof. split; [apply (kernel_invariant _ _ _ _ _ _ _ _ first_reachable)|vm_compute; reflexivity]. Defined.

Lemma bounded_waiting_witness :
  Switch 0 ∈ [Start; Switch 0; Yield 0] ++ round ++ [Switch 0].
Proof.
  eapply (bounded_waiting (fun _ x => x) (fun x => x) (fun x => x) (fun x => x) (fun x => x) 1 2
    (after boot_kernel [Create (Some 0); Ready 0])).
  - exists boot_kernel, [Create (Some 0); Ready 0]. split; [exact boot_kernel_booted|].
    apply after_run; vm_compute; reflexivity.
  - vm_compute; reflexivity.
  - apply after_run; vm_compute; reflexivity.
  - vm_compute; reflexivity.
Defined.

Definition preempted : AllTraps.machine (Trap.state (env_t unit)) :=
  AllTraps.Machine (AllTraps.regs AllTrapsProps.sample_machine) (AllTraps.ram AllTrapsProps.sample_machine)
    (Trap.State (Trap.timer AllTrapsProps.sample_kernel) (sch (after boot_kernel first_run))).


Lemma visit_is_run_witness :
  let k := after boot_kernel [Create (Some 0); Ready 0; Start] in
  idle (visit (fun _ => on_hw (fun x => x)) (on_hw (fun x => x)) yielding 0 (sch k)).1.
Proof.
  intros k.
  eapply (visit_is_run (fun _ x => x) (fun x => x) (fun x => x) (fun x => x) (fun x => x) 1 2
    yielding (sch k) (suspended k) 0 []).
  - apply (reachable_inv (fun _ x => x) (fun x => x) (fun x => x) (fun x => x) (fun x => x) 1 2).
    exists boot_kernel, [Create (Some 0); Ready 0; Start]. split; [exact boot_kernel_booted|].
    apply (after_run boot_kernel [Create (Some 0); Ready 0; Start]). vm_compute. reflexivity.
  - vm_compute. reflexivity.
  - constructor.
  - constructor.
  - vm_compute. reflexivity.
Defined.

End KernelProps.
