(* ===== verification/BufferCache.v ===== *)
(** kernel/buffercache.c, Buffer.h, sata.h: the block cache, 64 buffers on a
    list from most to least recently used.

    Pointers to buffers are indices into the array, [None] the null pointer;
    following the null pointer, undefined in C, is a fault.  The disk driver [sata_sync] is not
    in the repository; sata.h documents it. *)
From S2P Require Import Prelude Layout.

(** ** Definitions *)
Module BufferCache.

Definition BUFFER_CACHE_SIZE : nat := 64.
Definition BLOCK_SIZE : Z := 512.

Record buffer := Buffer {
  dirty : Z; valid : Z; dev : Z; blockno : Z; refcnt : Z;
  next : option Z; prev : option Z; qnext : option Z; data : list Z }.

Definition set_next (p : option Z) (b : buffer) : buffer :=
  Buffer (dirty b) (valid b) (dev b) (blockno b) (refcnt b) p (prev b) (qnext b) (data b).
Definition set_prev (p : option Z) (b : buffer) : buffer :=
  Buffer (dirty b) (valid b) (dev b) (blockno b) (refcnt b) (next b) p (qnext b) (data b).
Definition set_refcnt (n : Z) (b : buffer) : buffer :=
  Buffer (dirty b) (valid b) (dev b) (blockno b) n (next b) (prev b) (qnext b) (data b).
Definition set_dirty (n : Z) (b : buffer) : buffer :=
  Buffer n (valid b) (dev b) (blockno b) (refcnt b) (next b) (prev b) (qnext b) (data b).
Definition recycle (d n : Z) (b : buffer) : buffer :=
  Buffer (dirty b) 0 d n 1 (next b) (prev b) (qnext b) (data b).

(** The globals of buffercache.c and the disk behind them. *)
Record state := State {
  bufs : list buffer; mru : option Z; lru : option Z; disk : gmap (Z * Z) (list Z) }.

(** [*p] for reading, and [p->f = v]. *)
Definition deref (p : option Z) : M state buffer :=
  match p with
  | None => fail (Unmapped 0)
  | Some i => s ← get; index (bufs s) i
  end.
Definition assign (p : option Z) (f : buffer -> buffer) : M state unit :=
  match p with
  | None => fail (Unmapped 0)
  | Some i =>
      s ← get;
      b ← index (bufs s) i;
      put (State (updateZ (bufs s) i (f b)) (mru s) (lru s) (disk s))
  end.

Definition doubly_linked_list_push_front (b : option Z) : M state unit :=
  m ← gets mru; mb ← deref m;
  assign b (set_next (next mb)) ;;
  m ← gets mru; assign b (set_prev m) ;;
  m ← gets mru; assign m (set_prev b) ;;
  modify (fun s => State (bufs s) b (lru s) (disk s)).

Definition doubly_linked_list_remove (b : option Z) : M state unit :=
  bb ← deref b; assign (prev bb) (set_next (next bb)) ;;
  bb ← deref b; assign (next bb) (set_prev (prev bb)).

Definition init_buffer_cache : M state unit :=
  modify (fun s => State (bufs s) (Some 0) (Some 0) (disk s)) ;;
  for_loop BUFFER_CACHE_SIZE 0 (fun i => doubly_linked_list_push_front (Some i)).

(** The two [do ... while] loops of [buffer_get]; [start] is the buffer each
    began with.  [None] stands for leaving the loop, [Some] for returning. *)
Fixpoint find_cached (fuel : nat) (b start : option Z) (d n : Z) : M state (option (option Z)) :=
  match fuel with
  | O => fail OutOfFuel
  | S fuel =>
      bb ← deref b;
      if (dev bb =? d) && (blockno bb =? n) then mret (Some b)
      else
        let b := next bb in
        if decide (b <> start) then find_cached fuel b start d n else mret None
  end.

Fixpoint find_unused_buffer (fuel : nat) (b start : option Z) (d n : Z) : M state (option (option Z)) :=
  match fuel with
  | O => fail OutOfFuel
  | S fuel =>
      bb ← deref b;
      if (refcnt bb =? 0) && (dirty bb =? 0) then assign b (recycle d n) ;; mret (Some b)
      else
        let b := next bb in
        if decide (b <> start) then find_unused_buffer fuel b start d n else mret None
  end.

Definition buffer_get (fuel : nat) (d n : Z) : M state (option Z) :=
  m ← gets mru;
  r ← find_cached fuel m m d n;
  match r with
  | Some b => mret b
  | None =>
      l ← gets lru;
      r ← find_unused_buffer fuel l l d n;
      match r with Some b => mret b | None => mret None end
  end.

Section driver.
Context (sata_sync : option Z -> M state unit).

Definition buffer_read (fuel : nat) (d n : Z) : M state (option Z) :=
  b ← buffer_get fuel d n;
  bb ← deref b;
  when (valid bb =? 0) (sata_sync b) ;;
  mret b.

Definition buffer_write (b : option Z) : M state unit :=
  assign b (set_dirty 1) ;; sata_sync b.

End driver.

Definition buffer_release (b : option Z) : M state unit :=
  bb ← deref b;
  assign b (set_refcnt (u32 (refcnt bb - 1))) ;;
  bb ← deref b;
  if refcnt bb =? 0 then doubly_linked_list_remove b ;; doubly_linked_list_push_front b
  else mret tt.

(** The driver as sata.h documents it: a dirty buffer is written to the disk
    and becomes clean, another is read from it; both become valid. *)
Definition synced (s : state) (b : buffer) : buffer :=
  Buffer 0 1 (dev b) (blockno b) (refcnt b) (next b) (prev b) (qnext b)
    (if dirty b =? 0 then default [] (disk s !! (dev b, blockno b)) else data b).
Definition flushed (s : state) (b : buffer) : gmap (Z * Z) (list Z) :=
  if dirty b =? 0 then disk s else <[(dev b, blockno b) := data b]> (disk s).

Class SataSync (sata_sync : option Z -> M state unit) : Prop := {
  sync_run : forall i s b, lookupZ (bufs s) i = Some b ->
    sata_sync (Some i) s = Ok (tt, State (updateZ (bufs s) i (synced s b)) (mru s) (lru s) (flushed s b)) }.

(** The array at boot: zero. *)
Definition zero_buffer : buffer := Buffer 0 0 0 0 0 None None None [].
Definition boot : state := State (replicate BUFFER_CACHE_SIZE zero_buffer) (Some 0) (Some 0) ∅.

End BufferCache.

(** ** Facts *)
Module BufferFacts.
Import BufferCache.

Lemma deref_run s i b : lookupZ (bufs s) i = Some b -> deref (Some i) s = Ok (b, s).
Proof. intros H. unfold deref. mrun done. by apply index_Ok. Qed.

Lemma assign_run s i b f :
  lookupZ (bufs s) i = Some b ->
  assign (Some i) f s = Ok (tt, State (updateZ (bufs s) i (f b)) (mru s) (lru s) (disk s)).
Proof. intros H. unfold assign. mrun done. mrun by apply index_Ok. done. Qed.

(** ** Rings: every buffer on one cycle of [next] pointers *)

Fixpoint chain (s : state) (l : list Z) (last : option Z) : Prop :=
  match l with
  | [] => True
  | i :: l => (exists b, lookupZ (bufs s) i = Some b /\ next b = match l with [] => last | j :: _ => Some j end)
              /\ chain s l last
  end.

(** The buffers of [l], from [start] on, and back to it. *)
Definition ring_from (s : state) (start : option Z) (l : list Z) : Prop :=
  head l = start /\ l <> [] /\ NoDup l /\ chain s l start.

Definition holds (s : state) (d n i : Z) : Prop :=
  exists b, lookupZ (bufs s) i = Some b /\ dev b = d /\ blockno b = n.
Definition reusable (s : state) (i : Z) : Prop :=
  exists b, lookupZ (bufs s) i = Some b /\ refcnt b = 0 /\ dirty b = 0.

Lemma find_cached_ring d n start : forall l s fuel,
  (length l <= fuel)%nat -> chain s l start -> l <> [] ->
  (forall i, i ∈ tail l -> Some i <> start) ->
  exists r, find_cached fuel (head l) start d n s = Ok (r, s) /\
    match r with
    | Some b => exists i, b = Some i /\ i ∈ l /\ holds s d n i
    | None => forall i, i ∈ l -> ~ holds s d n i
    end.
Proof.
  induction l as [|i l IH]; intros s [|fuel] Hf Hc Hne Hs; simpl in Hf; try done; [lia|].
  destruct Hc as [(b & Hb & Hnx) Hc]. cbn [find_cached head]. mrun by apply deref_run.
  destruct ((dev b =? d) && (blockno b =? n)) eqn:E.
  - apply andb_true_iff in E as [E1%Z.eqb_eq E2%Z.eqb_eq].
    eexists. split; [done|]. exists i. split_and!; [done|apply list_elem_of_here|by exists b].
  - assert (~ holds s d n i) as Hno.
    { intros (b' & Hb' & Hd & Hn). simplify_eq. by rewrite !Z.eqb_refl in E. }
    rewrite Hnx. destruct l as [|j l].
    + rewrite decide_False by (intros H; by apply H). eexists. split; [done|].
      intros k Hk. by apply list_elem_of_singleton in Hk as ->.
    + rewrite decide_True by (apply Hs; apply list_elem_of_here).
      destruct (IH s fuel) as (r & Hrun & Hr); [simpl in *; lia|done|done| |].
      { intros k Hk. apply Hs. by apply list_elem_of_further. }
      exists r. split; [exact Hrun|]. destruct r as [b'|].
      * destruct Hr as (k & -> & Hk & Hh). exists k. split_and!; [done|by apply list_elem_of_further|done].
      * intros k Hk. apply elem_of_cons in Hk as [->|Hk]; auto.
Qed.

Lemma find_unused_buffer_ring d n start : forall l s fuel,
  (length l <= fuel)%nat -> chain s l start -> l <> [] ->
  (forall i, i ∈ tail l -> Some i <> start) ->
  (exists i b, find_unused_buffer fuel (head l) start d n s =
      Ok (Some (Some i), State (updateZ (bufs s) i (recycle d n b)) (mru s) (lru s) (disk s)) /\
      lookupZ (bufs s) i = Some b /\ i ∈ l /\ refcnt b = 0 /\ dirty b = 0) \/
  (find_unused_buffer fuel (head l) start d n s = Ok (None, s) /\ forall i, i ∈ l -> ~ reusable s i).
Proof.
  induction l as [|i l IH]; intros s [|fuel] Hf Hc Hne Hs; simpl in Hf; try done; [lia|].
  destruct Hc as [(b & Hb & Hnx) Hc]. cbn [find_unused_buffer head].
  rewrite (bind_Ok _ _ _ _ _ (deref_run _ _ _ Hb)).
  destruct ((refcnt b =? 0) && (dirty b =? 0)) eqn:E.
  - apply andb_true_iff in E as [E1%Z.eqb_eq E2%Z.eqb_eq]. left. exists i, b.
    split_and!; [|done|apply list_elem_of_here|done|done]. mrun by apply assign_run. done.
  - assert (~ reusable s i) as Hno.
    { intros (b' & Hb' & Hd & Hn). simplify_eq. by rewrite Hd, Hn in E. }
    rewrite Hnx. destruct l as [|j l].
    + right. rewrite decide_False by (intros H; by apply H). split; [done|].
      intros k Hk. by apply list_elem_of_singleton in Hk as ->.
    + rewrite decide_True by (apply Hs; apply list_elem_of_here).
      destruct (IH s fuel) as [(k & b' & Hrun & Hk & Hin & Hr & Hd)|[Hrun Hall]];
        [simpl in *; lia|done|done| |left|right].
      { intros k Hk. apply Hs. by apply list_elem_of_further. }
      * exists k, b'. split_and!; [exact Hrun|done|by apply list_elem_of_further|done|done].
      * split; [exact Hrun|]. intros k Hk. apply elem_of_cons in Hk as [->|Hk]; auto.
Qed.

Lemma ring_tail s start l i : ring_from s start l -> i ∈ tail l -> Some i <> start.
Proof.
  intros (Hh & Hne & Hnd & _) Hi. destruct l as [|j l]; [done|]. simpl in *. subst start.
  apply NoDup_cons in Hnd as [Hj _]. intros H. injection H as ->. done.
Qed.

(** ** The state [init_buffer_cache] leaves *)

(** A buffer that has no successor and was never assigned to a block. *)
Definition alone (b : buffer) : Prop :=
  next b = None /\ dev b = 0 /\ blockno b = 0 /\ forall p, prev b = Some p -> 0 <= p < 64.

(** No buffer has a successor, and buffer [j - 1] is the most recent. *)
Definition unlinked (s : state) (j : Z) : Prop :=
  length (bufs s) = BUFFER_CACHE_SIZE /\ mru s = Some (Z.max 0 (j - 1)) /\ lru s = Some 0 /\
  forall i, 0 <= i < 64 -> exists b, lookupZ (bufs s) i = Some b /\ alone b.

Lemma unlinked_assign s j i b f : unlinked s j -> lookupZ (bufs s) i = Some b -> (alone b -> alone (f b)) ->
  unlinked (State (updateZ (bufs s) i (f b)) (mru s) (lru s) (disk s)) j.
Proof.
  intros (Hl & Hm & Hlr & Hb) Hi Hf. split; [|split; [done|split; [done|]]]; cbn [bufs]; [by rewrite updateZ_length|].
  intros k Hk. rewrite lookupZ_update by (by apply lookupZ_range in Hi). case_decide as E; [|by apply Hb]. subst k.
  exists (f b). split; [done|]. apply Hf. destruct (Hb i Hk) as (b' & Hb' & Ha). by simplify_eq.
Qed.

Lemma push_front_unlinked s j :
  unlinked s j -> 0 <= j < 64 ->
  exists s', doubly_linked_list_push_front (Some j) s = Ok (tt, s') /\ unlinked s' (j + 1).
Proof.
  intros Hs Hj. pose proof Hs as (Hl & Hm & Hlr & Hb). assert (0 <= Z.max 0 (j - 1) < 64) as Hmj by lia.
  destruct (Hb _ Hmj) as (mb & Hmb & Hma). destruct (Hb j Hj) as (b & Hbj & Hba).
  unfold doubly_linked_list_push_front. mrun done. rewrite Hm. mrun by apply deref_run.
  mrun by apply assign_run. mrun done. cbn [mru bufs lru disk].
  mrun (apply assign_run; cbn [bufs]; rewrite lookupZ_update by (rewrite Hl; exact Hj); by rewrite decide_True).
  cbn [bufs]. rewrite updateZ_twice. mrun done. cbn [mru bufs lru disk].
  assert (unlinked (State (updateZ (bufs s) j (set_prev (mru s) (set_next (next mb) b))) (mru s) (lru s) (disk s)) j)
    as (Hl' & _ & _ & Hb').
  { apply (unlinked_assign s j j b (fun b => set_prev (mru s) (set_next (next mb) b)) Hs Hbj).
    intros (_ & Hd & Hk & _). split; [apply Hma|]. split; [done|]. split; [done|]. simpl. rewrite Hm.
    intros p Hp. by injection Hp as <-. }
  cbn [bufs] in Hl', Hb'. rewrite Hm in *. destruct (Hb' _ Hmj) as (mb' & Hmb' & Hma').
  mrun (apply assign_run; exact Hmb').
  eexists. split; [reflexivity|]. split; [|split; [|split; [done|]]]; cbn [bufs mru].
  - by rewrite updateZ_length.
  - f_equal. lia.
  - intros i Hi. rewrite lookupZ_update by (rewrite Hl'; exact Hmj). case_decide; [|by apply Hb'].
    subst. eexists. split; [reflexivity|]. destruct Hma' as (Hn & Hd & Hk & _). split; [done|]. split; [done|].
    split; [done|]. simpl. intros p Hp. by injection Hp as <-.
Qed.

Lemma init_unlinked : exists s, init_buffer_cache boot = Ok (tt, s) /\ unlinked s 64.
Proof.
  unfold init_buffer_cache. mrun done.
  destruct (for_loop_inv (fun j s => unlinked s j) (fun i => doubly_linked_list_push_front (Some i))
    BUFFER_CACHE_SIZE 0 (State (bufs boot) (Some 0) (Some 0) (disk boot))) as (s & Hrun & Hs).
  - split; [apply length_replicate|]. split; [done|]. split; [done|]. intros i Hi.
    exists zero_buffer. split; [|by split_and!]. unfold lookupZ. destruct (Z.leb_spec 0 i); [|lia].
    apply lookup_replicate_2. unfold BUFFER_CACHE_SIZE. lia.
  - intros j t Hj Ht. by apply push_front_unlinked.
  - exists s. exact (conj Hrun Hs).
Qed.

(** ** Clients

    What the rest of the kernel may ask of the cache, with pointers to buffers. *)
Inductive request := Read (d n : Z) | Write (i : Z) | Release (i : Z).

Definition serve (sata_sync : option Z -> M state unit) (fuel : nat) (q : request) : M state unit :=
  match q with
  | Read d n => _ ← buffer_read sata_sync fuel d n; mret tt
  | Write i => buffer_write sata_sync (Some i)
  | Release i => buffer_release (Some i)
  end.

Fixpoint serve_all (sata_sync : option Z -> M state unit) (fuel : nat) (qs : list request) : M state unit :=
  match qs with
  | [] => mret tt
  | q :: qs => serve sata_sync fuel q ;; serve_all sata_sync fuel qs
  end.

Definition in_array (q : request) : Prop :=
  match q with Read _ _ => True | Write i | Release i => 0 <= i < 64 end.

(** Looking up in a cache without links: the most recent buffer, or a fault. *)
Lemma buffer_get_unlinked s fuel d n : unlinked s 64 ->
  buffer_get (S (S fuel)) d n s = if (d =? 0) && (n =? 0) then Ok (Some 63, s) else Fault (Unmapped 0).
Proof.
  intros (Hl & Hm & _ & Hb). simpl in Hm. destruct (Hb 63 ltac:(lia)) as (b & Hb63 & Hn & Hd & Hk & _).
  unfold buffer_get. mrun done. rewrite Hm. cbn [find_cached].
  destruct (d =? 0) eqn:Ed, (n =? 0) eqn:En; cbn [andb].
  - mrun (mrun (by apply deref_run); rewrite Hd, Hk, (Z.eqb_sym 0), Ed, (Z.eqb_sym 0), En; reflexivity). done.
  - apply bind_Fault. mrun (by apply deref_run). rewrite Hd, Hk, Hn, (Z.eqb_sym 0), Ed, (Z.eqb_sym 0), En.
    cbn [andb]. rewrite decide_True by done. by apply bind_Fault.
  - apply bind_Fault. mrun (by apply deref_run). rewrite Hd, Hk, Hn, (Z.eqb_sym 0), Ed.
    cbn [andb]. rewrite decide_True by done. by apply bind_Fault.
  - apply bind_Fault. mrun (by apply deref_run). rewrite Hd, Hk, Hn, (Z.eqb_sym 0), Ed.
    cbn [andb]. rewrite decide_True by done. by apply bind_Fault.
Qed.

Lemma sync_unlinked sata_sync `{!SataSync sata_sync} s i : unlinked s 64 -> 0 <= i < 64 ->
  exists s', sata_sync (Some i) s = Ok (tt, s') /\ unlinked s' 64.
Proof.
  intros Hs Hi. pose proof Hs as (_ & _ & _ & Hb). destruct (Hb i Hi) as (b & Hbi & _).
  eexists. split; [by apply sync_run|].
  destruct (unlinked_assign s 64 i b (synced s) Hs Hbi) as (H1 & H2 & H3 & H4); [by intros (? & ? & ? & ?)|done].
Qed.

(** [buffer_release] leaves the buffers as they are linked, or faults: removing
    a buffer follows its null [next]. *)
Lemma release_unlinked s i : unlinked s 64 -> 0 <= i < 64 ->
  buffer_release (Some i) s = Fault (Unmapped 0) \/
  exists s', buffer_release (Some i) s = Ok (tt, s') /\ unlinked s' 64.
Proof.
  intros Hs Hi. pose proof Hs as (_ & _ & _ & Hb). destruct (Hb i Hi) as (b & Hbi & _).
  unfold buffer_release. rewrite (bind_Ok _ _ _ _ _ (deref_run _ _ _ Hbi)), (bind_Ok _ _ _ _ _ (assign_run _ _ _ _ Hbi)).
  pose proof (unlinked_assign s 64 i b (set_refcnt (u32 (refcnt b - 1))) Hs Hbi ltac:(by intros (? & ? & ? & ?))) as Ht.
  set (t := State _ _ _ _) in *. pose proof Ht as (_ & _ & _ & Htb). destruct (Htb i Hi) as (c & Hc & Hca).
  rewrite (bind_Ok _ _ _ _ _ (deref_run _ _ _ Hc)). destruct (refcnt c =? 0); [left|right; by exists t].
  apply bind_Fault. unfold doubly_linked_list_remove. rewrite (bind_Ok _ _ _ _ _ (deref_run _ _ _ Hc)).
  pose proof Hca as (Hn & _ & _ & Hp). destruct (prev c) as [p|]; [|by apply bind_Fault].
  destruct (Htb p (Hp p eq_refl)) as (e & He & Hea). rewrite (bind_Ok _ _ _ _ _ (assign_run _ _ _ _ He)).
  destruct (unlinked_assign t 64 p e (set_next (next c)) Ht He) as (_ & _ & _ & Hu);
    [intros (_ & ? & ? & ?); by split_and!|].
  destruct (Hu i Hi) as (f & Hfi & Hfn & _). rewrite (bind_Ok _ _ _ _ _ (deref_run _ _ _ Hfi)). by rewrite Hfn.
Qed.

Lemma serve_unlinked sata_sync `{!SataSync sata_sync} fuel q s : unlinked s 64 -> in_array q ->
  serve sata_sync (S (S fuel)) q s = Fault (Unmapped 0) \/
  exists s', serve sata_sync (S (S fuel)) q s = Ok (tt, s') /\ unlinked s' 64.
Proof.
  intros Hs Hq. pose proof Hs as (_ & _ & _ & Hb). destruct q as [d n|i|i]; cbn [serve].
  - unfold buffer_read. pose proof (buffer_get_unlinked s fuel d n Hs) as Hg.
    destruct ((d =? 0) && (n =? 0)); [right|left; by apply bind_Fault, bind_Fault].
    destruct (Hb 63 ltac:(lia)) as (b & Hb63 & _).
    assert (exists s', when (valid b =? 0) (sata_sync (Some 63)) s = Ok (tt, s') /\ unlinked s' 64) as (s' & Hw & Hs').
    { unfold when. destruct (valid b =? 0); [by apply sync_unlinked|by exists s]. }
    exists s'. split; [|done].
    mrun (mrun exact Hg; mrun (by apply deref_run); mrun exact Hw; reflexivity). done.
  - right. destruct (Hb i Hq) as (b & Hbi & _). unfold buffer_write.
    rewrite (bind_Ok _ _ _ _ _ (assign_run _ _ _ _ Hbi)). apply sync_unlinked; [done| |done].
    apply unlinked_assign; [done|done|]. by intros (? & ? & ? & ?).
  - by apply release_unlinked.
Qed.

Lemma serve_all_unlinked sata_sync `{!SataSync sata_sync} fuel qs : forall s,
  unlinked s 64 -> Forall in_array qs ->
  serve_all sata_sync (S (S fuel)) qs s = Fault (Unmapped 0) \/
  exists s', serve_all sata_sync (S (S fuel)) qs s = Ok (tt, s') /\ unlinked s' 64.
Proof.
  induction qs as [|q qs IH]; intros s Hs Hq; [right; by exists s|]. apply Forall_cons in Hq as [Hq Hqs].
  cbn [serve_all]. destruct (serve_unlinked sata_sync fuel q s Hs Hq) as [E|(t & E & Ht)].
  - left. by apply bind_Fault.
  - rewrite (bind_Ok _ _ _ _ _ E). by apply IH.
Qed.

End BufferFacts.

(** ** Properties *)
Module BufferProps.
Import BufferCache BufferFacts.

(** On a cache whose buffers form a ring (from the most recent, and from the
    least recent, back to itself), which no code of the repository builds,
    [buffer_get] would terminate within one round of each loop and be correct: it returns a buffer that holds the
    block, unchanged; or, when none does, a clean unreferenced buffer, now
    assigned to the block, invalid and referenced once, with every other
    buffer unchanged; or the null pointer when there is no such buffer. *)
Theorem buffer_get_ring s d n l l' fuel :
  ring_from s (mru s) l -> ring_from s (lru s) l' -> (length l <= fuel)%nat -> (length l' <= fuel)%nat ->
  (exists i, buffer_get fuel d n s = Ok (Some i, s) /\ i ∈ l /\ holds s d n i) \/
  ((forall i, i ∈ l -> ~ holds s d n i) /\
   ((exists i b, buffer_get fuel d n s =
        Ok (Some i, State (updateZ (bufs s) i (recycle d n b)) (mru s) (lru s) (disk s)) /\
      lookupZ (bufs s) i = Some b /\ i ∈ l' /\ refcnt b = 0 /\ dirty b = 0) \/
    (buffer_get fuel d n s = Ok (None, s) /\ forall i, i ∈ l' -> ~ reusable s i))).
Proof.
  intros Hr Hr' Hf Hf'. pose proof Hr as (Hh & Hne & _ & Hc). pose proof Hr' as (Hh' & Hne' & _ & Hc').
  destruct (find_cached_ring d n (mru s) l s fuel Hf Hc Hne) as (r & Hrun & Hres);
    [intros; by eapply ring_tail|]. rewrite Hh in Hrun. unfold buffer_get.
  destruct r as [b|].
  - left. destruct Hres as (i & -> & Hin & Hhold). exists i. split_and!; [|done|done].
    mrun done. mrun exact Hrun. done.
  - right. split; [done|].
    destruct (find_unused_buffer_ring d n (lru s) l' s fuel Hf' Hc' Hne')
      as [(i & b & Hrun2 & Hb & Hin & H0 & H1)|[Hrun2 Hall]]; [intros; by eapply ring_tail|left|right];
      rewrite Hh' in Hrun2.
    + exists i, b. split_and!; [|done..]. mrun done. mrun exact Hrun. mrun done. mrun exact Hrun2. done.
    + split; [|done]. mrun done. mrun exact Hrun. mrun done. mrun exact Hrun2. done.
Qed.

Definition buf (d n r : Z) (nx : Z) : buffer := Buffer 0 1 d n r (Some nx) None None [].
Definition small_ring : state :=
  State [buf 1 10 1 1; buf 1 11 0 2; buf 1 12 1 0] (Some 2) (Some 1) ∅.

Lemma buffer_get_ring_witness :
  exists s', buffer_get 3 1 99 small_ring = Ok (Some 1, s').
Proof.
  destruct (buffer_get_ring small_ring 1 99 [2; 0; 1] [1; 2; 0] 3) as [(i & Hrun & _)|[_ [(i & b & Hrun & _)|[Hrun _]]]].
  - repeat split; [done| |by eexists..]. apply (bool_decide_eq_true_1 _). vm_compute. reflexivity.
  - repeat split; [done| |by eexists..]. apply (bool_decide_eq_true_1 _). vm_compute. reflexivity.
  - simpl; lia.
  - simpl; lia.
  - exfalso. revert Hrun. vm_compute. done.
  - revert Hrun. vm_compute. intros Hrun. eexists. reflexivity.
  - exfalso. revert Hrun. vm_compute. done.
Defined.

(** C22. The cache only ever holds one block: after [init_buffer_cache], whatever
    blocks are read and whatever buffers of the array are written or released,
    in any order, with a driver that does what sata.h documents, either a call
    has followed a null pointer, or no buffer has a successor and [buffer_get]
    finds block 0 of device 0 in buffer 63 and follows a null pointer for every
    other block.  (Following the null pointer, which C leaves undefined, is
    reported as a fault.) *)
Theorem cache_holds_one_block sata_sync `{!SataSync sata_sync} fuel qs :
  Forall in_array qs ->
  (init_buffer_cache ;; serve_all sata_sync (S (S fuel)) qs) boot = Fault (Unmapped 0) \/
  exists s, (init_buffer_cache ;; serve_all sata_sync (S (S fuel)) qs) boot = Ok (tt, s) /\
    (forall i, 0 <= i < 64 -> exists b, lookupZ (bufs s) i = Some b /\ next b = None) /\
    forall d n, buffer_get (S (S fuel)) d n s =
      if (d =? 0) && (n =? 0) then Ok (Some 63, s) else Fault (Unmapped 0).
Proof.
  intros Hq. destruct init_unlinked as (s0 & Hi & Hs0). rewrite (bind_Ok _ _ _ _ _ Hi).
  destruct (serve_all_unlinked sata_sync fuel qs s0 Hs0 Hq) as [E|(s & E & Hs)]; [by left|right].
  exists s. split; [done|]. split; [|intros; by apply buffer_get_unlinked].
  intros i Hi'. destruct Hs as (_ & _ & _ & Hb). destruct (Hb i Hi') as (b & Hbi & Hn & _).
  exists b. exact (conj Hbi Hn).
Qed.

(** With a driver that does what sata.h documents, [buffer_write] puts the
    data of the buffer on the disk and leaves the buffer valid and clean; other
    buffers and other blocks are unchanged. *)
Theorem buffer_write_flushes sata_sync `{!SataSync sata_sync} s i b :
  lookupZ (bufs s) i = Some b ->
  exists s' b', buffer_write sata_sync (Some i) s = Ok (tt, s') /\ lookupZ (bufs s') i = Some b' /\
    disk s' !! (dev b, blockno b) = Some (data b) /\
    dirty b' = 0 /\ valid b' = 1 /\ data b' = data b /\ dev b' = dev b /\ blockno b' = blockno b /\
    (forall j, j <> i -> lookupZ (bufs s') j = lookupZ (bufs s) j) /\
    (forall k, k <> (dev b, blockno b) -> disk s' !! k = disk s !! k).
Proof.
  intros Hb. pose proof (lookupZ_range _ _ _ Hb) as Hr.
  assert (lookupZ (updateZ (bufs s) i (set_dirty 1 b)) i = Some (set_dirty 1 b)) as Hb'
    by (rewrite lookupZ_update by done; by rewrite decide_True).
  do 2 eexists. split; [|split].
  - unfold buffer_write. mrun by apply assign_run. by apply sync_run.
  - cbn [bufs]. rewrite updateZ_twice, lookupZ_update by done. by rewrite decide_True.
  - unfold flushed, synced. simpl.
    split_and!; try done.
    + by rewrite lookup_insert_eq.
    + intros j Hj. rewrite updateZ_twice, lookupZ_update by done. by rewrite decide_False.
    + intros k Hk. by rewrite lookup_insert_ne.
Qed.

(** A driver that follows the documentation. *)
Definition sync (p : option Z) : M state unit :=
  match p with
  | None => fail (Unmapped 0)
  | Some i =>
      s ← get; b ← index (bufs s) i;
      put (State (updateZ (bufs s) i (synced s b)) (mru s) (lru s) (flushed s b))
  end.

#[export] Instance sync_contract : SataSync sync.
Proof. split. intros i s b Hb. unfold sync. mrun done. mrun by apply index_Ok. done. Qed.

(** The one block is read, written back and released; then block 7 is read. *)
Lemma cache_holds_one_block_witness :
  let client := [Read 0 0; Write 63; Release 63; Read 0 0] in
  (exists s, (init_buffer_cache ;; serve_all sync 3 client) boot = Ok (tt, s) /\
     buffer_get 3 0 0 s = Ok (Some 63, s) /\ buffer_get 3 0 7 s = Fault (Unmapped 0)) /\
  (init_buffer_cache ;; serve_all sync 3 [Read 0 7]) boot = Fault (Unmapped 0).
Proof.
  intros client. split; [|by vm_compute].
  destruct (cache_holds_one_block sync 1 client) as [E|(s & E & _ & Hg)].
  - repeat constructor; simpl; lia.
  - vm_compute in E. discriminate.
  - exists s. split; [exact E|]. split; [exact (Hg 0 0)|exact (Hg 0 7)].
Defined.

Lemma buffer_write_flushes_witness :
  exists s' b', buffer_write sync (Some 1) (State [zero_buffer; Buffer 0 1 1 7 1 None None None [42]] None None ∅) =
      Ok (tt, s') /\ lookupZ (bufs s') 1 = Some b' /\ disk s' !! (1, 7) = Some [42].
Proof.
  destruct (buffer_write_flushes sync (State [zero_buffer; Buffer 0 1 1 7 1 None None None [42]] None None ∅)
    1 (Buffer 0 1 1 7 1 None None None [42]) eq_refl) as (s' & b' & H1 & H2 & H3 & _).
  exists s', b'. exact (conj H1 (conj H2 H3)).
Defined.

End BufferProps.
