(* ===== verification/Uart.v ===== *)
(** kernel/devices/uart.c and uart.h: the 8250 serial port.

    The port is seen through the bytes written to it, recorded in order with
    the messages of the driver, and the bytes it answers to successive reads,
    given in advance. *)
From S2P Require Import Prelude Layout Interrupts Apic.
Import Idt Ioapic.

(** ** Definitions *)
Module Uart.

Definition COM1_PORT : Z := 0x3F8.
Definition DATA : Z := 0.
Definition INTERRUPT_ENABLE : Z := 1.
Definition DIVISOR_LSB : Z := 0.
Definition DIVISOR_MSB : Z := 1.
Definition INTERRUPT_IDENTIFICATION : Z := 2.
Definition FIFO_CONTROL : Z := 2.
Definition LINE_CONTROL : Z := 3.
Definition MODEM_CONTROL : Z := 4.
Definition LINE_STATUS : Z := 5.
Definition MODEM_STATUS : Z := 6.
Definition SCRATCH : Z := 7.

(** The registers of a port by their offset, and whether [dlab] selects them. *)
Definition registers : list (string * Z * option bool) :=
  [("DATA", DATA, Some false); ("INTERRUPT_ENABLE", INTERRUPT_ENABLE, Some false);
   ("DIVISOR_LSB", DIVISOR_LSB, Some true); ("DIVISOR_MSB", DIVISOR_MSB, Some true);
   ("INTERRUPT_IDENTIFICATION", INTERRUPT_IDENTIFICATION, None); ("FIFO_CONTROL", FIFO_CONTROL, None);
   ("LINE_CONTROL", LINE_CONTROL, None); ("MODEM_CONTROL", MODEM_CONTROL, None);
   ("LINE_STATUS", LINE_STATUS, None); ("MODEM_STATUS", MODEM_STATUS, None); ("SCRATCH", SCRATCH, None)].

Definition interrupt_enable : list placed := layout false
  [Bits "data_available" cu8 1; Bits "transmitter_empty" cu8 1; Bits "receiver_line_status" cu8 1;
   Bits "modem_status" cu8 1; Bits "rsrv0" cu8 4].

Inductive uart_data_bits := DATA_BITS_5 | DATA_BITS_6 | DATA_BITS_7 | DATA_BITS_8.
Definition data_bits_value (d : uart_data_bits) : Z :=
  match d with DATA_BITS_5 => 0 | DATA_BITS_6 => 1 | DATA_BITS_7 => 2 | DATA_BITS_8 => 3 end.
Inductive uart_stop_bits := STOP_BITS_1 | STOP_BITS_2.
Definition stop_bits_value (d : uart_stop_bits) : Z := match d with STOP_BITS_1 => 0 | STOP_BITS_2 => 1 end.
Inductive uart_parity := PARITY_NONE | PARITY_ODD | PARITY_EVEN | PARITY_MARK | PARITY_SPACE.
Definition parity_value (p : uart_parity) : Z :=
  match p with
  | PARITY_NONE => 0 | PARITY_ODD => 1 | PARITY_EVEN => 3 | PARITY_MARK => 5 | PARITY_SPACE => 7
  end.

Definition line_control : list placed := layout false
  [Bits "data_bits" cenum 2; Bits "stop_bits" cenum 1; Bits "parity" cenum 3; Bits "break_enable" cu8 1;
   Bits "dlab" cu8 1].

Inductive uart_fifo_trigger_level := _1B | _4B | _8B | _14B.
Definition fifo_trigger_value (l : uart_fifo_trigger_level) : Z :=
  match l with _1B => 0 | _4B => 1 | _8B => 2 | _14B => 3 end.

Definition fifo_control : list placed := layout false
  [Bits "en" cu8 1; Bits "clear_receive_fifo" cu8 1; Bits "clear_transmit_fifo" cu8 1;
   Bits "dma_mode_select" cu8 1; Bits "rsrv0" cu8 2; Bits "interrupt_trigger_level" cenum 2].

Definition modem_control : list placed := layout false
  [Bits "data_terminal_ready" cu8 1; Bits "request_to_send" cu8 1; Bits "out1" cu8 1; Bits "out2" cu8 1;
   Bits "loopback_enable" cu8 1; Bits "ignored" cu8 3].

Definition line_status : list placed := layout false
  [Bits "data_ready" cu8 1; Bits "overrun_error" cu8 1; Bits "parity_error" cu8 1; Bits "framing_error" cu8 1;
   Bits "break_indicator" cu8 1; Bits "transmitter_buffer_empty" cu8 1; Bits "transmitter_empty" cu8 1;
   Bits "input_error" cu8 1].

(** What the driver does: bytes to registers, and debug messages. *)
Inductive event := Out (reg value : Z) | Message (s : string).

(** [answers] are the bytes the port will deliver to the next reads. *)
Record state := State {
  uart_present : bool; events : list event; answers : list Z; ioapic : dev }.

Definition uart_write_reg (offset value : Z) : M state unit := modify (fun s =>
  State (uart_present s) (events s ++ [Out (u8 offset) (u8 value)]) (answers s) (ioapic s)).

Definition uart_read_reg (offset : Z) : M state Z := fun s =>
  match answers s with
  | [] => Fault OutOfFuel
  | a :: l => Ok (u8 a, State (uart_present s) (events s) l (ioapic s))
  end.

(** [while (!transmitter_buffer_empty);] reads one status byte per turn. *)
Fixpoint wait_empty (fuel : nat) : M state unit :=
  match fuel with
  | O => fail OutOfFuel
  | S fuel =>
      raw ← uart_read_reg LINE_STATUS;
      if fget line_status "transmitter_buffer_empty" raw =? 0 then wait_empty fuel else mret tt
  end.

Definition uart_putc (fuel : nat) (c : Z) : M state unit :=
  p ← gets uart_present;
  if negb p then mret tt
  else wait_empty fuel ;; uart_write_reg DATA c.

Definition uart_getc : M state Z :=
  p ← gets uart_present;
  if negb p then mret (-1)
  else
    raw ← uart_read_reg LINE_STATUS;
    if fget line_status "data_ready" raw =? 0 then mret (-1)
    else uart_read_reg DATA.

Definition BAUD_RATE_MAX : Z := 115200.
Definition BAUD_RATE_DESIRED : Z := 9600.

Definition greeting : list Z := chars "UART initialized" ++ [10].

Fixpoint puts (fuel : nat) (l : list Z) : M state unit :=
  match l with
  | [] => mret tt
  | c :: l => uart_putc fuel c ;; puts fuel l
  end.

Definition on_ioapic {A} (c : M dev A) : M state A :=
  zoom ioapic (fun d s => State (uart_present s) (events s) (answers s) d) c.

(** [window] and [OFF] are the parameters of the I/O APIC driver. *)
Definition init_uart (window OFF : Z) (fuel : nat) : M state unit :=
  uart_write_reg FIFO_CONTROL (finit fifo_control [("en", 0)]) ;;
  uart_write_reg LINE_CONTROL (finit line_control [("dlab", 1)]) ;;
  uart_write_reg DIVISOR_LSB (BAUD_RATE_MAX / BAUD_RATE_DESIRED) ;;
  uart_write_reg DIVISOR_MSB (Z.shiftr (BAUD_RATE_MAX / BAUD_RATE_DESIRED) 8) ;;
  uart_write_reg LINE_CONTROL (finit line_control
    [("data_bits", data_bits_value DATA_BITS_8); ("stop_bits", stop_bits_value STOP_BITS_1);
     ("parity", parity_value PARITY_NONE); ("break_enable", 0); ("dlab", 0)]) ;;
  uart_write_reg INTERRUPT_ENABLE (finit interrupt_enable [("data_available", 1)]) ;;
  uart_write_reg MODEM_CONTROL (finit modem_control
    [("request_to_send", 1); ("out1", 1); ("out2", 1); ("loopback_enable", 1)]) ;;
  uart_write_reg DATA 0xAE ;;
  v ← uart_read_reg DATA;
  if negb (v =? 0xAE) then
    modify (fun s => State (uart_present s) (events s ++ [Message "Error: UART failed to initialize"])
      (answers s) (ioapic s))
  else
    modify (fun s => State true (events s) (answers s) (ioapic s)) ;;
    uart_write_reg MODEM_CONTROL 0 ;;
    on_ioapic (ioapic_route window OFF IRQ_COM1 0 0) ;;
    puts fuel greeting.

End Uart.

(** ** Facts *)
Module UartFacts.
Import Uart.

Definition ready (status : Z) : Prop := fget line_status "transmitter_buffer_empty" (u8 status) <> 0.

(** [serves n l l']: [l] lets [n] characters out, each after any number of busy
    answers, and [l'] is what remains. *)
Inductive serves : nat -> list Z -> list Z -> Prop :=
| serves_O l : serves 0 l l
| serves_busy n a l l' : ~ ready a -> serves (S n) l l' -> serves (S n) (a :: l) l'
| serves_ready n a l l' : ready a -> serves n l l' -> serves (S n) (a :: l) l'.

Lemma putc_serves n l l' :
  serves (S n) l l' -> forall ev d fuel c, (length l <= fuel)%nat ->
  exists m, uart_putc fuel c (State true ev l d) = Ok (tt, State true (ev ++ [Out 0 (u8 c)]) m d) /\
    serves n m l' /\ (length m <= length l)%nat.
Proof.
  intros H. remember (S n) as k eqn:Ek. induction H as [|k a l l' Ha H IH|k a l l' Ha H _]; [done|..];
    intros ev d fuel c Hf; simpl in Hf; destruct fuel as [|fuel]; try lia.
  - destruct (IH Ek ev d fuel c) as (m & Hrun & Hm & Hlen); [lia|].
    exists m. split_and!; [|done|simpl; lia]. rewrite <- Hrun. unfold uart_putc. mrun done. simpl.
    unfold mbind, M_bind, uart_read_reg. cbn [answers uart_present events ioapic].
    unfold ready in Ha. destruct (Z.eqb_spec (fget line_status "transmitter_buffer_empty" (u8 a)) 0); [|tauto].
    done.
  - injection Ek as ->. exists l. split_and!; [|done|simpl; lia]. unfold uart_putc. mrun done. simpl.
    unfold mbind, M_bind, uart_read_reg. cbn [answers uart_present events ioapic].
    unfold ready in Ha. destruct (Z.eqb_spec (fget line_status "transmitter_buffer_empty" (u8 a)) 0); [tauto|].
    done.
Qed.

Lemma puts_serves cs : forall ev l l' d fuel,
  serves (length cs) l l' -> (length l <= fuel)%nat ->
  exists m, puts fuel cs (State true ev l d) = Ok (tt, State true (ev ++ ((fun c => Out 0 (u8 c)) <$> cs)) m d) /\
    serves 0 m l'.
Proof.
  induction cs as [|c cs IH]; intros ev l l' d fuel Hs Hf; cbn [puts].
  - exists l. simpl. by rewrite app_nil_r.
  - destruct (putc_serves _ _ _ Hs ev d fuel c Hf) as (m & Hrun & Hm & Hlen).
    destruct (IH (ev ++ [Out 0 (u8 c)]) m l' d fuel Hm) as (m' & Hrun' & Hm'); [lia|].
    exists m'. split; [|done]. mrun exact Hrun. rewrite Hrun'. simpl. by rewrite <- app_assoc.
Qed.

Lemma write_reg_run p ev an d off v :
  uart_write_reg off v (State p ev an d) = Ok (tt, State p (ev ++ [Out (u8 off) (u8 v)]) an d).
Proof. done. Qed.

Lemma read_reg_run p ev a an d off :
  uart_read_reg off (State p ev (a :: an) d) = Ok (u8 a, State p ev an d).
Proof. done. Qed.

(** The configuration: no FIFO, divisor 12 under DLAB, 8N1, receive interrupt,
    loopback, and the test byte. *)
Definition configuration : list event :=
  [Out 2 0; Out 3 0x80; Out 0 12; Out 1 0; Out 3 0x03; Out 1 0x01; Out 4 0x1E; Out 0 0xAE].

End UartFacts.

(** ** Properties *)
Module UartProps.
Import Uart UartFacts ApicFacts.

(** [init_uart] when the loopback test succeeds: it has written exactly the
    configuration (divisor 12, which is 9600 baud, 8 data bits, no parity, one
    stop bit), leaves loopback mode, routes the interrupt of the port to local
    APIC 0, and sends every character of its greeting once and in order, each
    after the port reported an empty transmitter. *)
Theorem init_uart_ok OFF s l l' fuel :
  answers s = 0xAE :: l -> serves (length greeting) l l' -> (length l <= fuel)%nat ->
  BAUD_RATE_MAX / 12 = BAUD_RATE_DESIRED /\
  exists d', ioapic_route iowin OFF IRQ_COM1 0 0 (ioapic s) = Ok (tt, d') /\
    init_uart iowin OFF fuel s = Ok (tt, State true
      (events s ++ configuration ++ [Out 4 0] ++ ((fun c => Out 0 (u8 c)) <$> greeting)) l' d').
Proof.
  intros Ha Hs Hf. split; [done|]. destruct s as [p ev an d]; simpl in Ha; subst an.
  eexists. split; [apply ioapic_route_run; unfold IRQ_COM1; lia|].
  unfold init_uart. do 8 mrun (apply write_reg_run). mrun (apply read_reg_run).
  change (negb (u8 174 =? 174)) with false. cbn iota. mrun reflexivity.
  cbn [events uart_present answers ioapic]. mrun (apply write_reg_run).
  mrun (apply zoom_Ok, ioapic_route_run; unfold IRQ_COM1; lia).
  cbn [events uart_present answers ioapic].
  match goal with |- puts _ _ (State true ?e _ ?dd) = _ =>
    destruct (puts_serves greeting e l l' dd fuel Hs Hf) as (m & Hrun & Hm) end.
  rewrite Hrun. inversion Hm; subst. rewrite <- !app_assoc. reflexivity.
Qed.

Lemma init_uart_ok_witness :
  exists d', init_uart iowin 32 17 (State false [] (0xAE :: replicate 17 0x60) (Dev 0 ∅)) =
    Ok (tt, State true (configuration ++ [Out 4 0] ++ ((fun c => Out 0 (u8 c)) <$> greeting)) [] d').
Proof.
  destruct (init_uart_ok 32 (State false [] (0xAE :: replicate 17 0x60) (Dev 0 ∅)) (replicate 17 0x60) [] 17)
    as (_ & d' & _ & Hrun).
  - reflexivity.
  - change (length greeting) with 17%nat. simpl.
    repeat (apply serves_ready; [vm_compute; done|]). apply serves_O.
  - rewrite length_replicate. lia.
  - exists d'. exact Hrun.
Defined.

(** When the loopback test fails the driver stays absent, but the port is left
    in loopback mode: no write follows the test byte. *)
Lemma init_uart_failed OFF s a l fuel :
  answers s = a :: l -> u8 a <> 0xAE ->
  init_uart iowin OFF fuel s = Ok (tt, State (uart_present s)
    (events s ++ configuration ++ [Message "Error: UART failed to initialize"]) l (ioapic s)).
Proof.
  intros Ha Hne. destruct s as [p ev an d]; simpl in Ha; subst an.
  unfold init_uart. do 8 mrun (apply write_reg_run). mrun (apply read_reg_run).
  destruct (Z.eqb_spec (u8 a) 174); [done|]. cbn [negb]. unfold modify.
  cbn [events uart_present answers ioapic]. rewrite <- !app_assoc. reflexivity.
Qed.

End UartProps.
