(* ===== verification/Path.v ===== *)
(** Path names (src/kernel/filesystem/PathString.h) and their resolution
    (vfs.cpp).

    Module PathString: the iterator over the components of a path, with its
    128-byte component buffer in memory.  Module PathSpec: the components a
    path has.  Module PathProps: the iterator yields exactly the components
    that a slash ends, in order, and faults on the one that the end of the
    string ends; the past-the-end iterator cannot be built.  Modules Vfs and
    VfsProps: [resolve_path], which needs that iterator. *)
From S2P Require Import Prelude Memory Libk.
Import KString.

Module PathString.

Definition SLASH : Z := 47.
Definition sizeof_part : Z := 128.

(** The members [pos] and [pathend], and the address of the array [part]. *)
Record Iterator := Iter { pos : Z; pathend : Z; part : Z }.

(** [while ( *p == '/') p++]. *)
Fixpoint skip_slashes (fuel : nat) (p : Z) : M mem Z :=
  match fuel with
  | O => fail OutOfFuel
  | S fuel =>
      c ← load8 p;
      if c =? SLASH then skip_slashes fuel (u64 (p + 1)) else mret p
  end.

Definition extractNext (fuel : nat) (it : Iterator) : M mem Iterator :=
  start ← skip_slashes fuel (pos it);
  if start =? 0 then
    store8 (part it) 0 ;;
    mret (Iter (pathend it) (pathend it) (part it))
  else
    end_ ← strchr fuel start SLASH;
    let len := u64 (end_ - start) in
    let len := if sizeof_part <=? len then sizeof_part - 1 else len in
    _ ← strncpy fuel (part it) start len;
    store8 (u64 (part it + len)) 0 ;;
    p ← skip_slashes fuel end_;
    mret (Iter p (pathend it) (part it)).

(** The constructor; [buf] is where the new object's [part] lives. *)
Definition Iterator_new (fuel : nat) (buf path : Z) : M mem Iterator :=
  e ← strchr fuel path 0;
  let it := Iter path e buf in
  if negb (path =? e) then extractNext fuel it else mret it.

Definition operator_incr (fuel : nat) (it : Iterator) : M mem Iterator :=
  if negb (pos it =? pathend it) then extractNext fuel it else mret it.

Definition operator_deref (it : Iterator) : Z := part it.

Definition operator_eq (it other : Iterator) : bool :=
  (pos it =? pos other) && (pathend it =? pathend other).

Definition operator_neq (it other : Iterator) : bool := negb (operator_eq it other).

Definition is_last (it : Iterator) : bool := pos it =? pathend it.

Definition begin (fuel : nat) (buf str : Z) : M mem Iterator := Iterator_new fuel buf str.

Definition end_ (fuel : nat) (buf str : Z) : M mem Iterator :=
  e ← strchr fuel str 0;
  Iterator_new fuel buf e.

(** [begin()] followed by [k] increments. *)
Fixpoint advance (k : nat) (fuel : nat) (it : Iterator) : M mem Iterator :=
  match k with
  | O => mret it
  | S k => it ← operator_incr fuel it; advance k fuel it
  end.

Definition nth_iterator (k fuel : nat) (buf str : Z) : M mem Iterator :=
  it ← begin fuel buf str; advance k fuel it.

End PathString.

(** ** The components of a path *)
Module PathSpec.
Import PathString.

(** The non-empty components that are followed by a slash; [cur] is what has
    been read of the current one. *)
Fixpoint terminated_from (cur s : list Z) : list (list Z) :=
  match s with
  | [] => []
  | c :: s =>
      if c =? SLASH then (if decide (cur = []) then [] else [cur]) ++ terminated_from [] s
      else terminated_from (cur ++ [c]) s
  end.

Definition terminated (s : list Z) : list (list Z) := terminated_from [] s.

Fixpoint drop_slashes (s : list Z) : list Z :=
  match s with
  | c :: t => if c =? SLASH then drop_slashes t else s
  | [] => []
  end.

(** The first component and what follows the slashes after it. *)
Definition next_component (s : list Z) : option (list Z * list Z) :=
  i ← find_char SLASH (drop_slashes s);
  Some (take i (drop_slashes s), drop_slashes (drop i (drop_slashes s))).

Lemma drop_slashes_le s : (length (drop_slashes s) <= length s)%nat.
Proof. induction s as [|c s IH]; simpl; [lia|]. destruct (c =? SLASH); simpl; lia. Qed.

Lemma drop_slashes_suffix s : exists k, drop_slashes s = drop k s /\ (k <= length s)%nat.
Proof.
  induction s as [|c s [k [E Hk]]]; simpl; [by exists 0%nat; split; [|lia]|].
  destruct (c =? SLASH); [exists (S k)|exists 0%nat]; simpl; split; (done || lia).
Qed.

Lemma drop_slashes_head s c t : drop_slashes s = c :: t -> c <> SLASH.
Proof.
  induction s as [|d s IH]; simpl; [done|].
  destruct (Z.eqb_spec d SLASH); [auto|]. intros H. by simplify_eq.
Qed.

(** Characters of a C string are never 0 and fit a byte. *)
Definition is_char (c : Z) : Prop := 0 < c < 256.

Lemma swrap8_slash c : is_char c -> swrap 8 c = SLASH <-> c = SLASH.
Proof.
  unfold is_char, SLASH, swrap. intros H. rewrite wrap_small by (unfold in_range; lia).
  destruct (Z.ltb_spec c (2 ^ (8 - 1))); lia.
Qed.

Lemma swrap8_zero c : is_char c -> swrap 8 c <> 0.
Proof.
  unfold is_char, swrap. intros H. rewrite wrap_small by (unfold in_range; lia).
  destruct (Z.ltb_spec c (2 ^ (8 - 1))); lia.
Qed.

Lemma find_char_zero s : Forall is_char s -> find_char 0 s = None.
Proof.
  induction 1 as [|c s Hc _ IH]; [done|]. rewrite find_char_cons, IH.
  case_decide; [|done]. by destruct (swrap8_zero c).
Qed.

Lemma terminated_drop_slashes s : terminated s = terminated (drop_slashes s).
Proof.
  induction s as [|c s IH]; [done|]. cbn [drop_slashes].
  destruct (c =? SLASH) eqn:E; [|done]. unfold terminated at 1. cbn [terminated_from].
  rewrite E. exact IH.
Qed.

Lemma terminated_from_find s : Forall is_char s -> forall cur,
  terminated_from cur s =
  match find_char SLASH s with
  | Some i => (if decide (cur ++ take i s = []) then [] else [cur ++ take i s]) ++
              terminated (drop_slashes (drop i s))
  | None => []
  end.
Proof.
  induction 1 as [|c s Hc _ IH]; intros cur; [done|]. cbn [terminated_from].
  rewrite find_char_cons. pose proof (swrap8_slash c Hc).
  destruct (Z.eqb_spec c SLASH) as [->|Hne], (decide (swrap 8 _ = SLASH)); try tauto.
  - rewrite take_0, drop_0, app_nil_r. cbn [drop_slashes]. rewrite Z.eqb_refl. f_equal. apply terminated_drop_slashes.
  - rewrite IH. destruct (find_char SLASH s) as [i|]; [|done].
    cbn [fmap option_fmap option_map]. rewrite firstn_cons, skipn_cons. by rewrite <- app_assoc.
Qed.

Lemma terminated_next s : Forall is_char s ->
  terminated s = match next_component s with Some (c, r) => c :: terminated r | None => [] end.
Proof.
  intros Hs. unfold next_component.
  rewrite terminated_drop_slashes.
  destruct (drop_slashes_suffix s) as (k & Ek & _).
  unfold terminated at 1. rewrite terminated_from_find by (rewrite Ek; by apply Forall_drop).
  destruct (find_char SLASH (drop_slashes s)) as [i|] eqn:E; cbn [mbind option_bind app]; [|done].
  case_decide as Hd; [exfalso|done].
  destruct (drop_slashes s) as [|c t] eqn:Et; [done|]. apply drop_slashes_head in Et.
  assert (is_char c) as Hc.
  { assert (Forall is_char (c :: t)) as Hf by (rewrite Ek; by apply Forall_drop).
    by apply Forall_cons in Hf as [? _]. }
  rewrite find_char_cons in E. pose proof (swrap8_slash c Hc).
  case_decide; [tauto|]. destruct (find_char SLASH t); simpl in E; by simplify_eq.
Qed.

End PathSpec.

Module PathFacts.
Import PathString PathSpec.

(** An iterator whose position is at the string [s], apart from its buffer;
    nothing is mapped at address 0. *)
Record iter_at (m : mem) (it : Iterator) (s : list Z) : Prop := {
  at_readable : readable m (pos it) s;
  at_writable : writable m (part it) 128;
  at_apart : apart_copy (part it) 128 (pos it) s;
  at_pos : 0 < pos it;
  at_high : pos it + Z.of_nat (length s) < 2 ^ 64 - 128;
  at_end : pathend it = 0;
  at_null : mapped m 0 = false }.

Lemma readable_chars m a s : readable m a s -> Forall is_char s.
Proof. by intros [(Hs & _ & _) _ _ _]. Qed.

Lemma readable_drop m s : forall k a, (k <= length s)%nat ->
  readable m a s -> readable m (a + Z.of_nat k) (drop k s).
Proof.
  induction s as [|c s IH]; intros [|k] a Hk Hr; simpl in Hk; try lia.
  - by rewrite Z.add_0_r.
  - by rewrite Z.add_0_r.
  - replace (a + Z.of_nat (S k)) with (a + 1 + Z.of_nat k) by lia.
    apply IH; [lia|]. by eapply readable_tail.
Qed.

Lemma skip_slashes_ok m s : forall a fuel, readable m a s -> (length s < fuel)%nat ->
  exists k, skip_slashes fuel a m = Ok (a + Z.of_nat k, m) /\ drop_slashes s = drop k s /\
    (k <= length s)%nat.
Proof.
  induction s as [|c s IH]; intros a [|fuel] Hr Hf; simpl in Hf; try lia; cbn [skip_slashes].
  - mrun (by apply readable_nil). exists 0%nat. by rewrite Z.add_0_r.
  - mrun (by apply (readable_head m a c s)). cbn [drop_slashes].
    destruct (c =? SLASH); [|exists 0%nat; rewrite Z.add_0_r; split_and!; [done..|lia]].
    pose proof (readable_tail _ _ _ _ Hr) as Ht. destruct Hr as [_ _ Hl Hh]. simpl in Hh.
    rewrite wrap_small by (unfold in_range; lia).
    destruct (IH (a + 1) fuel Ht) as (k & -> & E & Hk); [lia|].
    exists (S k). split_and!; [do 2 f_equal; lia|done|simpl; lia].
Qed.

Lemma iter_at_drop m it s k : iter_at m it s -> (k <= length s)%nat ->
  iter_at m (Iter (pos it + Z.of_nat k) (pathend it) (part it)) (drop k s).
Proof.
  intros [Hr Hw Ha Hp Hh He Hn] Hk. split; simpl; try done; try lia.
  - by apply readable_drop.
  - unfold apart_copy in *. rewrite length_drop. lia.
  - rewrite length_drop. lia.
Qed.

Lemma iter_at_write m it s l : iter_at m it s -> (length l <= 128)%nat ->
  iter_at (put_bytes m (part it) l) it s.
Proof.
  intros [Hr Hw Ha Hp Hh He Hn] Hl. unfold apart_copy in Ha. split; try done.
  - apply readable_put_bytes; [done|lia].
  - by apply writable_put_bytes.
  - by rewrite mapped_put_bytes.
Qed.

(** The copy of the component, when [n] characters of it are wanted. *)
Lemma copy_part m it s n fuel : iter_at m it s -> (n < 128)%nat -> (length s < fuel)%nat ->
  exists l, strncpy fuel (part it) (pos it) (Z.of_nat n) m =
    Ok (Z.of_nat (n `min` length s), put_bytes m (part it) (take n s ++ l)) /\
    (length l <= n - length s)%nat.
Proof.
  intros [Hr Hw Ha Hp Hh He Hn] Hn' Hf. unfold apart_copy in Ha.
  eexists. split; [apply strncpy_ok; [done| |unfold apart_copy; lia|done]|].
  - destruct Hw. split; [eapply mapped_range_mono; eauto; lia|lia..].
  - case_decide; simpl; lia.
Qed.

Lemma find_char_Some c s i : find_char c s = Some i -> (i < length s)%nat.
Proof.
  unfold find_char. destruct (list_find _ s) as [[j b]|] eqn:E; simpl; intros H; simplify_eq.
  apply list_find_Some in E as (E & _ & _). by eapply lookup_lt_Some.
Qed.

Lemma extractNext_Some m it s fuel c r :
  iter_at m it s -> (length s < fuel)%nat -> next_component s = Some (c, r) ->
  exists p, extractNext fuel it m =
    Ok (Iter p 0 (part it), put_bytes m (part it) (take 127 c ++ [0])) /\
    iter_at (put_bytes m (part it) (take 127 c ++ [0])) (Iter p 0 (part it)) r /\
    (length r <= length s)%nat.
Proof.
  intros Hi Hf Hc. unfold extractNext.
  destruct (skip_slashes_ok m s (pos it) fuel) as (k & Hs & Ek & Hk); [apply Hi|done|].
  mrun exact Hs. pose proof (iter_at_drop m it s k Hi Hk) as Hi'.
  unfold next_component in Hc. rewrite Ek in Hc. set (t := drop k s) in *.
  assert (length t <= length s)%nat by (unfold t; rewrite length_drop; lia).
  destruct (find_char SLASH t) as [i|] eqn:Ei; simpl in Hc; [|done]. injection Hc as <- <-.
  pose proof (find_char_Some _ _ _ Ei) as Hit. set (a := pos it + Z.of_nat k) in *.
  destruct (Z.eqb_spec a 0); [destruct Hi; unfold a in *; lia|].
  mrun (apply (strchr_ok m SLASH t a); [apply Hi'|lia]). rewrite Ei.
  pose proof (at_high _ _ _ Hi') as Hh. pose proof (at_pos _ _ _ Hi'). cbn [pos] in *.
  replace (u64 (a + Z.of_nat i - a)) with (Z.of_nat i) by (rewrite wrap_small; unfold in_range; lia).
  replace (if sizeof_part <=? Z.of_nat i then sizeof_part - 1 else Z.of_nat i)
    with (Z.of_nat (i `min` 127)) by (unfold sizeof_part; zcase; lia).
  destruct (copy_part m _ t (i `min` 127) fuel Hi') as (l & Hcp & Hl); [lia..|].
  destruct l; [|simpl in Hl; lia]. rewrite app_nil_r in Hcp. cbn [pos part] in Hcp. mrun exact Hcp.
  mrun (apply writable_store with (n := 128); [apply writable_put_bytes, Hi|lia]).
  replace (set_byte _ _ 0) with (put_bytes m (part it) (take 127 (take i t) ++ [0])).
  2:{ rewrite put_bytes_snoc, take_take. rewrite Nat.min_comm. f_equal.
      rewrite length_take. lia. }
  assert (length (take 127 (take i t) ++ [0%Z]) <= 128)%nat as Hlen.
  { rewrite length_app, length_take. change (length [0]) with 1%nat. lia. }
  pose proof (iter_at_drop _ _ _ i (iter_at_write _ _ _ _ Hi' Hlen)) as Hj. cbn [pos part] in Hj.
  destruct (skip_slashes_ok _ (drop i t) (a + Z.of_nat i) fuel (at_readable _ _ _ (Hj ltac:(lia))))
    as (j & Hs' & Ej & Hj'); [rewrite length_drop; lia|].
  mrun exact Hs'. rewrite (at_end _ _ _ Hi). eexists. split; [done|]. rewrite Ej. split.
  - pose proof (iter_at_drop _ _ _ j (Hj ltac:(lia)) Hj') as Hres. cbn [pos pathend part] in Hres.
    by rewrite (at_end _ _ _ Hi) in Hres.
  - rewrite !length_drop. lia.
Qed.

Lemma extractNext_None m it s fuel :
  iter_at m it s -> (length s < fuel)%nat -> next_component s = None ->
  extractNext fuel it m = Fault (Unmapped 0).
Proof.
  intros Hi Hf Hc. unfold extractNext.
  destruct (skip_slashes_ok m s (pos it) fuel) as (k & Hs & Ek & Hk); [apply Hi|done|].
  mrun exact Hs. pose proof (iter_at_drop m it s k Hi Hk) as Hi'.
  unfold next_component in Hc. rewrite Ek in Hc. set (t := drop k s) in *.
  assert (length t <= length s)%nat by (unfold t; rewrite length_drop; lia).
  destruct (find_char SLASH t) as [i|] eqn:Ei; simpl in Hc; [done|].
  set (a := pos it + Z.of_nat k) in *.
  destruct (Z.eqb_spec a 0); [destruct Hi; unfold a in *; lia|].
  mrun (apply (strchr_ok m SLASH t a); [apply Hi'|lia]). rewrite Ei.
  pose proof (at_high _ _ _ Hi') as Hh. pose proof (at_pos _ _ _ Hi'). cbn [pos] in *.
  replace (u64 (0 - a)) with (2 ^ 64 - a) by (unfold wrap; rewrite <- (Z_mod_plus_full _ 1), Z.mod_small; lia).
  destruct (Z.leb_spec sizeof_part (2 ^ 64 - a)); [|unfold sizeof_part in *; lia].
  change (sizeof_part - 1) with (Z.of_nat 127).
  destruct (copy_part m _ t 127 fuel Hi') as (l & Hcp & Hl); [lia..|]. cbn [pos part] in Hcp.
  mrun exact Hcp. mrun (apply writable_store with (n := 128); [apply writable_put_bytes, Hi|lia]).
  apply bind_Fault. destruct fuel as [|fuel]; [lia|]. cbn [skip_slashes]. apply bind_Fault.
  unfold load8. rewrite mapped_set_byte, mapped_put_bytes, (at_null _ _ _ Hi). done.
Qed.

End PathFacts.

(** ** Properties *)
Module PathProps.
Import PathString PathSpec PathFacts.

(** The situation of a caller: a path of characters [s] at [str], the
    iterator's buffer at [buf] apart from it, nothing mapped at 0. *)
Record path_at (m : mem) (str buf : Z) (s : list Z) : Prop := {
  pa_readable : readable m str s;
  pa_writable : writable m buf 128;
  pa_apart : apart_copy buf 128 str s;
  pa_pos : 0 < str;
  pa_high : str + Z.of_nat (length s) < 2 ^ 64 - 128;
  pa_null : mapped m 0 = false }.

Lemma path_at_iter m str buf s : path_at m str buf s -> iter_at m (Iter str 0 buf) s.
Proof. intros []. by split. Qed.

Lemma path_end m str buf s fuel : path_at m str buf s -> (length s < fuel)%nat ->
  strchr fuel str 0 m = Ok (0, m).
Proof.
  intros [Hr _ _ _ _ _] Hf. rewrite (strchr_ok m 0 s) by done.
  by rewrite find_char_zero by by eapply readable_chars.
Qed.

Lemma begin_extracts m str buf s fuel : path_at m str buf s -> (length s < fuel)%nat ->
  begin fuel buf str m = extractNext fuel (Iter str 0 buf) m.
Proof.
  intros Hp Hf. unfold begin, Iterator_new. mrun (by eapply path_end).
  destruct (Z.eqb_spec str 0); [destruct Hp; lia|]. done.
Qed.

(** Running the iterator from a position: the [k]-th component, or the fault. *)
Lemma advance_ok k : forall m it s fuel c,
  iter_at m it s -> (length s < fuel)%nat -> terminated s !! k = Some c ->
  exists m' it', (it ← extractNext fuel it; advance k fuel it) m = Ok (it', m') /\
    part it' = part it /\ cstr m' (part it) (take 127 c).
Proof.
  induction k as [|k IH]; intros m it s fuel c Hi Hf Hc;
    pose proof (readable_chars _ _ _ (at_readable _ _ _ Hi)) as Hs; rewrite terminated_next in Hc by done;
    destruct (next_component s) as [[d r]|] eqn:En; simpl in Hc; try done;
    destruct (extractNext_Some m it s fuel d r Hi Hf En) as (p & E & Hi' & Hr).
  - simplify_eq. rewrite (bind_Ok _ _ _ _ _ E). do 2 eexists. split_and!; [done..|].
    apply cstr_put_bytes. apply Forall_take. unfold next_component in En.
    destruct (drop_slashes_suffix s) as (j & Ej & _). rewrite Ej in En.
    destruct (find_char _ _); simpl in En; [|done]. simplify_eq.
    by apply Forall_take, Forall_drop.
  - rewrite (bind_Ok _ _ _ _ _ E). cbn [advance]. unfold operator_incr. cbn [pos pathend].
    destruct (Z.eqb_spec p 0); [destruct Hi'; simpl in *; lia|]. cbn [negb].
    apply (IH _ (Iter p 0 (part it)) r); [done|lia|done].
Qed.

Lemma advance_fault m s : forall it fuel,
  iter_at m it s -> (length s < fuel)%nat ->
  (it ← extractNext fuel it; advance (length (terminated s)) fuel it) m = Fault (Unmapped 0).
Proof.
  remember (terminated s) as l eqn:El. revert m s El.
  induction l as [|c l IH]; intros m s El it fuel Hi Hf;
    pose proof (readable_chars _ _ _ (at_readable _ _ _ Hi)) as Hs; rewrite terminated_next in El by done;
    destruct (next_component s) as [[d r]|] eqn:En; simplify_eq.
  - apply bind_Fault. by apply (extractNext_None m it s).
  - destruct (extractNext_Some m it s fuel d r Hi Hf En) as (p & E & Hi' & Hr).
    rewrite (bind_Ok _ _ _ _ _ E). cbn [length advance]. unfold operator_incr. cbn [pos pathend].
    destruct (Z.eqb_spec p 0); [destruct Hi'; simpl in *; lia|]. cbn [negb].
    apply (IH _ r); [done|done|lia].
Qed.

(** C38. Iterating over a path yields its components: for every path and every
    component [c] that a slash ends, the [k]-th of them, [begin()] followed by
    [k] increments returns, and the string the iterator then points to is the
    component, cut to the 127 characters its buffer holds. *)
Theorem path_components m str buf s fuel k c :
  path_at m str buf s -> (length s < fuel)%nat -> terminated s !! k = Some c ->
  exists m' it, nth_iterator k fuel buf str m = Ok (it, m') /\
    cstr m' (operator_deref it) (take 127 c).
Proof.
  intros Hp Hf Hc. unfold nth_iterator.
  destruct (advance_ok k m (Iter str 0 buf) s fuel c) as (m' & it' & Hrun & Hpart & Hcs);
    [by apply path_at_iter|done|done|].
  exists m', it'. unfold operator_deref. rewrite Hpart. split; [|exact Hcs].
  unfold mbind, M_bind in *. by rewrite (begin_extracts m str buf s).
Qed.

(** The path usr/lib/x at address 4096, the iterator's buffer at 8192. *)
Definition example_mem : mem :=
  put_bytes (Mem [(4096, 256); (8192, 128)] ∅) 4096 [117; 115; 114; 47; 108; 105; 98; 47; 120; 0].
Definition example_path : list Z := [117; 115; 114; 47; 108; 105; 98; 47; 120].

Lemma example_path_at : path_at example_mem 4096 8192 example_path.
Proof.
  split; [split| |right; simpl; lia|lia|simpl; lia|reflexivity].
  - split; [repeat constructor; lia|]. vm_compute. tauto.
  - apply mapped_in_region with 4096 256; [by left|simpl; lia..].
  - lia.
  - simpl; lia.
  - split; [|lia..]. apply mapped_in_region with 8192 128; [by right; left|lia..].
Qed.

Lemma path_components_witness :
  exists m' it, nth_iterator 1 20 8192 4096 example_mem = Ok (it, m') /\
    cstr m' (operator_deref it) [108; 105; 98].
Proof.
  apply (path_components example_mem 4096 8192 example_path 20 1 [108; 105; 98]).
  - exact example_path_at.
  - simpl; lia.
  - reflexivity.
Defined.

(** The last component is out of reach: after the components that a slash
    ends, the next step of the iterator dereferences a null pointer, whatever
    the path is, because [strchr] has found no further slash.  Iterating over
    a path therefore never ends normally. *)
Theorem path_last_component_faults m str buf s fuel :
  path_at m str buf s -> (length s < fuel)%nat ->
  nth_iterator (length (terminated s)) fuel buf str m = Fault (Unmapped 0).
Proof.
  intros Hp Hf. unfold nth_iterator, mbind, M_bind. rewrite (begin_extracts m str buf s) by done.
  exact (advance_fault m s (Iter str 0 buf) fuel (path_at_iter _ _ _ _ Hp) Hf).
Qed.

Lemma path_last_component_faults_witness :
  nth_iterator 2 20 8192 4096 example_mem = Fault (Unmapped 0).
Proof.
  apply (path_last_component_faults example_mem 4096 8192 example_path 20).
  - exact example_path_at.
  - simpl; lia.
Defined.

Lemma end_null m str buf s fuel buf' :
  path_at m str buf s -> (length s < fuel)%nat -> end_ fuel buf' str m = Fault (Unmapped 0).
Proof.
  intros Hp Hf. unfold end_. mrun (by eapply path_end). unfold Iterator_new.
  apply bind_Fault. destruct fuel as [|fuel]; [lia|]. cbn [strchr]. apply bind_Fault.
  unfold load8. by rewrite (pa_null _ _ _ _ Hp).
Qed.

(** [end()] faults on every path: [strchr(str, '\0')] returns a null
    pointer, from which the past-the-end iterator is built. *)
Theorem path_end_faults m str buf s fuel :
  path_at m str buf s -> (length s < fuel)%nat ->
  end_ fuel buf str m = Fault (Unmapped 0).
Proof.
  intros Hp Hf. by apply (end_null m str buf s).
Qed.

Lemma path_end_faults_witness : end_ 20 8192 4096 example_mem = Fault (Unmapped 0).
Proof.
  apply (path_end_faults example_mem 4096 8192 example_path 20).
  - exact example_path_at.
  - simpl; lia.
Defined.

End PathProps.

(** ** filesystem/vfs.cpp

    The inodes are objects with virtual functions that no class defines:
    [is_directory] and [lookup] are arguments.  [root_directory] and [cwd] are
    the addresses of the two InodeFile objects, whose members are the count
    of references and the pointer to the inode. *)
Module Vfs.
Import PathString.

Section resolve.
Context (is_directory : Z -> M mem bool) (lookup : Z -> Z -> M mem Z).

(** The loop over the components; [parent] never changes, and what is looked
    up is not used. *)
Fixpoint resolve_parts (n fuel : nat) (parent : Z) (it last : Iterator) : M mem (option (ErrorOr.t Z)) :=
  match n with
  | O => fail OutOfFuel
  | S n =>
      if operator_neq it last then
        inode ← load 8 (parent + 8);
        dir ← is_directory inode;
        if negb dir then mret (Some (ErrorOr.of_error (Errno.errno_value Errno.ENOTDIR))) else
        _ ← lookup inode (operator_deref it);
        it ← operator_incr fuel it;
        resolve_parts n fuel parent it last
      else mret None
  end.

(** The function ends without a [return] after the loop: [None].  Reading at
    address 0, where the iterators of a path without a slash end up, faults
    exactly in a memory where that address is not mapped. *)
Definition resolve_path (fuel : nat) (root_directory cwd buf buf_end path : Z) :
    M mem (option (ErrorOr.t Z)) :=
  c ← load8 path;
  parent ← (if c =? SLASH then mret root_directory
            else refcnt ← load 4 cwd; store 4 cwd (u32 (refcnt + 1)) ;; mret cwd);
  it ← begin fuel buf path;
  last ← end_ fuel buf_end path;
  resolve_parts fuel fuel parent it last.

End resolve.
End Vfs.

Module VfsProps.
Import PathString PathSpec PathFacts PathProps Vfs.

(** The first character of a string. *)
Lemma skip_first_char m a s : readable m a s ->
  exists c, load8 a m = Ok (c, m) /\ (c =? SLASH) = bool_decide (head s = Some SLASH).
Proof.
  intros Hr. destruct s as [|c s].
  - exists 0. split; [by apply readable_nil|done].
  - exists c. split; [by apply (readable_head m a c s)|]. cbn [head].
    destruct (Z.eqb_spec c SLASH) as [->|Hne]; case_bool_decide; congruence.
Qed.

(** Evaluating [begin ()] leaves the path as it is, or faults. *)
Lemma begin_keeps_path m str buf s fuel : path_at m str buf s -> (length s < fuel)%nat ->
  begin fuel buf str m = Fault (Unmapped 0) \/
  exists it m', begin fuel buf str m = Ok (it, m') /\ path_at m' str buf s.
Proof.
  intros Hp Hf. rewrite (begin_extracts m str buf s) by done.
  pose proof (path_at_iter _ _ _ _ Hp) as Hi.
  destruct (next_component s) as [[c r]|] eqn:En; [|left; by apply (extractNext_None m _ s)].
  right. destruct (extractNext_Some m _ s fuel c r Hi Hf En) as (p & E & _ & _). do 2 eexists.
  split; [exact E|]. cbn [part].
  assert (length (take 127 c ++ [0%Z]) <= 128)%nat as Hl by (rewrite length_app, length_take; cbn [length]; lia).
  destruct (iter_at_write m _ s _ Hi Hl) as [H1 H2 H3 H4 H5 _ H7]. by split.
Qed.

(** Where address 0 is not mapped, no path can be resolved: for every path,
    absolute or relative, and whatever the inodes answer, [resolve_path]
    dereferences a null pointer before it looks at the first component, in
    [begin ()] when no slash ends a component, and else in [end ()], because
    [strchr] returns the null pointer for a path without a further slash.  (The
    tables of entry.S map address 0, so that there the code reads on from it.) *)
Theorem resolve_path_faults is_directory lookup m root cwd buf buf_end path s fuel :
  let m' := if decide (head s = Some SLASH) then m else poke 4 m cwd (u32 (peek 4 m cwd + 1)) in
  path_at m path buf s -> path_at m' path buf s -> (length s < fuel)%nat ->
  mapped_range m cwd 4 ->
  resolve_path is_directory lookup fuel root cwd buf buf_end path m = Fault (Unmapped 0).
Proof.
  intros m' Hp Hp' Hf Hc. unfold resolve_path.
  assert (exists c, load8 path m = Ok (c, m) /\ (c =? SLASH) = bool_decide (head s = Some SLASH))
    as (c & Hload & Ec).
  { destruct (skip_first_char m path s (pa_readable _ _ _ _ Hp)) as (c & Hl & Hc'). eauto. }
  rewrite (bind_Ok _ _ _ _ _ Hload), Ec.
  assert (forall parent, (it ← begin fuel buf path; last ← end_ fuel buf_end path;
    resolve_parts is_directory lookup fuel fuel parent it last) m' = Fault (Unmapped 0)) as Hloop.
  { intros parent. destruct (begin_keeps_path m' path buf s fuel Hp' Hf) as [E|(it & m2 & E & Hp2)].
    - by apply bind_Fault.
    - rewrite (bind_Ok _ _ _ _ _ E). apply bind_Fault. by apply (end_null m2 path buf s). }
  unfold m' in *. case_bool_decide as Hs.
  { rewrite decide_True in Hloop by done. rewrite (bind_Ok _ _ m root m eq_refl). apply Hloop. }
  rewrite decide_False in Hloop by done.
  rewrite (bind_Ok _ _ m cwd (poke 4 m cwd (u32 (peek 4 m cwd + 1)))); [apply Hloop|].
  rewrite (bind_Ok _ _ _ _ _ (load_ok 4 m cwd Hc)). by rewrite (bind_Ok _ _ _ _ _ (store_ok 4 m cwd _ Hc)).
Qed.

Lemma resolve_path_faults_witness :
  resolve_path (fun _ => mret true) (fun _ _ => mret 0) 20 0 4200 8192 8192 4096 example_mem = Fault (Unmapped 0).
Proof.
  apply (resolve_path_faults (fun _ => mret true) (fun _ _ => mret 0) example_mem 0 4200 8192 8192 4096 example_path 20).
  - exact example_path_at.
  - split; [split| |right; simpl; lia|lia|simpl; lia|reflexivity].
    + split; [repeat constructor; lia|]. vm_compute. tauto.
    + apply mapped_in_region with 4096 256; [by left|simpl; lia..].
    + lia.
    + simpl; lia.
    + split; [|lia..]. apply mapped_in_region with 8192 128; [by right; left|lia..].
  - simpl; lia.
  - apply mapped_in_region with 4096 256; [by left|simpl; lia..].
Defined.

End VfsProps.
