(* ===== verification/Boot.v ===== *)
(** Booting: boot/multiboot2.h, boot/multiboot2_header.c, boot/acpi.h,
    boot/madt.c, arch/x86/cpuid.hpp and kernel_main.cpp.

    Module Multiboot2 has the structures shared with the boot loader and the
    header the kernel image starts with; Acpi the firmware tables; Madt the
    search for an interrupt controller entry; KernelMain the entry point, up
    to the loop in which it halts; BootInfo the walk over the boot information
    that stands behind that loop. *)
From S2P Require Import Prelude Layout Memory Libk Stdio Paging Kmalloc.
Import MemLayout.

(** ** Definitions *)
Module Multiboot2.

Definition MULTIBOOT_SEARCH : Z := 32768.
Definition MULTIBOOT_HEADER_ALIGN : Z := 8.
Definition MULTIBOOT2_HEADER_MAGIC : Z := 0xe85250d6.
Definition MULTIBOOT2_BOOTLOADER_MAGIC : Z := 0x36d76289.
Definition MULTIBOOT_MOD_ALIGN : Z := 0x00001000.
Definition MULTIBOOT_INFO_ALIGN : Z := 0x00000008.
Definition MULTIBOOT_TAG_ALIGN : Z := 8.
Definition MULTIBOOT_TAG_TYPE_END : Z := 0.
Definition MULTIBOOT_TAG_TYPE_CMDLINE : Z := 1.
Definition MULTIBOOT_TAG_TYPE_BOOT_LOADER_NAME : Z := 2.
Definition MULTIBOOT_TAG_TYPE_MODULE : Z := 3.
Definition MULTIBOOT_TAG_TYPE_BASIC_MEMINFO : Z := 4.
Definition MULTIBOOT_TAG_TYPE_BOOTDEV : Z := 5.
Definition MULTIBOOT_TAG_TYPE_MMAP : Z := 6.
Definition MULTIBOOT_TAG_TYPE_VBE : Z := 7.
Definition MULTIBOOT_TAG_TYPE_FRAMEBUFFER : Z := 8.
Definition MULTIBOOT_TAG_TYPE_ELF_SECTIONS : Z := 9.
Definition MULTIBOOT_TAG_TYPE_APM : Z := 10.
Definition MULTIBOOT_TAG_TYPE_EFI32 : Z := 11.
Definition MULTIBOOT_TAG_TYPE_EFI64 : Z := 12.
Definition MULTIBOOT_TAG_TYPE_SMBIOS : Z := 13.
Definition MULTIBOOT_TAG_TYPE_ACPI_OLD : Z := 14.
Definition MULTIBOOT_TAG_TYPE_ACPI_NEW : Z := 15.
Definition MULTIBOOT_TAG_TYPE_NETWORK : Z := 16.
Definition MULTIBOOT_TAG_TYPE_EFI_MMAP : Z := 17.
Definition MULTIBOOT_TAG_TYPE_EFI_BS : Z := 18.
Definition MULTIBOOT_TAG_TYPE_EFI32_IH : Z := 19.
Definition MULTIBOOT_TAG_TYPE_EFI64_IH : Z := 20.
Definition MULTIBOOT_TAG_TYPE_LOAD_BASE_ADDR : Z := 21.
Definition MULTIBOOT_HEADER_TAG_END : Z := 0.
Definition MULTIBOOT_HEADER_TAG_INFORMATION_REQUEST : Z := 1.
Definition MULTIBOOT_HEADER_TAG_ADDRESS : Z := 2.
Definition MULTIBOOT_HEADER_TAG_ENTRY_ADDRESS : Z := 3.
Definition MULTIBOOT_HEADER_TAG_CONSOLE_FLAGS : Z := 4.
Definition MULTIBOOT_HEADER_TAG_FRAMEBUFFER : Z := 5.
Definition MULTIBOOT_HEADER_TAG_MODULE_ALIGN : Z := 6.
Definition MULTIBOOT_HEADER_TAG_EFI_BS : Z := 7.
Definition MULTIBOOT_HEADER_TAG_ENTRY_ADDRESS_EFI32 : Z := 8.
Definition MULTIBOOT_HEADER_TAG_ENTRY_ADDRESS_EFI64 : Z := 9.
Definition MULTIBOOT_HEADER_TAG_RELOCATABLE : Z := 10.
Definition MULTIBOOT_ARCHITECTURE_I386 : Z := 0.
Definition MULTIBOOT_ARCHITECTURE_MIPS32 : Z := 4.
Definition MULTIBOOT_HEADER_TAG_OPTIONAL : Z := 1.
Definition MULTIBOOT_LOAD_PREFERENCE_NONE : Z := 0.
Definition MULTIBOOT_LOAD_PREFERENCE_LOW : Z := 1.
Definition MULTIBOOT_LOAD_PREFERENCE_HIGH : Z := 2.
Definition MULTIBOOT_CONSOLE_FLAGS_CONSOLE_REQUIRED : Z := 1.
Definition MULTIBOOT_CONSOLE_FLAGS_EGA_TEXT_SUPPORTED : Z := 2.
Definition MULTIBOOT_MEMORY_AVAILABLE : Z := 1.
Definition MULTIBOOT_MEMORY_RESERVED : Z := 2.
Definition MULTIBOOT_MEMORY_ACPI_RECLAIMABLE : Z := 3.
Definition MULTIBOOT_MEMORY_NVS : Z := 4.
Definition MULTIBOOT_MEMORY_BADRAM : Z := 5.
Definition MULTIBOOT_FRAMEBUFFER_TYPE_INDEXED : Z := 0.
Definition MULTIBOOT_FRAMEBUFFER_TYPE_RGB : Z := 1.
Definition MULTIBOOT_FRAMEBUFFER_TYPE_EGA_TEXT : Z := 2.

(** The constants in groups, in the order of the header. *)
Definition header_magics : list Z :=
  [MULTIBOOT_SEARCH; MULTIBOOT_HEADER_ALIGN; MULTIBOOT2_HEADER_MAGIC; MULTIBOOT2_BOOTLOADER_MAGIC;
   MULTIBOOT_MOD_ALIGN; MULTIBOOT_INFO_ALIGN].
Definition tag_types : list Z :=
  [MULTIBOOT_TAG_ALIGN; MULTIBOOT_TAG_TYPE_END; MULTIBOOT_TAG_TYPE_CMDLINE;
   MULTIBOOT_TAG_TYPE_BOOT_LOADER_NAME; MULTIBOOT_TAG_TYPE_MODULE;
   MULTIBOOT_TAG_TYPE_BASIC_MEMINFO; MULTIBOOT_TAG_TYPE_BOOTDEV; MULTIBOOT_TAG_TYPE_MMAP;
   MULTIBOOT_TAG_TYPE_VBE; MULTIBOOT_TAG_TYPE_FRAMEBUFFER; MULTIBOOT_TAG_TYPE_ELF_SECTIONS;
   MULTIBOOT_TAG_TYPE_APM; MULTIBOOT_TAG_TYPE_EFI32; MULTIBOOT_TAG_TYPE_EFI64;
   MULTIBOOT_TAG_TYPE_SMBIOS; MULTIBOOT_TAG_TYPE_ACPI_OLD; MULTIBOOT_TAG_TYPE_ACPI_NEW;
   MULTIBOOT_TAG_TYPE_NETWORK; MULTIBOOT_TAG_TYPE_EFI_MMAP; MULTIBOOT_TAG_TYPE_EFI_BS;
   MULTIBOOT_TAG_TYPE_EFI32_IH; MULTIBOOT_TAG_TYPE_EFI64_IH; MULTIBOOT_TAG_TYPE_LOAD_BASE_ADDR].
Definition header_tag_types : list Z :=
  [MULTIBOOT_HEADER_TAG_END; MULTIBOOT_HEADER_TAG_INFORMATION_REQUEST;
   MULTIBOOT_HEADER_TAG_ADDRESS; MULTIBOOT_HEADER_TAG_ENTRY_ADDRESS;
   MULTIBOOT_HEADER_TAG_CONSOLE_FLAGS; MULTIBOOT_HEADER_TAG_FRAMEBUFFER;
   MULTIBOOT_HEADER_TAG_MODULE_ALIGN; MULTIBOOT_HEADER_TAG_EFI_BS;
   MULTIBOOT_HEADER_TAG_ENTRY_ADDRESS_EFI32; MULTIBOOT_HEADER_TAG_ENTRY_ADDRESS_EFI64;
   MULTIBOOT_HEADER_TAG_RELOCATABLE].
Definition header_values : list Z :=
  [MULTIBOOT_ARCHITECTURE_I386; MULTIBOOT_ARCHITECTURE_MIPS32; MULTIBOOT_HEADER_TAG_OPTIONAL;
   MULTIBOOT_LOAD_PREFERENCE_NONE; MULTIBOOT_LOAD_PREFERENCE_LOW; MULTIBOOT_LOAD_PREFERENCE_HIGH;
   MULTIBOOT_CONSOLE_FLAGS_CONSOLE_REQUIRED; MULTIBOOT_CONSOLE_FLAGS_EGA_TEXT_SUPPORTED].
Definition memory_types : list Z :=
  [MULTIBOOT_MEMORY_AVAILABLE; MULTIBOOT_MEMORY_RESERVED; MULTIBOOT_MEMORY_ACPI_RECLAIMABLE;
   MULTIBOOT_MEMORY_NVS; MULTIBOOT_MEMORY_BADRAM].
Definition framebuffer_types : list Z :=
  [MULTIBOOT_FRAMEBUFFER_TYPE_INDEXED; MULTIBOOT_FRAMEBUFFER_TYPE_RGB;
   MULTIBOOT_FRAMEBUFFER_TYPE_EGA_TEXT].

Definition multiboot_header : cstruct := CStruct true 8
  [Plain "magic" cu32; Plain "architecture" cu32; Plain "header_length" cu32;
   Plain "checksum" cu32].
Definition multiboot_header_tag : cstruct := CStruct true 8
  [Plain "type" cu16; Plain "flags" cu16; Plain "size" cu32].
Definition multiboot_header_tag_information_request : cstruct := CStruct true 8
  [Plain "type" cu16; Plain "flags" cu16; Plain "size" cu32; Plain "requests" (carray cu32 0)].
Definition multiboot_header_tag_address : cstruct := CStruct true 8
  [Plain "type" cu16; Plain "flags" cu16; Plain "size" cu32; Plain "header_addr" cu32;
   Plain "load_addr" cu32; Plain "load_end_addr" cu32; Plain "bss_end_addr" cu32].
Definition multiboot_header_tag_entry_address : cstruct := CStruct true 8
  [Plain "type" cu16; Plain "flags" cu16; Plain "size" cu32; Plain "entry_addr" cu32].
Definition multiboot_header_tag_console_flags : cstruct := CStruct true 8
  [Plain "type" cu16; Plain "flags" cu16; Plain "size" cu32; Plain "console_flags" cu32].
Definition multiboot_header_tag_framebuffer : cstruct := CStruct true 8
  [Plain "type" cu16; Plain "flags" cu16; Plain "size" cu32; Plain "width" cu32;
   Plain "height" cu32; Plain "depth" cu32].
Definition multiboot_header_tag_module_align : cstruct := CStruct true 8
  [Plain "type" cu16; Plain "flags" cu16; Plain "size" cu32].
Definition multiboot_header_tag_relocatable : cstruct := CStruct true 8
  [Plain "type" cu16; Plain "flags" cu16; Plain "size" cu32; Plain "min_addr" cu32;
   Plain "max_addr" cu32; Plain "align" cu32; Plain "preference" cu32].
Definition multiboot_color : cstruct := Struct
  [Plain "red" cu8; Plain "green" cu8; Plain "blue" cu8].
Definition multiboot_mmap_entry : cstruct := Struct
  [Plain "addr" cu64; Plain "len" cu64; Plain "type" cu32; Plain "zero" cu32].
Definition multiboot_tag : cstruct := Struct
  [Plain "type" cu32; Plain "size" cu32].
Definition multiboot_tag_string : cstruct := Struct
  [Plain "type" cu32; Plain "size" cu32; Plain "string" (carray cu8 0)].
Definition multiboot_tag_module : cstruct := Struct
  [Plain "type" cu32; Plain "size" cu32; Plain "mod_start" cu32; Plain "mod_end" cu32;
   Plain "cmdline" (carray cu8 0)].
Definition multiboot_tag_basic_meminfo : cstruct := Struct
  [Plain "type" cu32; Plain "size" cu32; Plain "mem_lower" cu32; Plain "mem_upper" cu32].
Definition multiboot_tag_bootdev : cstruct := Struct
  [Plain "type" cu32; Plain "size" cu32; Plain "biosdev" cu32; Plain "slice" cu32;
   Plain "part" cu32].
Definition multiboot_tag_mmap : cstruct := Struct
  [Plain "type" cu32; Plain "size" cu32; Plain "entry_size" cu32; Plain "entry_version" cu32;
   Plain "entries" (carray (cs_type multiboot_mmap_entry) 0)].
Definition multiboot_vbe_info_block : cstruct := Struct
  [Plain "external_specification" (carray cu8 512)].
Definition multiboot_vbe_mode_info_block : cstruct := Struct
  [Plain "external_specification" (carray cu8 256)].
Definition multiboot_tag_vbe : cstruct := Struct
  [Plain "type" cu32; Plain "size" cu32; Plain "vbe_mode" cu16; Plain "vbe_interface_seg" cu16;
   Plain "vbe_interface_off" cu16; Plain "vbe_interface_len" cu16;
   Plain "vbe_control_info" (cs_type multiboot_vbe_info_block);
   Plain "vbe_mode_info" (cs_type multiboot_vbe_mode_info_block)].
Definition multiboot_tag_framebuffer_common : cstruct := Struct
  [Plain "type" cu32; Plain "size" cu32; Plain "framebuffer_addr" cu64;
   Plain "framebuffer_pitch" cu32; Plain "framebuffer_width" cu32;
   Plain "framebuffer_height" cu32; Plain "framebuffer_bpp" cu8; Plain "framebuffer_type" cu8;
   Plain "reserved" cu16].
(** The anonymous structures of the union in [multiboot_tag_framebuffer]. *)
Definition framebuffer_indexed : cstruct := Struct
  [Plain "framebuffer_palette_num_colors" cu16; Plain "framebuffer_palette" cptr].
Definition framebuffer_rgb : cstruct := Struct
  [Plain "framebuffer_red_field_position" cu8; Plain "framebuffer_red_mask_size" cu8;
   Plain "framebuffer_green_field_position" cu8; Plain "framebuffer_green_mask_size" cu8;
   Plain "framebuffer_blue_field_position" cu8; Plain "framebuffer_blue_mask_size" cu8].
Definition multiboot_tag_framebuffer : cstruct := Struct
  [Plain "common" (cs_type multiboot_tag_framebuffer_common);
   Plain "colour" (union_type [cs_type framebuffer_indexed; cs_type framebuffer_rgb])].
Definition multiboot_tag_elf_sections : cstruct := Struct
  [Plain "type" cu32; Plain "size" cu32; Plain "num" cu32; Plain "entsize" cu32;
   Plain "shndx" cu32; Plain "sections" (carray cu8 0)].
Definition multiboot_tag_apm : cstruct := Struct
  [Plain "type" cu32; Plain "size" cu32; Plain "version" cu16; Plain "cseg" cu16;
   Plain "offset" cu32; Plain "cseg_16" cu16; Plain "dseg" cu16; Plain "flags" cu16;
   Plain "cseg_len" cu16; Plain "cseg_16_len" cu16; Plain "dseg_len" cu16].
Definition multiboot_tag_efi32 : cstruct := Struct
  [Plain "type" cu32; Plain "size" cu32; Plain "pointer" cu32].
Definition multiboot_tag_efi64 : cstruct := Struct
  [Plain "type" cu32; Plain "size" cu32; Plain "pointer" cu64].
Definition multiboot_tag_smbios : cstruct := Struct
  [Plain "type" cu32; Plain "size" cu32; Plain "major" cu8; Plain "minor" cu8;
   Plain "reserved" (carray cu8 6); Plain "tables" (carray cu8 0)].
Definition multiboot_tag_old_acpi : cstruct := Struct
  [Plain "type" cu32; Plain "size" cu32; Plain "rsdp" (carray cu8 0)].
Definition multiboot_tag_new_acpi : cstruct := Struct
  [Plain "type" cu32; Plain "size" cu32; Plain "rsdp" (carray cu8 0)].
Definition multiboot_tag_network : cstruct := Struct
  [Plain "type" cu32; Plain "size" cu32; Plain "dhcpack" (carray cu8 0)].
Definition multiboot_tag_efi_mmap : cstruct := Struct
  [Plain "type" cu32; Plain "size" cu32; Plain "descr_size" cu32; Plain "descr_vers" cu32;
   Plain "efi_mmap" (carray cu8 0)].
Definition multiboot_tag_efi32_ih : cstruct := Struct
  [Plain "type" cu32; Plain "size" cu32; Plain "pointer" cu32].
Definition multiboot_tag_efi64_ih : cstruct := Struct
  [Plain "type" cu32; Plain "size" cu32; Plain "pointer" cu64].
Definition multiboot_tag_load_base_addr : cstruct := Struct
  [Plain "type" cu32; Plain "size" cu32; Plain "load_base_addr" cu32].

(** *** boot/multiboot2_header.c *)

Definition hdr : Z := finit (cs_layout multiboot_header)
  [("magic", MULTIBOOT2_HEADER_MAGIC); ("architecture", MULTIBOOT_ARCHITECTURE_I386);
   ("header_length", cs_sizeof multiboot_header);
   ("checksum", u32 (- u32 (MULTIBOOT2_HEADER_MAGIC + MULTIBOOT_ARCHITECTURE_I386 +
                            u32 (cs_sizeof multiboot_header))))].

Definition fb_tag : Z := finit (cs_layout multiboot_header_tag_framebuffer)
  [("type", MULTIBOOT_TAG_TYPE_FRAMEBUFFER); ("flags", MULTIBOOT_HEADER_TAG_OPTIONAL);
   ("size", cs_sizeof multiboot_header_tag_framebuffer)].

Definition end_tag : Z := finit (cs_layout multiboot_header_tag)
  [("type", MULTIBOOT_HEADER_TAG_END); ("size", cs_sizeof multiboot_header_tag)].

End Multiboot2.

Module Acpi.

Definition SDTHeader : cstruct := Packed
  [Plain "signature" (carray cu8 4); Plain "length" cu32; Plain "revision" cu8;
   Plain "checksum" cu8; Plain "oemid" (carray cu8 6); Plain "oemTableId" (carray cu8 8);
   Plain "oemRevision" cu32; Plain "creatorId" cu32; Plain "creatorRevision" cu32].
Definition XSDT : cstruct := Packed
  [Plain "sdtHeader" (cs_type SDTHeader); Plain "sdts" (carray (cs_type SDTHeader) 0)].
Definition RSDP : cstruct := Packed
  [Plain "signature" (carray cu8 8); Plain "checksum" cu8; Plain "oemid" (carray cu8 6);
   Plain "revision" cu8; Plain "rsdtAddress" cu32; Plain "length" cu32; Plain "xsdt" cptr;
   Plain "extendedChecksum" cu8; Plain "reserved" (carray cu8 3)].
Definition HPET_SDT : cstruct := Packed
  [Plain "sdtHeader" (cs_type SDTHeader); Plain "event_timer_block_id" cu32;
   Plain "reserved" cu32; Plain "address" cu64; Plain "id" cu8; Plain "min_ticks" cu16;
   Plain "page_protection" cu8].
Definition MADT : cstruct := Packed
  [Plain "header" (cs_type SDTHeader); Plain "lapic_base" cu32; Plain "flags" cu32;
   Plain "descriptons" (carray cu8 0)].
Definition MADT_desc_header : cstruct := Packed
  [Plain "type" cu8; Plain "length" cu8].
Definition MADT_IOAPIC_desc : cstruct := Packed
  [Plain "ioapic_id" cu8; Plain "rsrv" cu8; Plain "addr" cu32;
   Plain "global_system_interrupt_base" cu32].
Definition MADT_interrupt_source_override_desc : cstruct := Packed
  [Plain "bus_source" cu8; Plain "irq_source" cu8; Plain "global_system_interrupt" cu32;
   Plain "flags" cu16].

End Acpi.

(** ** boot/madt.c *)
Module Madt.
Import Acpi.

(** [strncmp], [MADT_ID] and [madt_base] are not defined by the kernel's
    sources; [apic_structures] is the array after the fixed part of the table. *)
Section madt.
Context (strncmp : Z -> Z -> Z -> M mem Z) (MADT_ID madt_base : Z).

Definition sizeof_MADT : Z := cs_sizeof MADT.

Fixpoint get_MADT_item_loop (fuel : nat) (table type offset item total_length counter : Z) : M mem Z :=
  match fuel with
  | O => fail OutOfFuel
  | S fuel =>
      len ← load32 (u64 (table + offsetof (cs_layout SDTHeader) "length"));
      if (u64 (total_length + sizeof_MADT) <? len) && (counter <=? offset) then
        t ← load8 (u64 (item + offsetof (cs_layout MADT_desc_header) "type"));
        if (t =? type) && (counter =? offset) then mret item
        else
          let counter := if t =? type then u8 (counter + 1) else counter in
          l ← load8 (u64 (item + offsetof (cs_layout MADT_desc_header) "length"));
          let total_length := u64 (total_length + l) in
          get_MADT_item_loop fuel table type offset (u64 (madt_base + total_length)) total_length counter
      else mret 0
  end.

Definition get_MADT_item (fuel : nat) (table type offset : Z) : M mem Z :=
  r ← strncmp table MADT_ID 4;
  if negb (r =? 0) then mret 0
  else get_MADT_item_loop fuel table type offset (u64 (table + sizeof_MADT)) 0 0.

End madt.
End Madt.

(** ** kernel_main.cpp and arch/x86/cpuid.hpp *)
Module KernelMain.
Import Multiboot2.

(** One memory, the debug port, and the two variables of the heap. *)
Record state := State { console : Console.state; freelist : Z; bytes_allocated : Z }.

Definition on_console {A} (c : M Console.state A) : M state A :=
  zoom console (fun t s => State t (freelist s) (bytes_allocated s)) c.
Definition on_heap {A} (c : M Kmalloc.state A) : M state A :=
  zoom (fun s => Kmalloc.State (freelist s) (bytes_allocated s) (Console.con_mem (console s)))
    (fun h s => State (Console.State (Kmalloc.memory h) (Console.con_out (console s)))
      (Kmalloc.freelist h) (Kmalloc.bytes_allocated h)) c.

(** Where the image has the four string literals. *)
Record literals := Literals {
  lit_hello : Z; lit_checks : Z; lit_1g : Z; lit_no_1g : Z }.

(** How the function is left: by [return], or never, in [while (true) hlt()]. *)
Inductive outcome := Returned | HaltLoop.

Section main.
(** [cpuid_edx leaf subleaf] is what the processor leaves in edx. *)
Context (cpuid_edx : Z -> Z -> Z) (lits : literals).

Definition supports_1g_pages : bool :=
  negb (Z.land (cpuid_edx 0x80000001 0) (Z.shiftl 1 26) =? 0).

Definition kernel_main (fuel : nat) (multiboot2_info magic : Z) : M state outcome :=
  on_console (Console.bochs_debug_output fuel (lit_hello lits)) ;;
  if negb (magic =? MULTIBOOT2_BOOTLOADER_MAGIC) then mret Returned
  else
    let multiboot2_info := P2KV multiboot2_info in
    if negb (Z.land multiboot2_info 7 =? 0) then mret Returned
    else
      on_console (Console.bochs_debug_output fuel (lit_checks lits)) ;;
      (if supports_1g_pages
       then on_console (Console.bochs_debug_output fuel (lit_1g lits))
       else on_console (Console.bochs_debug_output fuel (lit_no_1g lits))) ;;
      on_heap Kmalloc.init_kheap ;;
      mret HaltLoop.

End main.
End KernelMain.

(** *** kernel_main.cpp, behind the loop

    The statements that the endless loop keeps from running: the walk over the
    tags of the boot information and the start of the ACPI tables.  Loads and
    stores are those of the source; [fuel] bounds the tags looked at. *)
Module BootInfo.
Import Multiboot2 Acpi Utils.

(** The global variables: pointers, null in .bss, and the kind of the tag. *)
Record globals := Globals {
  tagmem : Z; tagmmap : Z; tagfb : Z; tagold_acpi : Z; tagnew_acpi : Z; tag_acpi_type : Z }.
Record state := State { vars : globals; memory : mem }.

Definition on_mem {A} (c : M mem A) : M state A := zoom memory (fun m s => State (vars s) m) c.
Definition set_acpi_type (t : Z) : M state unit :=
  modify (fun s => State (Globals (tagmem (vars s)) (tagmmap (vars s)) (tagfb (vars s)) (tagold_acpi (vars s))
    (tagnew_acpi (vars s)) t) (memory s)).

(** [*p = *(T* )tag]: the bytes of the structure. *)
Definition assign (t : cstruct) (p tag : Z) : M state unit :=
  v ← on_mem (load (Z.to_nat (cs_sizeof t)) tag); on_mem (store (Z.to_nat (cs_sizeof t)) p v).

(** The [switch] on the type of a tag. *)
Definition handle_tag (type tag : Z) : M state unit :=
  if type =? MULTIBOOT_TAG_TYPE_BASIC_MEMINFO then
    p ← gets (fun s => tagmem (vars s)); assign multiboot_tag_basic_meminfo p tag
  else if type =? MULTIBOOT_TAG_TYPE_MMAP then
    p ← gets (fun s => tagmmap (vars s)); assign multiboot_tag_mmap p tag
  else if type =? MULTIBOOT_TAG_TYPE_FRAMEBUFFER then
    p ← gets (fun s => tagfb (vars s)); assign multiboot_tag_framebuffer p tag
  else if type =? MULTIBOOT_TAG_TYPE_ACPI_OLD then
    p ← gets (fun s => tagold_acpi (vars s)); assign multiboot_tag_old_acpi p tag ;;
    set_acpi_type MULTIBOOT_TAG_TYPE_ACPI_OLD
  else if type =? MULTIBOOT_TAG_TYPE_ACPI_NEW then
    p ← gets (fun s => tagnew_acpi (vars s)); assign multiboot_tag_new_acpi p tag ;;
    set_acpi_type MULTIBOOT_TAG_TYPE_ACPI_NEW
  else mret tt.

(** The loop: [tag] is advanced by elements of its type. *)
Fixpoint walk_tags (fuel : nat) (tag : Z) : M state unit :=
  match fuel with
  | O => fail OutOfFuel
  | S fuel =>
      type ← on_mem (load32 (u64 (tag + offsetof (cs_layout multiboot_tag) "type")));
      if type =? MULTIBOOT_TAG_TYPE_END then mret tt
      else
        handle_tag type tag ;;
        size ← on_mem (load32 (u64 (tag + offsetof (cs_layout multiboot_tag) "size")));
        walk_tags fuel (u64 (tag + cs_sizeof multiboot_tag * u32 (ROUNDUP2N size 8)))
  end.

(** [parse_RSDT2]: the address of the first table, which is not used. *)
Definition parse_RSDT2 (rsdpdesc : Z) : M state Z :=
  x ← on_mem (load64 (u64 (rsdpdesc + offsetof (cs_layout RSDP) "xsdt")));
  let xsdt := P2KV x in
  mret (u64 (xsdt + offsetof (cs_layout XSDT) "sdts")).

(** From [total_mbi_size] to the end of the function. *)
Definition read_boot_info (fuel : nat) (multiboot2_info : Z) : M state unit :=
  total_mbi_size ← on_mem (load32 (u64 (multiboot2_info + offsetof (cs_layout multiboot_tag) "size")));
  walk_tags fuel (u64 (multiboot2_info + cs_sizeof multiboot_tag * cs_sizeof multiboot_tag)) ;;
  t ← gets (fun s => tag_acpi_type (vars s));
  if t =? MULTIBOOT_TAG_TYPE_ACPI_OLD then mret tt
  else
    p ← gets (fun s => tagnew_acpi (vars s));
    parse_RSDT2 (u64 (p + offsetof (cs_layout multiboot_tag_new_acpi) "rsdp")) ;;
    mret tt.

End BootInfo.

Module BootFacts.
Import Acpi Madt.

(** *** The entries of an MADT: type and length, one after the other *)

Fixpoint items_at (m : mem) (a : Z) (items : list (Z * Z)) : Prop :=
  match items with
  | [] => True
  | (t, l) :: items => byte_at m a = t /\ byte_at m (a + 1) = l /\ 2 <= l /\ items_at m (a + l) items
  end.

Definition total (items : list (Z * Z)) : Z := foldr Z.add 0 (snd <$> items).

(** Address of the [n]-th entry of a type, or 0. *)
Fixpoint nth_item (type : Z) (n : nat) (items : list (Z * Z)) (a : Z) : Z :=
  match items with
  | [] => 0
  | (t, l) :: items =>
      if t =? type then
        match n with O => a | S n => nth_item type n items (a + l) end
      else nth_item type n items (a + l)
  end.

Lemma items_total m items : forall a, items_at m a items -> 2 * Z.of_nat (length items) <= total items.
Proof.
  induction items as [|[t l] items IH]; intros a; cbn [items_at]; [done|].
  intros (_ & _ & Hl & Hi). apply IH in Hi. unfold total in *. cbn [fmap list_fmap foldr length snd]. lia.
Qed.

(** A table in memory: its length member, and the entries that fill it. *)
Record madt_at (m : mem) (table : Z) (items : list (Z * Z)) : Prop := {
  ma_low : 0 < table;
  ma_high : table + 44 + total items < 2 ^ 64;
  ma_mapped : mapped_range m table (44 + total items);
  ma_length : peek 4 m (table + 4) = 44 + total items;
  ma_items : items_at m (table + 44) items }.

Lemma madt_offsets :
  sizeof_MADT = 44 /\ offsetof (cs_layout SDTHeader) "length" = 4 /\
  offsetof (cs_layout MADT_desc_header) "type" = 0 /\ offsetof (cs_layout MADT_desc_header) "length" = 1.
Proof. by vm_compute. Qed.

Lemma madt_load_length m table items : madt_at m table items ->
  load32 (u64 (table + offsetof (cs_layout SDTHeader) "length")) m = Ok (44 + total items, m).
Proof.
  destruct madt_offsets as (_ & -> & _ & _). intros [Hl Hh Hm Hlen Hi].
  pose proof (items_total _ _ _ Hi). rewrite wrap_small by (unfold in_range; lia).
  unfold load32. rewrite load_ok by (eapply mapped_range_mono; eauto; lia). by rewrite Hlen.
Qed.

(** The loop at the entry [d] bytes into the array. *)
Lemma get_MADT_item_loop_ok m table all type offset items : madt_at m table all ->
  forall fuel d counter n,
  items_at m (table + 44 + d) items -> d + total items = total all -> 0 <= d ->
  0 <= counter -> counter + Z.of_nat n = offset -> offset < 256 -> (length items < fuel)%nat ->
  get_MADT_item_loop (table + 44) fuel table type offset (table + 44 + d) d counter m =
  Ok (nth_item type n items (table + 44 + d), m).
Proof.
  intros Ht fuel. pose proof madt_offsets as (E44 & _ & E0 & E1).
  pose proof (madt_load_length _ _ _ Ht) as Hlen. destruct Ht as [Hl Hh Hm _ _].
  revert items. induction fuel as [|fuel IH]; intros items d counter n Hi Hd Hd0 Hc Hn Ho Hf; [lia|].
  cbn [get_MADT_item_loop]. mrun exact Hlen. rewrite E44, E0, E1.
  destruct items as [|[t l] items]; cbn [items_at] in Hi.
  - change (total []) with 0 in Hd. rewrite wrap_small by (unfold in_range; lia).
    destruct (Z.ltb_spec (d + 44) (44 + total all)); [lia|done].
  - destruct Hi as (Ht & Hlb & Hl2 & Hi). pose proof (items_total _ _ _ Hi) as Htot.
    assert (total ((t, l) :: items) = l + total items) as Etot by done.
    rewrite (wrap_small 64 (d + 44)) by (unfold in_range; lia).
    destruct (Z.ltb_spec (d + 44) (44 + total all)); [|lia].
    destruct (Z.leb_spec counter offset); [|lia]. cbn [andb].
    rewrite (wrap_small 64 (table + 44 + d + 0)), Z.add_0_r by (unfold in_range; lia).
    rewrite (wrap_small 64 (table + 44 + d + 1)) by (unfold in_range; lia).
    mrun (apply load8_ok, Hm; lia). rewrite Ht. cbn [nth_item].
    assert (forall c k, 0 <= c -> c + Z.of_nat k = offset ->
      (l0 ← load8 (table + 44 + d + 1);
       get_MADT_item_loop (table + 44) fuel table type offset (u64 (table + 44 + u64 (d + l0))) (u64 (d + l0)) c) m =
      Ok (nth_item type k items (table + 44 + d + l), m)) as Hrec.
    { intros c k Hc' Hk. mrun (apply load8_ok, Hm; lia). rewrite Hlb.
      rewrite (wrap_small 64 (d + l)) by (unfold in_range; lia).
      rewrite (wrap_small 64 (table + 44 + (d + l))) by (unfold in_range; lia).
      rewrite <- (Z.add_assoc (table + 44) d l). apply IH; try lia.
      - by rewrite Z.add_assoc.
      - simpl in Hf. lia. }
    destruct (Z.eqb_spec t type), (Z.eqb_spec counter offset); cbn [andb].
    + destruct n; [done|lia].
    + destruct n as [|n]; [lia|]. rewrite (wrap_small 8 (counter + 1)) by (unfold in_range; lia).
      apply Hrec; lia.
    + by apply Hrec.
    + by apply Hrec.
Qed.

End BootFacts.

(** ** Properties *)
Module BootProps.
Import Multiboot2 Acpi Madt KernelMain BootFacts KString.

(** The image starts with a Multiboot2 header a boot loader accepts: the
    magic number and the architecture are the required ones and the four
    members sum to 0 modulo 2^32. *)
Theorem multiboot_header_valid :
  cs_sizeof multiboot_header = 16 /\
  fget (cs_layout multiboot_header) "magic" hdr = 0xe85250d6 /\
  fget (cs_layout multiboot_header) "architecture" hdr = 0 /\
  u32 (foldr Z.add 0 (unpack (cs_layout multiboot_header) hdr)) = 0.
Proof. by vm_compute. Qed.

(** The tags after the header are not the ones meant: the header's length
    does not reach the tags that follow it, and the tag built for a frame
    buffer request carries the number of another request (the EFI entry
    address) and a size that counts its alignment. *)
Theorem multiboot_tags_misnumbered :
  fget (cs_layout multiboot_header) "header_length" hdr <
    cs_sizeof multiboot_header + cs_sizeof multiboot_header_tag_framebuffer +
    cs_sizeof multiboot_header_tag /\
  fget (cs_layout multiboot_header_tag_framebuffer) "type" fb_tag =
    MULTIBOOT_HEADER_TAG_ENTRY_ADDRESS_EFI32 /\
  MULTIBOOT_HEADER_TAG_ENTRY_ADDRESS_EFI32 <> MULTIBOOT_HEADER_TAG_FRAMEBUFFER /\
  fget (cs_layout multiboot_header_tag_framebuffer) "size" fb_tag = 24 /\
  (place true 0 (cs_members multiboot_header_tag_framebuffer)).2 = 8 * 20.
Proof. by vm_compute. Qed.

(** [get_MADT_item] returns the address of the requested entry: of the
    entries of the given type, the one with the given number, and a null
    pointer when there are not that many, for every table whose entries fill
    it.  [madt_base] is the address of the first entry. *)
Theorem get_MADT_item_finds strncmp MADT_ID m table items type offset fuel :
  strncmp table MADT_ID 4 m = Ok (0, m) -> madt_at m table items ->
  0 <= offset < 256 -> (length items < fuel)%nat ->
  get_MADT_item strncmp MADT_ID (table + 44) fuel table type offset m =
  Ok (nth_item type (Z.to_nat offset) items (table + 44), m).
Proof.
  intros Hs Ht Ho Hf. unfold get_MADT_item. mrun exact Hs. rewrite Z.eqb_refl. cbn [negb].
  destruct madt_offsets as (-> & _). pose proof (items_total _ _ _ (ma_items _ _ _ Ht)).
  rewrite wrap_small by (destruct Ht; unfold in_range; lia).
  pose proof (get_MADT_item_loop_ok m table items type offset items Ht fuel 0 0 (Z.to_nat offset)) as H'.
  rewrite !Z.add_0_r in H'. apply H'; try done; try lia. apply Ht.
Qed.

(** A table at 4096 with a local APIC, an I/O APIC and a second local APIC. *)
Definition example_madt : mem :=
  put_bytes (poke 4 (Mem [(4096, 256)] ∅) 4100 72) 4140
    [0; 8; 0; 0; 0; 0; 0; 0; 1; 12; 0; 0; 0; 0; 0; 0; 0; 0; 0; 0; 0; 8; 1; 1; 0; 0; 0; 0].

Lemma example_madt_at : madt_at example_madt 4096 [(0, 8); (1, 12); (0, 8)].
Proof.
  split.
  - lia.
  - vm_compute; done.
  - apply mapped_in_region with 4096 256; [by left|lia|vm_compute; done].
  - by vm_compute.
  - vm_compute. intuition discriminate.
Qed.

Lemma get_MADT_item_finds_witness :
  get_MADT_item (fun _ _ _ => mret 0) 0 4140 4 4096 0 1 example_madt = Ok (4160, example_madt).
Proof.
  apply (get_MADT_item_finds (fun _ _ _ => mret 0) 0 example_madt 4096 [(0, 8); (1, 12); (0, 8)] 0 1 4).
  - reflexivity.
  - exact example_madt_at.
  - lia.
  - simpl; lia.
Defined.

(** An entry of length 0 and of another type: the search never ends. *)
Theorem madt_zero_length_diverges strncmp MADT_ID m table type offset fuel :
  strncmp table MADT_ID 4 m = Ok (0, m) -> 0 < table -> table + 46 < 2 ^ 64 ->
  mapped_range m table 46 -> 44 < peek 4 m (table + 4) ->
  byte_at m (table + 44) <> type -> byte_at m (table + 45) = 0 -> 0 <= offset < 256 ->
  get_MADT_item strncmp MADT_ID (table + 44) fuel table type offset m = Fault OutOfFuel.
Proof.
  intros Hs Hl Hh Hm Hlen Ht Hz Ho. unfold get_MADT_item. mrun exact Hs. rewrite Z.eqb_refl. cbn [negb].
  destruct madt_offsets as (E44 & E4 & E0 & E1). rewrite E44.
  rewrite wrap_small by (unfold in_range; lia).
  induction fuel as [|fuel IH]; [done|]. cbn [get_MADT_item_loop]. rewrite E44, E4, E0, E1, Z.add_0_r.
  rewrite (wrap_small 64 (table + 4)) by (unfold in_range; lia).
  mrun (unfold load32; rewrite load_ok by (eapply mapped_range_mono; eauto; lia); done).
  change (u64 (0 + 44)) with 44. destruct (Z.ltb_spec 44 (peek 4 m (table + 4))); [|lia].
  destruct (Z.leb_spec 0 offset); [|lia]. cbn [andb].
  rewrite (wrap_small 64 (table + 44)) by (unfold in_range; lia). mrun (apply load8_ok, Hm; lia).
  destruct (Z.eqb_spec (byte_at m (table + 44)) type); [done|]. cbn [andb].
  rewrite (wrap_small 64 (table + 44 + 1)) by (unfold in_range; lia). mrun (apply load8_ok, Hm; lia).
  replace (table + 44 + 1) with (table + 45) by lia. rewrite Hz.
  change (u64 (0 + 0)) with 0. rewrite Z.add_0_r, (wrap_small 64 (table + 44)) by (unfold in_range; lia).
  exact IH.
Qed.

(** *** kernel_main *)

Definition newline : list Z := [10].
Definition hello : list Z := chars "Hello, Kernel!" ++ newline.
Definition checks : list Z := chars "Checks Passed." ++ newline.
Definition pages_1g : list Z := chars "1G pages supported." ++ newline.
Definition no_pages_1g : list Z := chars "1G pages not supported." ++ newline.

Record literals_at (m : mem) (l : literals) : Prop := {
  la_hello : readable m (lit_hello l) hello;
  la_checks : readable m (lit_checks l) checks;
  la_1g : readable m (lit_1g l) pages_1g;
  la_no_1g : readable m (lit_no_1g l) no_pages_1g }.

(** What reaches the debug port. *)
Definition printed (s : list Z) : list (Z * Z) := (fun c => (0xe9, c)) <$> s.

Lemma printed_app s t : printed (s ++ t) = printed s ++ printed t.
Proof. apply fmap_app. Qed.

Lemma print_literal m a s out f n fuel : readable m a s -> (length s < fuel)%nat ->
  on_console (Console.bochs_debug_output fuel a) (State (Console.State m out) f n) =
  Ok (tt, State (Console.State m (out ++ printed s)) f n).
Proof.
  intros Hr Hf. etrans; [apply zoom_Ok, StdioProps.bochs_debug_output_ok; eassumption|]. reflexivity.
Qed.

(** The entry point, on every branch: with the boot loader's magic number
    and an information structure aligned to 8 bytes, the kernel prints its
    three messages, the third by the processor's 1 GiB page support, sets up
    the heap and halts for good; otherwise it prints the first message and
    returns, with the heap as it was. *)
Theorem kernel_main_boots cpuid lits m base info magic fuel :
  literals_at m lits -> 0 <= base -> base + 6 <= 2 ^ 64 -> mapped_range m base 6 -> (32 < fuel)%nat ->
  kernel_main cpuid lits fuel info magic (State (Console.State m []) base 0) =
  if (magic =? MULTIBOOT2_BOOTLOADER_MAGIC) && (Z.land (MemLayout.P2KV info) 7 =? 0) then
    Ok (HaltLoop,
        State (Console.State (KmallocFacts.heap_init m base) (printed (hello ++ checks ++
                 if supports_1g_pages cpuid then pages_1g else no_pages_1g))) base 0)
  else Ok (Returned, State (Console.State m (printed hello)) base 0).
Proof.
  intros [H1 H2 H3 H4] Hl Hh Hm Hf. unfold kernel_main.
  mrun (apply print_literal; [exact H1|cbn; lia]).
  destruct (magic =? MULTIBOOT2_BOOTLOADER_MAGIC); cbn [negb andb]; [|done].
  destruct (Z.land (MemLayout.P2KV info) 7 =? 0); cbn [negb andb]; [|done].
  mrun (apply print_literal; [exact H2|cbn; lia]).
  rewrite !printed_app, !app_assoc.
  destruct (supports_1g_pages cpuid).
  all: mrun (apply print_literal; [eassumption|cbn; lia]).
  all: mrun (etrans; [apply zoom_Ok; by apply KmallocFacts.init_kheap_any|]; reflexivity).
  all: reflexivity.
Qed.

Definition example_literals : literals := Literals 4096 4160 4224 4288.
Definition example_image : mem :=
  put_bytes (put_bytes (put_bytes (put_bytes (Mem [(4096, 256); (0x10000, 65535)] ∅) 4096 hello) 4160 checks) 4224 pages_1g)
    4288 no_pages_1g.

Lemma example_literals_at : literals_at example_image example_literals.
Proof.
  assert (forall a s, cstr example_image a s -> 4096 <= a -> a + Z.of_nat (length s) < 4352 ->
    readable example_image a s) as H.
  { intros a s Hc Ha Hs. split; [done|apply mapped_in_region with 4096 256; [by left|lia..]|lia..]. }
  split; (apply H; [split; [repeat constructor; lia|vm_compute; repeat split]|vm_compute; congruence|done]).
Qed.

Lemma kernel_main_boots_witness :
  exists s, kernel_main (fun _ _ => 0) example_literals 40 0x10000 MULTIBOOT2_BOOTLOADER_MAGIC
    (State (Console.State example_image []) 0x10000 0) = Ok (HaltLoop, s).
Proof.
  eexists. rewrite (kernel_main_boots (fun _ _ => 0) example_literals example_image 0x10000 0x10000).
  - reflexivity.
  - exact example_literals_at.
  - lia.
  - lia.
  - apply mapped_in_region with 0x10000 65535; [right; by left|lia|lia].
  - lia.
Defined.

End BootProps.

(** ** The boot information *)
Module BootInfoProps.
Import Multiboot2 Acpi BootInfo.

(** The variables as .bss has them. *)
Definition null_vars : globals := Globals 0 0 0 0 0 0.

(** A load leaves the memory as it is. *)
Lemma load_same n : forall a m v m', load n a m = Ok (v, m') -> m' = m.
Proof.
  induction n as [|n IH]; intros a m v m' H; cbn [load] in H; [by injection H|].
  apply bind_inv in H as (lo & m1 & H1 & H). unfold load8 in H1.
  destruct (mapped m a); [|done]. injection H1 as <- <-.
  apply bind_inv in H as (hi & m2 & H2 & H). apply IH in H2 as ->. by injection H.
Qed.

(** A structure assigned through a null pointer. *)
Lemma assign_null t tag s r :
  0 < cs_sizeof t -> mapped (memory s) 0 = false -> assign t 0 tag s <> Ok r.
Proof.
  intros Ht Hm H. destruct r as [u s1]. unfold assign in H. apply bind_inv in H as (v & s2 & Hl & H).
  apply zoom_inv in Hl as (m & Hl & ->). apply load_same in Hl as ->. apply zoom_inv in H as (m' & H & _).
  destruct (Z.to_nat (cs_sizeof t)) eqn:Hn; [lia|]. cbn [store memory] in H.
  apply bind_inv in H as (x & m2 & Hs & _). unfold store8 in Hs. by rewrite Hm in Hs.
Qed.

Lemma handle_tag_null type tag s r s' :
  vars s = null_vars -> mapped (memory s) 0 = false -> handle_tag type tag s = Ok (r, s') -> s' = s.
Proof.
  intros Hv Hm H. unfold handle_tag in H. repeat case_match.
  1-5: exfalso; apply bind_inv in H as (p & s1 & [= <- <-] & H); rewrite Hv in H; cbn [null_vars tagmem tagmmap tagfb
    tagold_acpi tagnew_acpi] in H.
  1-3: by eapply assign_null in H.
  1-2: apply bind_inv in H as (x & s2 & H & _); by eapply assign_null in H.
  by injection H.
Qed.

Lemma walk_tags_null fuel : forall tag s r s',
  vars s = null_vars -> mapped (memory s) 0 = false -> walk_tags fuel tag s = Ok (r, s') -> s' = s.
Proof.
  induction fuel as [|fuel IH]; intros tag s r s' Hv Hm H; cbn [walk_tags] in H; [done|].
  apply bind_inv in H as (type & s1 & Hl & H). apply zoom_inv in Hl as (m & Hl & ->).
  apply load_same in Hl as ->. replace (State (vars s) (memory s)) with s in H by by destruct s.
  destruct (type =? MULTIBOOT_TAG_TYPE_END); [by injection H|].
  apply bind_inv in H as (x & s2 & Hh & H). apply handle_tag_null in Hh as ->; [|done..].
  apply bind_inv in H as (size & s3 & Hl & H). apply zoom_inv in Hl as (m & Hl & ->).
  apply load_same in Hl as ->. replace (State (vars s) (memory s)) with s in H by by destruct s.
  by eapply IH in H.
Qed.

(** Were the endless loop of [kernel_main] not in front of it, the rest of the
    function would not return on any boot information: the variables the tags
    are copied through, and the one the ACPI tables are read through, are null
    pointers, so that with the first page unmapped it faults at the first tag
    it handles, or at the end; or it looks at tags for ever. *)
Theorem read_boot_info_never_returns fuel info m :
  (forall x, 0 <= x < 40 -> mapped m x = false) ->
  forall r, read_boot_info fuel info (State null_vars m) <> Ok r.
Proof.
  intros Hm [u s'] H. unfold read_boot_info in H.
  apply bind_inv in H as (n & s1 & Hl & H). apply zoom_inv in Hl as (m1 & Hl & ->). apply load_same in Hl as ->.
  apply bind_inv in H as (x & s2 & Hw & H). apply walk_tags_null in Hw as ->; [|done|by apply Hm].
  apply bind_inv in H as (t & s3 & [= <- <-] & H). cbn [vars null_vars tag_acpi_type Z.eqb] in H.
  change (0 =? MULTIBOOT_TAG_TYPE_ACPI_OLD) with false in H. cbn iota in H.
  apply bind_inv in H as (p & s4 & [= <- <-] & H). cbn [vars null_vars tagnew_acpi memory] in H.
  apply bind_inv in H as (y & s5 & H & _). unfold parse_RSDT2 in H. apply bind_inv in H as (z & s6 & H & _).
  apply zoom_inv in H as (m2 & H & _). cbn [memory] in H.
  change (u64 (u64 (0 + offsetof (cs_layout multiboot_tag_new_acpi) "rsdp") + offsetof (cs_layout RSDP) "xsdt"))
    with 32 in H. unfold load64 in H. cbn [load] in H. apply bind_inv in H as (b & m3 & H & _).
  unfold load8 in H. by rewrite Hm in H by lia.
Qed.

Lemma read_boot_info_never_returns_witness :
  let s := State null_vars (Mem [(0x10000, 256)] ∅) in
  read_boot_info 4 0x10000 s = Fault (Unmapped 32) /\ forall r, read_boot_info 4 0x10000 s <> Ok r.
Proof.
  split; [vm_compute; reflexivity|]. apply read_boot_info_never_returns. intros x Hx.
  unfold mapped, in_region. cbn. destruct (Z.leb_spec 0x10000 x); [lia|done].
Defined.

End BootInfoProps.
