(* ===== verification/ColdBoot.v ===== *)
(** From the boot loader to the idle loop: the linker script, the entry code
    and [kernel_main] composed.

    The loader leaves an image of linker.ld in physical memory; the code of
    multiboot2_entry.S turns on paging and jumps to [kernel_main], which then
    reads its string literals through the boot page tables and sets up the
    heap, an array of the .bss section.  There is one memory: [kernel_main] runs
    on the upper window of the physical memory the entry code leaves, its heap
    included; that the processor sees it there is part of the theorem.

    The entry code does not set the stack pointer, so that [kernel_main] runs on
    whatever stack the loader left.  What its compiled code writes there is a
    parameter. *)
From S2P Require Import Prelude Layout Memory Libk Stdio Paging Kmalloc Interrupts Entry Linker Boot.
Import MemLayout Paging.

Module ColdBoot.
Import Entry.

(** The first 2 MB of physical memory, at their addresses above
    [KVA_KERNEL_BEGIN]. *)
Definition high_half (m : mem) : mem :=
  Mem [(KVA_KERNEL_BEGIN, PGSIZE_2M)] (kmap (Z.add KVA_KERNEL_BEGIN) (mem_bytes m)).

(** The entry code, then [kernel_main] with the two registers it is entered
    with; [pushes] is what its compiled code writes to the stack, [kmem] where
    the heap's array is linked, to which [freelist] is initialised. *)
Definition cold_boot (kpml4 gdt64_addr kernel_jumper main : Z) (pushes : mem -> mem) (cpuid_edx : Z -> Z -> Z)
    (lits : KernelMain.literals) (kmem : Z) (fuel : nat) (c : machine) :
    res (KernelMain.outcome * KernelMain.state) :=
  match boot kpml4 gdt64_addr kernel_jumper main c with
  | Fault e => Fault e
  | Ok (_, c') =>
      KernelMain.kernel_main cpuid_edx lits fuel (regs c' EDI) (regs c' ESI)
        (KernelMain.State (Console.State (high_half (pushes (ram c'))) []) kmem 0)
  end.

End ColdBoot.

Module ColdBootFacts.
Import KString Entry EntryFacts Linker LinkerFacts ColdBoot KernelMain BootProps.

(** The processor reads the memory [m] at its addresses. *)
Definition sees (c : machine) (m : mem) : Prop :=
  forall va, mapped m va = true -> exists pa,
    translate c va = Some pa /\ mapped (ram c) pa = true /\ byte_at m va = byte_at (ram c) pa.

Lemma byte_high_half m x : byte_at (high_half m) x = byte_at m (x - KVA_KERNEL_BEGIN).
Proof.
  unfold byte_at, high_half. cbn [mem_bytes].
  replace x with (KVA_KERNEL_BEGIN + (x - KVA_KERNEL_BEGIN)) at 1 by lia.
  rewrite lookup_kmap; [done|]. intros a b H. lia.
Qed.

Lemma mapped_high_half m x :
  mapped (high_half m) x = true <-> KVA_KERNEL_BEGIN <= x < KVA_KERNEL_BEGIN + PGSIZE_2M.
Proof.
  unfold mapped, high_half, in_region. cbn [mem_regions existsb fst snd].
  rewrite orb_false_r, andb_true_iff, Z.leb_le, Z.ltb_lt. done.
Qed.

(** The entry code writes to memory only the tables. *)
Lemma boot_ram kpml4 gdt64_addr kernel_jumper main c c' :
  boot_image kpml4 gdt64_addr (ram c) -> boot kpml4 gdt64_addr kernel_jumper main c = Ok (tt, c') ->
  ram c' = boot_tables kpml4 (ram c).
Proof.
  intros I Hb.
  edestruct (multiboot2_start_run kpml4 gdt64_addr (ram c) I kernel_jumper c) as (c1 & R1 & Hp & _); [done|].
  destruct (kernel_jumper_run kpml4 gdt64_addr (ram c) I main c1 Hp) as (c2 & R2 & Hm & _).
  unfold boot in Hb. rewrite (bind_Ok _ _ _ _ _ R1), R2 in Hb. injection Hb as <-.
  rewrite Hm. apply Hp.
Qed.

Lemma byte_boot_tables kpml4 m x :
  kpml4 + 4 * PGSIZE <= x -> byte_at (boot_tables kpml4 m) x = byte_at m x.
Proof.
  intros Hx. unfold boot_tables, BOOT_PDPT_hh, BOOT_PD_id, BOOT_PDPT_id, PGSIZE in *.
  by rewrite !byte_at_poke_other by lia.
Qed.

(** A literal linked in the .rodata section [o] and loaded there. *)
Record loaded (m : mem) (o : output) (a : Z) (s : list Z) : Prop := {
  ld_low : vma o <= a;
  ld_high : a + Z.of_nat (length s) < vma o + out_size o;
  ld_bytes : cstr m (a - KVA_KERNEL_BEGIN) s }.

Record literals_loaded (m : mem) (o : output) (l : literals) : Prop := {
  ll_hello : loaded m o (lit_hello l) hello;
  ll_checks : loaded m o (lit_checks l) checks;
  ll_1g : loaded m o (lit_1g l) pages_1g;
  ll_no_1g : loaded m o (lit_no_1g l) no_pages_1g }.

Lemma cstr_high_half m a s : cstr m (a - KVA_KERNEL_BEGIN) s -> cstr (high_half m) a s.
Proof.
  intros (Hs & Hb & Hz). split; [done|]. split.
  - clear Hs Hz. revert a Hb. induction s as [|x s IH]; intros a; cbn [bytes_at]; [done|].
    intros [Hx Hb]. split; [by rewrite byte_high_half|]. apply IH.
    by replace (a + 1 - KVA_KERNEL_BEGIN) with (a - KVA_KERNEL_BEGIN + 1) by lia.
  - rewrite byte_high_half. rewrite <- Hz. f_equal. lia.
Qed.

Lemma loaded_readable m m' o a s :
  loaded m o a s -> vma o = KVA_KERNEL_BEGIN + lma o -> 0 <= lma o -> lma o + out_size o <= PGSIZE_2M ->
  (forall x, lma o <= x < lma o + out_size o -> byte_at m' x = byte_at m x) ->
  readable (high_half m') a s.
Proof.
  intros [Hl Hh Hb] Hv Ho Hw He. rewrite Hv in *. split.
  - apply cstr_high_half. eapply cstr_ext; [|exact Hb]. intros x Hx. apply He. lia.
  - intros x Hx. apply mapped_high_half. lia.
  - unfold KVA_KERNEL_BEGIN in *. lia.
  - unfold KVA_KERNEL_BEGIN, PGSIZE_2M in *. lia.
Qed.

(** The machine with another memory. *)
Definition with_ram (c : machine) (m : mem) : machine :=
  Machine (regs c) (msrs c) (gdtr c) (cs_desc c) m.

(** Compiled code that uses one page of the stack below [sp]. *)
Record stack_use (pushes : mem -> mem) (sp : Z) : Prop := {
  su_mapped : forall m x, mapped (pushes m) x = mapped m x;
  su_bytes : forall m x, ~ sp - PGSIZE <= x < sp -> byte_at (pushes m) x = byte_at m x }.

(** What the processor sees depends on the tables only. *)
Lemma translate_with_ram kpml4 gdt64_addr m c m' va :
  boot_image kpml4 gdt64_addr m -> paged kpml4 m c ->
  (forall x, kpml4 <= x < kpml4 + 4 * PGSIZE -> byte_at m' x = byte_at (ram c) x) ->
  translate (with_ram c m') va = translate c va.
Proof.
  intros I (Hr & H3 & H0) Ha. unfold translate, with_ram. cbn [regs ram]. rewrite H0, H3, Hr.
  pose proof (gdt_physical _ _ _ I). destruct I as [I1 I2 I3 I4 I5 I6].
  apply boot_walk_agree; try done; [unfold PGSIZE, PGSIZE_2M, KVA_KERNEL_BEGIN in *; lia..|].
  intros x Hx. rewrite Ha by done. by rewrite Hr.
Qed.

End ColdBootFacts.

Module ColdBootProps.
Import Multiboot2 KString Entry EntryFacts Linker LinkerFacts ColdBoot KernelMain BootProps ColdBootFacts.

Lemma info_aligned info : (8 | info) -> Z.land (P2KV info) 7 = 0.
Proof.
  intros H. unfold P2KV. change 7 with (Z.ones 3). rewrite Z.land_ones by lia.
  unfold wrap. change (2 ^ 3) with 8. rewrite Z.mod_mod_divide by by exists (2 ^ 61).
  apply Z.mod_divide; [lia|]. apply Z.divide_add_r; [done|]. by exists 0x1FFFFFFFF0000000.
Qed.

(** The window of the boot tables shows the memory under it, also after writes
    that leave the tables alone. *)
Lemma window_seen kpml4 gdt64_addr kernel_jumper main c c' m' :
  boot_image kpml4 gdt64_addr (ram c) ->
  KVA_KERNEL_BEGIN <= kernel_jumper < KVA_KERNEL_BEGIN + PGSIZE_2M ->
  boot kpml4 gdt64_addr kernel_jumper main c = Ok (tt, c') ->
  (forall x, mapped m' x = mapped (ram c') x) ->
  (forall x, kpml4 <= x < kpml4 + 4 * PGSIZE -> byte_at m' x = byte_at (ram c') x) ->
  (forall va, KVA_KERNEL_BEGIN <= va < KVA_KERNEL_BEGIN + PGSIZE_2M ->
     translate (with_ram c' m') va = Some (va - KVA_KERNEL_BEGIN)) /\
  (forall va, 0 <= va < PGSIZE_2M -> translate (with_ram c' m') va = Some va) /\
  sees (with_ram c' m') (high_half m').
Proof.
  intros I Hj Hb Hm Ha. pose proof (boot_ram _ _ _ _ _ _ I Hb) as Hr.
  destruct (boot_run kpml4 gdt64_addr kernel_jumper main c I Hj)
    as (_ & c2 & _ & _ & Hrun & Hlm & H3 & _). rewrite Hb in Hrun. injection Hrun as <-.
  assert (paged kpml4 (ram c) c') as Hp by (split; [done|]; split; [done|]; apply Hlm).
  assert (forall va, KVA_KERNEL_BEGIN <= va < KVA_KERNEL_BEGIN + PGSIZE_2M ->
    translate (with_ram c' m') va = Some (va - KVA_KERNEL_BEGIN)) as Ht.
  { intros va Hva. rewrite (translate_with_ram _ _ _ _ _ _ I Hp Ha).
    by apply (translate_window kpml4 gdt64_addr (ram c) I). }
  split_and!; [done| |].
  - intros va Hva. rewrite (translate_with_ram _ _ _ _ _ _ I Hp Ha).
    by apply (translate_low kpml4 gdt64_addr (ram c) I).
  - intros va Hva. apply mapped_high_half in Hva. exists (va - KVA_KERNEL_BEGIN).
    split; [by apply Ht|]. cbn [ram with_ram]. split; [|apply byte_high_half]. rewrite Hm.
    apply (paged_mapped kpml4 gdt64_addr (ram c) I c' 0 PGSIZE_2M Hp); lia.
Qed.

Lemma boot_rsp kpml4 gdt64_addr kernel_jumper main c c' :
  boot_image kpml4 gdt64_addr (ram c) -> boot kpml4 gdt64_addr kernel_jumper main c = Ok (tt, c') ->
  regs c' RSP = regs c RSP.
Proof.
  intros I Hb. apply (EntryProps.boot_keeps_data_segments kpml4 gdt64_addr kernel_jumper main c c' I Hb).
  apply list_elem_of_In. cbn. tauto.
Qed.

(** The heap of an array of zeros: one free block of the size of the array. *)
Lemma heap_init_zero m base : peek 2 m base = 0 ->
  KmallocFacts.heap_init m base = poke 2 (poke 2 (poke 2 m base 65532) (base + 2) 0) (base + 4) 0.
Proof. intros H. unfold KmallocFacts.heap_init. by rewrite H. Qed.

(** C5. From the boot loader to the idle loop.  If the loader has put an image
    of the linker script that ends below 2 MB into memory, the tables of the
    entry code and the heap's array in .bss zeroed and the strings of
    [kernel_main] in .rodata, and enters it with the Multiboot2 magic number and
    an information structure aligned to 8 bytes, then the kernel reaches 64-bit
    mode with its upper window and its heap visible at the addresses they are
    linked at, prints its three messages through that window, makes the array
    one free block in that same memory and halts in the idle loop.  The stack
    is the loader's, since the entry code sets none: it is assumed that the
    stack pointer leaves a page in the first 2 MB outside the image, which stays
    visible, and that compiled code writes nothing but this page besides. *)
Theorem cold_boot_idles i gdt_offset kernel_jumper main pushes cpuid lits kmem fuel c :
  let m := linker_script i in
  let kpml4 := lma (out_page_tables m) in
  let gdt64_addr := vma (out_data m) + gdt_offset in
  let sp := regs c RSP in
  inputs_ok i -> page_tables i = Input (4 * PGSIZE) PGSIZE -> PA_KERNEL_END m <= PGSIZE_2M ->
  0 <= gdt_offset -> lma (out_data m) + gdt_offset + 76 <= PA_KERNEL_END m ->
  vma (out_text m) <= kernel_jumper < vma (out_text m) + in_size (text i) ->
  kernel_jumper < KVA_KERNEL_END m ->
  mapped_range (ram c) 0 PGSIZE_2M ->
  (forall x, kpml4 <= x < kpml4 + 4 * PGSIZE -> byte_at (ram c) x = 0) ->
  bytes_at (ram c) (lma (out_data m) + gdt_offset) (boot_data gdt64_addr) ->
  literals_loaded (ram c) (out_rodata m) lits ->
  vma (out_bss m) <= kmem -> kmem + Kmalloc.MAX_ALLOC <= vma (out_bss m) + out_size (out_bss m) ->
  (forall x, kmem <= x < kmem + Kmalloc.MAX_ALLOC -> byte_at (ram c) (x - KVA_KERNEL_BEGIN) = 0) ->
  PGSIZE <= sp <= PGSIZE_2M -> sp <= 0x100000 \/ PA_KERNEL_END m <= sp - PGSIZE -> stack_use pushes sp ->
  regs c EAX = MULTIBOOT2_BOOTLOADER_MAGIC -> (8 | regs c EBX) -> (32 < fuel)%nat ->
  exists c', boot kpml4 gdt64_addr kernel_jumper main c = Ok (tt, c') /\ long_mode c' /\ regs c' RSP = sp /\
    let c1 := with_ram c' (pushes (ram c')) in
    let kernel := high_half (ram c1) in
    sees c1 kernel /\
    (forall x, sp - PGSIZE <= x < sp -> translate c1 x = Some x) /\
    (forall x, kmem <= x < kmem + Kmalloc.MAX_ALLOC -> translate c1 x = Some (x - KVA_KERNEL_BEGIN)) /\
    cold_boot kpml4 gdt64_addr kernel_jumper main pushes cpuid lits kmem fuel c =
    Ok (HaltLoop,
        State (Console.State (poke 2 (poke 2 (poke 2 kernel kmem 65532) (kmem + 2) 0) (kmem + 4) 0)
                 (printed (hello ++ checks ++ if supports_1g_pages cpuid then pages_1g else no_pages_1g)))
              kmem 0).
Proof.
  intros m kpml4 gdt64_addr sp Hok Hpt Hend Hg0 Hg Hj Hj2 Hmap Hzero Hdata Hlit Hk1 Hk2 Hk3 Hsp Hsp2 [Hpm Hpb] Ha Hb Hf.
  pose proof (linker_run i Hok) as (Hc & He & Hsz & _ & _ & _ & _ & _ & Hke & _).
  fold m in Hc, He, Hsz, Hke. pose proof (sections_bounds i m Hok Hc He Hsz) as Hbd.
  destruct (linked_image i gdt_offset kernel_jumper (ram c)) as (I & Hjb & Hh); try done; [fold m; lia..|].
  fold m in Hh. fold m kpml4 gdt64_addr in I. fold kpml4 in Hh. clearbody m.
  pose proof (f_equal (fun l => nth 2 l 0) Hsz) as Ept. cbn in Ept. rewrite Hpt in Ept. cbn [in_size] in Ept.
  pose proof (Hbd (out_page_tables m) ltac:(apply list_elem_of_In; cbn; tauto)) as Hpk. fold kpml4 in Hpk.
  destruct (boot_run kpml4 gdt64_addr kernel_jumper main c I Hjb)
    as (_ & c' & _ & _ & Hrun & Hlm & _ & _ & Hdi & Hsi & _).
  assert (forall x, 0x100000 <= x < PA_KERNEL_END m -> byte_at (pushes (ram c')) x = byte_at (ram c') x) as Hpb'
    by (intros x Hx; apply Hpb; lia).
  destruct (window_seen _ _ _ _ _ _ (pushes (ram c')) I Hjb Hrun) as (Ht & Htl & Hsee); [done| |].
  { intros x Hx. apply Hpb'. rewrite Ept in Hpk. lia. }
  assert (out_rodata m ∈ high_sections m /\ out_bss m ∈ high_sections m) as [Hin1 Hin2]
    by (split; apply list_elem_of_In; cbn; tauto).
  pose proof (Hbd _ (high_in_sections m _ Hin1)). pose proof (Hbd _ (high_in_sections m _ Hin2)).
  destruct (Hh _ Hin1) as (V1 & L1 & _ & T1). destruct (Hh _ Hin2) as (V2 & L2 & _ & T2).
  assert (forall x, kpml4 + 4 * PGSIZE <= x < PA_KERNEL_END m ->
    byte_at (pushes (ram c')) x = byte_at (ram c) x) as Hkeep.
  { intros x Hx. rewrite Hpb' by (unfold PGSIZE in *; lia). rewrite (boot_ram _ _ _ _ _ _ I Hrun).
    apply byte_boot_tables. lia. }
  assert (literals_at (high_half (pushes (ram c'))) lits) as Hla.
  { destruct Hlit. split; eapply loaded_readable; try eassumption; try lia; intros x Hx; apply Hkeep; lia. }
  unfold Kmalloc.MAX_ALLOC in *.
  assert (forall x, kmem <= x < kmem + 65535 -> byte_at (high_half (pushes (ram c'))) x = 0) as Hz.
  { intros x Hx. rewrite byte_high_half, Hkeep by lia. by apply Hk3. }
  exists c'. split; [done|]. split; [done|]. split; [by eapply boot_rsp|]. cbv zeta. cbn [ram with_ram].
  split_and!; [done|intros x Hx; apply Htl; lia|intros x Hx; apply Ht; lia|].
  unfold cold_boot. rewrite Hrun, Hdi, Hsi, Ha.
  rewrite (kernel_main_boots cpuid lits _ kmem _ _ fuel Hla); [|..|done].
  - rewrite (info_aligned _ Hb), heap_init_zero; [done|]. apply peek_zero. intros x Hx. apply Hz. lia.
  - unfold KVA_KERNEL_BEGIN in *. lia.
  - unfold KVA_KERNEL_BEGIN, PGSIZE_2M in *. lia.
  - intros x Hx. apply mapped_high_half. lia.
Qed.

(** *** An image with its strings in .rodata and the heap in .bss *)
Definition image_inputs : inputs :=
  Inputs (Input 24 8) (Input 200 1) (Input 16384 4096) (Input 50000 16) (Input 3000 32)
    (Input 5000 32) (Input 0x30000 32).
Definition image_rodata : Z := lma (out_rodata (linker_script image_inputs)).
Definition image_data : Z := lma (out_data (linker_script image_inputs)).
Definition image_literals : literals :=
  Literals (KVA_KERNEL_BEGIN + image_rodata) (KVA_KERNEL_BEGIN + image_rodata + 64)
    (KVA_KERNEL_BEGIN + image_rodata + 128) (KVA_KERNEL_BEGIN + image_rodata + 192).
Definition image_ram : mem :=
  put_bytes (put_bytes (put_bytes (put_bytes (put_bytes (Mem [(0, PGSIZE_2M)] ∅)
    image_rodata hello) (image_rodata + 64) checks) (image_rodata + 128) pages_1g) (image_rodata + 192) no_pages_1g)
    image_data (boot_data (KVA_KERNEL_BEGIN + image_data)).
(** The loader leaves a stack below 64 KB. *)
Definition image_machine : machine :=
  Machine (fun r => if decide (r = EAX) then MULTIBOOT2_BOOTLOADER_MAGIC else 0x10000) ∅ (0, 0) 0 image_ram.
Definition image_pushes (m : mem) : mem := poke 8 m 0xFFF8 5.

Lemma image_inputs_ok : inputs_ok image_inputs.
Proof.
  split; [|by vm_compute].
  assert (Forall (fun s => 0 <= in_size s /\ 0 < in_align s /\ 4096 mod in_align s = 0) (all_inputs image_inputs))
    as Hall by (apply (bool_decide_unpack _); vm_compute; exact I).
  eapply Forall_impl; [exact Hall|]. intros s (H1 & H2 & H3). split; [done|]. split; [done|].
  apply Z.mod_divide in H3; [done|lia].
Qed.

Lemma image_literals_loaded :
  literals_loaded image_ram (out_rodata (linker_script image_inputs)) image_literals.
Proof.
  split; (split; [by vm_compute|by vm_compute|split; [repeat constructor; lia|vm_compute; repeat split]]).
Qed.

Lemma cold_boot_idles_witness :
  exists s, cold_boot 0x101000 0xFFFFFFFF80113000 0xFFFFFFFF80105000 0xFFFFFFFF80106000 image_pushes (fun _ _ => 0)
    image_literals 0xFFFFFFFF80120040 40 image_machine = Ok (HaltLoop, s).
Proof.
  edestruct (cold_boot_idles image_inputs 0 0xFFFFFFFF80105000 0xFFFFFFFF80106000 image_pushes (fun _ _ => 0)
    image_literals 0xFFFFFFFF80120040 40 image_machine) as (c' & _ & _ & _ & _ & _ & _ & H).
  - exact image_inputs_ok.
  - reflexivity.
  - by vm_compute.
  - lia.
  - by vm_compute.
  - by vm_compute.
  - by vm_compute.
  - do 5 apply mapped_range_put_bytes. apply mapped_range_check. by vm_compute.
  - change (lma (out_page_tables (linker_script image_inputs))) with 0x101000. intros x Hx.
    cbn [ram image_machine]. unfold image_ram. unfold PGSIZE in Hx.
    change image_rodata with 0x112000. change image_data with 0x113000.
    rewrite !byte_at_put_bytes_other; [done|..]; left; lia.
  - cbn [ram image_machine].
    change (lma (out_data (linker_script image_inputs)) + 0) with image_data.
    change (vma (out_data (linker_script image_inputs)) + 0) with (KVA_KERNEL_BEGIN + image_data).
    unfold image_ram. apply bytes_at_put_bytes. eapply (bool_decide_unpack _). by vm_compute.
  - exact image_literals_loaded.
  - by vm_compute.
  - by vm_compute.
  - intros x Hx. unfold Kmalloc.MAX_ALLOC, KVA_KERNEL_BEGIN in *. cbn [ram image_machine]. unfold image_ram.
    change image_rodata with 0x112000. change image_data with 0x113000.
    rewrite !byte_at_put_bytes_other; [done|..]; right;
      match goal with |- context [length ?l] => let n := eval vm_compute in (length l) in change (length l) with n end; lia.
  - by vm_compute.
  - left. by vm_compute.
  - change (regs image_machine RSP) with 0x10000. unfold image_pushes. split; intros m x.
    + apply mapped_poke.
    + unfold PGSIZE. intros Hx. apply byte_at_poke_other. lia.
  - reflexivity.
  - by exists 0x2000.
  - lia.
  - eexists. exact H.
Defined.

End ColdBootProps.
