(* ===== verification/PciIds.v ===== *)
(** devices/pci/IDs.hpp and Definitions.hpp: the identifiers found in PCI
    configuration space, as the source enumerates them, each with the value
    the enumeration gives it.  A member is named after its namespace, or its
    enumeration where that is in none. *)
From S2P Require Import Prelude.

Module PciIds.

(** *** IDs.hpp *)

Inductive VendorID :=
| VendorID_VirtIO
| VendorID_Intel
| VendorID_WCH
| VendorID_RedHat
| VendorID_Realtek
| VendorID_QEMUOld
| VendorID_VirtualBox
| VendorID_VMWare
| VendorID_Tdfx
| VendorID_DeviceNotPresent.
Definition VendorID_code (x : VendorID) : Z :=
  match x with
  | VendorID_VirtIO => 0x1af4
  | VendorID_Intel => 0x8086
  | VendorID_WCH => 0x1c00
  | VendorID_RedHat => 0x1b36
  | VendorID_Realtek => 0x10ec
  | VendorID_QEMUOld => 0x1234
  | VendorID_VirtualBox => 0x80ee
  | VendorID_VMWare => 0x15ad
  | VendorID_Tdfx => 0x121a
  | VendorID_DeviceNotPresent => 0xFFFF
  end.

Inductive DeviceID :=
| DeviceID_VirtIONetAdapter
| DeviceID_VirtIOBlockDevice
| DeviceID_VirtIOConsole
| DeviceID_VirtIOEntropy
| DeviceID_VirtIOGPU
| DeviceID_VirtIOInput.
Definition DeviceID_code (x : DeviceID) : Z :=
  match x with
  | DeviceID_VirtIONetAdapter => 0x1000
  | DeviceID_VirtIOBlockDevice => 0x1001
  | DeviceID_VirtIOConsole => 0x1003
  | DeviceID_VirtIOEntropy => 0x1005
  | DeviceID_VirtIOGPU => 0x1050
  | DeviceID_VirtIOInput => 0x1052
  end.

(** *** Definitions.hpp *)

Inductive BARSpaceType :=
| BARSpaceType_IOSpace
| BARSpaceType_Memory16BitSpace
| BARSpaceType_Memory32BitSpace
| BARSpaceType_Memory64BitSpace.
Definition BARSpaceType_code (x : BARSpaceType) : Z :=
  match x with
  | BARSpaceType_IOSpace => 0
  | BARSpaceType_Memory16BitSpace => 1
  | BARSpaceType_Memory32BitSpace => 2
  | BARSpaceType_Memory64BitSpace => 3
  end.

Inductive DeviceClass :=
| DeviceClass_Legacy
| DeviceClass_MassStorageController
| DeviceClass_NetworkController
| DeviceClass_DisplayController
| DeviceClass_MultimediaController
| DeviceClass_MemoryController
| DeviceClass_BridgeDevice
| DeviceClass_SimpleCommunicationController
| DeviceClass_BaseSystemPeripheral
| DeviceClass_InputDevice
| DeviceClass_DockingStation
| DeviceClass_Processor
| DeviceClass_SerialBusController
| DeviceClass_WirelessController
| DeviceClass_IntelligentIOController
| DeviceClass_SatelliteCommunicationController
| DeviceClass_EncryptionController
| DeviceClass_DataAcquisitionAndSignalProcessingController
| DeviceClass_ProcessingAccelerator
| DeviceClass_NonEssentialInstrumentation
| DeviceClass_Other.
Definition DeviceClass_code (x : DeviceClass) : Z :=
  match x with
  | DeviceClass_Legacy => 0x00
  | DeviceClass_MassStorageController => 0x01
  | DeviceClass_NetworkController => 0x02
  | DeviceClass_DisplayController => 0x03
  | DeviceClass_MultimediaController => 0x04
  | DeviceClass_MemoryController => 0x05
  | DeviceClass_BridgeDevice => 0x06
  | DeviceClass_SimpleCommunicationController => 0x07
  | DeviceClass_BaseSystemPeripheral => 0x08
  | DeviceClass_InputDevice => 0x09
  | DeviceClass_DockingStation => 0x0A
  | DeviceClass_Processor => 0x0B
  | DeviceClass_SerialBusController => 0x0C
  | DeviceClass_WirelessController => 0x0D
  | DeviceClass_IntelligentIOController => 0x0E
  | DeviceClass_SatelliteCommunicationController => 0x0F
  | DeviceClass_EncryptionController => 0x10
  | DeviceClass_DataAcquisitionAndSignalProcessingController => 0x11
  | DeviceClass_ProcessingAccelerator => 0x12
  | DeviceClass_NonEssentialInstrumentation => 0x13
  | DeviceClass_Other => 0xFF
  end.

Inductive Legacy_SubclassID :=
| Legacy_Any
| Legacy_VGACompatible.
Definition Legacy_SubclassID_code (x : Legacy_SubclassID) : Z :=
  match x with
  | Legacy_Any => 0x00
  | Legacy_VGACompatible => 0x01
  end.

Inductive MassStorage_SubclassID :=
| MassStorage_SCSIBus
| MassStorage_IDE
| MassStorage_FloppyDisk
| MassStorage_IPIBus
| MassStorage_RAID
| MassStorage_ATA
| MassStorage_SATA
| MassStorage_SAS
| MassStorage_NVMe.
Definition MassStorage_SubclassID_code (x : MassStorage_SubclassID) : Z :=
  match x with
  | MassStorage_SCSIBus => 0x00
  | MassStorage_IDE => 0x01
  | MassStorage_FloppyDisk => 0x02
  | MassStorage_IPIBus => 0x03
  | MassStorage_RAID => 0x04
  | MassStorage_ATA => 0x05
  | MassStorage_SATA => 0x06
  | MassStorage_SAS => 0x06
  | MassStorage_NVMe => 0x08
  end.

Inductive MassStorage_SATAProgIF :=
| MassStorage_VendorSpecific
| MassStorage_AHCI
| MassStorage_SerialStorageBus.
Definition MassStorage_SATAProgIF_code (x : MassStorage_SATAProgIF) : Z :=
  match x with
  | MassStorage_VendorSpecific => 0x00
  | MassStorage_AHCI => 0x01
  | MassStorage_SerialStorageBus => 0x02
  end.

Inductive Network_SubclassID :=
| Network_Ethernet
| Network_TokenRing
| Network_FDD
| Network_ATM
| Network_ISDN
| Network_WorldFlip
| Network_PICMG_2_14_MultiComputing
| Network_InfiniBand
| Network_HostFabric.
Definition Network_SubclassID_code (x : Network_SubclassID) : Z :=
  match x with
  | Network_Ethernet => 0x00
  | Network_TokenRing => 0x01
  | Network_FDD => 0x02
  | Network_ATM => 0x03
  | Network_ISDN => 0x04
  | Network_WorldFlip => 0x05
  | Network_PICMG_2_14_MultiComputing => 0x06
  | Network_InfiniBand => 0x07
  | Network_HostFabric => 0x08
  end.

Inductive Display_SubclassID :=
| Display_VGA
| Display_XGA
| Display_ThreeD.
Definition Display_SubclassID_code (x : Display_SubclassID) : Z :=
  match x with
  | Display_VGA => 0x00
  | Display_XGA => 0x01
  | Display_ThreeD => 0x02
  end.

Inductive Display_VGAProgIF :=
| Display_VGACompatibleController
| Display__8514Compatible.
Definition Display_VGAProgIF_code (x : Display_VGAProgIF) : Z :=
  match x with
  | Display_VGACompatibleController => 0x00
  | Display__8514Compatible => 0x01
  end.

Inductive Multimedia_SubclassID :=
| Multimedia_VideoDevice
| Multimedia_AudioDevice
| Multimedia_ComputerTelephonyDevice
| Multimedia_HDACompatibleAudioDevice.
Definition Multimedia_SubclassID_code (x : Multimedia_SubclassID) : Z :=
  match x with
  | Multimedia_VideoDevice => 0x00
  | Multimedia_AudioDevice => 0x01
  | Multimedia_ComputerTelephonyDevice => 0x01
  | Multimedia_HDACompatibleAudioDevice => 0x3
  end.

Inductive Multimedia_HDACompatibleAudioDeviceProgIF :=
| Multimedia_Compatible
| Multimedia_CompatibleWithVendorExtensions.
Definition Multimedia_HDACompatibleAudioDeviceProgIF_code (x : Multimedia_HDACompatibleAudioDeviceProgIF) : Z :=
  match x with
  | Multimedia_Compatible => 0x00
  | Multimedia_CompatibleWithVendorExtensions => 0x80
  end.

Inductive Memory_MemorySubclassID :=
| Memory_RAM
| Memory_Flash.
Definition Memory_MemorySubclassID_code (x : Memory_MemorySubclassID) : Z :=
  match x with
  | Memory_RAM => 0x00
  | Memory_Flash => 0x01
  end.

Inductive Bridge_SubclassID :=
| Bridge_Host
| Bridge_ISA
| Bridge_PCI_TO_PCI
| Bridge_CardBus
| Bridge_PCI_TO_PCI_SemiTransparent.
Definition Bridge_SubclassID_code (x : Bridge_SubclassID) : Z :=
  match x with
  | Bridge_Host => 0x00
  | Bridge_ISA => 0x01
  | Bridge_PCI_TO_PCI => 0x4
  | Bridge_CardBus => 0x07
  | Bridge_PCI_TO_PCI_SemiTransparent => 0x09
  end.

Inductive Bridge_PCI_TO_PCIBridgeProgIF :=
| Bridge_Standard
| Bridge_SupportsSubtractiveDecode.
Definition Bridge_PCI_TO_PCIBridgeProgIF_code (x : Bridge_PCI_TO_PCIBridgeProgIF) : Z :=
  match x with
  | Bridge_Standard => 0x00
  | Bridge_SupportsSubtractiveDecode => 0x01
  end.

Inductive SimpleCommunication_SubclassID :=
| SimpleCommunication_SerialController.
Definition SimpleCommunication_SubclassID_code (x : SimpleCommunication_SubclassID) : Z :=
  match x with
  | SimpleCommunication_SerialController => 0x00
  end.

Inductive SimpleCommunication_SerialControllerProgIF :=
| SimpleCommunication__8250CompatibleGenericXT
| SimpleCommunication__16450Compatible
| SimpleCommunication__16550Compatible
| SimpleCommunication__16650Compatible
| SimpleCommunication__16750Compatible
| SimpleCommunication__16850Compatible
| SimpleCommunication__16950Compatible.
Definition SimpleCommunication_SerialControllerProgIF_code (x : SimpleCommunication_SerialControllerProgIF) : Z :=
  match x with
  | SimpleCommunication__8250CompatibleGenericXT => 0x00
  | SimpleCommunication__16450Compatible => 0x00
  | SimpleCommunication__16550Compatible => 0x01
  | SimpleCommunication__16650Compatible => 0x02
  | SimpleCommunication__16750Compatible => 0x03
  | SimpleCommunication__16850Compatible => 0x04
  | SimpleCommunication__16950Compatible => 0x05
  end.

Inductive BaseSystemPeripheral_SubclassID :=
| BaseSystemPeripheral_PIC
| BaseSystemPeripheral_DMAController
| BaseSystemPeripheral_Timer
| BaseSystemPeripheral_RTCController
| BaseSystemPeripheral_PCIHotplugController
| BaseSystemPeripheral_SDHostController
| BaseSystemPeripheral_IOMMU.
Definition BaseSystemPeripheral_SubclassID_code (x : BaseSystemPeripheral_SubclassID) : Z :=
  match x with
  | BaseSystemPeripheral_PIC => 0x00
  | BaseSystemPeripheral_DMAController => 0x01
  | BaseSystemPeripheral_Timer => 0x02
  | BaseSystemPeripheral_RTCController => 0x03
  | BaseSystemPeripheral_PCIHotplugController => 0x04
  | BaseSystemPeripheral_SDHostController => 0x5
  | BaseSystemPeripheral_IOMMU => 0x06
  end.

Inductive BaseSystemPeripheral_PICProgIF :=
| BaseSystemPeripheral_Generic8259Compatible
| BaseSystemPeripheral_ISACompatible
| BaseSystemPeripheral_EISACompatible
| BaseSystemPeripheral_IOAPICInterruptController
| BaseSystemPeripheral_IOxAPICInterruptController.
Definition BaseSystemPeripheral_PICProgIF_code (x : BaseSystemPeripheral_PICProgIF) : Z :=
  match x with
  | BaseSystemPeripheral_Generic8259Compatible => 0x00
  | BaseSystemPeripheral_ISACompatible => 0x01
  | BaseSystemPeripheral_EISACompatible => 0x02
  | BaseSystemPeripheral_IOAPICInterruptController => 0x10
  | BaseSystemPeripheral_IOxAPICInterruptController => 0x20
  end.

Inductive BaseSystemPeripheral_DMAControllerProgIF :=
| BaseSystemPeripheral_Generic8237Compatible
| BaseSystemPeripheral_ISADMAController
| BaseSystemPeripheral_EISADMAController.
Definition BaseSystemPeripheral_DMAControllerProgIF_code (x : BaseSystemPeripheral_DMAControllerProgIF) : Z :=
  match x with
  | BaseSystemPeripheral_Generic8237Compatible => 0x00
  | BaseSystemPeripheral_ISADMAController => 0x01
  | BaseSystemPeripheral_EISADMAController => 0x02
  end.

Inductive BaseSystemPeripheral_TimerProgIF :=
| BaseSystemPeripheral_Generic8254Timer
| BaseSystemPeripheral_ISATimer
| BaseSystemPeripheral_EISATimers
| BaseSystemPeripheral_HPET.
Definition BaseSystemPeripheral_TimerProgIF_code (x : BaseSystemPeripheral_TimerProgIF) : Z :=
  match x with
  | BaseSystemPeripheral_Generic8254Timer => 0x00
  | BaseSystemPeripheral_ISATimer => 0x01
  | BaseSystemPeripheral_EISATimers => 0x02
  | BaseSystemPeripheral_HPET => 0x03
  end.

Inductive InputDevice_SubclassID :=
| InputDevice_KeyboardController
| InputDevice_DigitizerPen
| InputDevice_MouseController
| InputDevice_ScannerController
| InputDevice_GameportController.
Definition InputDevice_SubclassID_code (x : InputDevice_SubclassID) : Z :=
  match x with
  | InputDevice_KeyboardController => 0x00
  | InputDevice_DigitizerPen => 0x01
  | InputDevice_MouseController => 0x02
  | InputDevice_ScannerController => 0x03
  | InputDevice_GameportController => 0x04
  end.

Inductive SerialBus_SubclassID :=
| SerialBus_FireWire
| SerialBus_USB
| SerialBus_SMBus.
Definition SerialBus_SubclassID_code (x : SerialBus_SubclassID) : Z :=
  match x with
  | SerialBus_FireWire => 0x00
  | SerialBus_USB => 0x03
  | SerialBus_SMBus => 0x05
  end.

Inductive SerialBus_USBProgIF :=
| SerialBus_UHCI
| SerialBus_OHCI
| SerialBus_EHCI
| SerialBus_XHCI
| SerialBus_Unspecified
| SerialBus_USBDevice.
Definition SerialBus_USBProgIF_code (x : SerialBus_USBProgIF) : Z :=
  match x with
  | SerialBus_UHCI => 0x00
  | SerialBus_OHCI => 0x01
  | SerialBus_EHCI => 0x02
  | SerialBus_XHCI => 0x03
  | SerialBus_Unspecified => 0x80
  | SerialBus_USBDevice => 0xFE
  end.

Inductive Wireless_SubclassID :=
| Wireless_BluetoothController
| Wireless_Ethernet802_1aController
| Wireless_Ethernet802_1bController.
Definition Wireless_SubclassID_code (x : Wireless_SubclassID) : Z :=
  match x with
  | Wireless_BluetoothController => 0x11
  | Wireless_Ethernet802_1aController => 0x20
  | Wireless_Ethernet802_1bController => 0x21
  end.

End PciIds.

Module PciIdsFacts.
Import PciIds.

(** A class register value names one class. *)
Lemma DeviceClass_code_inj x y : DeviceClass_code x = DeviceClass_code y -> x = y.
Proof. destruct x, y; (reflexivity || discriminate). Qed.

Lemma VendorID_code_inj x y : VendorID_code x = VendorID_code y -> x = y.
Proof. destruct x, y; (reflexivity || discriminate). Qed.

Lemma Bridge_SubclassID_code_inj x y : Bridge_SubclassID_code x = Bridge_SubclassID_code y -> x = y.
Proof. destruct x, y; (reflexivity || discriminate). Qed.

(** Three enumerations give one number to two members. *)
Theorem duplicate_codes :
  MassStorage_SubclassID_code MassStorage_SATA = MassStorage_SubclassID_code MassStorage_SAS /\
  Multimedia_SubclassID_code Multimedia_AudioDevice =
    Multimedia_SubclassID_code Multimedia_ComputerTelephonyDevice /\
  SimpleCommunication_SerialControllerProgIF_code SimpleCommunication__8250CompatibleGenericXT =
    SimpleCommunication_SerialControllerProgIF_code SimpleCommunication__16450Compatible.
Proof. done. Qed.

End PciIdsFacts.
