(* ===== verification/Pci.v ===== *)
(** devices/pci: Device.hpp, Device.cpp, API.cpp and HostController.cpp.

    Configuration space is reached through two I/O ports: an address latched
    by one, a 32-bit word read or written through the other.  What the words
    are is the machine's; it is given by an instance of the class ConfigSpace.
    Module Pci has the register layouts, the register proxies and the
    enumeration of the devices; PciFacts the exploration argument; PciProps
    the properties. *)
From S2P Require Import Prelude Layout PciIds.
Import PciIds.

(** The words of configuration space, by the value of the address port. *)
Class ConfigSpace (H : Type) := {
  cfg_read : H -> Z -> Z;
  cfg_write : H -> Z -> Z -> H }.

(** ** Definitions *)
Module Pci.

Definition address_port : Z := 0xCF8.
Definition data_port : Z := 0xCFC.

Definition config_space_address : list placed := layout true
  [Plain "offset" cu8; Bits "function" cu8 3; Bits "device" cu8 5; Bits "bus" cu8 8;
   Bits "reserved" cu8 7; Bits "enable" cu8 1].

Definition command : list placed := layout true
  [Bits "io_space" cu8 1; Bits "memory_space" cu8 1; Bits "bus_master" cu8 1;
   Bits "special_cycles" cu8 1; Bits "memory_write_and_invalidate" cu8 1;
   Bits "vga_palette_snoop" cu8 1; Bits "parity_error_response" cu8 1; Bits "rsrv0" cu8 1;
   Bits "serr" cu8 1; Bits "fast_back_to_back" cu8 1; Bits "interrupt_disable" cu8 1;
   Bits "rsrv1" cu8 5].

Definition status : list placed := layout true
  [Bits "rsrv0" cu8 3; Bits "interrupt_status" cu8 1; Bits "has_capabilities_list" cu8 1;
   Bits "_66mhz_capable" cu8 1; Bits "rsrv1" cu8 1; Bits "fast_back_to_back_capable" cu8 1;
   Bits "master_data_parity_error" cu8 1; Bits "devsel_timing" cu8 2;
   Bits "signaled_target_abort" cu8 1; Bits "received_target_abort" cu8 1;
   Bits "received_master_abort" cu8 1; Bits "signaled_system_error" cu8 1;
   Bits "detected_parity_error" cu8 1].

Inductive header_type := GENERAL_DEVICE | PCI_TO_PCI_BRIDGE | PCI_TO_CARDBUS_BRIDGE.
Definition header_type_code (t : header_type) : Z :=
  match t with GENERAL_DEVICE => 0x00 | PCI_TO_PCI_BRIDGE => 0x01 | PCI_TO_CARDBUS_BRIDGE => 0x02 end.

Definition device_header_type : list placed := layout true
  [Bits "type" cu8 7; Bits "is_multi_function" cu8 1].

Definition BAR0_offset : Z := 0x10.

Definition memory_space_bar : list placed := layout true
  [Bits "always1" cu8 1; Bits "type" cu8 2; Bits "prefetchable" cu8 1; Bits "base_addr_mem" cu32 28].
Definition memory_space_bar_base_addr (raw : Z) : Z := u32 (Z.land raw (Z.lnot 0xF)).

Definition io_space_bar : list placed := layout true
  [Bits "always0" cu8 1; Bits "rsrv0" cu8 1; Bits "base_addr" cu32 30].

Definition BAR_base_addr (raw : Z) : Z :=
  u32 (if negb (Z.land raw 1 =? 0) then Z.land raw (Z.lnot 15) else Z.land raw (Z.lnot 3)).

Definition device_capability_MSIX : Z := 0x11.

Definition msix_message_control : list placed := layout true
  [Bits "table_size" cu16 11; Bits "rsrv0" cu8 3; Bits "function_mask" cu8 1; Bits "enable" cu8 1].

Definition msix_vector_control : list member := [Bits "mask" cu8 1; Bits "rsrv0" cu32 31].
Definition msix_table_entry : list placed := layout true
  [Plain "message_addr" cu32; Plain "message_upper_addr" cu32; Plain "message_data" cu32;
   Plain "vector_control" (struct_type false msix_vector_control)].

Definition x86_64_msi_message_address_reg : list placed := layout true
  [Bits "rsrv0z" cu8 2; Bits "destination_mode" cu8 1; Bits "redirection_hint" cu8 1;
   Plain "rsrv1" cu8; Plain "destination_id" cu8; Bits "_0x0fee" cu16 12].

Inductive msi_delivery_mode := FIXED | LOWEST_PRIORITY | SMI | NMI | INIT | EXTINT.
Definition msi_delivery_mode_code (m : msi_delivery_mode) : Z :=
  match m with FIXED => 0 | LOWEST_PRIORITY => 1 | SMI => 2 | NMI => 4 | INIT => 5 | EXTINT => 7 end.
Inductive msi_level_trigger_mode_level := DEASSERT | ASSERT.
Inductive msi_trigger_mode := EDGE | LEVEL.

Definition x86_64_msi_message_data_reg : list placed := layout true
  [Plain "vector" cu8; Bits "delivery_mode" cenum 3; Bits "rsrv0" cu8 3; Bits "level" cenum 1;
   Bits "trigger_mode" cenum 1; Plain "rsrv1" cu16].

(** The constructor from bus, device and function, and the operators. *)
Definition addr_make (bus device function : Z) : Z := finit config_space_address
  [("offset", 0); ("function", function); ("device", device); ("bus", bus); ("reserved", 0); ("enable", 1)].
Definition addr_base (a : Z) : Z :=
  addr_make (fget config_space_address "bus" a) (fget config_space_address "device" a)
    (fget config_space_address "function" a).
Definition addr_set_offset (offset a : Z) : Z :=
  fset config_space_address "offset" (Z.land offset (Z.lnot 3)) a.
Definition addr_plus (a offset : Z) : Z :=
  fset config_space_address "offset"
    (fget config_space_address "offset" a + Z.land offset (Z.lnot 3)) a.

(** [operator+=]: the object after the call, and the value of the expression;
    the object itself is not assigned to. *)
Definition addr_plus_assign (a offset : Z) : Z * Z :=
  let offset := Z.land offset 0xFC in (a, addr_plus a offset).

(** A register: the device's address, the offset, and [sizeof (T)]. *)
Record RegisterProxy := Proxy { base : Z; offset : Z; sizeof_T : Z }.

(** *** The accessors of the classes of devices *)
Definition vendor_id (b : Z) := Proxy b 0x00 2.
Definition device_id (b : Z) := Proxy b 0x02 2.
Definition command_reg (b : Z) := Proxy b 0x04 2.
Definition status_reg (b : Z) := Proxy b 0x06 2.
Definition revision_id (b : Z) := Proxy b 0x08 1.
Definition prog_if (b : Z) := Proxy b 0x09 1.
Definition subclass_id (b : Z) := Proxy b 0x0A 1.
Definition class_id (b : Z) := Proxy b 0x0B 1.
Definition cache_line_size (b : Z) := Proxy b 0x0C 1.
Definition latency_timer (b : Z) := Proxy b 0x0D 1.
Definition header_type_reg (b : Z) := Proxy b 0x0E 1.
Definition BIST (b : Z) := Proxy b 0x0F 1.
Definition interrupt_line (b : Z) := Proxy b 0x3C 1.
Definition interrupt_pin (b : Z) := Proxy b 0x3D 1.

Definition cardbus_CIS_ptr (b : Z) := Proxy b 0x28 4.
Definition subsystem_vendor_id (b : Z) := Proxy b 0x2C 2.
Definition subsystem_id (b : Z) := Proxy b 0x2E 2.
Definition expansion_ROM_base_addr (b : Z) := Proxy b 0x30 4.
Definition min_grant (b : Z) := Proxy b 0x3E 1.
Definition max_latency (b : Z) := Proxy b 0x3F 1.

Definition primary_bus (b : Z) := Proxy b 0x18 1.
Definition secondary_bus (b : Z) := Proxy b 0x19 1.
Definition subordinate_bus (b : Z) := Proxy b 0x1A 1.
Definition secondary_latency_timer (b : Z) := Proxy b 0x1B 1.
Definition io_base_lower (b : Z) := Proxy b 0x1C 1.
Definition io_limit_lower (b : Z) := Proxy b 0x1D 1.
Definition secondary_status (b : Z) := Proxy b 0x1E 2.
Definition memory_base (b : Z) := Proxy b 0x20 2.
Definition memory_limit (b : Z) := Proxy b 0x22 2.
Definition prefetchable_memory_base (b : Z) := Proxy b 0x24 2.
Definition prefetchable_memory_limit (b : Z) := Proxy b 0x26 2.
Definition prefetchable_base_upper (b : Z) := Proxy b 0x28 4.
Definition prefetchable_limit_upper (b : Z) := Proxy b 0x2C 4.
Definition io_base_upper (b : Z) := Proxy b 0x30 2.
Definition io_limit_upper (b : Z) := Proxy b 0x32 2.
Definition bridge_expansion_ROM_base_addr (b : Z) := Proxy b 0x38 4.
Definition bridge_control (b : Z) := Proxy b 0x3E 2.

(** The three classes' tables, used to check that no two registers overlap. *)
Definition common_registers (b : Z) : list RegisterProxy :=
  [vendor_id b; device_id b; command_reg b; status_reg b; revision_id b; prog_if b; subclass_id b;
   class_id b; cache_line_size b; latency_timer b; header_type_reg b; BIST b; interrupt_line b;
   interrupt_pin b].
Definition Device_registers (b : Z) : list RegisterProxy :=
  common_registers b ++
  [cardbus_CIS_ptr b; subsystem_vendor_id b; subsystem_id b; expansion_ROM_base_addr b; min_grant b;
   max_latency b].
Definition PCIToPCIBridge_registers (b : Z) : list RegisterProxy :=
  common_registers b ++
  [primary_bus b; secondary_bus b; subordinate_bus b; secondary_latency_timer b; io_base_lower b;
   io_limit_lower b; secondary_status b; memory_base b; memory_limit b; prefetchable_memory_base b;
   prefetchable_memory_limit b; prefetchable_base_upper b; prefetchable_limit_upper b;
   io_base_upper b; io_limit_upper b; bridge_expansion_ROM_base_addr b; bridge_control b].
Definition PCIToCardBusBridge_registers (b : Z) : list RegisterProxy :=
  common_registers b ++
  [Proxy b 0x10 4; Proxy b 0x16 2; Proxy b 0x18 1; Proxy b 0x19 1; Proxy b 0x1A 1; Proxy b 0x1B 1;
   Proxy b 0x1C 4; Proxy b 0x20 4; Proxy b 0x24 4; Proxy b 0x28 4; Proxy b 0x2C 4; Proxy b 0x30 4;
   Proxy b 0x34 4; Proxy b 0x38 4; Proxy b 0x3E 2; Proxy b 0x40 2; Proxy b 0x42 2; Proxy b 0x44 4].

(** API.cpp; the other value of the type member halts the processor. *)
Definition get_BAR_space_type {S} (raw : Z) : M S BARSpaceType :=
  if negb (Z.land raw (Z.shiftl 1 0) =? 0) then mret BARSpaceType_IOSpace
  else
    let t := fget memory_space_bar "type" raw in
    if t =? 0 then mret BARSpaceType_Memory32BitSpace
    else if t =? 1 then mret BARSpaceType_Memory16BitSpace
    else if t =? 2 then mret BARSpaceType_Memory64BitSpace
    else fail Halted.

Section machine.
Context {H : Type} `{ConfigSpace H}.

(** The machine's configuration space, the address port, the static bitset of
    [enumerate_pci_bus] as the set of its elements, and the messages printed. *)
Record state := State {
  hw : H; address : Z; enumerated_buses : gset Z; messages : list (string * Z) }.

Definition out32 (port v : Z) : M state unit := modify (fun s =>
  if port =? address_port then State (hw s) (u32 v) (enumerated_buses s) (messages s)
  else if port =? data_port then
    State (cfg_write (hw s) (address s) (u32 v)) (address s) (enumerated_buses s) (messages s)
  else s).

Definition in32 (port : Z) : M state Z := gets (fun s =>
  if port =? data_port then u32 (cfg_read (hw s) (address s)) else address s).

Definition debug_printf (msg : string) (arg : Z) : M state unit := modify (fun s =>
  State (hw s) (address s) (enumerated_buses s) (messages s ++ [(msg, arg)])).

(** *** RegisterProxy *)

Definition lane (p : RegisterProxy) : Z := Z.land (offset p) 3 * 8.

Definition read_register (p : RegisterProxy) : M state Z :=
  out32 address_port (addr_plus (base p) (offset p)) ;;
  v ← in32 data_port;
  mret (Z.shiftr v (lane p)).

(** The body shared by [write_register8] and [write_register16]; [mask] is 0xFF or 0xFFFF. *)
Definition write_lanes (mask : Z) (p : RegisterProxy) (value : Z) : M state unit :=
  out32 address_port (addr_plus (base p) (offset p)) ;;
  cur ← in32 data_port;
  let cur := Z.land cur (u32 (Z.lnot (Z.shiftl mask (lane p)))) in
  let cur := Z.lor cur (u32 (Z.shiftl value (lane p))) in
  out32 data_port cur.

Definition write_register8 (p : RegisterProxy) (value : Z) : M state unit := write_lanes 0xFF p (u8 value).
Definition write_register16 (p : RegisterProxy) (value : Z) : M state unit := write_lanes 0xFFFF p (u16 value).
Definition write_register32 (p : RegisterProxy) (value : Z) : M state unit :=
  out32 address_port (addr_plus (base p) (offset p)) ;;
  out32 data_port (u32 value).

(** [if constexpr] on [sizeof (T)]; other sizes do not compile. *)
Definition write_register (p : RegisterProxy) (value : Z) : M state unit :=
  if sizeof_T p =? 1 then write_register8 p value
  else if sizeof_T p =? 2 then write_register16 p value
  else write_register32 p value.

(** [operator T()] and [cast()]. *)
Definition cast (p : RegisterProxy) : M state Z :=
  v ← read_register p; mret (wrap (8 * sizeof_T p) v).

(** [operator->], a member read through it, and the destructor of the
    [MemberProxy], which writes the register back. *)
Definition arrow {A} (p : RegisterProxy) (f : Z -> A) : M state A :=
  v ← read_register p;
  let value := wrap (8 * sizeof_T p) v in
  let r := f value in
  write_register p value ;;
  mret r.

Definition assign (p : RegisterProxy) (value : Z) : M state unit := write_register p value.
Definition or_assign (p : RegisterProxy) (value : Z) : M state unit :=
  v ← read_register p; write_register p (wrap (8 * sizeof_T p) (Z.lor v value)).
Definition and_assign (p : RegisterProxy) (value : Z) : M state unit :=
  v ← read_register p; write_register p (wrap (8 * sizeof_T p) (Z.land v value)).

(** [create_device]: the header type is read, and whatever class it selects
    is returned by value as a [DeviceBase], that is, the address alone.  Where
    HostController.cpp calls [DeviceFactory::create], which no file defines, the
    enumeration below calls this function, the one of Device.hpp with those
    arguments. *)
Definition create_device (bus device function : Z) : M state Z :=
  let b := addr_make bus device function in
  _ ← cast (header_type_reg b);
  mret b.

(** *** Capability lists

    A capability and an iterator over them are configuration addresses. *)

Definition capability_id (b : Z) := Proxy b 0x00 1.
Definition next_capability_pointer (b : Z) := Proxy b 0x01 1.
Definition message_control (b : Z) := Proxy b 0x02 2.

(** [!0b111] is the logical negation, 0. *)
Definition table_BIR (b : Z) : M state Z := v ← cast (Proxy b 0x04 1); mret (Z.land v 7).
Definition table_offset (b : Z) : M state Z := v ← cast (Proxy b 0x04 4); mret (Z.land v 0).
Definition pending_bit_array_BIR (b : Z) : M state Z := v ← cast (Proxy b 0x08 1); mret (Z.land v 7).
Definition pending_bit_array_offset (b : Z) : M state Z := v ← cast (Proxy b 0x08 4); mret (Z.land v 0).

(** The function ends without a [return] for every id but MSI-X; [undefined]
    is whatever the caller then finds. *)
Definition create_capability (undefined : Z) (capability_base : Z) : M state Z :=
  id ← cast (capability_id capability_base);
  mret (if id =? device_capability_MSIX then capability_base else undefined).

Record CapabilityIterator := CapIter { capability_base : Z; current_capability : Z }.

Definition CapabilityIterator_new (b : Z) : CapabilityIterator := CapIter b b.
Definition CapabilityIterator_deref (it : CapabilityIterator) : Z := current_capability it.
Definition CapabilityIterator_incr (undefined : Z) (it : CapabilityIterator) :
    M state CapabilityIterator :=
  next ← cast (next_capability_pointer (current_capability it));
  let b := if next =? 0 then 0 else addr_set_offset next (capability_base it) in
  c ← create_capability undefined b;
  mret (CapIter b c).
Definition CapabilityIterator_eq (x y : CapabilityIterator) : bool :=
  capability_base x =? capability_base y.

(** [capabilities()] of the classes with a list, by the offset of their
    pointer: the devices and the two kinds of bridges; the base class has an
    empty list. *)
Definition capabilities (pointer_offset b : Z) : Z := addr_plus b pointer_offset.
Definition DeviceBase_capabilities (b : Z) : Z := 0.
Definition PCIToPCIBridge_capabilities (b : Z) : Z := capabilities 0x34 b.
Definition PCIToCardBusBridge_capabilities (b : Z) : Z := capabilities 0x14 b.
Definition Capabilities_begin (first : Z) : CapabilityIterator := CapabilityIterator_new first.
Definition Capabilities_end : CapabilityIterator := CapabilityIterator_new 0.

(** *** HostController.cpp

    A generator is the list of what it yields; a device is its bus, device and
    function numbers. *)

(** [for (u8 i = first; i < first + n; ++i)] around a body that yields. *)
Fixpoint collect {A} (n : nat) (i : Z) (body : Z -> M state (list A)) : M state (list A) :=
  match n with
  | O => mret []
  | S n => l ← body i; ls ← collect n (i + 1) body; mret (l ++ ls)
  end.

Definition VENDOR_NOT_PRESENT : Z := VendorID_code VendorID_DeviceNotPresent.

Section enumerate.
Context (enumerate_bus : Z -> M state (list (Z * Z * Z))).

Definition enumerate_function (bus deviceno function : Z) : M state (list (Z * Z * Z)) :=
  let device := addr_make bus deviceno function in
  c ← cast (class_id device);
  if c =? DeviceClass_code DeviceClass_BridgeDevice then
    sc ← cast (subclass_id device);
    if sc =? Bridge_SubclassID_code Bridge_PCI_TO_PCI then
      b ← cast (secondary_bus device);
      l ← enumerate_bus b;
      mret ((bus, deviceno, function) :: l)
    else mret [(bus, deviceno, function)]
  else mret [(bus, deviceno, function)].

Definition enumerate_device (bus deviceno : Z) : M state (list (Z * Z * Z)) :=
  device ← create_device bus deviceno 0;
  v ← cast (vendor_id device);
  if v =? VENDOR_NOT_PRESENT then mret []
  else
    l0 ← enumerate_function bus deviceno 0;
    multi ← arrow (header_type_reg device) (fget device_header_type "is_multi_function");
    if negb (multi =? 0) then
      l ← collect 7 1 (fun function =>
        device ← create_device bus deviceno function;
        v ← cast (vendor_id device);
        if v =? VENDOR_NOT_PRESENT then mret []
        else enumerate_function bus deviceno function);
      mret (l0 ++ l)
    else mret l0.

End enumerate.

Fixpoint enumerate_pci_bus (fuel : nat) (bus : Z) : M state (list (Z * Z * Z)) :=
  match fuel with
  | O => fail OutOfFuel
  | S fuel =>
      seen ← gets enumerated_buses;
      if decide (bus ∈ seen) then mret []
      else
        debug_printf "Enumerating PCI bus %u\n" bus ;;
        modify (fun s => State (hw s) (address s) ({[bus]} ∪ enumerated_buses s) (messages s)) ;;
        collect 32 0 (fun device => enumerate_device (enumerate_pci_bus fuel) bus device)
  end.

Definition attached_devices (fuel : nat) : M state (list (Z * Z * Z)) :=
  device ← create_device 0 0 0;
  multi ← arrow (header_type_reg device) (fget device_header_type "is_multi_function");
  l ← (if multi =? 0 then enumerate_pci_bus fuel 0
       else collect 8 0 (fun bus_as_function_number =>
         device ← create_device 0 0 bus_as_function_number;
         debug_printf "Checking PCI bus %u\n" bus_as_function_number ;;
         v ← cast (vendor_id device);
         when (v =? VENDOR_NOT_PRESENT)
           (debug_printf "No PCI host bridge at (0, 0, %u)\n" bus_as_function_number) ;;
         mret []));
  debug_printf "PCI enumeration complete\n" 0 ;;
  mret l.

End machine.
End Pci.

(** ** Facts *)
Module PciFacts.
Import Pci.

(** *** Addresses and lanes *)

Lemma set_bits_bits off w raw : 0 <= off -> 0 <= w -> set_bits off w (bits off w raw) raw = raw.
Proof.
  intros Ho Hw. rewrite set_bits_arith by done. rewrite wrap_small by (by apply bits_range). lia.
Qed.

Lemma set_bits_wrap off w v raw : 0 <= w -> set_bits off w (wrap w v) raw = set_bits off w v raw.
Proof. intros Hw. unfold set_bits. by rewrite wrap_wrap. Qed.

(** The address of a register: bus, device and function as given, the offset
    of the word it is in, and the enable bit. *)
Lemma addr_plus_fields b d f off : 0 <= off < 256 ->
  unpack config_space_address (addr_plus (addr_make b d f) off) =
  [off - off mod 4; wrap 3 f; wrap 5 d; u8 b; 0; 1].
Proof.
  intros Ho. unfold addr_plus, addr_make, unpack. layout_eval.
  change config_space_address with
    [Placed "offset" 0 8; Placed "function" 8 3; Placed "device" 11 5; Placed "bus" 16 8;
     Placed "reserved" 24 7; Placed "enable" 31 1].
  cbn [fmap list_fmap pl_off pl_width]. bits_simpl. repeat f_equal.
  rewrite <- Z.ldiff_land. change 3 with (Z.ones 2). rewrite Z.ldiff_ones_r by lia.
  rewrite Z.shiftl_mul_pow2, Z.shiftr_div_pow2 by lia. change (u8 0) with 0.
  pose proof (Z.div_mod off 4). pose proof (Z.mod_pos_bound off 4).
  change (2 ^ 2) with 4. rewrite wrap_small; unfold in_range; lia.
Qed.

Section machine.
Context {H : Type} `{ConfigSpace H}.

(** The word a register is in, and the register's value in it. *)
Definition word_addr (p : RegisterProxy) : Z := u32 (addr_plus (base p) (offset p)).
Definition word (h : H) (p : RegisterProxy) : Z := u32 (cfg_read h (word_addr p)).
Definition reg (h : H) (p : RegisterProxy) : Z := bits (lane p) (8 * sizeof_T p) (word h p).

(** A well-formed proxy: a register that does not cross a word. *)
Record proxy_ok (p : RegisterProxy) : Prop := {
  po_size : sizeof_T p = 1 \/ sizeof_T p = 2 \/ sizeof_T p = 4;
  po_offset : 0 <= offset p < 256;
  po_word : offset p mod 4 + sizeof_T p <= 4 }.

Lemma lane_eq p : lane p = 8 * (offset p mod 4).
Proof using. unfold lane. change 3 with (Z.ones 2). rewrite Z.land_ones by lia. change (2 ^ 2) with 4. lia. Qed.

Lemma lane_range p : 0 <= lane p <= 24.
Proof using. rewrite lane_eq. pose proof (Z.mod_pos_bound (offset p) 4). lia. Qed.

Abbreviation st := (@Pci.state H).

Definition latched (p : RegisterProxy) (s : st) : st :=
  State (hw s) (word_addr p) (enumerated_buses s) (messages s).

Lemma cast_run p (s : st) : cast p s = Ok (reg (hw s) p, latched p s).
Proof using. reflexivity. Qed.

(** The word that a write of [w] bits of lanes leaves. *)
Lemma lanes_value w p v x :
  0 <= w -> lane p + w <= 32 -> in_range 32 x -> in_range w v ->
  u32 (Z.lor (Z.land x (u32 (Z.lnot (Z.shiftl (Z.ones w) (lane p))))) (u32 (Z.shiftl v (lane p)))) =
  set_bits (lane p) w v x.
Proof using.
  intros Hw Hl Hx Hv. pose proof (lane_range p) as Hr. apply Z.bits_inj'. intros i Hi.
  rewrite wrap_testbit, Z.lor_spec, Z.land_spec, !wrap_testbit, Z.lnot_spec, set_bits_testbit by lia.
  rewrite !Z.shiftl_spec by lia.
  destruct (Z.ltb_spec i 32); cbn [andb].
  - destruct (Z.leb_spec (lane p) i); cbn [andb].
    + rewrite Z.testbit_ones_nonneg by lia.
      destruct (Z.ltb_spec (i - lane p) w), (Z.ltb_spec i (lane p + w)); try lia; cbn [negb].
      * by rewrite andb_false_r.
      * rewrite andb_true_r, (in_range_testbit w v) by (done || lia). by rewrite orb_false_r.
    + rewrite !(Z.testbit_neg_r _ (i - lane p)) by lia. cbn [negb]. by rewrite andb_true_r, orb_false_r.
  - destruct (Z.leb_spec (lane p) i), (Z.ltb_spec i (lane p + w)); cbn [andb]; try lia;
      by rewrite (in_range_testbit 32 x).
Qed.

Lemma register_write_run p v (s : st) : proxy_ok p -> in_range (8 * sizeof_T p) v ->
  write_register p v s =
  Ok (tt, State (cfg_write (hw s) (word_addr p) (set_bits (lane p) (8 * sizeof_T p) v (word (hw s) p)))
            (word_addr p) (enumerated_buses s) (messages s)).
Proof using.
  intros [Hs Ho Hw] Hv. pose proof (lane_eq p) as Hl. unfold write_register.
  assert (in_range 32 (word (hw s) p)) as Hx by (apply wrap_range; lia).
  destruct Hs as [E|[E|E]]; rewrite E in *.
  - change (8 * 1) with 8 in *. unfold write_register8. rewrite (wrap_small 8 v) by done.
    change 0xFF with (Z.ones 8). rewrite <- (lanes_value 8) by (done || lia). reflexivity.
  - change (8 * 2) with 16 in *. unfold write_register16. rewrite (wrap_small 16 v) by done.
    change 0xFFFF with (Z.ones 16). rewrite <- (lanes_value 16) by (done || lia). reflexivity.
  - assert (set_bits (lane p) (8 * 4) v (word (hw s) p) = u32 (u32 v)) as ->; [|reflexivity].
    pose proof (Z.mod_pos_bound (offset p) 4). replace (lane p) with 0 by lia.
    rewrite set_bits_arith by lia. unfold bits. rewrite Z.shiftr_0_r.
    change (8 * 4) with 32 in *. rewrite !(wrap_small 32 v), (wrap_small 32 (word _ _)) by done. lia.
Qed.

(** A member read through [operator->]: the register's value, and its word
    written back unchanged. *)
Lemma arrow_run {A} p (f : Z -> A) (s : st) : proxy_ok p ->
  arrow p f s =
  Ok (f (reg (hw s) p),
      State (cfg_write (hw s) (word_addr p) (word (hw s) p)) (word_addr p) (enumerated_buses s) (messages s)).
Proof using.
  intros Hp. pose proof (lane_range p). unfold arrow.
  rewrite (bind_Ok _ _ s (Z.shiftr (word (hw s) p) (lane p)) (latched p s)) by reflexivity. cbn zeta.
  change (wrap (8 * sizeof_T p) (Z.shiftr (word (hw s) p) (lane p))) with (reg (hw s) p).
  assert (0 <= 8 * sizeof_T p) by (destruct Hp; lia).
  mrun (apply register_write_run; [done|by apply bits_range]).
  unfold latched, reg. cbn [hw enumerated_buses messages]. by rewrite set_bits_bits by lia.
Qed.

(** A loop whose body yields nothing. *)
Lemma collect_nil {A} (body : Z -> M st (list A)) :
  (forall i s, exists s', body i s = Ok ([], s')) ->
  forall n i s, exists s', collect n i body s = Ok ([], s').
Proof using.
  intros Hb. induction n as [|n IH]; intros i s; [by exists s|]. cbn [collect].
  destruct (Hb i s) as [s1 E1]. destruct (IH (i + 1) s1) as [s2 E2].
  exists s2. mrun exact E1. mrun exact E2. done.
Qed.

(** *** What configuration space says of a function *)

Definition vendor (h : H) (x : Z * Z * Z) : Z := reg h (vendor_id (addr_make x.1.1 x.1.2 x.2)).

Definition is_multi_function (h : H) (b d : Z) : bool :=
  negb (fget device_header_type "is_multi_function" (reg h (header_type_reg (addr_make b d 0))) =? 0).

(** A function a device answers for: function 0 if the device is there, the
    others if it also says that it has several. *)
Definition present (h : H) (x : Z * Z * Z) : bool :=
  let '(b, d, f) := x in
  (0 <=? d) && (d <? 32) && (0 <=? f) && (f <? 8) && negb (vendor h (b, d, 0) =? VENDOR_NOT_PRESENT) &&
  ((f =? 0) || is_multi_function h b d && negb (vendor h (b, d, f) =? VENDOR_NOT_PRESENT)).

Definition is_bridge (h : H) (x : Z * Z * Z) : bool :=
  let a := addr_make x.1.1 x.1.2 x.2 in
  (reg h (class_id a) =? DeviceClass_code DeviceClass_BridgeDevice) &&
  (reg h (subclass_id a) =? Bridge_SubclassID_code Bridge_PCI_TO_PCI).

Definition secondary (h : H) (x : Z * Z * Z) : Z := reg h (secondary_bus (addr_make x.1.1 x.1.2 x.2)).

(** The buses connected to bus 0 through PCI to PCI bridges. *)
Inductive connected (h : H) : Z -> Prop :=
| connected_root : connected h 0
| connected_bridge x : connected h x.1.1 -> present h x = true -> is_bridge h x = true ->
    connected h (secondary h x).

(** The 256 bus numbers; sealed, so that tactics do not compute the set. *)
Definition buses_def : gset Z := list_to_set (seqZ 0 256).
Definition buses_aux : seal buses_def.
Proof using. by eexists. Qed.
Definition buses : gset Z := unseal buses_aux.
Lemma buses_eq : buses = buses_def.
Proof using. apply seal_eq. Qed.

Lemma elem_of_buses b : b ∈ buses <-> 0 <= b < 256.
Proof using. rewrite buses_eq. unfold buses_def. rewrite elem_of_list_to_set, elem_of_seqZ. lia. Qed.

Lemma size_buses : size buses = 256%nat.
Proof using. rewrite buses_eq. by vm_compute. Qed.

(** *** Exploration *)

Section explore.
Context (h : H).

(** Writing back a word that was just read from the header type register's
    word leaves configuration space as it is. *)
Hypothesis Hback : forall b d f, let p := header_type_reg (addr_make b d f) in
  cfg_write h (word_addr p) (word h p) = h.

Definition at_ (V : gset Z) (s : st) : Prop := hw s = h /\ enumerated_buses s = V.

Lemma cast_at p V s : at_ V s -> exists s', cast p s = Ok (reg h p, s') /\ at_ V s'.
Proof using. intros [E1 E2]. rewrite cast_run, E1. eexists. by split. Qed.

Lemma create_device_at b d f V s : at_ V s ->
  exists s', create_device b d f s = Ok (addr_make b d f, s') /\ at_ V s'.
Proof using.
  intros Hs. destruct (cast_at (header_type_reg (addr_make b d f)) V s Hs) as (s' & E & Hs').
  exists s'. unfold create_device. mrun exact E. done.
Qed.

Lemma arrow_header_at {A} b d f V s (g : Z -> A) : at_ V s ->
  exists s', arrow (header_type_reg (addr_make b d f)) g s =
    Ok (g (reg h (header_type_reg (addr_make b d f))), s') /\ at_ V s'.
Proof using Hback.
  intros [E1 E2]. eexists. rewrite arrow_run by (split; vm_compute; intuition discriminate).
  rewrite E1. split; [done|]. split; cbn [hw enumerated_buses]; [apply Hback|done].
Qed.

(** The result of exploring the functions [own] of bus [b] from the set [V]
    of buses seen: [devs] are yielded and [V'] are then seen. *)
Record explored (b : Z) (own : list (Z * Z * Z)) (V : gset Z) (devs : list (Z * Z * Z)) (V' : gset Z) : Prop := {
  ex_mono : V ⊆ V';
  ex_range : V ⊆ buses -> V' ⊆ buses;
  ex_nodup : NoDup devs;
  ex_devs : forall x, x ∈ devs <-> x ∈ own \/ (x.1.1 ∈ V' /\ (x.1.1 ∉ V) /\ present h x = true);
  ex_closed : forall x, x ∈ devs -> is_bridge h x = true -> secondary h x ∈ V';
  ex_reach : connected h b -> forall b', b' ∈ V' -> b' ∉ V -> connected h b' }.

Lemma explored_nil b V : explored b [] V [] V.
Proof using.
  split; [done|done|constructor| | |].
  - intros x. split; [by intros ?%not_elem_of_nil|]. intros [?%not_elem_of_nil|(? & ? & _)]; done.
  - by intros x ?%not_elem_of_nil.
  - done.
Qed.

Lemma explored_app b own1 own2 V d1 V1 d2 V2 :
  b ∈ V -> (forall x, x ∈ own1 -> x.1.1 = b) -> (forall x, x ∈ own2 -> x.1.1 = b) ->
  (forall x, x ∈ own1 -> x ∉ own2) ->
  explored b own1 V d1 V1 -> explored b own2 V1 d2 V2 ->
  explored b (own1 ++ own2) V (d1 ++ d2) V2.
Proof using.
  intros Hb H1 H2 Hd E1 E2. destruct E1 as [M1 R1 N1 D1 C1 P1], E2 as [M2 R2 N2 D2 C2 P2].
  assert (b ∈ V1) as Hb1 by by apply M1.
  split.
  - by etrans.
  - intros HV. by apply R2, R1.
  - apply NoDup_app. split_and!; [done| |done]. intros x Hx1 Hx2.
    apply D1 in Hx1. apply D2 in Hx2. destruct Hx1 as [Hx1|(? & ? & _)], Hx2 as [Hx2|(? & ? & _)].
    + by apply (Hd x).
    + rewrite (H1 x Hx1) in *. done.
    + rewrite (H2 x Hx2) in *. done.
    + done.
  - intros x. rewrite !elem_of_app, D1, D2. destruct (decide (x.1.1 ∈ V1)) as [Hx|Hx].
    + split.
      * intros [[?|(? & ? & ?)]|[?|(? & ? & ?)]]; auto. right. auto.
      * intros [[?|?]|(? & ? & ?)]; auto.
    + split.
      * intros [[?|(? & ? & ?)]|[?|(? & ? & ?)]]; auto. right. split_and!; auto.
      * intros [[?|?]|(? & ? & ?)]; auto.
  - intros x [Hx|Hx]%elem_of_app Hbr; [apply M2|]; auto.
  - intros Hc b' Hb' Hn. destruct (decide (b' ∈ V1)); eauto.
Qed.

(** Bus [b] is being explored and fewer than [n] buses are left. *)
Record exploring (b : Z) (n : nat) (V : gset Z) : Prop := {
  eg_bus : b ∈ V;
  eg_range : V ⊆ buses;
  eg_left : (size (buses ∖ V) < n)%nat }.

Lemma exploring_step b n own V devs V' :
  exploring b n V -> explored b own V devs V' -> exploring b n V'.
Proof using.
  intros [Hb Hr Hl] E. pose proof (ex_mono _ _ _ _ _ E) as Hm. split; [exact (Hm _ Hb)|exact (ex_range _ _ _ _ _ E Hr)|].
  eapply Nat.le_lt_trans; [|exact Hl]. apply subseteq_size. by apply difference_mono_l.
Qed.

(** What an exploration of the functions [own] of bus [b] does. *)
Definition explores (b : Z) (own : list (Z * Z * Z)) (c : M st (list (Z * Z * Z))) (V : gset Z) (s : st) : Prop :=
  exists devs V' s', c s = Ok (devs, s') /\ at_ V' s' /\ explored b own V devs V'.

Fixpoint own_range (own : Z -> list (Z * Z * Z)) (n : nat) (i : Z) : list (Z * Z * Z) :=
  match n with
  | O => []
  | S n => own i ++ own_range own n (i + 1)
  end.

Lemma elem_of_own_range own x n : forall i,
  x ∈ own_range own n i <-> exists j, i <= j < i + Z.of_nat n /\ x ∈ own j.
Proof using.
  induction n as [|n IH]; intros i; cbn [own_range].
  - rewrite elem_of_nil. split; [done|]. intros (j & ? & _). lia.
  - rewrite elem_of_app, IH. split.
    + intros [?|(j & ? & ?)]; [exists i|exists j]; split; (done || lia).
    + intros (j & Hj & Hx). destruct (decide (j = i)) as [->|]; [by left|].
      right. exists j. split; [lia|done].
Qed.

Lemma collect_explores b m (own : Z -> list (Z * Z * Z)) (key : Z * Z * Z -> Z) body n : forall i V s,
  (forall j x, x ∈ own j -> x.1.1 = b /\ key x = j) ->
  (forall j V s, i <= j < i + Z.of_nat n -> at_ V s -> exploring b m V -> explores b (own j) (body j) V s) ->
  at_ V s -> exploring b m V -> explores b (own_range own n i) (collect n i body) V s.
Proof using.
  induction n as [|n IH]; intros i V s Hown Hbody Hs HV; cbn [collect own_range].
  - exists [], V, s. split_and!; [done|done|apply explored_nil].
  - destruct (Hbody i V s) as (d1 & V1 & s1 & E1 & Hs1 & X1); [lia|done|done|].
    destruct (IH (i + 1) V1 s1 Hown) as (d2 & V2 & s2 & E2 & Hs2 & X2).
    { intros j V' s' Hj. apply Hbody. lia. }
    { done. }
    { by eapply exploring_step. }
    exists (d1 ++ d2), V2, s2. split_and!; [|done|].
    + mrun exact E1. mrun exact E2. done.
    + eapply explored_app; [apply HV| | | |done|done].
      * intros x Hx. by apply Hown in Hx as [? _].
      * intros x (j & _ & Hx)%elem_of_own_range. by apply Hown in Hx as [? _].
      * intros x Hx (j & Hj & Hx')%elem_of_own_range.
        apply Hown in Hx as [_ Hx], Hx' as [_ Hx']. lia.
Qed.

Section functions.
Context (rec : Z -> M st (list (Z * Z * Z))) (m : nat).
Hypothesis Hrec : forall b V s, at_ V s -> V ⊆ buses -> b ∈ buses -> (size (buses ∖ V) < m)%nat ->
  exists devs V' s', rec b s = Ok (devs, s') /\ at_ V' s' /\ explored b [] V devs V' /\ b ∈ V'.

Lemma secondary_bus_range x : secondary h x ∈ buses.
Proof using. apply elem_of_buses. apply (bits_range _ 8). lia. Qed.

Lemma leaf_explored x V : x.1.1 ∈ V -> is_bridge h x = false -> explored x.1.1 [x] V [x] V.
Proof using.
  intros Hx Hb. split; [done|done|apply NoDup_singleton| | |done].
  - intros y. rewrite list_elem_of_singleton. split; [by left|]. intros [?|(? & ? & _)]; done.
  - intros y ->%list_elem_of_singleton. congruence.
Qed.

Lemma bridge_explored x V devs V' :
  x.1.1 ∈ V -> present h x = true -> is_bridge h x = true ->
  explored (secondary h x) [] V devs V' -> secondary h x ∈ V' ->
  explored x.1.1 [x] V (x :: devs) V'.
Proof using.
  intros Hx Hp Hb [M R N D C P] Hsec. split; [done|done| | | |].
  - apply NoDup_cons. split; [|done]. rewrite D. intros [?%not_elem_of_nil|(_ & ? & _)]; done.
  - intros y. rewrite elem_of_cons, D, elem_of_nil, list_elem_of_singleton. split.
    + intros [->|[?|?]]; [by left|done|by right].
    + intros [->|?]; [by left|by right; right].
  - intros y [->|Hy]%elem_of_cons Hby; auto.
  - intros Hc. apply P. by constructor.
Qed.

Lemma enumerate_function_explores b d f V s :
  present h (b, d, f) = true -> at_ V s -> exploring b m V ->
  explores b [(b, d, f)] (enumerate_function rec b d f) V s.
Proof using Hrec.
  intros Hp Hs HV. unfold explores, enumerate_function. set (x := (b, d, f)).
  change (addr_make b d f) with (addr_make x.1.1 x.1.2 x.2).
  assert (is_bridge h x = false -> explored b [x] V [x] V) as Hleaf by (intros; apply (leaf_explored x); [apply HV|done]).
  destruct (cast_at (class_id (addr_make x.1.1 x.1.2 x.2)) V s Hs) as (s1 & E1 & Hs1). rewrite (bind_Ok _ _ _ _ _ E1).
  unfold is_bridge in Hleaf.
  destruct (reg h (class_id _) =? DeviceClass_code DeviceClass_BridgeDevice) eqn:Ec; cbn [andb] in Hleaf;
    [|exists [x], V, s1; auto].
  destruct (cast_at (subclass_id (addr_make x.1.1 x.1.2 x.2)) V s1 Hs1) as (s2 & E2 & Hs2). rewrite (bind_Ok _ _ _ _ _ E2).
  destruct (reg h (subclass_id _) =? Bridge_SubclassID_code Bridge_PCI_TO_PCI) eqn:Es;
    [|exists [x], V, s2; auto].
  destruct (cast_at (secondary_bus (addr_make x.1.1 x.1.2 x.2)) V s2 Hs2) as (s3 & E3 & Hs3). rewrite (bind_Ok _ _ _ _ _ E3).
  destruct HV as [Hb Hr Hl].
  destruct (Hrec (secondary h x) V s3 Hs3 Hr (secondary_bus_range x) Hl) as (devs & V' & s4 & E4 & Hs4 & X & Hsec).
  exists (x :: devs), V', s4. split_and!; [|done|].
  - mrun exact E4. done.
  - apply (bridge_explored x); [done|done|unfold is_bridge; by rewrite Ec, Es|done|done].
Qed.

(** The functions that a device, and a bus, has. *)
Definition own_function (b d f : Z) : list (Z * Z * Z) :=
  if vendor h (b, d, f) =? VENDOR_NOT_PRESENT then [] else [(b, d, f)].
Definition own_device (b d : Z) : list (Z * Z * Z) :=
  if vendor h (b, d, 0) =? VENDOR_NOT_PRESENT then []
  else [(b, d, 0)] ++ (if is_multi_function h b d then own_range (own_function b d) 7 1 else []).
Definition own_bus (b : Z) : list (Z * Z * Z) := own_range (own_device b) 32 0.

Lemma elem_of_own_function b d f x :
  x ∈ own_function b d f <-> x = (b, d, f) /\ (vendor h (b, d, f) =? VENDOR_NOT_PRESENT) = false.
Proof using.
  unfold own_function. destruct (vendor h (b, d, f) =? VENDOR_NOT_PRESENT).
  - rewrite elem_of_nil. by split; [|intros []].
  - rewrite list_elem_of_singleton. by split; [|intros []].
Qed.

Lemma elem_of_own_device b d x :
  0 <= d < 32 -> x ∈ own_device b d <-> x.1 = (b, d) /\ present h x = true.
Proof using.
  intros Hd. unfold own_device, present. destruct x as [[b' d'] f]. cbn [fst].
  destruct (vendor h (b, d, 0) =? VENDOR_NOT_PRESENT) eqn:E0.
  { rewrite elem_of_nil. split; [done|]. intros [[= -> ->] Hp]. rewrite E0 in Hp.
    by rewrite andb_false_r in Hp. }
  rewrite elem_of_app, list_elem_of_singleton.
  assert (((b', d', f) ∈ (if is_multi_function h b d then own_range (own_function b d) 7 1 else [])) <->
    b' = b /\ d' = d /\ 1 <= f < 8 /\ is_multi_function h b d = true /\
    (vendor h (b, d, f) =? VENDOR_NOT_PRESENT) = false) as ->.
  { destruct (is_multi_function h b d); [|rewrite elem_of_nil; by split; [|intros (_ & _ & _ & ? & _)]].
    rewrite elem_of_own_range. split.
    - intros (j & Hj & [[= -> -> ->] Hv]%elem_of_own_function). split_and!; (done || lia).
    - intros (-> & -> & Hf & _ & Hv). exists f. split; [lia|]. by apply elem_of_own_function. }
  split.
  - intros [[= -> -> ->]|(-> & -> & Hf & Hm & Hv)]; (split; [done|]); rewrite E0.
    + zcase; (done || lia).
    + rewrite Hm, Hv. zcase; (done || lia).
  - intros [[= -> ->] Hp]. rewrite E0, !andb_true_iff in Hp. destruct Hp as [((((_ & _) & ?) & ?) & _) Hp].
    destruct (Z.eqb_spec f 0) as [->|]; [by left|]. right.
    apply orb_true_iff in Hp as [?|Hp]; [done|]. apply andb_true_iff in Hp as [Hm Hv].
    apply negb_true_iff in Hv. split_and!; (done || lia).
Qed.

Lemma elem_of_own_bus b x : x ∈ own_bus b <-> x.1.1 = b /\ present h x = true.
Proof using.
  unfold own_bus. rewrite elem_of_own_range. split.
  - intros (d & Hd & Hx). apply elem_of_own_device in Hx as [Hx Hp]; [|lia]. by rewrite Hx.
  - intros [<- Hp]. exists x.1.2. assert (0 <= x.1.2 < 32) as Hr.
    { destruct x as [[b d] f]. cbn [present] in Hp. rewrite !andb_true_iff in Hp. cbn. lia. }
    split; [lia|]. apply elem_of_own_device; [done|]. split; [by destruct x as [[] ?]|done].
Qed.

Lemma enumerate_device_explores b d V s :
  0 <= d < 32 -> at_ V s -> exploring b m V ->
  explores b (own_device b d) (enumerate_device rec b d) V s.
Proof using Hrec Hback.
  intros Hd Hs HV. unfold explores, enumerate_device.
  destruct (create_device_at b d 0 V s Hs) as (s1 & E1 & Hs1). rewrite (bind_Ok _ _ _ _ _ E1).
  destruct (cast_at (vendor_id (addr_make b d 0)) V s1 Hs1) as (s2 & E2 & Hs2). rewrite (bind_Ok _ _ _ _ _ E2).
  change (reg h (vendor_id (addr_make b d 0))) with (vendor h (b, d, 0)).
  pose proof (elem_of_own_device b d) as Hown. unfold own_device in *.
  destruct (vendor h (b, d, 0) =? VENDOR_NOT_PRESENT) eqn:Ev.
  { exists [], V, s2. split_and!; [done|done|apply explored_nil]. }
  destruct (enumerate_function_explores b d 0 V s2) as (d1 & V1 & s3 & E3 & Hs3 & X1); [|done|done|].
  { by apply Hown; [|apply elem_of_app; left; apply list_elem_of_singleton]. }
  rewrite (bind_Ok _ _ _ _ _ E3).
  destruct (arrow_header_at b d 0 V1 s3 (fget device_header_type "is_multi_function") Hs3) as (s4 & E4 & Hs4).
  rewrite (bind_Ok _ _ _ _ _ E4).
  change (negb (fget device_header_type "is_multi_function" (reg h (header_type_reg (addr_make b d 0))) =? 0))
    with (is_multi_function h b d).
  destruct (is_multi_function h b d); [|by exists d1, V1, s4].
  destruct (collect_explores b m (own_function b d) snd (fun function =>
        device ← create_device b d function;
        v ← cast (vendor_id device);
        if v =? VENDOR_NOT_PRESENT then mret []
        else enumerate_function rec b d function) 7 1 V1 s4) as (d2 & V2 & s5 & E5 & Hs5 & X2).
  - by intros j x [-> _]%elem_of_own_function.
  - intros f W t Hf Ht HW. unfold explores.
    destruct (create_device_at b d f W t Ht) as (t1 & F1 & Ht1). rewrite (bind_Ok _ _ _ _ _ F1).
    destruct (cast_at (vendor_id (addr_make b d f)) W t1 Ht1) as (t2 & F2 & Ht2). rewrite (bind_Ok _ _ _ _ _ F2).
    change (reg h (vendor_id (addr_make b d f))) with (vendor h (b, d, f)).
    unfold own_function. destruct (vendor h (b, d, f) =? VENDOR_NOT_PRESENT) eqn:Evf.
    + exists [], W, t2. split_and!; [done|done|apply explored_nil].
    + apply enumerate_function_explores; [|done|done]. apply Hown; [done|]. apply elem_of_app. right.
      apply elem_of_own_range. exists f. split; [done|]. by apply elem_of_own_function.
  - done.
  - by eapply exploring_step.
  - exists (d1 ++ d2), V2, s5. split_and!; [mrun exact E5; done|done|].
    eapply explored_app; [apply HV| | | |done|done].
    + by intros x ->%list_elem_of_singleton.
    + by intros x (j & _ & [-> _]%elem_of_own_function)%elem_of_own_range.
    + intros x ->%list_elem_of_singleton (j & Hj & [[= <-] _]%elem_of_own_function)%elem_of_own_range. lia.
Qed.

End functions.

Lemma explored_bus b V devs V' :
  b ∉ V -> b ∈ buses -> explored b (own_bus b) ({[b]} ∪ V) devs V' -> explored b [] V devs V' /\ b ∈ V'.
Proof using.
  intros Hb Hrange [M R N D C P]. assert (b ∈ V') as Hb' by (apply M, elem_of_union_l, elem_of_singleton; reflexivity).
  split; [|exact Hb']. split.
  - etrans; [|exact M]. apply union_subseteq_r.
  - intros HV. apply R. apply union_subseteq. split; [|exact HV]. apply singleton_subseteq_l. exact Hrange.
  - exact N.
  - intros x. rewrite D, elem_of_own_bus, elem_of_nil, not_elem_of_union, not_elem_of_singleton. split.
    + intros [[<- Hp]|(Hx & [_ Hn] & Hp)]; right; [exact (conj Hb' (conj Hb Hp))|exact (conj Hx (conj Hn Hp))].
    + intros [[]|(Hx & Hn & Hp)].
      destruct (decide (x.1.1 = b)) as [E|E]; [exact (or_introl (conj E Hp))|right].
      exact (conj Hx (conj (conj E Hn) Hp)).
  - exact C.
  - intros Hc b' Hb1 Hn. destruct (decide (b' = b)) as [->|Hne]; [exact Hc|].
    apply P; [exact Hc|exact Hb1|]. rewrite not_elem_of_union, not_elem_of_singleton. exact (conj Hne Hn).
Qed.

Lemma enumerate_pci_bus_explores fuel : forall b V s,
  at_ V s -> V ⊆ buses -> b ∈ buses -> (size (buses ∖ V) < fuel)%nat ->
  exists devs V' s', enumerate_pci_bus fuel b s = Ok (devs, s') /\ at_ V' s' /\
    explored b [] V devs V' /\ b ∈ V'.
Proof using Hback.
  induction fuel as [|fuel IH]; intros b V s Hs HV Hb Hf; [lia|]. cbn [enumerate_pci_bus].
  rewrite (bind_Ok _ _ s (enumerated_buses s) s) by done. destruct Hs as [E1 E2]. rewrite E2.
  destruct (decide (b ∈ V)) as [Hin|Hin].
  { exists [], V, s. split_and!; [done|by split|apply explored_nil|done]. }
  rewrite (bind_Ok _ _ s tt (State (hw s) (address s) V (messages s ++ [("Enumerating PCI bus %u\n", b)])))
    by (unfold debug_printf, modify; by rewrite E2).
  rewrite (bind_Ok _ _ _ _ _ eq_refl). cbn [hw address enumerated_buses messages].
  destruct (collect_explores b fuel (own_device b) (fun x => x.1.2)
    (fun d => enumerate_device (enumerate_pci_bus fuel) b d) 32 0 ({[b]} ∪ V)
    (State (hw s) (address s) ({[b]} ∪ V) (messages s ++ [("Enumerating PCI bus %u\n", b)])))
    as (devs & V' & s' & Hrun & Hs' & X).
  - intros d x Hx. unfold own_device in Hx.
    destruct (vendor h (b, d, 0) =? VENDOR_NOT_PRESENT); [by apply not_elem_of_nil in Hx|].
    apply elem_of_app in Hx as [->%list_elem_of_singleton|Hx]; [done|].
    destruct (is_multi_function h b d); [|by apply not_elem_of_nil in Hx].
    by apply elem_of_own_range in Hx as (f & _ & [-> _]%elem_of_own_function).
  - intros d W t Hd Ht HW. apply (enumerate_device_explores (enumerate_pci_bus fuel) fuel IH); [lia|done|done].
  - by split.
  - split; [apply elem_of_union_l; by apply elem_of_singleton| |].
    + apply union_subseteq. split; [|done]. by apply singleton_subseteq_l.
    + eapply Nat.lt_le_trans; [|apply Nat.lt_succ_r, Hf]. apply subset_size. split.
      * apply difference_mono_l, union_subseteq_r.
      * intros Hsub. specialize (Hsub b). rewrite !elem_of_difference, elem_of_union, elem_of_singleton in Hsub.
        destruct Hsub as [_ Hn]; [done|]. by apply Hn; left.
  - destruct (explored_bus b V devs V' Hin Hb X). by exists devs, V', s'.
Qed.

(** All devices on the buses connected to bus 0, each once. *)
Definition complete (devs : list (Z * Z * Z)) : Prop :=
  NoDup devs /\ forall x, x ∈ devs <-> connected h x.1.1 /\ present h x = true.

Lemma explored_complete devs V' : explored 0 [] ∅ devs V' -> 0 ∈ V' -> complete devs.
Proof using.
  intros [M R N D C P] Hz. assert (forall b, b ∈ V' <-> connected h b) as HV.
  { intros b. split.
    - intros Hb. apply P; [constructor|done|apply not_elem_of_empty].
    - induction 1 as [|x _ IH Hp Hb]; [done|]. apply C; [|done]. apply D. right.
      split_and!; [done|apply not_elem_of_empty|done]. }
  split; [done|]. intros x. rewrite D, elem_of_nil, HV. split.
  - by intros [[]|(? & _ & ?)].
  - intros [? ?]. right. split_and!; [done|apply not_elem_of_empty|done].
Qed.

End explore.
End machine.

End PciFacts.

(** ** Properties *)
Module PciProps.
Import Pci PciFacts.

(** C4. Enumeration finds every device once: on a machine whose host bridge is
    a single-function device, [attached_devices] terminates and yields,
    without repetition, exactly the functions that answer on the buses
    connected to bus 0 through PCI to PCI bridges, however the bridges are
    wired, and leaves configuration space unchanged.  The machine is any in
    which writing back a header word just read changes nothing. *)
Theorem attached_devices_complete (H : Type) (C : ConfigSpace H) (h : H) a msgs fuel :
  (forall b d f, let p := header_type_reg (addr_make b d f) in
    cfg_write h (word_addr p) (word h p) = h) ->
  is_multi_function h 0 0 = false -> (256 < fuel)%nat ->
  exists devs s', attached_devices fuel (State h a ∅ msgs) = Ok (devs, s') /\
    complete h devs /\ hw s' = h.
Proof.
  intros Hback Hm Hf. unfold attached_devices.
  destruct (create_device_at h 0 0 0 ∅ (State h a ∅ msgs)) as (s1 & E1 & Hs1); [done|].
  rewrite (bind_Ok _ _ _ _ _ E1).
  destruct (arrow_header_at h Hback 0 0 0 ∅ s1 (fget device_header_type "is_multi_function") Hs1)
    as (s2 & E2 & Hs2).
  rewrite (bind_Ok _ _ _ _ _ E2). apply negb_false_iff in Hm. rewrite Hm.
  destruct (enumerate_pci_bus_explores h Hback fuel 0 ∅ s2 Hs2) as (devs & V' & s3 & E3 & Hs3 & X & H0).
  - apply empty_subseteq.
  - apply elem_of_buses. lia.
  - rewrite difference_empty_L, size_buses. lia.
  - rewrite (bind_Ok _ _ _ _ _ E3). do 2 eexists. split; [reflexivity|].
    split; [by eapply explored_complete|apply Hs3].
Qed.

(** A machine: a host bridge, a bridge to bus 1 and a device behind it. *)
#[local] Instance example_space : ConfigSpace (gmap Z Z) := {
  cfg_read h a := default 0xFFFFFFFF (h !! a);
  cfg_write h a v := if v =? u32 (default 0xFFFFFFFF (h !! a)) then h else <[a := v]> h }.

Definition example_function (b d cls sec : Z) : list (Z * Z) :=
  [(addr_make b d 0, 0x12378086); (addr_plus (addr_make b d 0) 8, cls * 65536);
   (addr_plus (addr_make b d 0) 12, 0); (addr_plus (addr_make b d 0) 24, sec * 256)].

Definition example_machine : gmap Z Z := list_to_map
  (example_function 0 0 0x0600 0 ++ example_function 0 1 0x0604 1 ++ example_function 1 0 0x0200 0).

Lemma attached_devices_complete_witness :
  exists devs s', attached_devices 257 (State example_machine 0 ∅ []) = Ok (devs, s') /\
    complete example_machine devs /\ hw s' = example_machine.
Proof.
  apply (attached_devices_complete (gmap Z Z) example_space example_machine 0 [] 257).
  - intros b d f p. cbn [cfg_write example_space]. unfold word. cbn [cfg_read example_space].
    by rewrite Z.eqb_refl.
  - by vm_compute.
  - lia.
Defined.

Example example_machine_devices :
  result_of (attached_devices 257 (State example_machine 0 ∅ [])) = Some [(0, 0, 0); (0, 1, 0); (1, 0, 0)].
Proof. by vm_compute. Qed.

(** On a machine with several host bridges (a multi-function device at 0:0)
    no device is ever yielded: the enumeration of the bridges' buses is
    commented out. *)
Theorem attached_devices_multi_host (H : Type) (C : ConfigSpace H) (h : H) a msgs fuel :
  (forall b d f, let p := header_type_reg (addr_make b d f) in
    cfg_write h (word_addr p) (word h p) = h) ->
  is_multi_function h 0 0 = true ->
  exists s', attached_devices fuel (State h a ∅ msgs) = Ok ([], s').
Proof.
  intros Hback Hm. unfold attached_devices.
  destruct (create_device_at h 0 0 0 ∅ (State h a ∅ msgs)) as (s1 & E1 & Hs1); [done|].
  rewrite (bind_Ok _ _ _ _ _ E1).
  destruct (arrow_header_at h Hback 0 0 0 ∅ s1 (fget device_header_type "is_multi_function") Hs1)
    as (s2 & E2 & Hs2).
  rewrite (bind_Ok _ _ _ _ _ E2). apply negb_true_iff in Hm. rewrite Hm.
  match goal with |- context [collect 8 0 ?body] => destruct (collect_nil body) with 8%nat 0 s2 as [s3 E3] end.
  { intros i s. destruct (create_device_at (hw s) 0 0 i (enumerated_buses s) s) as (t & F & _); [done|].
    rewrite (bind_Ok _ _ _ _ _ F). erewrite bind_Ok by reflexivity. erewrite bind_Ok by apply cast_run.
    unfold when. destruct (_ =? VENDOR_NOT_PRESENT); eexists; reflexivity. }
  rewrite (bind_Ok _ _ _ _ _ E3). eexists. reflexivity.
Qed.

(** A register write changes that register only: the word of the register
    is written once, at the register's address, with the new value in the
    register's lanes and every other bit as the machine has it. *)
Theorem write_register_lanes (H : Type) (C : ConfigSpace H) (s : @state H) p v :
  proxy_ok p -> in_range (8 * sizeof_T p) v ->
  exists w, write_register p v s =
      Ok (tt, State (cfg_write (hw s) (word_addr p) w) (word_addr p) (enumerated_buses s) (messages s)) /\
    bits (lane p) (8 * sizeof_T p) w = v /\
    forall off n, 0 <= off -> 0 <= n -> off + n <= lane p \/ lane p + 8 * sizeof_T p <= off ->
      bits off n w = bits off n (word (hw s) p).
Proof.
  intros Hp Hv. pose proof (lane_range p). assert (0 <= 8 * sizeof_T p) by (destruct Hp; lia).
  eexists. split; [by apply register_write_run|]. split.
  - rewrite bits_set_same by lia. by apply wrap_small.
  - intros off n Ho Hn Hd. apply bits_set_other; lia.
Qed.

Lemma write_register_lanes_witness :
  exists w, write_register (interrupt_line (addr_make 0 1 0)) 11 (State example_machine 0 ∅ []) =
      Ok (tt, State (cfg_write example_machine (word_addr (interrupt_line (addr_make 0 1 0))) w)
                (word_addr (interrupt_line (addr_make 0 1 0))) ∅ []) /\
    bits 0 8 w = 11 /\ bits 8 24 w = 0xFFFFFF.
Proof.
  destruct (write_register_lanes (gmap Z Z) example_space (State example_machine 0 ∅ [])
    (interrupt_line (addr_make 0 1 0)) 11) as (w & Hrun & Hv & Hother).
  - split; vm_compute; intuition discriminate.
  - split; vm_compute; intuition discriminate.
  - exists w. split; [exact Hrun|]. split; [exact Hv|].
    etrans; [apply (Hother 8 24); [lia|lia|right; vm_compute; congruence]|by vm_compute].
Defined.

(** The base address of a 64-bit memory BAR is wrong: [BAR_t::base_addr]
    uses the mask of I/O BARs for memory BARs, so that the type and
    prefetchable bits stay in the address. *)
Theorem BAR_base_addr_swapped raw :
  in_range 32 raw -> Z.land raw 1 = 0 -> fget memory_space_bar "type" raw = 2 ->
  BAR_base_addr raw =
  memory_space_bar_base_addr raw + 4 + 8 * fget memory_space_bar "prefetchable" raw.
Proof.
  intros Hr H1 H2. unfold BAR_base_addr, memory_space_bar_base_addr. rewrite H1. cbn [negb Z.eqb].
  revert H2. layout_eval. unfold bits, wrap. rewrite !Z.shiftr_div_pow2 by lia. intros H2.
  change 1 with (Z.ones 1) in H1. rewrite Z.land_ones in H1 by lia.
  rewrite <- !Z.ldiff_land. change 3 with (Z.ones 2). change 0xF with (Z.ones 4).
  rewrite !Z.ldiff_ones_r, !Z.shiftl_mul_pow2, !Z.shiftr_div_pow2 by lia.
  unfold in_range in Hr. change (2 ^ 1) with 2 in *. change (2 ^ 2) with 4 in *. change (2 ^ 3) with 8.
  change (2 ^ 4) with 16.
  pose proof (Z.div_mod raw 2 ltac:(lia)) as Ea. set (a := raw / 2) in *.
  pose proof (Z.div_mod a 4 ltac:(lia)) as Eb. set (b := a / 4) in *.
  pose proof (Z.div_mod b 2 ltac:(lia)) as Ec. pose proof (Z.mod_pos_bound b 2 ltac:(lia)).
  set (c := b / 2) in *. assert (raw = 16 * c + 8 * (b mod 2) + 4) as E by lia.
  change (2 ^ Z.ones 2) with 8. assert (raw / 8 = b) as -> by (symmetry; apply Z.div_unique with 4; lia).
  assert (raw / 4 = 2 * b + 1) as -> by (symmetry; apply Z.div_unique with 0; lia).
  assert (raw / 16 = c) as -> by (symmetry; apply Z.div_unique with (8 * (b mod 2) + 4); lia).
  rewrite !(Z.mod_small _ (2 ^ 32)) by lia. lia.
Qed.

Lemma BAR_base_addr_swapped_witness : BAR_base_addr 0xFEB0000C = 0xFEB00000 + 4 + 8.
Proof.
  etrans; [apply (BAR_base_addr_swapped 0xFEB0000C)|].
  - split; vm_compute; congruence.
  - reflexivity.
  - by vm_compute.
  - by vm_compute.
Defined.

(** An MSI message address built from the structure has the destination and
    the 0xFEE prefix 4 bits too high: [rsrv1] is not a bit-field. *)
Theorem msi_address_misplaced :
  pl_off (field_of x86_64_msi_message_address_reg "destination_id") = 16 /\
  pl_off (field_of x86_64_msi_message_address_reg "_0x0fee") = 24.
Proof. by vm_compute. Qed.

Lemma addr_plus_word a off : 0 <= off < 4 -> addr_plus a off = a.
Proof.
  intros Ho. unfold addr_plus. layout_eval.
  replace (Z.land off (Z.lnot 3)) with 0.
  - rewrite Z.add_0_r. by apply set_bits_bits.
  - assert (off = 0 \/ off = 1 \/ off = 2 \/ off = 3) as [->|[->|[->| ->]]] by lia; done.
Qed.

(** A capability list starts at the register that points to it: the first
    "capability" of a device has the low byte of the pointer register at 0x34
    as its id and the reserved byte behind it as its successor, and the byte
    the pointer designates is never read. *)
Theorem capabilities_start_at_pointer (H : Type) (C : ConfigSpace H) (s : @state H) a :
  let first := CapabilityIterator_deref (Capabilities_begin (capabilities 0x34 a)) in
  (exists s', cast (capability_id first) s = Ok (reg (hw s) (Proxy a 0x34 1), s')) /\
  (exists s', cast (next_capability_pointer first) s = Ok (reg (hw s) (Proxy a 0x35 1), s')).
Proof.
  intros first. rewrite !cast_run. unfold first, capability_id, next_capability_pointer, reg, word, word_addr.
  cbn [CapabilityIterator_deref Capabilities_begin CapabilityIterator_new current_capability
    Pci.base Pci.offset Pci.sizeof_T]. unfold capabilities. rewrite (addr_plus_word _ 0), (addr_plus_word _ 1) by lia.
  split; eexists; reflexivity.
Qed.

(** [table_offset] and [pending_bit_array_offset] mask with a logical negation
    and return 0 whatever the register holds. *)
Theorem msix_offsets_zero (H : Type) (C : ConfigSpace H) (s : @state H) b :
  result_of (table_offset b s) = Some 0 /\ result_of (pending_bit_array_offset b s) = Some 0.
Proof.
  unfold table_offset, pending_bit_array_offset.
  rewrite !(bind_Ok _ _ _ _ _ (cast_run _ s)). unfold mret, M_ret. cbn [result_of].
  by rewrite !Z.land_0_r.
Qed.

(** No two registers of a class of device overlap. *)
Definition registers_apart (l : list RegisterProxy) : bool :=
  forallb (fun i => forallb (fun j =>
    match l !! i, l !! j with
    | Some p, Some q => bool_decide (i = j) || (offset p + sizeof_T p <=? offset q) || (offset q + sizeof_T q <=? offset p)
    | _, _ => true
    end) (seq 0 (length l))) (seq 0 (length l)).

Lemma device_registers_apart :
  registers_apart (Device_registers 0) = true /\ registers_apart (PCIToPCIBridge_registers 0) = true /\
  registers_apart (PCIToCardBusBridge_registers 0) = true.
Proof. by vm_compute. Qed.

End PciProps.
