(* ===== verification/PciLegacy.v ===== *)
(** devices/pci.c: the C driver that HostController.cpp replaces.

    Its header pcidef.h is not in the repository: the constants, structure
    layouts and name tables it takes from it are the record [pcidef].  Module
    PciLegacy has the configuration registers, the enumeration with its table of
    eight buses and the search for the MSI-X capability; PciLegacyFacts relates
    it to the enumeration of Pci.v. *)
From S2P Require Import Prelude Layout Stdio PciIds Pci.


Module PciLegacy.

(** What pcidef.h defines, under the names pci.c uses. *)
Record pcidef := {
  PCI_CONFIG_ADDRESS_PORT : Z;
  PCI_CONFIG_DATA_PORT : Z;
  (* .raw of the members bus, device, function, offset, enable *)
  pci_config_address_t : Z -> Z -> Z -> Z -> Z -> Z;
  PCI_VENDOR_ID_REG_OFFSET : Z;
  PCI_DEVICE_ID_REG_OFFSET : Z;
  PCI_STATUS_REG_OFFSET : Z;
  PCI_REVISION_ID_REG_OFFSET : Z;
  PCI_PROG_IF_REG_OFFSET : Z;
  PCI_SUBCLASS_REG_OFFSET : Z;
  PCI_CLASS_CODE_REG_OFFSET : Z;
  PCI_HEADER_TYPE_REG_OFFSET : Z;
  PCI_BAR0_OFFSET : Z;
  PCI_SECONDARY_BUS_NUM_REG_OFFSET : Z;
  PCI_CAPABILITIES_POINTER_REG_OFFSET : Z;
  PCI_VENDOR_ID_INVALID : Z;
  BridgeDevice : Z;
  PCI_TO_PCI : Z;
  is_multi_function : Z -> Z;          (* member of pci_header_type_reg *)
  capabilities_list : Z -> Z;          (* member of pci_status_reg *)
  capability_id : Z -> Z;              (* members of pci_capaibility_common *)
  next_capability_pointer : Z -> Z;
  MSIX : Z;
  MSIX_BIR_OFFSET : Z;
  BAR_REG_IS_IO_SPACE : Z -> bool;
  memory_space_bar_type : Z -> Z;      (* member of memory_space_bar_reg *)
  MEMORY_SPACE_BAR_64_BIT : Z;
  (* name tables; a missing entry is a null pointer *)
  pci_vendor_strings : Z -> option (list Z);
  pci_device_strings : Z -> Z -> option (list Z);
  pci_class_strings : Z -> option (list Z);
  pci_subclass_strings : Z -> Z -> option (list Z)
}.

Section driver.
Context {H : Type} `{ConfigSpace H} (P : pcidef).

Inductive arg := Num (n : Z) | Text (t : list Z).

(** Configuration space, the latched address, the static array of
    [enumerate_pci_bus] and the messages printed. *)
Record state := State {
  hw : H; address : Z; enumerated_buses : list Z; messages : list (string * list arg) }.

(** The ports of the machine are where they are, whatever the header says. *)
Definition out32 (port v : Z) : M state unit := modify (fun s =>
  if port =? Pci.address_port then State (hw s) (u32 v) (enumerated_buses s) (messages s)
  else if port =? Pci.data_port then
    State (cfg_write (hw s) (address s) (u32 v)) (address s) (enumerated_buses s) (messages s)
  else s).

Definition in32 (port : Z) : M state Z := gets (fun s =>
  if port =? Pci.data_port then u32 (cfg_read (hw s) (address s)) else address s).

Definition debug_printf (fmt : string) (args : list arg) : M state unit := modify (fun s =>
  State (hw s) (address s) (enumerated_buses s) (messages s ++ [(fmt, args)])).

(** *** Registers *)

Definition pci_config_address (bus device function offset : Z) : Z :=
  u32 (pci_config_address_t P bus device function (Z.land offset 0xFC) 1).

(** The three read functions differ in their return type. *)
Definition pci_read (w bus device function offset : Z) : M state Z :=
  out32 (PCI_CONFIG_ADDRESS_PORT P) (pci_config_address bus device function offset) ;;
  v ← in32 (PCI_CONFIG_DATA_PORT P);
  mret (wrap w (Z.shiftr v (Z.land offset 3 * 8))).
Definition pci_read_register8 := pci_read 8.
Definition pci_read_register16 := pci_read 16.
Definition pci_read_register32 := pci_read 32.

Definition pci_write_register8 (bus device function offset value : Z) : M state unit :=
  out32 (PCI_CONFIG_ADDRESS_PORT P) (pci_config_address bus device function offset) ;;
  cur ← in32 (PCI_CONFIG_DATA_PORT P);
  let cur := Z.land cur (u32 (Z.lnot (Z.shiftl 0xFF (Z.land offset 3 * 8)))) in
  let cur := Z.lor cur (u32 (Z.shiftl value (Z.land offset 3 * 8))) in
  out32 (PCI_CONFIG_DATA_PORT P) cur.

Definition pci_write_register16 (bus device function offset value : Z) : M state unit :=
  out32 (PCI_CONFIG_ADDRESS_PORT P) (pci_config_address bus device function offset) ;;
  val ← in32 (PCI_CONFIG_DATA_PORT P);
  let val := Z.land val (u32 (Z.lnot (Z.shiftl 0xFFFF (Z.land offset 2 * 8)))) in
  let val := Z.lor val (u32 (Z.shiftl value (Z.land offset 2 * 8))) in
  out32 (PCI_CONFIG_DATA_PORT P) val.

Definition pci_write_register32 (bus device function offset value : Z) : M state unit :=
  out32 (PCI_CONFIG_ADDRESS_PORT P) (pci_config_address bus device function offset) ;;
  out32 (PCI_CONFIG_DATA_PORT P) value.

(** *** Enumeration *)

(** [sprintf(buf, "%x ", id); strcpy(buf + n, name)] into a buffer of 128: the
    prefix, the digits of the [int] and a space, then the name. *)
Definition name_text (id : Z) (name : option (list Z)) : M state (list Z) :=
  match name with
  | None => fail (Unmapped 0)
  | Some s =>
      let t := (chars "0x" ++ StdioFacts.number_text 16 (u64 (i32 id)) ++ [32]) ++ s in
      if 128 <? Z.of_nat (length t) + 1 then fail (OutOfBounds 128) else mret t
  end.

Definition FOUND : string :=
  "Found PCI device:\n\tbus:%u, device:%u, function:%u\n\tvendor:%s, device:%s, revision:%u\n\tclass:%s, subclass:%s, interface:%u\n".

Section enumerate.
Context (enumerate_bus : Z -> M state unit).

Definition enumerate_function (bus device function : Z) : M state unit :=
  vendorID ← pci_read_register16 bus device function (PCI_VENDOR_ID_REG_OFFSET P);
  deviceID ← pci_read_register16 bus device function (PCI_DEVICE_ID_REG_OFFSET P);
  revisionID ← pci_read_register8 bus device function (PCI_REVISION_ID_REG_OFFSET P);
  class ← pci_read_register8 bus device function (PCI_CLASS_CODE_REG_OFFSET P);
  subclass ← pci_read_register8 bus device function (PCI_SUBCLASS_REG_OFFSET P);
  progIF ← pci_read_register8 bus device function (PCI_PROG_IF_REG_OFFSET P);
  vendor ← name_text vendorID (pci_vendor_strings P vendorID);
  device_str ← name_text deviceID (pci_device_strings P vendorID deviceID);
  class_str ← name_text class (pci_class_strings P class);
  subclass_str ← name_text subclass (pci_subclass_strings P class subclass);
  debug_printf FOUND
    [Num bus; Num device; Num function; Text vendor; Text device_str; Num revisionID;
     Text class_str; Text subclass_str; Num progIF] ;;
  if (class =? BridgeDevice P) && (subclass =? PCI_TO_PCI P) then
    secondaryBus ← pci_read_register8 bus device function (PCI_SECONDARY_BUS_NUM_REG_OFFSET P);
    enumerate_bus secondaryBus
  else mret tt.

Definition enumerate_device (bus device : Z) : M state unit :=
  vendorID ← pci_read_register16 bus device 0 (PCI_VENDOR_ID_REG_OFFSET P);
  if vendorID =? PCI_VENDOR_ID_INVALID P then mret tt else
  enumerate_function bus device 0 ;;
  ht_reg ← pci_read_register8 bus device 0 (PCI_HEADER_TYPE_REG_OFFSET P);
  if negb (is_multi_function P ht_reg =? 0) then
    for_loop 7 1 (fun function =>
      vendorID ← pci_read_register16 bus device function (PCI_VENDOR_ID_REG_OFFSET P);
      if vendorID =? PCI_VENDOR_ID_INVALID P then mret tt
      else enumerate_function bus device function)
  else mret tt.

End enumerate.

(** The array has eight elements; its index is any bus number. *)
Fixpoint enumerate_pci_bus (fuel : nat) (bus : Z) : M state unit :=
  match fuel with
  | O => fail OutOfFuel
  | S fuel =>
      s ← get; seen ← index (enumerated_buses s) bus;
      if negb (seen =? 0) then mret tt else
      debug_printf "Enumerating PCI bus %u\n" [Num bus] ;;
      modify (fun s =>
        State (hw s) (address s) (updateZ (enumerated_buses s) bus 1) (messages s)) ;;
      for_loop 32 0 (fun device => enumerate_device (enumerate_pci_bus fuel) bus device)
  end.

Definition enumerate_all_pci_buses (fuel : nat) : M state unit :=
  bus0_ht ← pci_read_register8 0 0 0 (PCI_HEADER_TYPE_REG_OFFSET P);
  (if is_multi_function P bus0_ht =? 0 then enumerate_pci_bus fuel 0
   else for_loop 8 0 (fun bus_as_function_number =>
     debug_printf "Checking PCI bus %u\n" [Num bus_as_function_number] ;;
     vendorID ← pci_read_register16 0 0 bus_as_function_number (PCI_VENDOR_ID_REG_OFFSET P);
     when (vendorID =? PCI_VENDOR_ID_INVALID P)
       (debug_printf "No PCI host controller at (0, 0, %u)\n" [Num bus_as_function_number]) ;;
     enumerate_pci_bus fuel bus_as_function_number)) ;;
  debug_printf "PCI enumeration complete\n" [].

(** *** MSI-X *)

(** The walk of the capability list, to the MSI-X capability or to its end. *)
Fixpoint find_msix (fuel : nat) (bus device function cap_off : Z) : M state (option Z) :=
  match fuel with
  | O => fail OutOfFuel
  | S fuel =>
      if cap_off =? 0 then mret None else
      cap ← pci_read_register16 bus device function cap_off;
      if capability_id P cap =? MSIX P then mret (Some cap_off)
      else find_msix fuel bus device function (u8 (next_capability_pointer P cap))
  end.

Definition enable_msix (fuel : nat) (bus device function : Z) : M state unit :=
  status ← pci_read_register16 bus device function (PCI_STATUS_REG_OFFSET P);
  if capabilities_list P status =? 0 then debug_printf "Error: No capabilities list\n" [] else
  cap_off ← pci_read_register8 bus device function (PCI_CAPABILITIES_POINTER_REG_OFFSET P);
  found ← find_msix fuel bus device function cap_off;
  match found with
  | None => debug_printf "Error: No MSI-X capability\n" []
  | Some cap_off =>
      bir ← pci_read_register8 bus device function (u8 (cap_off + MSIX_BIR_OFFSET P));
      let msix_bar_off := u8 (PCI_BAR0_OFFSET P + bir) in
      msix_bar_v ← pci_read_register32 bus device function msix_bar_off;
      if BAR_REG_IS_IO_SPACE P msix_bar_v then
        debug_printf "Error: MSI-X BAR is in IO space\n" []
      else if negb (memory_space_bar_type P msix_bar_v =? MEMORY_SPACE_BAR_64_BIT P) then
        debug_printf "Error: MSI-X BAR is not 64-bit\n" []
      else mret tt
  end.

End driver.
Arguments state : clear implicits.
End PciLegacy.

Module PciLegacyFacts.
Import PciIds PciLegacy.

(** What the PCI specification fixes of the missing header: configuration
    mechanism 1 and the register offsets and codes of the type 0 and 1
    headers. *)
Record pcidef_ok (P : pcidef) : Prop := {
  ok_address_port : PCI_CONFIG_ADDRESS_PORT P = 0xCF8;
  ok_data_port : PCI_CONFIG_DATA_PORT P = 0xCFC;
  ok_address b d f o : 0 <= b < 256 -> 0 <= d < 32 -> 0 <= f < 8 -> 0 <= o < 256 ->
    pci_config_address_t P b d f o 1 = 2 ^ 31 + b * 2 ^ 16 + d * 2 ^ 11 + f * 2 ^ 8 + o;
  ok_vendor : PCI_VENDOR_ID_REG_OFFSET P = 0x00;
  ok_device : PCI_DEVICE_ID_REG_OFFSET P = 0x02;
  ok_revision : PCI_REVISION_ID_REG_OFFSET P = 0x08;
  ok_prog_if : PCI_PROG_IF_REG_OFFSET P = 0x09;
  ok_subclass : PCI_SUBCLASS_REG_OFFSET P = 0x0A;
  ok_class : PCI_CLASS_CODE_REG_OFFSET P = 0x0B;
  ok_header_type : PCI_HEADER_TYPE_REG_OFFSET P = 0x0E;
  ok_secondary : PCI_SECONDARY_BUS_NUM_REG_OFFSET P = 0x19;
  ok_invalid : PCI_VENDOR_ID_INVALID P = 0xFFFF;
  ok_bridge : BridgeDevice P = 0x06;
  ok_pci_to_pci : PCI_TO_PCI P = 0x04;
  ok_multi v : is_multi_function P v = bits 7 1 v
}.

(** Setting a field above every bit that is set. *)
Lemma set_bits_above off w v raw :
  0 <= w -> 0 <= off -> 0 <= raw < 2 ^ off -> 0 <= v < 2 ^ w ->
  set_bits off w v raw = raw + v * 2 ^ off.
Proof.
  intros Hw Ho Hr Hv. rewrite set_bits_arith, (wrap_small w v) by done.
  unfold bits. rewrite Z.shiftr_div_pow2, Z.div_small by done. change (wrap w 0) with (0 mod 2 ^ w).
  rewrite Z.mod_0_l by lia. lia.
Qed.

(** The address the C++ proxies use, as a number. *)
Lemma addr_plus_value b d f off :
  0 <= b < 256 -> 0 <= d < 32 -> 0 <= f < 8 -> 0 <= off < 256 ->
  Pci.addr_plus (Pci.addr_make b d f) off =
    2 ^ 31 + b * 2 ^ 16 + d * 2 ^ 11 + f * 2 ^ 8 + (off - off mod 4).
Proof.
  intros Hb Hd Hf Ho. unfold Pci.addr_plus, Pci.addr_make. layout_eval.
  change (set_bits 0 8 0 0) with 0.
  rewrite (set_bits_above 8 3 f 0), (set_bits_above 11 5 d), (set_bits_above 16 8 b),
    (set_bits_above 24 7 0), (set_bits_above 31 1 1) by lia.
  set (a := 0 + _ + _ + _ + _ + _).
  assert (a = 256 * (2 ^ 23 + b * 2 ^ 8 + d * 2 ^ 3 + f)) as Ea by (unfold a; lia).
  assert (bits 0 8 a = 0) as E0.
  { rewrite Ea. unfold bits, wrap. rewrite Z.shiftr_0_r, Z.mul_comm. apply Z_mod_mult. }
  rewrite E0, Z.add_0_l, set_bits_arith, E0 by lia.
  rewrite <- Z.ldiff_land. change 3 with (Z.ones 2). rewrite Z.ldiff_ones_r by lia.
  rewrite Z.shiftl_mul_pow2, Z.shiftr_div_pow2 by lia. change (2 ^ 2) with 4.
  pose proof (Z.div_mod off 4). pose proof (Z.mod_pos_bound off 4).
  rewrite wrap_small by (unfold in_range; lia). lia.
Qed.

Lemma word_offset off : 0 <= off < 256 -> Z.land off 0xFC = off - off mod 4.
Proof.
  intros Ho. apply Z.eqb_eq.
  assert (forallb (fun o => Z.land o 0xFC =? o - o mod 4) (seqZ 0 256) = true) as A by by vm_compute.
  rewrite forallb_forall in A. apply A, list_elem_of_In, elem_of_seqZ. lia.
Qed.

Section driver.
Context {H : Type} `{ConfigSpace H} (P : pcidef) (ok : pcidef_ok P).
Implicit Types (s : state H) (c : @Pci.state H).

Definition in_bus (b d f : Z) : Prop := 0 <= b < 256 /\ 0 <= d < 32 /\ 0 <= f < 8.

(** A read returns what the C++ register proxies read, and latches the address. *)
Lemma pci_read_run w sz b d f off s :
  in_bus b d f -> 0 <= off < 256 -> w = 8 * sz ->
  exists a, pci_read P w b d f off s =
    Ok (PciFacts.reg (hw s) (Pci.Proxy (Pci.addr_make b d f) off sz),
        State (hw s) a (enumerated_buses s) (messages s)).
Proof.
  intros (Hb & Hd & Hf) Ho ->. eexists. unfold pci_read.
  assert (pci_config_address P b d f off =
    u32 (Pci.addr_plus (Pci.addr_make b d f) off)) as E.
  { unfold pci_config_address. pose proof (Z.mod_pos_bound off 4). rewrite word_offset by done.
    rewrite (ok_address P ok), addr_plus_value by (done || Z.div_mod_to_equations; lia). done. }
  rewrite E, (ok_address_port P ok), (ok_data_port P ok).
  unfold out32. change (0xCF8 =? Pci.address_port) with true. rewrite wrap_wrap by lia.
  mrun reflexivity. mrun reflexivity. reflexivity.
Qed.

(** *** Simulation of the C++ enumeration *)

(** The table has a name for [id], and the name and what [sprintf] writes before
    it fit in the buffer. *)
Definition name_fits (id : Z) (name : option (list Z)) : Prop :=
  exists t p, name = Some t /\ StdioFacts.render (chars "%x ") [StdioFacts.ANum id] = Some p /\
    Z.of_nat (length (p ++ t)) < 128.

(** Every function of the machine has its names. *)
Definition names_ok (h : H) : Prop := forall b d f,
  let r off sz := PciFacts.reg h (Pci.Proxy (Pci.addr_make b d f) off sz) in
  PciFacts.present h (b, d, f) = true ->
  name_fits (r 0x00 2) (pci_vendor_strings P (r 0x00 2)) /\
  name_fits (r 0x02 2) (pci_device_strings P (r 0x00 2) (r 0x02 2)) /\
  name_fits (r 0x0B 1) (pci_class_strings P (r 0x0B 1)) /\
  name_fits (r 0x0A 1) (pci_subclass_strings P (r 0x0B 1) (r 0x0A 1)).

(** The devices announced in the messages. *)
Definition announced (m : string * list arg) : option (Z * Z * Z) :=
  match m.2 with
  | Num b :: Num d :: Num f :: _ => if String.eqb m.1 FOUND then Some (b, d, f) else None
  | _ => None
  end.
Definition found (s : state H) : list (Z * Z * Z) := omap announced (messages s).

Section simulation.
Context (h : H).
Hypothesis Hback : forall b d f, let p := Pci.header_type_reg (Pci.addr_make b d f) in
  cfg_write h (PciFacts.word_addr p) (PciFacts.word h p) = h.
Hypothesis Hnames : names_ok h.
(** No bridge on a bus of the table leads to a bus outside it. *)
Hypothesis Hlow : forall x, 0 <= x.1.1 < 8 -> PciFacts.present h x = true ->
  PciFacts.is_bridge h x = true -> PciFacts.secondary h x < 8.

Record related s c : Prop := {
  rel_hw : hw s = h;
  rel_hw' : Pci.hw c = h;
  rel_length : length (enumerated_buses s) = 8%nat;
  rel_seen b : 0 <= b < 8 ->
    exists v, lookupZ (enumerated_buses s) b = Some v /\ (v = 0 <-> b ∉ Pci.enumerated_buses c)
}.

(** The C run announces what the C++ run yields after [pre]. *)
Definition simulates (pre : list (Z * Z * Z)) (l : M (state H) unit)
    (m : M (@Pci.state H) (list (Z * Z * Z))) : Prop :=
  forall s c devs c', related s c -> m c = Ok (devs, c') ->
  exists s' new, l s = Ok (tt, s') /\ related s' c' /\ devs = pre ++ new /\ found s' = found s ++ new.

Lemma sim_ret pre : simulates pre (mret tt) (mret pre).
Proof. intros s c devs c' R [= <- <-]. exists s, []. by rewrite !app_nil_r. Qed.

Lemma related_address s c a a' :
  related s c ->
  related (State (hw s) a (enumerated_buses s) (messages s))
    (Pci.State (Pci.hw c) a' (Pci.enumerated_buses c) (Pci.messages c)).
Proof. by intros [? ? ? ?]. Qed.

Lemma sim_read pre w sz b d f off k m :
  in_bus b d f -> 0 <= off < 256 -> w = 8 * sz ->
  simulates pre (k (PciFacts.reg h (Pci.Proxy (Pci.addr_make b d f) off sz))) m ->
  simulates pre (pci_read P w b d f off ≫= k) m.
Proof.
  intros Hb Ho Hw Hk s c devs c' R Hm.
  destruct (pci_read_run w sz b d f off s Hb Ho Hw) as [a Ha].
  rewrite (rel_hw _ _ R) in Ha. rewrite (bind_Ok _ _ _ _ _ Ha).
  destruct (Hk (State h a (enumerated_buses s) (messages s)) c devs c') as (s' & new & E);
    [by destruct R|done|]. by exists s', new.
Qed.

Lemma sim_cast pre p l k :
  simulates pre l (k (PciFacts.reg h p)) -> simulates pre l (Pci.cast p ≫= k).
Proof.
  intros Hk s c devs c' R Hm. apply bind_inv in Hm as (v & c1 & Hc & Hm).
  rewrite PciFacts.cast_run, (rel_hw' _ _ R) in Hc. injection Hc as <- <-.
  eapply Hk; [|exact Hm]. by destruct R.
Qed.

Lemma sim_create pre b d f l k :
  simulates pre l (k (Pci.addr_make b d f)) -> simulates pre l (Pci.create_device b d f ≫= k).
Proof.
  intros Hk s c devs c' R Hm. apply bind_inv in Hm as (v & c1 & Hc & Hm).
  destruct (PciFacts.create_device_at h b d f (Pci.enumerated_buses c) c) as (c2 & Hc2 & Ha & He);
    [split; [apply (rel_hw' _ _ R)|done]|].
  rewrite Hc2 in Hc. injection Hc as <- <-. eapply Hk; [|exact Hm].
  destruct R. split; [done..|]. by rewrite He.
Qed.

Lemma sim_arrow pre b d f l k (g : Z -> Z) :
  simulates pre l (k (g (PciFacts.reg h (Pci.header_type_reg (Pci.addr_make b d f))))) ->
  simulates pre l (Pci.arrow (Pci.header_type_reg (Pci.addr_make b d f)) g ≫= k).
Proof.
  intros Hk s c devs c' R Hm. apply bind_inv in Hm as (v & c1 & Hc & Hm).
  destruct (PciFacts.arrow_header_at h Hback b d f (Pci.enumerated_buses c) c g) as (c2 & Hc2 & Ha & He);
    [split; [apply (rel_hw' _ _ R)|done]|].
  rewrite Hc2 in Hc. injection Hc as <- <-. eapply Hk; [|exact Hm].
  destruct R. split; [done..|]. by rewrite He.
Qed.

Lemma sim_seq l1 l2 m k :
  simulates [] l1 m -> (forall d, simulates d l2 (k d)) -> simulates [] (l1 ;; l2) (m ≫= k).
Proof.
  intros H1 H2 s c devs c' R Hm. apply bind_inv in Hm as (d & c1 & Hc & Hm).
  destruct (H1 _ _ _ _ R Hc) as (s1 & n1 & E1 & R1 & D1 & F1). simpl in D1. subst d.
  destruct (H2 _ _ _ _ _ R1 Hm) as (s2 & n2 & E2 & R2 & D2 & F2).
  exists s2, (n1 ++ n2). rewrite (bind_Ok _ _ _ _ _ E1). split; [done|]. split; [done|].
  split; [done|]. by rewrite F2, F1, app_assoc.
Qed.

Lemma sim_append d l m : simulates [] l m -> simulates d l (x ← m; mret (d ++ x)).
Proof.
  intros H1 s c devs c' R Hm. apply bind_inv in Hm as (x & c1 & Hc & [= <- <-]).
  destruct (H1 _ _ _ _ R Hc) as (s1 & n1 & E1 & R1 & D1 & F1). simpl in D1. subst x. by exists s1, n1.
Qed.

Lemma sim_name pre id name k m :
  name_fits id name -> (forall t, simulates pre (k t) m) ->
  simulates pre (name_text id name ≫= k) m.
Proof.
  intros (t & p & -> & Hp & Ht) Hk s c devs c' R Hm. unfold name_text.
  assert (chars "0x" ++ StdioFacts.number_text 16 (u64 (i32 id)) ++ [32] = p) as -> by (by injection Hp as <-).
  rewrite (proj2 (Z.ltb_ge _ _)) by lia. mrun reflexivity. by eapply Hk.
Qed.

Lemma sim_found b d f args l m :
  simulates [] l m ->
  simulates [] (debug_printf FOUND (Num b :: Num d :: Num f :: args) ;; l)
    (x ← m; mret ((b, d, f) :: x)).
Proof.
  intros H1 s c devs c' R Hm. apply bind_inv in Hm as (x & c1 & Hc & [= <- <-]).
  edestruct (H1 (State (hw s) (address s) (enumerated_buses s)
    (messages s ++ [(FOUND, Num b :: Num d :: Num f :: args)])) c) as (s1 & n1 & E1 & R1 & D1 & F1);
    [by destruct R|exact Hc|].
  simpl in D1. subst x. exists s1, ((b, d, f) :: n1). mrun reflexivity. split; [exact E1|].
  split; [done|]. split; [done|]. rewrite F1. unfold found. cbn [messages].
  rewrite omap_app, <- app_assoc. done.
Qed.

Lemma sim_loop lb cb n : forall i,
  (forall j, i <= j < i + Z.of_nat n -> simulates [] (lb j) (cb j)) ->
  simulates [] (for_loop n i lb) (Pci.collect n i cb).
Proof.
  induction n as [|n IH]; intros i Hb; [apply sim_ret|]. cbn [for_loop Pci.collect].
  apply sim_seq; [apply Hb; lia|]. intros d. apply sim_append, IH. intros j Hj. apply Hb. lia.
Qed.

Section functions.
Context (rec_l : Z -> M (state H) unit) (rec_c : Z -> M (@Pci.state H) (list (Z * Z * Z))).
Hypothesis Hrec : forall b, 0 <= b < 8 -> simulates [] (rec_l b) (rec_c b).

Lemma enumerate_function_sim b d f :
  0 <= b < 8 -> in_bus b d f -> PciFacts.present h (b, d, f) = true ->
  simulates [] (enumerate_function P rec_l b d f) (Pci.enumerate_function rec_c b d f).
Proof.
  intros Hb Hbus Hp. destruct (Hnames b d f Hp) as (N1 & N2 & N3 & N4). unfold enumerate_function.
  rewrite (ok_vendor P ok), (ok_device P ok), (ok_revision P ok), (ok_class P ok), (ok_subclass P ok),
    (ok_prog_if P ok), (ok_secondary P ok), (ok_bridge P ok), (ok_pci_to_pci P ok).
  apply (sim_read _ 16 2); [done|lia|done|]. apply (sim_read _ 16 2); [done|lia|done|].
  apply (sim_read _ 8 1); [done|lia|done|]. apply (sim_read _ 8 1); [done|lia|done|].
  apply (sim_read _ 8 1); [done|lia|done|]. apply (sim_read _ 8 1); [done|lia|done|].
  apply sim_name; [exact N1|intros t1]. apply sim_name; [exact N2|intros t2].
  apply sim_name; [exact N3|intros t3]. apply sim_name; [exact N4|intros t4].
  unfold Pci.enumerate_function. apply sim_cast.
  pose proof (Hlow (b, d, f) Hb Hp) as Hs. unfold PciFacts.is_bridge, PciFacts.secondary in Hs.
  cbn [fst snd] in Hs. unfold Pci.class_id, Pci.subclass_id, Pci.secondary_bus in *.
  change (DeviceClass_code DeviceClass_BridgeDevice) with 6 in *.
  change (Bridge_SubclassID_code Bridge_PCI_TO_PCI) with 4 in *.
  destruct (PciFacts.reg h (Pci.Proxy (Pci.addr_make b d f) 11 1) =? 6); cbn [andb] in *;
    [|exact (sim_found b d f _ (mret tt) (mret []) (sim_ret []))].
  apply sim_cast.
  destruct (PciFacts.reg h (Pci.Proxy (Pci.addr_make b d f) 10 1) =? 4); cbn [andb] in *;
    [|exact (sim_found b d f _ (mret tt) (mret []) (sim_ret []))].
  apply sim_cast, sim_found. apply (sim_read _ 8 1); [done|lia|done|]. apply Hrec.
  split; [|by apply Hs]. apply (bits_range _ (8 * 1)). lia.
Qed.

Lemma is_multi_eq b d :
  negb (is_multi_function P (PciFacts.reg h (Pci.Proxy (Pci.addr_make b d 0) 14 1)) =? 0) =
  PciFacts.is_multi_function h b d.
Proof. unfold PciFacts.is_multi_function. rewrite (ok_multi P ok). layout_eval. done. Qed.

Lemma enumerate_device_sim b d :
  0 <= b < 8 -> 0 <= d < 32 ->
  simulates [] (enumerate_device P rec_l b d) (Pci.enumerate_device rec_c b d).
Proof.
  intros Hb Hd. assert (forall f, 0 <= f < 8 -> in_bus b d f) as Hbus by (unfold in_bus; lia).
  unfold enumerate_device, Pci.enumerate_device.
  rewrite (ok_vendor P ok), (ok_header_type P ok), (ok_invalid P ok).
  apply sim_create, sim_cast. apply (sim_read _ 16 2); [apply Hbus; lia|lia|done|].
  fold (Pci.vendor_id (Pci.addr_make b d 0)). change Pci.VENDOR_NOT_PRESENT with 0xFFFF.
  destruct (PciFacts.reg h (Pci.vendor_id (Pci.addr_make b d 0)) =? 0xFFFF) eqn:E0; [apply sim_ret|].
  assert (forall f, 0 <= f < 8 -> (f = 0 \/ PciFacts.is_multi_function h b d = true /\
    (PciFacts.reg h (Pci.vendor_id (Pci.addr_make b d f)) =? 0xFFFF) = false) ->
    PciFacts.present h (b, d, f) = true) as Hp.
  { intros f Hf Hc. unfold PciFacts.present, PciFacts.vendor. cbn [fst snd].
    change Pci.VENDOR_NOT_PRESENT with 0xFFFF. rewrite E0.
    rewrite !(proj2 (Z.leb_le _ _)), !(proj2 (Z.ltb_lt _ _)) by lia. cbn [andb negb].
    destruct Hc as [->|[-> ->]]; [done|]. by rewrite orb_true_r. }
  apply sim_seq. { apply enumerate_function_sim; [done|apply Hbus; lia|apply Hp; lia]. }
  intros l0. apply sim_arrow. apply (sim_read _ 8 1); [apply Hbus; lia|lia|done|].
  rewrite is_multi_eq.
  change (negb (fget Pci.device_header_type "is_multi_function" _ =? 0)) with
    (PciFacts.is_multi_function h b d).
  destruct (PciFacts.is_multi_function h b d) eqn:Em; [|apply sim_ret].
  apply sim_append, sim_loop. intros f Hf.
  apply sim_create, sim_cast. apply (sim_read _ 16 2); [apply Hbus; lia|lia|done|].
  fold (Pci.vendor_id (Pci.addr_make b d f)).
  destruct (PciFacts.reg h (Pci.vendor_id (Pci.addr_make b d f)) =? 0xFFFF) eqn:Ef; [apply sim_ret|].
  apply enumerate_function_sim; [done|apply Hbus; lia|]. apply Hp; [lia|auto].
Qed.

End functions.

Lemma enumerate_pci_bus_sim fuel : forall b, 0 <= b < 8 ->
  simulates [] (enumerate_pci_bus P fuel b) (Pci.enumerate_pci_bus fuel b).
Proof.
  induction fuel as [|fuel IH]; intros b Hb s c devs c' R Hm; [done|].
  destruct (rel_seen _ _ R b Hb) as (v & Hv & Hs). cbn [enumerate_pci_bus Pci.enumerate_pci_bus] in *.
  mrun reflexivity. rewrite (bind_Ok _ _ _ _ _ (index_Ok _ _ _ s Hv)).
  apply bind_inv in Hm as (seen & c1 & [= <- <-] & Hm).
  destruct (decide (b ∈ Pci.enumerated_buses c)) as [Hin|Hout].
  { rewrite (proj2 (Z.eqb_neq v 0)) by (intros E; by apply Hs in E).
    by apply (sim_ret [] s c devs c' R Hm). }
  rewrite (proj2 Hs Hout). cbn [Z.eqb negb]. mrun reflexivity. mrun reflexivity.
  rewrite (bind_Ok _ _ c _ _ eq_refl), (bind_Ok _ _ _ _ _ eq_refl) in Hm.
  eapply (sim_loop _ _ 32 0) in Hm as (s' & new & E & R' & D & F).
  - exists s', new. split; [exact E|]. split; [done|]. split; [done|]. rewrite F. unfold found.
    cbn [messages]. rewrite omap_app. simpl. by rewrite app_nil_r.
  - intros d Hd. apply (enumerate_device_sim _ _ IH); lia.
  - destruct R as [R1 R2 R3 R4]. split; [done|done|cbn; by rewrite updateZ_length|].
    intros b' Hb'. cbn [enumerated_buses Pci.enumerated_buses]. rewrite lookupZ_update by lia.
    destruct (decide (b' = b)) as [->|Hne].
    + exists 1. split; [done|]. split; [done|]. intros []. apply elem_of_union_l, elem_of_singleton. done.
    + destruct (R4 b' Hb') as (v' & Hv' & Hs'). exists v'. split; [done|]. rewrite Hs'.
      rewrite elem_of_union, elem_of_singleton. tauto.
Qed.

Lemma related_start a c :
  Pci.hw c = h -> Pci.enumerated_buses c = ∅ -> related (State h a (replicate 8 0) []) c.
Proof.
  intros Hc He. split; [done|done|done|]. intros b Hb. exists 0. split.
  - unfold lookupZ. rewrite (proj2 (Z.leb_le 0 b)) by lia. apply lookup_replicate. split; [done|lia].
  - rewrite He. split; [|done]. intros _. apply not_elem_of_empty.
Qed.

End simulation.
(** *** The capability list *)

Section capabilities.
Context (h : H) (b d f : Z).
Hypothesis Hbus : in_bus b d f.

Definition cap_word (off : Z) : Z := PciFacts.reg h (Pci.Proxy (Pci.addr_make b d f) off 2).
Definition next_cap (off : Z) : Z := u8 (next_capability_pointer P (cap_word off)).
Definition is_msix (off : Z) : bool := capability_id P (cap_word off) =? MSIX P.

(** The offsets the walk visits. *)
Definition visited (off : Z) (n : nat) : Z := Nat.iter n next_cap off.

Definition stops (off : Z) : bool := (off =? 0) || is_msix off.

Lemma visited_S off n : visited off (S n) = visited (next_cap off) n.
Proof. apply Nat.iter_succ_r. Qed.

Lemma visited_range off n : 0 <= off < 256 -> 0 <= visited off n < 256.
Proof. intros Ho. destruct n; [done|]. apply (wrap_range 8). lia. Qed.

(** The walk ends at the first offset that stops it. *)
Lemma find_msix_stops n : forall off fuel s,
  0 <= off < 256 -> hw s = h -> stops (visited off n) = true ->
  (forall i, (i < n)%nat -> stops (visited off i) = false) -> (n < fuel)%nat ->
  exists s', find_msix P fuel b d f off s =
    Ok (if visited off n =? 0 then None else Some (visited off n), s') /\ hw s' = h.
Proof.
  induction n as [|n IH]; intros off [|fuel] s Ho Hs Hn Hi Hf; try lia; cbn [find_msix].
  - change (visited off 0) with off in *. destruct (Z.eqb_spec off 0); [by exists s|].
    destruct (pci_read_run 16 2 b d f off s Hbus Ho eq_refl) as [a Ha].
    unfold pci_read_register16. rewrite (bind_Ok _ _ _ _ _ Ha). unfold stops, is_msix, cap_word in Hn.
    rewrite Hs in *. rewrite (proj2 (Z.eqb_neq off 0)) in Hn by done. simpl in Hn. rewrite Hn.
    by eexists.
  - pose proof (Hi O ltac:(lia)) as H0'. change (visited off 0) with off in H0'.
    unfold stops in H0'. apply orb_false_iff in H0' as [E0 E1]. rewrite E0.
    destruct (pci_read_run 16 2 b d f off s Hbus Ho eq_refl) as [a Ha].
    unfold pci_read_register16. rewrite (bind_Ok _ _ _ _ _ Ha).
    unfold is_msix, cap_word in E1. rewrite Hs in *. rewrite E1. rewrite visited_S in *.
    apply IH; [apply (wrap_range 8); lia|done|done| |lia].
    intros i Hl. pose proof (Hi (S i) ltac:(lia)) as E. by rewrite visited_S in E.
Qed.

Lemma find_msix_never fuel : forall off s,
  0 <= off < 256 -> hw s = h -> (forall i, stops (visited off i) = false) ->
  find_msix P fuel b d f off s = Fault OutOfFuel.
Proof.
  induction fuel as [|fuel IH]; intros off s Ho Hs Hi; [done|]. cbn [find_msix].
  pose proof (Hi O) as H0'. change (visited off 0) with off in H0'.
  unfold stops in H0'. apply orb_false_iff in H0' as [E0 E1]. rewrite E0.
  destruct (pci_read_run 16 2 b d f off s Hbus Ho eq_refl) as [a Ha].
  unfold pci_read_register16. rewrite (bind_Ok _ _ _ _ _ Ha).
  unfold is_msix, cap_word in E1. rewrite Hs in *. rewrite E1.
  apply IH; [apply (wrap_range 8); lia|done|]. intros i. pose proof (Hi (S i)) as E. by rewrite visited_S in E.
Qed.

(** Before the walk stops it never visits an offset twice, so that it stops
    within 256 steps or not at all. *)
Lemma first_stop off : 0 <= off < 256 -> (exists n, stops (visited off n) = true) ->
  exists n, (n < 256)%nat /\ stops (visited off n) = true /\
    forall i, (i < n)%nat -> stops (visited off i) = false.
Proof.
  intros Ho [n Hn].
  assert (exists k, stops (visited off k) = true /\ forall i, (i < k)%nat -> stops (visited off i) = false)
    as (k & Hk & Hmin).
  { revert Hn. induction n as [n IH] using lt_wf_ind. intros Hn.
    destruct (decide (Exists (fun i => stops (visited off i) = true) (seq 0 n))) as [E|E].
    - apply Exists_exists in E as (i & Hi & Hs). apply elem_of_seq in Hi. apply (IH i); [lia|done].
    - exists n. split; [done|]. intros i Hi. apply not_true_iff_false. intros Hs. apply E.
      apply Exists_exists. exists i. split; [|done]. apply elem_of_seq. lia. }
  exists k. split; [|done]. destruct (decide (k < 256)%nat) as [|Hge]; [done|exfalso].
  assert (NoDup (visited off <$> seq 0 (S k))) as Hnd.
  { apply NoDup_alt. intros i j x Hi Hj. rewrite list_lookup_fmap in Hi, Hj.
    apply fmap_Some in Hi as (i' & Hi & ->). apply fmap_Some in Hj as (j' & Hj & Heq).
    apply lookup_seq in Hi as [-> Hi]. apply lookup_seq in Hj as [-> Hj]. simpl in Heq.
    assert (forall i j, (i < j)%nat -> (j < S k)%nat -> visited off i = visited off j -> False) as A.
    { clear -Hk Hmin. intros i j Hij Hjk E.
      assert (visited off (k - j + i) = visited off (k - j + j)) as E'.
      { unfold visited in *. by rewrite !Nat.iter_add, E. }
      replace (k - j + j)%nat with k in E' by lia.
      rewrite <- E', Hmin in Hk by lia. done. }
    destruct (decide (i < j)%nat); [by exfalso; eapply (A i j); eauto; lia|].
    destruct (decide (j < i)%nat); [by exfalso; eapply (A j i); eauto; lia|]. lia. }
  assert (length (visited off <$> seq 0 (S k)) <= length (seqZ 0 256))%nat as Hlen.
  { apply submseteq_length, NoDup_submseteq; [done|]. intros x Hx.
    apply list_elem_of_fmap in Hx as (i & -> & _). apply elem_of_seqZ.
    pose proof (visited_range off i Ho). lia. }
  rewrite length_fmap, length_seq, length_seqZ in Hlen. lia.
Qed.

End capabilities.
End driver.
End PciLegacyFacts.

Module PciLegacyProps.
Import PciLegacy PciLegacyFacts.


(** A header that follows the specification, with the same name for every
    device, and a machine whose configuration space cannot be written. *)
Definition spec_pcidef : pcidef := {|
  PCI_CONFIG_ADDRESS_PORT := 0xCF8; PCI_CONFIG_DATA_PORT := 0xCFC;
  pci_config_address_t b d f o e := e * 2 ^ 31 + b * 2 ^ 16 + d * 2 ^ 11 + f * 2 ^ 8 + o;
  PCI_VENDOR_ID_REG_OFFSET := 0x00; PCI_DEVICE_ID_REG_OFFSET := 0x02;
  PCI_STATUS_REG_OFFSET := 0x06; PCI_REVISION_ID_REG_OFFSET := 0x08;
  PCI_PROG_IF_REG_OFFSET := 0x09; PCI_SUBCLASS_REG_OFFSET := 0x0A;
  PCI_CLASS_CODE_REG_OFFSET := 0x0B; PCI_HEADER_TYPE_REG_OFFSET := 0x0E;
  PCI_BAR0_OFFSET := 0x10; PCI_SECONDARY_BUS_NUM_REG_OFFSET := 0x19;
  PCI_CAPABILITIES_POINTER_REG_OFFSET := 0x34; PCI_VENDOR_ID_INVALID := 0xFFFF;
  BridgeDevice := 0x06; PCI_TO_PCI := 0x04;
  is_multi_function := bits 7 1; capabilities_list := bits 4 1;
  capability_id := bits 0 8; next_capability_pointer := bits 8 8;
  MSIX := 0x11; MSIX_BIR_OFFSET := 4;
  BAR_REG_IS_IO_SPACE v := Z.testbit v 0; memory_space_bar_type := bits 1 2;
  MEMORY_SPACE_BAR_64_BIT := 2;
  pci_vendor_strings _ := Some (chars "vendor"); pci_device_strings _ _ := Some (chars "device");
  pci_class_strings _ := Some (chars "class"); pci_subclass_strings _ _ := Some (chars "subclass") |}.

Lemma spec_pcidef_ok : pcidef_ok spec_pcidef.
Proof. by split. Qed.

#[local] Instance rom_space : ConfigSpace (gmap Z Z) := {
  cfg_read h a := default 0xFFFFFFFF (h !! a);
  cfg_write h a v := h }.

Lemma number_text_length n : (length (StdioFacts.number_text 16 n) <= 64)%nat.
Proof.
  unfold StdioFacts.number_text, StdioFacts.numeral. rewrite length_fmap.
  destruct (n =? 0); [simpl; lia|]. rewrite length_reverse. apply StdioFacts.digits_lsb_length.
Qed.

Lemma spec_names_ok (h : gmap Z Z) : names_ok spec_pcidef h.
Proof.
  intros b d f r _. split_and!; eexists _, _; (split; [reflexivity|]); (split; [reflexivity|]);
    match goal with |- context [StdioFacts.number_text 16 ?n] => pose proof (number_text_length n) end;
    rewrite ?length_app; cbn [length chars]; rewrite ?length_app; cbn [length chars]; lia.
Qed.

(** A condition on the functions of the buses below 8, decided by evaluation. *)
Lemma low_buses_check (h : gmap Z Z) :
  forallb (fun b => forallb (fun d => forallb (fun f =>
    implb (PciFacts.present h (b, d, f) && PciFacts.is_bridge h (b, d, f))
      (PciFacts.secondary h (b, d, f) <? 8)) (seqZ 0 8)) (seqZ 0 32)) (seqZ 0 8) = true ->
  forall x, 0 <= x.1.1 < 8 -> PciFacts.present h x = true -> PciFacts.is_bridge h x = true ->
    PciFacts.secondary h x < 8.
Proof.
  intros Hc [[b d] f] Hb Hp Hbr. cbn [fst snd] in Hb.
  assert (0 <= d < 32 /\ 0 <= f < 8) as [Hd Hf].
  { unfold PciFacts.present in Hp. rewrite !andb_true_iff in Hp. lia. }
  rewrite forallb_forall in Hc. specialize (Hc b). rewrite forallb_forall in Hc.
  assert (forall i n, 0 <= i < n -> In i (seqZ 0 n)) as Hin
    by (intros; apply list_elem_of_In, elem_of_seqZ; lia).
  specialize (Hc (Hin _ _ Hb) d (Hin _ _ Hd)). rewrite forallb_forall in Hc.
  specialize (Hc f (Hin _ _ Hf)). rewrite Hp, Hbr in Hc. simpl in Hc. lia.
Qed.


(** C35. The search for the MSI-X capability ends on every list that ends:
    if following the pointers from [off] reaches 0, the loop returns within
    256 iterations; with the first capability on the list, before its end, whose
    id is MSI-X, or without one when the list up to its end has none. *)
Theorem find_msix_terminates (H : Type) (C : ConfigSpace H) P (s : state H) b d f off fuel :
  pcidef_ok P -> in_bus b d f -> 0 <= off < 256 ->
  (exists n, visited P (hw s) b d f off n = 0) -> (256 <= fuel)%nat ->
  exists r s' n, find_msix P fuel b d f off s = Ok (r, s') /\ hw s' = hw s /\
    (forall i, (i < n)%nat -> visited P (hw s) b d f off i <> 0 /\
       is_msix P (hw s) b d f (visited P (hw s) b d f off i) = false) /\
    match r with
    | Some o => o = visited P (hw s) b d f off n /\ o <> 0 /\ is_msix P (hw s) b d f o = true
    | None => visited P (hw s) b d f off n = 0
    end.
Proof.
  intros ok Hb Ho [n0 Hn0] Hf.
  destruct (first_stop P (hw s) b d f off Ho) as (n & Hn & Hs & Hi).
  { exists n0. rewrite Hn0. done. }
  destruct (find_msix_stops P ok (hw s) b d f Hb n off fuel s Ho eq_refl Hs Hi) as (s' & E & Hs'); [lia|].
  eexists _, s', n. split; [exact E|]. split; [done|]. split.
  { intros i Hl. apply Hi, orb_false_iff in Hl as [Hz%Z.eqb_neq Hm]. done. }
  destruct (Z.eqb_spec (visited P (hw s) b d f off n) 0) as [Hz|Hz]; [done|].
  unfold stops in Hs. rewrite (proj2 (Z.eqb_neq _ 0)) in Hs by done. done.
Qed.

(** Device 0:0 with the capabilities 5 at 0x40 and MSI-X at 0x50. *)
Definition msix_machine : gmap Z Z := list_to_map
  [(Pci.addr_plus (Pci.addr_make 0 0 0) 0x40, 0x5005); (Pci.addr_plus (Pci.addr_make 0 0 0) 0x50, 0x0011)].

Lemma find_msix_terminates_witness :
  exists s', find_msix spec_pcidef 256 0 0 0 0x40 (State msix_machine 0 [] []) = Ok (Some 0x50, s').
Proof.
  destruct (find_msix_terminates (gmap Z Z) rom_space spec_pcidef (State msix_machine 0 [] [])
    0 0 0 0x40 256) as (r & s' & n & E & _ & _ & Hr).
  - exact spec_pcidef_ok.
  - unfold in_bus. lia.
  - lia.
  - exists 2%nat. by vm_compute.
  - lia.
  - exists s'. rewrite E. revert E. vm_compute. by intros [= <- _].
Defined.

(** A list that leads back to itself without an MSI-X capability is walked
    for ever; the length of the walk is not limited. *)
Theorem find_msix_circular (H : Type) (C : ConfigSpace H) P (s : state H) b d f off fuel :
  pcidef_ok P -> in_bus b d f -> 0 <= off < 256 ->
  (forall n, stops P (hw s) b d f (visited P (hw s) b d f off n) = false) ->
  find_msix P fuel b d f off s = Fault OutOfFuel.
Proof. intros ok Hb Ho Hs. by eapply find_msix_never. Qed.

(** The table of enumerated buses has eight entries and is indexed by any bus
    number: behind a bridge to bus 8 or above the access is out of bounds. *)
Theorem enumerate_pci_bus_out_of_table (H : Type) (C : ConfigSpace H) P (s : state H) fuel bus :
  length (enumerated_buses s) = 8%nat -> 8 <= bus ->
  enumerate_pci_bus P (S fuel) bus s = Fault (OutOfBounds bus).
Proof.
  intros Hl Hb. cbn [enumerate_pci_bus]. mrun reflexivity. apply bind_Fault. unfold index, lookupZ.
  rewrite (proj2 (Z.leb_le 0 bus)), lookup_ge_None_2 by lia. done.
Qed.

End PciLegacyProps.
