(* ===== verification/PciCpp.v ===== *)
(** devices/pci/pci.cpp: the enumeration of pci.c rewritten with classes of
    configuration spaces, between pci.c and HostController.cpp.

    The header pci.hpp that declares the classes is not in the repository:
    what pci.cpp uses of them is the record [pcihpp], an argument of the
    definitions.  Module PciCpp has the enumeration and the set-up of MSI-X;
    PciCppFacts and PciCppProps the termination of the enumeration, and what the
    set-up writes.  [hlt()] behind a failed [dynamic_cast] is taken not to
    return: a processor that an interrupt wakes up goes on with a null
    pointer. *)
From S2P Require Import Prelude Layout Memory Stdio Interrupts PciIds Pci PciLegacy.

Module PciCpp.

(** Two states: the machine with what it printed, and its memory. *)
Definition zoom_fst {S T A} (m : M S A) : M (S * T) A := zoom fst (fun x s => (x, s.2)) m.
Definition zoom_snd {S T A} (m : M T A) : M (S * T) A := zoom snd (fun x s => (s.1, x)) m.

(** What pci.hpp declares, under the names pci.cpp uses, for programs on the
    state [S]: configuration spaces [C], capabilities [K] and the iterators
    [I] over them.  A [dynamic_cast] gives the object or a null pointer. *)
Record pcihpp (S C K I : Type) := {
  DeviceFactory_create : Z -> Z -> Z -> M S C;
  PCIDeviceConfigSpaceFactory_create : Z -> Z -> Z -> M S C;
  (* the value of a register of a configuration space *)
  vendor_id : C -> M S Z;
  device_id : C -> M S Z;
  class_code : C -> M S Z;
  subclass : C -> M S Z;
  revision_id : C -> M S Z;
  prog_if : C -> M S Z;
  header_type_is_multi_function : C -> M S Z;
  status_reg_has_capabilities_list : C -> M S Z;
  secondary_bus : C -> M S Z;
  BAR : C -> Z -> M S Z;
  command_reg_assign : C -> Z -> M S unit;
  as_PCIToPCIBridgeConfigSpace : C -> option C;
  as_PCIDeviceConfigSpace : C -> option C;
  (* the capabilities of a configuration space *)
  capabilities_begin : C -> M S I;
  capabilities_end : C -> M S I;
  iterator_eqb : I -> I -> bool;
  iterator_deref : I -> M S K;
  iterator_next : I -> M S I;
  capability_id : K -> M S Z;
  as_MSIXCapability : K -> option K;
  table_BIR : K -> M S Z;
  message_control_or : K -> Z -> M S unit;
  (* constants and name tables *)
  vendor_id_INVALID : Z;
  DeviceClass_BridgeDevice : Z;
  bridge_subclass_PCI_TO_PCI : Z;
  capability_MSIX : Z;
  BAR_IS_MEMORY_SPACE : Z -> bool;
  memory_base_addr : Z -> Z;                      (* msix_bar.memory.base_addr *)
  (* structures built with the members named *)
  command_interrupt_disable : Z -> Z;
  message_control_enable : Z -> Z;
  x86_64_msi_message_address_reg : Z -> Z -> Z;   (* destination_id, _0x0fee *)
  x86_64_msi_message_data_reg : Z -> Z;           (* vector *)
  msix_table_entry : Z -> Z -> Z;                 (* message_addr, message_data *)
  sizeof_msix_table_entry : nat;
  vendor_strings : Z -> option (list Z);
  device_strings : Z -> Z -> option (list Z);
  class_strings : Z -> option (list Z);
  subclass_strings : Z -> Z -> option (list Z)
}.
Arguments DeviceFactory_create {S C K I} _.
Arguments PCIDeviceConfigSpaceFactory_create {S C K I} _.
Arguments vendor_id {S C K I} _.
Arguments device_id {S C K I} _.
Arguments class_code {S C K I} _.
Arguments subclass {S C K I} _.
Arguments revision_id {S C K I} _.
Arguments prog_if {S C K I} _.
Arguments header_type_is_multi_function {S C K I} _.
Arguments status_reg_has_capabilities_list {S C K I} _.
Arguments secondary_bus {S C K I} _.
Arguments BAR {S C K I} _.
Arguments command_reg_assign {S C K I} _.
Arguments as_PCIToPCIBridgeConfigSpace {S C K I} _.
Arguments as_PCIDeviceConfigSpace {S C K I} _.
Arguments capabilities_begin {S C K I} _.
Arguments capabilities_end {S C K I} _.
Arguments iterator_eqb {S C K I} _.
Arguments iterator_deref {S C K I} _.
Arguments iterator_next {S C K I} _.
Arguments capability_id {S C K I} _.
Arguments as_MSIXCapability {S C K I} _.
Arguments table_BIR {S C K I} _.
Arguments message_control_or {S C K I} _.
Arguments vendor_id_INVALID {S C K I} _.
Arguments DeviceClass_BridgeDevice {S C K I} _.
Arguments bridge_subclass_PCI_TO_PCI {S C K I} _.
Arguments capability_MSIX {S C K I} _.
Arguments BAR_IS_MEMORY_SPACE {S C K I} _.
Arguments memory_base_addr {S C K I} _.
Arguments command_interrupt_disable {S C K I} _.
Arguments message_control_enable {S C K I} _.
Arguments x86_64_msi_message_address_reg {S C K I} _.
Arguments x86_64_msi_message_data_reg {S C K I} _.
Arguments msix_table_entry {S C K I} _.
Arguments sizeof_msix_table_entry {S C K I} _.
Arguments vendor_strings {S C K I} _.
Arguments device_strings {S C K I} _.
Arguments class_strings {S C K I} _.
Arguments subclass_strings {S C K I} _.

Section driver.
Context {H C K I : Type} `{ConfigSpace H}.
Import PciLegacy(arg, Num, Text, State, hw, address, enumerated_buses, messages, debug_printf, name_text, FOUND).
Abbreviation state := (PciLegacy.state H).
Context (Q : pcihpp state C K I).

(** *** Enumeration *)

Section enumerate.
Context (enumerate_bus : Z -> M state unit).

Definition enumerate_function (bus device function : Z) : M state unit :=
  device_cfg ← DeviceFactory_create Q bus device function;
  vendor_id ← vendor_id Q device_cfg;
  device_id ← device_id Q device_cfg;
  class_code ← class_code Q device_cfg;
  subclass ← subclass Q device_cfg;
  revision_id ← revision_id Q device_cfg;
  prog_if ← prog_if Q device_cfg;
  vendor_str ← name_text vendor_id (vendor_strings Q vendor_id);
  device_str ← name_text device_id (device_strings Q vendor_id device_id);
  class_str ← name_text class_code (class_strings Q class_code);
  subclass_str ← name_text subclass (subclass_strings Q class_code subclass);
  debug_printf FOUND
    [Num bus; Num device; Num function; Text vendor_str; Text device_str; Num revision_id;
     Text class_str; Text subclass_str; Num prog_if] ;;
  if (class_code =? DeviceClass_BridgeDevice Q) && (subclass =? bridge_subclass_PCI_TO_PCI Q) then
    match as_PCIToPCIBridgeConfigSpace Q device_cfg with
    | None =>
        debug_printf "Error: PCI to PCI bridge config space dynamic cast\n" [] ;;
        fail Halted
    | Some bridge_config =>
        secondary_bus ← secondary_bus Q bridge_config;
        enumerate_bus secondary_bus
    end
  else mret tt.

Definition enumerate_device (bus device : Z) : M state unit :=
  device_cfg ← PCIDeviceConfigSpaceFactory_create Q bus device 0;
  vendor ← vendor_id Q device_cfg;
  if vendor =? vendor_id_INVALID Q then mret tt else
  enumerate_function bus device 0 ;;
  multi ← header_type_is_multi_function Q device_cfg;
  if negb (multi =? 0) then
    for_loop 7 1 (fun function =>
      device_cfg ← PCIDeviceConfigSpaceFactory_create Q bus device function;
      vendor ← vendor_id Q device_cfg;
      if vendor =? vendor_id_INVALID Q then mret tt
      else enumerate_function bus device function)
  else mret tt.

End enumerate.

(** The array has eight elements; its index is any bus number. *)
Fixpoint enumerate_pci_bus (fuel : nat) (bus : Z) : M state unit :=
  match fuel with
  | O => fail OutOfFuel
  | S fuel =>
      s ← get; seen ← index (enumerated_buses s) bus;
      if negb (seen =? 0) then mret tt else
      debug_printf "Enumerating PCI bus %u\n" [Num bus] ;;
      modify (fun s =>
        State (hw s) (address s) (updateZ (enumerated_buses s) bus 1) (messages s)) ;;
      for_loop 32 0 (fun device => enumerate_device (enumerate_pci_bus fuel) bus device)
  end.

(** The vendor that is checked in the loop is that of function 0. *)
Definition enumerate_all_pci_buses (fuel : nat) : M state unit :=
  device_cfg ← PCIDeviceConfigSpaceFactory_create Q 0 0 0;
  multi ← header_type_is_multi_function Q device_cfg;
  (if multi =? 0 then enumerate_pci_bus fuel 0
   else for_loop 8 0 (fun bus_as_function_number =>
     debug_printf "Checking PCI bus %u\n" [Num bus_as_function_number] ;;
     vendor ← vendor_id Q device_cfg;
     when (vendor =? vendor_id_INVALID Q)
       (debug_printf "No PCI host controller at (0, 0, %u)\n" [Num bus_as_function_number]) ;;
     enumerate_pci_bus fuel bus_as_function_number)) ;;
  debug_printf "PCI enumeration complete\n" [].

(** *** MSI-X *)

(** [std::find_if] with the lambda of [enable_msix], which reads a register. *)
Fixpoint find_msix (fuel : nat) (first last : I) : M state I :=
  match fuel with
  | O => fail OutOfFuel
  | S fuel =>
      if iterator_eqb Q first last then mret last else
      capability_cfg ← iterator_deref Q first;
      id ← capability_id Q capability_cfg;
      if id =? capability_MSIX Q then mret first else
      first ← iterator_next Q first;
      find_msix fuel first last
  end.

Definition halt_with {A} (msg : string) : M state A := debug_printf msg [] ;; fail Halted.

Definition enable_msix (fuel : nat) (bus device function : Z) : M (state * mem) unit :=
  msix_mem ← zoom_fst (
    device_cfg_base ← PCIDeviceConfigSpaceFactory_create Q bus device function;
    match as_PCIDeviceConfigSpace Q device_cfg_base with
    | None => halt_with "Error: Device config space dynamic cast\n"
    | Some device_cfg =>
        has ← status_reg_has_capabilities_list Q device_cfg;
        if has =? 0 then halt_with "Error: Device does not support extended capabilities list\n" else
        first ← capabilities_begin Q device_cfg;
        last ← capabilities_end Q device_cfg;
        msix_cfg_it ← find_msix fuel first last;
        last ← capabilities_end Q device_cfg;
        if iterator_eqb Q msix_cfg_it last then halt_with "Error: No MSI-X capability\n" else
        msix_cfg_base ← iterator_deref Q msix_cfg_it;
        match as_MSIXCapability Q msix_cfg_base with
        | None => halt_with "Error: MSI-X config space dynamic cast\n"
        | Some msix_cfg =>
            bir ← table_BIR Q msix_cfg;
            msix_bar ← BAR Q device_cfg bir;
            if negb (BAR_IS_MEMORY_SPACE Q msix_bar) then
              halt_with "Error: MSI-X BAR is in IO space\n"
            else
              command_reg_assign Q device_cfg (command_interrupt_disable Q 1) ;;
              message_control_or Q msix_cfg (message_control_enable Q 1) ;;
              mret msix_bar
        end
    end);
  let addr := x86_64_msi_message_address_reg Q 0 0x0FEE in
  let data := x86_64_msi_message_data_reg Q Idt.DISK_VECTOR in
  zoom_snd (store (sizeof_msix_table_entry Q) (memory_base_addr Q msix_mem) (msix_table_entry Q addr data)).

End driver.
End PciCpp.

Module PciCppFacts.
Import PciCpp.

(** *** Termination of the enumeration *)

Section enumeration.
Context {H C K I : Type} `{ConfigSpace H}.
Import PciLegacy(hw, enumerated_buses, messages, State, Num, arg, debug_printf, name_text, FOUND).
Abbreviation state := (PciLegacy.state H).
Context (Q : pcihpp state C K I).

(** A member function that returns, with a value in [P], and touches neither
    the table of buses nor the console. *)
Definition quiet {A} (m : M state A) (P : A -> Prop) : Prop := forall s, exists a s',
  m s = Ok (a, s') /\ P a /\ enumerated_buses s' = enumerated_buses s /\ messages s' = messages s.

(** Classes whose accessors return, on a machine of eight buses, with a name for
    whatever the registers hold. *)
Record classes_ok : Prop := {
  co_create b d f : quiet (DeviceFactory_create Q b d f) (fun _ => True);
  co_create' b d f : quiet (PCIDeviceConfigSpaceFactory_create Q b d f) (fun _ => True);
  co_vendor c : quiet (vendor_id Q c) (fun _ => True);
  co_device c : quiet (device_id Q c) (fun _ => True);
  co_class c : quiet (class_code Q c) (fun _ => True);
  co_subclass c : quiet (subclass Q c) (fun _ => True);
  co_revision c : quiet (revision_id Q c) (fun _ => True);
  co_prog_if c : quiet (prog_if Q c) (fun _ => True);
  co_multi c : quiet (header_type_is_multi_function Q c) (fun _ => True);
  co_secondary c : quiet (secondary_bus Q c) (fun b => 0 <= b < 8);
  co_vendors v : PciLegacyFacts.name_fits v (vendor_strings Q v);
  co_devices v d : PciLegacyFacts.name_fits d (device_strings Q v d);
  co_classes c : PciLegacyFacts.name_fits c (class_strings Q c);
  co_subclasses c s : PciLegacyFacts.name_fits s (subclass_strings Q c s) }.

(** The buses whose enumeration was announced. *)
Definition entered_bus (m : string * list arg) : option Z :=
  match m.2 with
  | [Num b] => if String.eqb m.1 "Enumerating PCI bus %u\n" then Some b else None
  | _ => None
  end.
Definition entered (s : state) : list Z := omap entered_bus (messages s).

Definition seen (s : state) (b : Z) : Prop := exists v, lookupZ (enumerated_buses s) b = Some v /\ v <> 0.

(** The buses not enumerated yet. *)
Definition zeros (l : list Z) : nat := length (filter (fun v => v = 0) l).

(** From [s] to [s'] new buses were entered, each once, and marked. *)
Record explored (s s' : state) : Prop := {
  ex_table : Forall2 (fun v v' => v <> 0 -> v' <> 0) (enumerated_buses s) (enumerated_buses s');
  ex_new : exists new, entered s' = entered s ++ new /\ NoDup new /\
    (forall b, b ∈ new -> 0 <= b < 8 /\ ~ seen s b /\ seen s' b) /\
    (forall b, seen s' b -> seen s b \/ b ∈ new) }.

Lemma zeros_mono l l' : Forall2 (fun v v' => v <> 0 -> v' <> 0) l l' -> (zeros l' <= zeros l)%nat.
Proof using.
  unfold zeros. induction 1 as [|v v' l l' Hv _ IH]; [done|]. rewrite !filter_cons.
  repeat case_decide; cbn [length]; lia.
Qed.

Lemma seen_mono s s' b :
  Forall2 (fun v v' => v <> 0 -> v' <> 0) (enumerated_buses s) (enumerated_buses s') -> seen s b -> seen s' b.
Proof using.
  intros HF (v & Hv & Hz). unfold seen, lookupZ in *. destruct (0 <=? b); [|done].
  eapply Forall2_lookup_l in HF as (v' & Hv' & Himp); [|exact Hv]. exists v'. auto.
Qed.

Lemma explored_same s s' :
  enumerated_buses s' = enumerated_buses s -> entered s' = entered s -> explored s s'.
Proof using.
  intros He Hm. split; [rewrite He; by apply Forall_Forall2_diag, Forall_true|].
  exists []. rewrite app_nil_r. split; [done|]. split; [constructor|].
  split; [intros b Hb; by apply elem_of_nil in Hb|]. unfold seen. rewrite He. by left.
Qed.

Lemma explored_trans s s1 s2 : explored s s1 -> explored s1 s2 -> explored s s2.
Proof using.
  intros [T1 (n1 & E1 & N1 & B1 & C1)] [T2 (n2 & E2 & N2 & B2 & C2)]. split.
  { assert (Transitive (fun v v' : Z => v <> 0 -> v' <> 0)) by (intros x y z; auto). by etrans. }
  exists (n1 ++ n2). split; [by rewrite E2, E1, app_assoc|]. split; [|split].
  - apply NoDup_app. split_and!; [done| |done]. intros b H1 H2. apply B1 in H1. apply B2 in H2. tauto.
  - intros b [Hb|Hb]%elem_of_app.
    + destruct (B1 b Hb) as (? & ? & ?). split; [done|]. split; [done|]. by eapply seen_mono.
    + destruct (B2 b Hb) as (? & Hn & ?). split; [done|]. split; [|done]. intros Hs. apply Hn. by eapply seen_mono.
  - intros b [[?|?]%C1|?]%C2; [by left|right; apply elem_of_app; by left|right; apply elem_of_app; by right].
Qed.

(** The [dynamic_cast] of some configuration space to a bridge fails. *)
Definition cast_fails : Prop := exists c, as_PCIToPCIBridgeConfigSpace Q c = None.

(** [m] returns from every state with at most [n] buses left, explores, and
    reaches [P]; or it halts, because of a failed cast. *)
Definition settles_to (P : state -> Prop) (n : nat) (m : M state unit) : Prop := forall s,
  length (enumerated_buses s) = 8%nat -> (zeros (enumerated_buses s) <= n)%nat ->
  (cast_fails /\ m s = Fault Halted) \/ exists s', m s = Ok (tt, s') /\ explored s s' /\ P s'.
Definition settles : nat -> M state unit -> Prop := settles_to (fun _ => True).

Lemma settles_ret n : settles n (mret tt).
Proof using. intros s _ _. right. exists s. split; [done|]. split; [by apply explored_same|done]. Qed.

Lemma settles_after P n m1 m2 : settles n m1 -> settles_to P n m2 -> settles_to P n (m1 ;; m2).
Proof using.
  intros H1 H2 s Hl Hz. destruct (H1 s Hl Hz) as [[Hc E1]|(s1 & E1 & X1 & _)].
  { left. split; [done|]. by apply bind_Fault. }
  rewrite (bind_Ok _ _ _ _ _ E1). destruct (H2 s1) as [?|(s2 & E2 & X2 & HP)]; [..|by left|].
  - rewrite <- Hl. symmetry. eapply Forall2_length, X1.
  - etrans; [apply zeros_mono, X1|done].
  - right. exists s2. split; [done|]. split; [by eapply explored_trans|done].
Qed.

Lemma settles_seq n m1 m2 : settles n m1 -> settles n m2 -> settles n (m1 ;; m2).
Proof using. apply settles_after. Qed.

Lemma settles_weaken P n m : settles_to P n m -> settles n m.
Proof using.
  intros Hm s Hl Hz. destruct (Hm s Hl Hz) as [?|(s' & E & X & _)]; [by left|right; by exists s'].
Qed.

(** What has been seen stays seen. *)
Lemma settles_before b n m1 m2 :
  settles_to (fun s => seen s b) n m1 -> settles n m2 -> settles_to (fun s => seen s b) n (m1 ;; m2).
Proof using.
  intros H1 H2 s Hl Hz. destruct (H1 s Hl Hz) as [[Hc E1]|(s1 & E1 & X1 & Hb)].
  { left. split; [done|]. by apply bind_Fault. }
  rewrite (bind_Ok _ _ _ _ _ E1). destruct (H2 s1) as [?|(s2 & E2 & X2 & _)]; [..|by left|].
  - rewrite <- Hl. symmetry. eapply Forall2_length, X1.
  - etrans; [apply zeros_mono, X1|done].
  - right. exists s2. split; [done|]. split; [by eapply explored_trans|]. by eapply seen_mono; [apply X2|].
Qed.

Lemma settles_for_range n body k : forall i,
  (forall j, i <= j < i + Z.of_nat k -> settles n (body j)) -> settles n (for_loop k i body).
Proof using.
  induction k as [|k IH]; intros i Hb; [apply settles_ret|]. cbn [for_loop].
  apply settles_seq; [apply Hb; lia|]. apply IH. intros j Hj. apply Hb. lia.
Qed.

Lemma settles_for n body k i : (forall j, settles n (body j)) -> settles n (for_loop k i body).
Proof using. intros Hb. by apply settles_for_range. Qed.

Lemma settles_quiet {A} R n (m : M state A) P k :
  quiet m P -> (forall a, P a -> settles_to R n (k a)) -> settles_to R n (m ≫= k).
Proof using.
  intros Hq Hk s Hl Hz. destruct (Hq s) as (a & s1 & E & Ha & He & Hm).
  rewrite (bind_Ok _ _ _ _ _ E).
  destruct (Hk a Ha s1) as [?|(s2 & E2 & X2 & HR)]; [by rewrite He|by rewrite He|by left|]. right. exists s2. split; [done|].
  split; [|done]. eapply explored_trans; [|exact X2]. apply explored_same; [done|]. unfold entered. by rewrite Hm.
Qed.

Lemma settles_print n fmt args : entered_bus (fmt, args) = None -> settles n (debug_printf fmt args).
Proof using.
  intros He s _ _. right. eexists. split; [done|]. split; [|done]. apply explored_same; [done|].
  unfold entered. cbn [messages]. rewrite omap_app. cbn. rewrite He. by rewrite app_nil_r.
Qed.

Lemma name_quiet id name : PciLegacyFacts.name_fits id name -> quiet (name_text (H := H) id name) (fun _ => True).
Proof using.
  intros (t & p & -> & Hp & Ht) s. unfold name_text.
  assert (chars "0x" ++ StdioFacts.number_text 16 (u64 (i32 id)) ++ [32] = p) as -> by (by injection Hp as <-).
  rewrite (proj2 (Z.ltb_ge _ _)) by lia. eexists _, s. by split_and!.
Qed.

Context (HQ : classes_ok).

Lemma enumerate_function_settles n rec b d f :
  (forall b, 0 <= b < 8 -> settles n (rec b)) -> settles n (enumerate_function Q rec b d f).
Proof using HQ.
  intros Hrec. destruct HQ. unfold enumerate_function.
  repeat (eapply settles_quiet; [by eauto using name_quiet|]; intros ? _).
  apply settles_seq; [by apply settles_print|]. destruct (_ && _); [|apply settles_ret].
  match goal with |- context [as_PCIToPCIBridgeConfigSpace Q ?c] => destruct (as_PCIToPCIBridgeConfigSpace Q c) eqn:Ec end.
  2:{ intros s _ _. left. split; [by eexists|done]. }
  eapply settles_quiet; [apply co_secondary0|]. exact Hrec.
Qed.

Lemma enumerate_device_settles n rec b d :
  (forall b, 0 <= b < 8 -> settles n (rec b)) -> settles n (enumerate_device Q rec b d).
Proof using HQ.
  intros Hrec. pose proof HQ as []. unfold enumerate_device.
  do 2 (eapply settles_quiet; [by eauto|]; intros ? _). destruct (_ =? _); [apply settles_ret|].
  apply settles_seq; [by apply enumerate_function_settles|].
  eapply settles_quiet; [by eauto|]. intros ? _. destruct (negb _); [|apply settles_ret].
  apply settles_for. intros j. do 2 (eapply settles_quiet; [by eauto|]; intros ? _).
  destruct (_ =? _); [apply settles_ret|]. by apply enumerate_function_settles.
Qed.

(** Marking a bus leaves one less. *)
Lemma zeros_mark l b : lookupZ l b = Some 0 -> S (zeros (updateZ l b 1)) = zeros l.
Proof using.
  unfold lookupZ, updateZ, zeros. destruct (0 <=? b); [|done]. intros Hb.
  rewrite insert_take_drop by (by eapply lookup_lt_Some). rewrite <- (take_drop_middle _ _ _ Hb) at 3.
  rewrite !filter_app, !filter_cons, !length_app. case_decide; [done|]. case_decide; [|done]. cbn [length]. lia.
Qed.

Lemma mark_explored s b :
  length (enumerated_buses s) = 8%nat -> 0 <= b < 8 -> lookupZ (enumerated_buses s) b = Some 0 ->
  explored s (State (hw s) (PciLegacy.address s) (updateZ (enumerated_buses s) b 1)
    (messages s ++ [("Enumerating PCI bus %u\n"%string, [Num b])])).
Proof using.
  intros Hl Hb Hz. split; cbn [enumerated_buses].
  - apply Forall2_same_length_lookup_2; [by rewrite updateZ_length|]. intros i v v' Hv Hv' Hn.
    unfold updateZ in Hv'. apply list_lookup_insert_Some in Hv' as [(_ & <- & _)|(_ & Hv')]; [done|congruence].
  - exists [b]. unfold entered. cbn [messages]. rewrite omap_app. split; [done|]. split; [apply NoDup_singleton|].
    split.
    { intros x ->%list_elem_of_singleton. split; [done|]. split; [intros (v & Hv & Hn); congruence|].
      exists 1. cbn [enumerated_buses]. rewrite lookupZ_update, decide_True by (done || lia). done. }
    intros x (v & Hv & Hn). cbn [enumerated_buses] in Hv. rewrite lookupZ_update in Hv by lia.
    case_decide; [right; subst; apply list_elem_of_here|left; by exists v].
Qed.

Lemma enumerate_pci_bus_settles n : forall b, 0 <= b < 8 ->
  settles_to (fun s => seen s b) n (enumerate_pci_bus Q (S n) b).
Proof using HQ.
  induction n as [|n IH]; intros b Hb s Hl Hz; cbn [enumerate_pci_bus].
  all: destruct (lookupZ_is_Some (enumerated_buses s) b) as [v Hv]; [lia|].
  all: rewrite (bind_Ok _ _ _ _ _ eq_refl), (bind_Ok _ _ _ _ _ (index_Ok _ _ _ _ Hv)).
  all: destruct (Z.eqb_spec v 0) as [->|Hn]; cbn [negb];
    [|right; exists s; split; [done|]; split; [by apply explored_same|by exists v]].
  { apply zeros_mark in Hv. lia. }
  pose proof (mark_explored s b Hl Hb Hv) as X1. apply zeros_mark in Hv as Hm.
  mrun done. mrun done. cbn [hw PciLegacy.address enumerated_buses messages].
  edestruct (settles_for n (fun d => enumerate_device Q (enumerate_pci_bus Q (S n)) b d) 32 0)
    as [F|(s2 & E2 & X2 & _)]; [..|left; exact F|right; exists s2; split; [exact E2|]].
  - intros d. apply enumerate_device_settles. intros b' Hb'. by eapply settles_weaken, IH.
  - cbn [enumerated_buses]. by rewrite updateZ_length.
  - cbn [enumerated_buses]. lia.
  - split; [by eapply explored_trans|]. eapply seen_mono; [apply X2|].
    exists 1. cbn [enumerated_buses]. rewrite lookupZ_update, decide_True by (done || lia). done.
Qed.

Lemma zeros_length l : (zeros l <= length l)%nat.
Proof using. apply length_filter. Qed.

Lemma enumerate_pci_bus_enough n fuel b :
  (n < fuel)%nat -> 0 <= b < 8 -> settles_to (fun s => seen s b) n (enumerate_pci_bus Q fuel b).
Proof using HQ.
  intros Hf Hb s Hl Hz. destruct fuel as [|fuel]; [lia|].
  apply (enumerate_pci_bus_settles fuel b Hb s Hl). lia.
Qed.

Lemma enumerate_all_settles fuel : (8 < fuel)%nat ->
  settles_to (fun s => seen s 0) 8 (enumerate_all_pci_buses Q fuel).
Proof using HQ.
  intros Hf. pose proof HQ as []. unfold enumerate_all_pci_buses.
  do 2 (eapply settles_quiet; [by eauto|]; intros ? _).
  apply settles_before; [|by apply settles_print]. destruct (_ =? _); [by apply enumerate_pci_bus_enough|].
  assert (forall j, 0 <= j < 8 -> settles_to (fun s => seen s j) 8
    (debug_printf "Checking PCI bus %u\n" [Num j] ;; vendor ← vendor_id Q a;
     when (vendor =? vendor_id_INVALID Q) (debug_printf "No PCI host controller at (0, 0, %u)\n" [Num j]) ;;
     enumerate_pci_bus Q fuel j)) as Hbus.
  { intros j Hj. apply settles_after; [by apply settles_print|]. eapply settles_quiet; [by eauto|]. intros ? _.
    apply settles_after; [|by apply enumerate_pci_bus_enough].
    unfold when. destruct (_ =? _); [by apply settles_print|apply settles_ret]. }
  change (for_loop 8 0 ?f) with (f 0 ;; for_loop 7 1 f).
  apply settles_before; [by apply Hbus|]. apply settles_for_range. intros j Hj. eapply settles_weaken, Hbus. lia.
Qed.

End enumeration.

(** *** The search for a capability *)

Section search.
Context {H C K I : Type} (Q : pcihpp (PciLegacy.state H) C K I).
Abbreviation state := (PciLegacy.state H).

(** The capabilities met from [first] to [last], with their ids, by reads that
    leave the state [s] alone. *)
Inductive cap_range (s : state) (last : I) : I -> list (I * K * Z) -> Prop :=
| cap_range_end : iterator_eqb Q last last = true -> cap_range s last last []
| cap_range_step i j k id l :
    iterator_eqb Q i last = false -> iterator_deref Q i s = Ok (k, s) ->
    capability_id Q k s = Ok (id, s) -> iterator_next Q i s = Ok (j, s) ->
    cap_range s last j l -> cap_range s last i ((i, k, id) :: l).

(** The first of them that is an MSI-X capability. *)
Definition first_msix (l : list (I * K * Z)) : option (I * K) :=
  fst <$> List.find (fun x => x.2 =? capability_MSIX Q) l.

Lemma find_msix_range s last first l fuel :
  cap_range s last first l -> (length l < fuel)%nat ->
  find_msix Q fuel first last s = Ok (default last (fst <$> first_msix l), s) /\
  forall i k, first_msix l = Some (i, k) -> iterator_eqb Q i last = false /\ iterator_deref Q i s = Ok (k, s).
Proof using.
  intros Hr. revert fuel. induction Hr as [He|i j k id l He Hd Hid Hn Hr IH]; intros [|fuel] Hf;
    cbn [length] in Hf; try lia; cbn [find_msix]; rewrite He; [by split|].
  rewrite (bind_Ok _ _ _ _ _ Hd), (bind_Ok _ _ _ _ _ Hid). unfold first_msix. cbn [List.find snd].
  destruct (id =? capability_MSIX Q).
  - split; [done|]. intros i' k' E. by simplify_eq/=.
  - rewrite (bind_Ok _ _ _ _ _ Hn). apply IH. lia.
Qed.

End search.
End PciCppFacts.

Module PciCppProps.
Import PciCpp PciCppFacts.

(** C18. The enumeration of pci.cpp ends, and enters no bus twice, whatever the
    bridges of the machine lead to, also in cycles: with classes whose accessors
    return and leave the table of buses and the console alone, secondary buses
    below the eight entries of that table, and names that fit in the buffers,
    from a table without marks and after a recursion of depth nine at most,
    [enumerate_all_pci_buses] either returns, having announced the enumeration of
    bus 0 and of other buses below 8, each once, which are exactly the buses
    marked at the end; or it halts, which it does only if some configuration
    space is not the bridge it is cast to. *)
Theorem pci_cpp_terminates (H C K I : Type) (X : ConfigSpace H) (Q : pcihpp (PciLegacy.state H) C K I) fuel s :
  classes_ok Q -> PciLegacy.enumerated_buses s = replicate 8 0 -> PciLegacy.messages s = [] -> (8 < fuel)%nat ->
  (cast_fails Q /\ enumerate_all_pci_buses Q fuel s = Fault Halted) \/
  exists s', enumerate_all_pci_buses Q fuel s = Ok (tt, s') /\ NoDup (entered s') /\ 0 ∈ entered s' /\
    forall b, b ∈ entered s' <-> 0 <= b < 8 /\ seen s' b.
Proof.
  intros HQ Ht Hm Hf. destruct (enumerate_all_settles Q HQ fuel Hf s) as [F|(s' & E & [_ (new & En & Hn & Hb & Hall)] & H0)];
    [by rewrite Ht|rewrite Ht; vm_compute; lia|by left|].
  right. exists s'. unfold entered in En at 2. rewrite Hm in En. cbn in En. rewrite En.
  assert (forall b, seen s' b -> b ∈ new) as Hsn.
  { intros b Hs. destruct (Hall b Hs) as [(v & Hv & Hv0)|]; [|done]. exfalso. apply Hv0. rewrite Ht in Hv.
    unfold lookupZ in Hv. destruct (0 <=? b); [|done]. by apply lookup_replicate in Hv as [-> _]. }
  split; [exact E|]. split; [done|]. split; [by apply Hsn|]. intros b. split; [|naive_solver].
  intros Hin. destruct (Hb b Hin) as (? & _ & ?). done.
Qed.

(** Classes that access the registers of the header of PciLegacy.v, on a machine
    that decodes three bits of a bus number; one capability, of MSI-X, whose table the first BAR points to. *)
#[local] Instance rom_space : ConfigSpace (gmap Z Z) := {
  cfg_read h a := default 0xFFFFFFFF (h !! a);
  cfg_write h a v := h }.

Definition spec_classes : pcihpp (PciLegacy.state (gmap Z Z)) (Z * Z * Z) Z Z :=
  let P := PciLegacyProps.spec_pcidef in
  let r8 off (c : Z * Z * Z) := PciLegacy.pci_read_register8 P c.1.1 c.1.2 c.2 off in
  let r16 off (c : Z * Z * Z) := PciLegacy.pci_read_register16 P c.1.1 c.1.2 c.2 off in {|
  DeviceFactory_create b d f := mret (b, d, f);
  PCIDeviceConfigSpaceFactory_create b d f := mret (b, d, f);
  vendor_id := r16 0x00; device_id := r16 0x02; class_code := r8 0x0B; subclass := r8 0x0A;
  revision_id := r8 0x08; prog_if := r8 0x09;
  header_type_is_multi_function c := v ← r8 0x0E c; mret (bits 7 1 v);
  status_reg_has_capabilities_list c := mret 1;
  secondary_bus c := v ← r8 0x19 c; mret (Z.land v 7);
  BAR c n := mret (0xFEB0000C + n);
  command_reg_assign c v := PciLegacy.debug_printf "command" [PciLegacy.Num v];
  as_PCIToPCIBridgeConfigSpace c := Some c; as_PCIDeviceConfigSpace c := Some c;
  capabilities_begin c := mret 0x40; capabilities_end c := mret 0;
  iterator_eqb := Z.eqb; iterator_deref i := mret i; iterator_next i := mret 0;
  capability_id k := mret 0x11; as_MSIXCapability k := Some k; table_BIR k := mret 0;
  message_control_or k v := PciLegacy.debug_printf "control" [PciLegacy.Num v];
  vendor_id_INVALID := 0xFFFF; DeviceClass_BridgeDevice := 6; bridge_subclass_PCI_TO_PCI := 4;
  capability_MSIX := 0x11; BAR_IS_MEMORY_SPACE v := negb (Z.testbit v 0);
  memory_base_addr v := Z.land v (Z.lnot 15);
  command_interrupt_disable v := v * 2 ^ 10; message_control_enable v := v * 2 ^ 15;
  x86_64_msi_message_address_reg d x := x * 2 ^ 20 + d * 2 ^ 12;
  x86_64_msi_message_data_reg v := v; msix_table_entry a d := a + d * 2 ^ 64;
  sizeof_msix_table_entry := 16;
  vendor_strings := PciLegacy.pci_vendor_strings P; device_strings := PciLegacy.pci_device_strings P;
  class_strings := PciLegacy.pci_class_strings P; subclass_strings := PciLegacy.pci_subclass_strings P |}.

Definition spec_state : PciLegacy.state (gmap Z Z) :=
  PciLegacy.State PciProps.example_machine 0 (replicate 8 0) [].

Lemma spec_read_quiet w b d f off :
  quiet (PciLegacy.pci_read PciLegacyProps.spec_pcidef w b d f off : M (PciLegacy.state (gmap Z Z)) Z) (fun _ => True).
Proof. intros s. eexists _, _. by split_and!. Qed.

Lemma spec_classes_ok : classes_ok spec_classes.
Proof.
  assert (forall id t, (length t <= 32)%nat -> PciLegacyFacts.name_fits id (Some t)) as Hn.
  { intros id t Ht. eexists t, _. split; [done|]. split; [reflexivity|].
    match goal with |- context [StdioFacts.number_text 16 ?n] => pose proof (PciLegacyProps.number_text_length n) end.
    rewrite ?length_app; cbn [length]; rewrite ?length_app; cbn [length]; lia. }
  split; intros; cbn [spec_classes DeviceFactory_create PCIDeviceConfigSpaceFactory_create vendor_id device_id class_code
    subclass revision_id prog_if]; try apply spec_read_quiet; try (intros s'; eexists _, s'; by split_and!);
    try (apply Hn; cbn; lia).
  - intros s. eexists _, _. split; [reflexivity|]. by split_and!.
  - intros s. eexists _, _. split; [reflexivity|]. split; [|by split].
    change 7 with (Z.ones 3). rewrite Z.land_ones by lia. apply Z.mod_pos_bound. lia.
Qed.

Lemma pci_cpp_terminates_witness :
  exists s', enumerate_all_pci_buses spec_classes 9 spec_state = Ok (tt, s') /\ NoDup (entered s') /\ 0 ∈ entered s'.
Proof.
  destruct (pci_cpp_terminates (gmap Z Z) (Z * Z * Z) Z Z rom_space spec_classes 9 spec_state)
    as [[[c Hc] _]|(s' & E & Hn & H0 & _)].
  - exact spec_classes_ok.
  - reflexivity.
  - reflexivity.
  - lia.
  - discriminate Hc.
  - exists s'. exact (conj E (conj Hn H0)).
Defined.

Section msix.
Context {H C K I : Type} (Q : pcihpp (PciLegacy.state H) C K I).

(** A device of pci.hpp whose registers can be read, up to its list of
    capabilities [l]. *)
Record msix_device (bus device function : Z) (s0 s : PciLegacy.state H) (c : C)
    (first last : I) (l : list (I * K * Z)) : Prop := {
  md_create : exists c0, PCIDeviceConfigSpaceFactory_create Q bus device function s0 = Ok (c0, s) /\
    as_PCIDeviceConfigSpace Q c0 = Some c;
  md_status : exists v, status_reg_has_capabilities_list Q c s = Ok (v, s) /\ v <> 0;
  md_begin : capabilities_begin Q c s = Ok (first, s);
  md_end : capabilities_end Q c s = Ok (last, s);
  md_end_eq : iterator_eqb Q last last = true;
  md_range : cap_range Q s last first l }.
End msix.

(** Setting up MSI-X, on a device with a list [l] of capabilities: without
    an MSI-X capability in the list the driver halts; with one, whose table
    is in a memory BAR, the command register is assigned the value with
    [interrupt_disable] alone, the capability is enabled, and the first entry
    of the table gets the address of CPU 0 and the vector of the disk; every
    number of search steps above the length of the list gives this result. *)
Theorem enable_msix_programs (H C K I : Type) (Q : pcihpp (PciLegacy.state H) C K I)
    fuel bus device function s0 s c first last l (m : mem) :
  msix_device Q bus device function s0 s c first last l -> (length l < fuel)%nat ->
  (first_msix Q l = None -> enable_msix Q fuel bus device function (s0, m) = Fault Halted) /\
  forall i k k' bir bar s1 s2,
    let base := memory_base_addr Q bar in
    let entry := msix_table_entry Q (x86_64_msi_message_address_reg Q 0 0x0FEE)
                   (x86_64_msi_message_data_reg Q Idt.DISK_VECTOR) in
    first_msix Q l = Some (i, k) -> as_MSIXCapability Q k = Some k' ->
    table_BIR Q k' s = Ok (bir, s) -> BAR Q c bir s = Ok (bar, s) -> BAR_IS_MEMORY_SPACE Q bar = true ->
    command_reg_assign Q c (command_interrupt_disable Q 1) s = Ok (tt, s1) ->
    message_control_or Q k' (message_control_enable Q 1) s1 = Ok (tt, s2) ->
    mapped_range m base (Z.of_nat (sizeof_msix_table_entry Q)) ->
    enable_msix Q fuel bus device function (s0, m) =
      Ok (tt, (s2, poke (sizeof_msix_table_entry Q) m base entry)).
Proof.
  intros [(c0 & Hc & Hc0) (v & Hv & Hv0) Hb He Hee Hr] Hf.
  destruct (find_msix_range Q s last first l fuel Hr Hf) as [Hfind Hfound].
  split.
  - intros Hnone. unfold enable_msix. apply bind_Fault. unfold zoom_fst, zoom. cbn [fst].
    rewrite (bind_Ok _ _ _ _ _ Hc), Hc0, (bind_Ok _ _ _ _ _ Hv), (proj2 (Z.eqb_neq v 0) Hv0).
    rewrite (bind_Ok _ _ _ _ _ Hb), (bind_Ok _ _ _ _ _ He), (bind_Ok _ _ _ _ _ Hfind).
    rewrite (bind_Ok _ _ _ _ _ He), Hnone. cbn. by rewrite Hee.
  - intros i k k' bir bar s1 s2 base entry Hi Hk Hbir Hbar Hmem Hcmd Hctl Hmap.
    destruct (Hfound i k Hi) as [Hne Hd]. unfold enable_msix.
    rewrite (bind_Ok _ _ _ bar (s2, m)); [unfold zoom_snd, zoom; cbn [snd]; by rewrite store_ok|].
    unfold zoom_fst, zoom. cbn [fst].
    rewrite (bind_Ok _ _ _ _ _ Hc), Hc0, (bind_Ok _ _ _ _ _ Hv), (proj2 (Z.eqb_neq v 0) Hv0).
    rewrite (bind_Ok _ _ _ _ _ Hb), (bind_Ok _ _ _ _ _ He), (bind_Ok _ _ _ _ _ Hfind).
    rewrite (bind_Ok _ _ _ _ _ He), Hi. cbn [fmap option_fmap option_map default from_option fst id].
    rewrite Hne, (bind_Ok _ _ _ _ _ Hd), Hk, (bind_Ok _ _ _ _ _ Hbir), (bind_Ok _ _ _ _ _ Hbar).
    rewrite Hmem. cbn [negb]. by rewrite (bind_Ok _ _ _ _ _ Hcmd), (bind_Ok _ _ _ _ _ Hctl).
Qed.

Lemma enable_msix_programs_witness : exists s2,
  enable_msix spec_classes 2 0 1 0 (spec_state, Mem [(0xFEB00000, 4096)] ∅) =
  Ok (tt, (s2, poke 16 (Mem [(0xFEB00000, 4096)] ∅) 0xFEB00000 (0xFEE00000 + Idt.DISK_VECTOR * 2 ^ 64))).
Proof.
  destruct (enable_msix_programs (gmap Z Z) (Z * Z * Z) Z Z spec_classes 2 0 1 0 spec_state spec_state
    (0, 1, 0) 0x40 0 [(0x40, 0x40, 0x11)] (Mem [(0xFEB00000, 4096)] ∅)) as [_ Hrun].
  - split; try reflexivity.
    + exists (0, 1, 0). by split.
    + exists 1. by split.
    + by eapply cap_range_step; [..|apply cap_range_end].
  - simpl. lia.
  - eexists. eapply (Hrun 0x40 0x40 0x40 0 0xFEB0000C); try reflexivity. by apply mapped_range_check.
Defined.

End PciCppProps.
