(* ===== verification/Ahci.v ===== *)
(** devices/storage/AHCI: the registers of an AHCI host bus adapter
    (Definitions.hpp), the memory proxy of Controller.hpp and the check of
    ahci.c.  The constructor of AHCIController is in PciBar.v. *)
From S2P Require Import Prelude Layout Memory PciIds Pci PciLegacy.

Module Ahci.

Definition AHCI_Base_Memory_Register_BARNO : Z := 5.

Definition global_host_control_reg : cstruct := Packed
  [Bits "hba_reset" cu8 1; Bits "interrupt_enable" cu8 1; Bits "msi_revert_to_single_message" cu8 1;
   Bits "rsrv" cu32 28; Bits "ahci_enable" cu8 1].

Definition GenericHostControl : cstruct := Packed
  [Plain "host_capabilities" cu32; Plain "global_host_control" (cs_type global_host_control_reg);
   Plain "interrupt_status" cu32; Plain "ports_implemented" cu32; Plain "version" cu32;
   Plain "ccc_ctrl" cu32; Plain "ccc_ports" cu32; Plain "em_location" cu32; Plain "em_ctrl" cu32;
   Plain "extended_host_capabilities" cu32; Plain "bohc" cu32].

Definition PortControl : cstruct := Packed
  [Plain "command_list_base_lower" cu32; Plain "command_list_base_upper" cu32;
   Plain "fis_base_lower" cu32; Plain "fis_base_upper" cu32; Plain "interrupt_status" cu32;
   Plain "interrupt_enable" cu32; Plain "cmd_and_status" cu32; Plain "rsrv" cu32;
   Plain "task_file_data" cu32; Plain "signature" cu32; Plain "sata_status" cu32;
   Plain "sata_control" cu32; Plain "sata_error" cu32; Plain "sata_active" cu32;
   Plain "command_issue" cu32; Plain "sata_notification" cu32; Plain "fis_switch_control" cu32;
   Plain "device_sleep" cu32; Plain "rsrv2" (carray cu8 (0x70 - 0x48));
   Plain "vendor_specific" (carray cu8 (0x80 - 0x70))].

(** [port_regs] is a flexible array member: it takes no space. *)
Definition HBARegisters : cstruct := Packed
  [Plain "control_regs" (cs_type GenericHostControl); Plain "rsrv" (carray cu8 52);
   Plain "nvmhci" (carray cu8 64); Plain "vendor_specific" (carray cu8 (0x100 - 0xA0));
   Plain "port_regs" (carray (cs_type PortControl) 0)].

(** [offsetof(HBARegisters, port_regs[n])] *)
Definition port_offset (n : Z) : Z :=
  offsetof (cs_layout HBARegisters) "port_regs" + n * cs_sizeof PortControl.

(** *** MemoryProxy: an address, accessed with the size of the type. *)

Record MemoryProxy := Proxy { addr : Z; sizeof_T : nat }.

Definition mp_read (p : MemoryProxy) : M mem Z := load (sizeof_T p) (addr p).
Definition mp_assign (p : MemoryProxy) (value : Z) : M mem unit := store (sizeof_T p) (addr p) value.
Definition mp_index (p : MemoryProxy) (n : Z) : MemoryProxy :=
  Proxy (addr p + n * Z.of_nat (sizeof_T p)) (sizeof_T p).

(** *** ahci.c *)
Definition init_ahci {H} `{ConfigSpace H} (P : PciLegacy.pcidef) (bus device function : Z) :
    M (PciLegacy.state H) unit :=
  status ← PciLegacy.pci_read_register16 P bus device function (PciLegacy.PCI_STATUS_REG_OFFSET P);
  if PciLegacy.capabilities_list P status =? 0 then
    PciLegacy.debug_printf "Error: AHCI controller does not have a capabilities list\n" []
  else mret tt.

End Ahci.

Module AhciProps.
Import Ahci.

(** The [static_assert]s of Definitions.hpp, and the offsets that the AHCI
    specification gives the registers the kernel names. *)
Theorem ahci_layout :
  cs_sizeof GenericHostControl = 0x2C /\ cs_sizeof PortControl = 0x80 /\
  cs_sizeof HBARegisters = 0x100 /\ port_offset 32 = 0x100 + 0x80 * 32 /\
  (offsetof (cs_layout GenericHostControl) <$> ["global_host_control"; "interrupt_status";
     "ports_implemented"; "version"; "extended_host_capabilities"; "bohc"]) =
    [0x04; 0x08; 0x0C; 0x10; 0x24; 0x28] /\
  pl_off (field_of (cs_layout global_host_control_reg) "ahci_enable") = 31 /\
  (offsetof (cs_layout PortControl) <$> ["fis_base_lower"; "interrupt_status"; "cmd_and_status";
     "task_file_data"; "signature"; "sata_status"; "sata_control"; "sata_error"; "command_issue";
     "device_sleep"]) =
    [0x08; 0x10; 0x18; 0x20; 0x24; 0x28; 0x2C; 0x30; 0x38; 0x44].
Proof. by vm_compute. Qed.

(** The registers of different ports do not overlap: assigning through
    the proxy of one element of an array of registers changes no other
    element and reads back, truncated to the element's size, for any array in
    mapped memory. *)
Theorem memory_proxy_elements m p i j v n :
  (0 < sizeof_T p)%nat -> 0 <= i < n -> 0 <= j < n ->
  mapped_range m (addr p) (n * Z.of_nat (sizeof_T p)) ->
  exists m', mp_assign (mp_index p i) v m = Ok (tt, m') /\
    mp_read (mp_index p j) m' =
      Ok (if decide (j = i) then wrap (8 * Z.of_nat (sizeof_T p)) v
          else peek (sizeof_T p) m (addr (mp_index p j)), m').
Proof.
  intros Hs Hi Hj Hm. set (z := Z.of_nat (sizeof_T p)) in *. assert (0 < z) as Hz by lia.
  assert (forall k, 0 <= k < n -> mapped_range m (addr p + k * z) z) as Hk.
  { intros k Hk. eapply mapped_range_mono; [exact Hm|nia|nia]. }
  eexists. unfold mp_assign, mp_read, mp_index. cbn [addr sizeof_T]. fold z.
  split; [apply store_ok, Hk; done|].
  rewrite load_ok by (apply mapped_range_poke, Hk; done). do 2 f_equal.
  destruct (decide (j = i)) as [->|Hne]; [apply peek_poke_same|].
  apply peek_poke_other. fold z. nia.
Qed.

Lemma memory_proxy_elements_witness :
  exists m', mp_assign (mp_index (Proxy 0x1000 4) 3) 0x123456789 (Mem [(0x1000, 256)] ∅) = Ok (tt, m') /\
    mp_read (mp_index (Proxy 0x1000 4) 3) m' = Ok (0x23456789, m').
Proof.
  apply (memory_proxy_elements (Mem [(0x1000, 256)] ∅) (Proxy 0x1000 4) 3 3 0x123456789 64).
  - simpl. lia.
  - lia.
  - lia.
  - by apply mapped_range_check.
Defined.

End AhciProps.
