(* ===== verification/PciBar.v ===== *)
(** The base address registers of a device: [BARMixin::BAR] of
    devices/pci/Device.hpp, [BAR_address] and [BAR_space_size] of Device.cpp,
    and their caller, the constructor of AHCIController
    (devices/storage/AHCI/Controller.cpp).

    The mixin is a class template that names members of the class it is mixed
    into ([this->base_addr], [this->command_reg ()]) and is never instantiated
    with a base that has them; it is read as if [base_addr] were the address
    of the device, the second constructor argument of the proxy were 0, and a
    [BAR_t] member used on the proxy were used on the value read through it. *)
From S2P Require Import Prelude Layout Memory Libk PciIds Pci Ahci.

(** ** Definitions *)
Module PciBar.
Import PciIds Pci.

#[export] Instance BARSpaceType_eq_dec : EqDecision BARSpaceType.
Proof. solve_decision. Defined.

Section machine.
Context {H : Type} `{ConfigSpace H}.
Abbreviation state := (@Pci.state H).

(** [BAR_t bar = BAR(n)], the register of BAR [n]. *)
Definition BAR (max_BAR b n : Z) : M state RegisterProxy :=
  if max_BAR <? n then
    debug_printf "Invalid BAR index\n" 0 ;; fail Halted
  else mret (Proxy (addr_plus b (u8 (BAR0_offset + 4 * n))) 0 4).

(** An integer is no pointer: the conversion of a [u32] or [u64] to
    [ErrorOr<void*>] takes the constructor from an [int] error code, for an
    address as for an errno. *)
Definition ErrorOr_of_int (v : Z) : ErrorOr.t Z := ErrorOr.of_error (i32 v).

Definition BAR_address (max_BAR b n : Z) : M state (ErrorOr.t Z) :=
  p ← BAR max_BAR b n;
  bar ← cast p;
  type ← get_BAR_space_type bar;
  if decide (type = BARSpaceType_IOSpace) then mret (ErrorOr_of_int (Errno.errno_value Errno.EIO))
  else if decide (type = BARSpaceType_Memory64BitSpace) then
    if max_BAR <=? n then mret (ErrorOr_of_int (Errno.errno_value Errno.EINVAL))
    else
      p ← BAR max_BAR b (u8 (n + 1));
      next_bar ← cast p;
      mret (ErrorOr_of_int
              (Z.lor (u64 (Z.shiftl (BAR_base_addr next_bar) 32)) (BAR_base_addr bar)))
  else mret (ErrorOr_of_int (BAR_base_addr bar)).

(** [~(command){ .io_space = 0, .memory_space = 0 }]: the member initialisers
    are zero and so are the members not named; the complement, converted to
    the operand type of [operator&=], has every bit set. *)
Definition command_mask : Z := u32 (Z.lnot (finit command [("io_space", 0); ("memory_space", 0)])).

(** [shl32] is what the undefined shift of a 32-bit value by 32 gives. *)
Definition BAR_space_size (shl32 : Z -> Z) (max_BAR b n : Z) : M state Z :=
  when (negb (n <? 6)) (fail Halted) ;;
  command_reg_saved ← cast (command_reg b);
  and_assign (command_reg b) command_mask ;;
  p ← BAR max_BAR b n;
  bar_saved ← cast p;
  type ← get_BAR_space_type bar_saved;
  assign p 0xFFFFFFFF ;;
  v ← cast p;
  let encoded_size := BAR_base_addr v in
  if bool_decide (type = BARSpaceType_Memory64BitSpace) && (5 <=? n) then mret 0
  else
    '(encoded_size, restore_next) ← (
      if decide (type = BARSpaceType_Memory64BitSpace) then
        q ← BAR max_BAR b (u8 (n + 1));
        next_bar_saved ← cast q;
        assign q 0xFFFFFFFF ;;
        v ← cast p;
        mret (Z.lor encoded_size (shl32 (BAR_base_addr v)), assign q next_bar_saved)
      else mret (encoded_size, mret tt));
    assign p bar_saved ;;
    restore_next ;;
    assign (command_reg b) command_reg_saved ;;
    mret (u64 (u64 (Z.lnot encoded_size) + 1)).

(** A member written through [operator->]: the register is read, the member
    set in the copy, and the copy written back by the proxy's destructor. *)
Definition arrow_set (p : RegisterProxy) (ps : list placed) (name : string) (v : Z) : M state unit :=
  r ← read_register p;
  write_register p (fset ps name v (wrap (8 * sizeof_T p) r)).

(** The constructor of AHCIController on the device at [b]; the registers of
    the controller are in memory. *)
Definition AHCIController (hlt : M (state * mem) unit) (b : Z) : M (state * mem) unit :=
  r ← zoom fst (fun t s => (t, s.2)) (BAR_address 5 b Ahci.AHCI_Base_Memory_Register_BARNO);
  hba_regs ← ErrorOr.TRYHALT hlt r;
  let ghc := hba_regs + offsetof (cs_layout Ahci.HBARegisters) "control_regs"
             + offsetof (cs_layout Ahci.GenericHostControl) "global_host_control" in
  zoom snd (fun t s => (s.1, t))
    (v ← load 4 ghc; store 4 ghc (fset (cs_layout Ahci.global_host_control_reg) "ahci_enable" 1 v)) ;;
  zoom fst (fun t s => (t, s.2)) (arrow_set (command_reg b) command "bus_master" 1).

End machine.
End PciBar.

(** ** Properties *)
Module PciBarProps.
Import PciIds Pci PciFacts PciBar.

(** Words of [w] bits are closed under the bitwise operations. *)
Lemma in_range_of_testbit w z :
  0 <= w -> (forall i, w <= i -> Z.testbit z i = false) -> in_range w z.
Proof.
  intros Hw Hz. replace z with (wrap w z); [by apply wrap_range|].
  apply Z.bits_inj'. intros i Hi. rewrite wrap_testbit by lia.
  destruct (Z.ltb_spec i w); [done|]. by rewrite Hz.
Qed.

Lemma lor_range w x y : 0 <= w -> in_range w x -> in_range w y -> in_range w (Z.lor x y).
Proof.
  intros Hw Hx Hy. apply in_range_of_testbit; [done|]. intros i Hi.
  by rewrite Z.lor_spec, !(in_range_testbit w) by (done || lia).
Qed.

Lemma land_range w x y : 0 <= w -> in_range w x -> in_range w (Z.land x y).
Proof.
  intros Hw Hx. apply in_range_of_testbit; [done|]. intros i Hi.
  by rewrite Z.land_spec, (in_range_testbit w x) by (done || lia).
Qed.

(** The register of BAR [n] of a device. *)
Definition bar (b n : Z) : RegisterProxy := Proxy (addr_plus b (BAR0_offset + 4 * n)) 0 4.

Section machine.
Context {H : Type} `{ConfigSpace H}.
Abbreviation st := (@Pci.state H).

Lemma BAR_run max b n (s : st) : 0 <= n <= max -> n < 60 -> BAR max b n s = Ok (bar b n, s).
Proof using.
  intros Hn Hlt. unfold BAR. destruct (Z.ltb_spec max n); [lia|]. unfold bar.
  rewrite wrap_small by (unfold in_range, BAR0_offset; lia). reflexivity.
Qed.

Lemma BAR_halts max b n (s : st) : max < n -> BAR max b n s = Fault Halted.
Proof using. intros Hn. unfold BAR. by destruct (Z.ltb_spec max n); [|lia]. Qed.

(** *** Addresses of the registers *)

Lemma addr_plus_offset b d f off : 0 <= off < 256 ->
  bits 0 8 (addr_plus (addr_make b d f) off) = off - off mod 4.
Proof using.
  intros Ho. exact (f_equal (List.hd 0) (addr_plus_fields b d f off Ho)).
Qed.

Lemma word_addr_bar b n : word_addr (bar b n) = u32 (addr_plus b (BAR0_offset + 4 * n)).
Proof using. unfold word_addr, bar. cbn [base offset]. by rewrite PciProps.addr_plus_word by lia. Qed.

Lemma bits_u32 x : bits 0 8 (u32 x) = bits 0 8 x.
Proof using. unfold bits. rewrite !Z.shiftr_0_r. by apply (wrap_wrap_le 8 32). Qed.

Lemma bar_not_command bus d f n : 0 <= n < 6 ->
  word_addr (bar (addr_make bus d f) n) <> word_addr (command_reg (addr_make bus d f)).
Proof using.
  intros Hn E. rewrite word_addr_bar in E. unfold word_addr, command_reg in E. cbn [base offset] in E.
  apply (f_equal (bits 0 8)) in E. rewrite !bits_u32 in E.
  rewrite !addr_plus_offset in E by (unfold BAR0_offset; lia).
  replace (BAR0_offset + 4 * n) with ((4 + n) * 4) in E by (unfold BAR0_offset; lia).
  rewrite Z_mod_mult in E. change (4 mod 4) with 0 in E. lia.
Qed.

Lemma bar_ok b n : proxy_ok (bar b n).
Proof using. split; vm_compute; intuition congruence. Qed.

Lemma command_ok b : proxy_ok (command_reg b).
Proof using. split; vm_compute; intuition congruence. Qed.

Lemma reg_bar (h : H) b n : reg h (bar b n) = word h (bar b n).
Proof using.
  unfold reg. change (lane (bar b n)) with 0. change (8 * sizeof_T (bar b n)) with 32. unfold bits.
  rewrite Z.shiftr_0_r. apply wrap_small, wrap_range. lia.
Qed.

Lemma cast_bar b n (s : st) : cast (bar b n) s = Ok (word (hw s) (bar b n), latched (bar b n) s).
Proof using. by rewrite cast_run, reg_bar. Qed.

Lemma assign_bar b n v (s : st) : in_range 32 v ->
  assign (bar b n) v s =
  Ok (tt, State (cfg_write (hw s) (word_addr (bar b n)) v) (word_addr (bar b n))
            (enumerated_buses s) (messages s)).
Proof using.
  intros Hv. unfold assign. rewrite register_write_run; [|apply bar_ok|done].
  change (lane (bar b n)) with 0. change (8 * sizeof_T (bar b n)) with 32.
  assert (in_range 32 (word (hw s) (bar b n))) as Hw by (apply wrap_range; lia).
  rewrite set_bits_arith by lia. unfold bits. rewrite Z.shiftr_0_r.
  rewrite (wrap_small 32 v), (wrap_small 32 (word _ _)) by done. do 4 f_equal. lia.
Qed.

(** The mask of [BAR_space_size] has every bit set: the command register is
    written back as it was read. *)
Lemma command_written_back b (s : st) :
  and_assign (command_reg b) command_mask s =
  Ok (tt, State (cfg_write (hw s) (word_addr (command_reg b)) (word (hw s) (command_reg b)))
            (word_addr (command_reg b)) (enumerated_buses s) (messages s)).
Proof using.
  set (p := command_reg b). unfold and_assign.
  rewrite (bind_Ok _ _ s (Z.shiftr (word (hw s) p) (lane p)) (latched p s)) by reflexivity.
  change (lane p) with 0. rewrite Z.shiftr_0_r. change command_mask with (Z.ones 32).
  rewrite Z.land_ones by lia. change (8 * sizeof_T p) with 16.
  change (word (hw s) p mod 2 ^ 32) with (u32 (word (hw s) p)). rewrite (wrap_wrap_le 16 32) by lia.
  rewrite register_write_run; [|apply command_ok|apply wrap_range; vm_compute; congruence].
  unfold latched. cbn [hw enumerated_buses messages]. do 4 f_equal.
  change (lane p) with 0. change (8 * sizeof_T p) with 16.
  pose proof (set_bits_bits 0 16 (word (hw s) p)) as E. unfold bits in E. rewrite Z.shiftr_0_r in E.
  apply E; lia.
Qed.

(** What the specification of PCI says of a BAR at [b]: writes to one register
    leave the others alone; of a value written to the BAR the bits of [mask]
    are kept and the others read as [ro]; of a value written to the command
    register the bits of [cmask] are kept. *)
Record bar_device (b n mask ro cmask : Z) : Prop := {
  bd_other : forall h a v a', a' <> a -> cfg_read (cfg_write h a v) a' = cfg_read h a';
  bd_bar : forall h v, cfg_read (cfg_write h (word_addr (bar b n)) v) (word_addr (bar b n)) =
    Z.lor (Z.land v mask) ro;
  bd_command : forall h v, bits 0 16 (cfg_read (cfg_write h (word_addr (command_reg b)) v)
    (word_addr (command_reg b))) = Z.land (bits 0 16 v) cmask }.

(** A state such a device can be in. *)
Record bar_settled (h : H) (b n mask ro cmask : Z) : Prop := {
  bs_bar : cfg_read h (word_addr (bar b n)) = Z.lor (Z.land (word h (bar b n)) mask) ro;
  bs_command : reg h (command_reg b) = Z.land (reg h (command_reg b)) cmask }.

(** The space of the BAR: its registers are written in this order. *)
Lemma BAR_space_size_run shl max b n (s : st) mask ro cmask ty :
  0 <= n < 6 -> n <= max ->
  bar_device b n mask ro cmask -> in_range 32 mask -> in_range 32 ro ->
  word_addr (bar b n) <> word_addr (command_reg b) ->
  get_BAR_space_type (S:=st) (word (hw s) (bar b n)) = mret ty -> ty <> BARSpaceType_Memory64BitSpace ->
  exists s' w0 w1 v, BAR_space_size shl max b n s =
      Ok (u64 (u64 (Z.lnot (BAR_base_addr (Z.lor mask ro))) + 1), s') /\
    bits 0 16 w1 = reg (hw s) (command_reg b) /\ v = word (hw s) (bar b n) /\
    hw s' = cfg_write (cfg_write (cfg_write (cfg_write (hw s) (word_addr (command_reg b)) w0)
              (word_addr (bar b n)) 0xFFFFFFFF) (word_addr (bar b n)) v) (word_addr (command_reg b)) w1.
Proof using.
  intros Hn Hmax Hd Hmask Hro Hne Hty Hno. unfold BAR_space_size.
  destruct (Z.ltb_spec n 6); [|lia]. cbn [negb when].
  rewrite (bind_Ok _ _ s tt s) by reflexivity.
  rewrite (bind_Ok _ _ _ _ _ (cast_run (command_reg b) s)).
  rewrite (bind_Ok _ _ _ _ _ (command_written_back b _)).
  rewrite (bind_Ok _ _ _ _ _ (BAR_run max b n _ ltac:(lia) ltac:(lia))).
  rewrite (bind_Ok _ _ _ _ _ (cast_bar b n _)). unfold latched. cbn [hw enumerated_buses messages].
  set (h1 := cfg_write (hw s) _ _).
  assert (word h1 (bar b n) = word (hw s) (bar b n)) as E1.
  { unfold word, h1. by rewrite (bd_other _ _ _ _ _ Hd) by done. }
  rewrite E1, Hty. rewrite (bind_Ok _ _ _ ty _ eq_refl).
  rewrite (bind_Ok _ _ _ _ _ (assign_bar b n 0xFFFFFFFF _ ltac:(done))). cbn [hw enumerated_buses messages].
  rewrite (bind_Ok _ _ _ _ _ (cast_bar b n _)). unfold latched. cbn [hw enumerated_buses messages].
  assert (word (cfg_write h1 (word_addr (bar b n)) 0xFFFFFFFF) (bar b n) = Z.lor mask ro) as ->.
  { unfold word. rewrite (bd_bar _ _ _ _ _ Hd), Z.land_comm. change 0xFFFFFFFF with (Z.ones 32).
    rewrite Z.land_ones by lia. change (mask mod 2 ^ 32) with (u32 mask).
    rewrite (wrap_small 32 mask) by done. apply wrap_small, lor_range; done || lia. }
  rewrite bool_decide_eq_false_2 by done. cbn [andb]. rewrite decide_False by done.
  rewrite (bind_Ok _ _ _ _ _ eq_refl).
  rewrite (bind_Ok _ _ _ _ _ (assign_bar b n (word (hw s) (bar b n)) _ ltac:(apply wrap_range; lia))).
  rewrite (bind_Ok _ _ _ _ _ eq_refl). cbn [hw enumerated_buses messages].
  unfold assign at 1.
  rewrite (bind_Ok _ _ _ _ _ (register_write_run (command_reg b) (reg (hw s) (command_reg b)) _
    (command_ok b) ltac:(apply bits_range; vm_compute; congruence))).
  do 4 eexists. split; [reflexivity|]. split; [|split; reflexivity].
  change (lane (command_reg b)) with 0. change (8 * sizeof_T (command_reg b)) with 16.
  rewrite bits_set_same by lia. apply wrap_small, bits_range. vm_compute. congruence.
Qed.

(** The values the registers of the run have at its end. *)
Lemma registers_restored (h : H) b n mask ro cmask w0 w1 :
  bar_device b n mask ro cmask -> bar_settled h b n mask ro cmask ->
  word_addr (bar b n) <> word_addr (command_reg b) ->
  bits 0 16 w1 = reg h (command_reg b) ->
  let h' := cfg_write (cfg_write (cfg_write (cfg_write h (word_addr (command_reg b)) w0)
    (word_addr (bar b n)) 0xFFFFFFFF) (word_addr (bar b n)) (word h (bar b n)))
    (word_addr (command_reg b)) w1 in
  reg h' (command_reg b) = reg h (command_reg b) /\
  forall a, a <> word_addr (command_reg b) -> cfg_read h' a = cfg_read h a.
Proof using.
  intros Hd [Hb Hc] Hne Hw h'. split.
  - unfold reg, word, h'. change (lane (command_reg b)) with 0. change (8 * sizeof_T (command_reg b)) with 16.
    unfold bits at 1. rewrite Z.shiftr_0_r, (wrap_wrap_le 16 32) by lia.
    pose proof (bd_command _ _ _ _ _ Hd (cfg_write (cfg_write (cfg_write h (word_addr (command_reg b)) w0)
      (word_addr (bar b n)) 0xFFFFFFFF) (word_addr (bar b n)) (word h (bar b n))) w1) as E.
    unfold bits at 1 in E. rewrite Z.shiftr_0_r in E. rewrite E, Hw, <- Hc. reflexivity.
  - intros a Ha. unfold h'. rewrite (bd_other _ _ _ _ _ Hd) by done.
    destruct (decide (a = word_addr (bar b n))) as [->|Hna].
    + by rewrite (bd_bar _ _ _ _ _ Hd), <- Hb.
    + by rewrite !(bd_other _ _ _ _ _ Hd) by done.
Qed.

End machine.

(** The mask of a region of [2 ^ k] bytes. *)
Definition size_mask (k : Z) : Z := 2 ^ 32 - 2 ^ k.

Lemma size_mask_facts k pre : 4 <= k < 32 -> 0 <= pre < 2 ->
  in_range 32 (size_mask k) /\ Z.land (size_mask k) 7 = 0 /\
  BAR_base_addr (Z.lor (size_mask k) (8 * pre)) = size_mask k + 8 * pre.
Proof.
  intros Hk Hp.
  assert (Forall (fun k => Forall (fun pre => (0 <= size_mask k < 2 ^ 32) /\ Z.land (size_mask k) 7 = 0 /\
    BAR_base_addr (Z.lor (size_mask k) (8 * pre)) = size_mask k + 8 * pre) (seqZ 0 2)) (seqZ 4 28)) as Hall
    by (apply (bool_decide_unpack _); vm_compute; exact I).
  rewrite Forall_forall in Hall. specialize (Hall k ltac:(apply elem_of_seqZ; lia)).
  rewrite Forall_forall in Hall. apply Hall, elem_of_seqZ. lia.
Qed.

(** The type bits of a 32-bit memory BAR. *)
Lemma memory32_type {S} w k pre : 4 <= k < 32 -> 0 <= pre < 2 ->
  get_BAR_space_type (S:=S) (Z.lor (Z.land w (size_mask k)) (8 * pre)) = mret BARSpaceType_Memory32BitSpace.
Proof.
  intros Hk Hp. destruct (size_mask_facts k pre Hk Hp) as (_ & Hm & _).
  set (x := Z.lor _ _). assert (x mod 8 = 0) as Hx.
  { change (x mod 8) with (x mod 2 ^ 3). rewrite <- Z.land_ones by lia. unfold x.
    rewrite Z.land_lor_distr_l, <- Z.land_assoc. change (Z.ones 3) with 7. rewrite Hm, Z.land_0_r.
    assert (pre = 0 \/ pre = 1) as [->| ->] by lia; done. }
  unfold get_BAR_space_type. change (Z.shiftl 1 0) with (Z.ones 1). rewrite Z.land_ones by lia.
  pose proof (Z.div_mod x 8 ltac:(lia)).
  replace (x mod 2 ^ 1) with 0 by (symmetry; change (2 ^ 1) with 2; Z.div_mod_to_equations; lia).
  cbn [Z.eqb negb]. layout_eval. unfold bits, wrap. rewrite Z.shiftr_div_pow2 by lia.
  replace ((x / 2 ^ 1) mod 2 ^ 2) with 0; [done|].
  symmetry. change (2 ^ 1) with 2. change (2 ^ 2) with 4. Z.div_mod_to_equations. lia.
Qed.

(** C23. The probe of a 32-bit memory BAR whose region has [2 ^ k] bytes, on
    any device that keeps the bits the PCI specification lets it keep: the
    BAR, the command register and the registers outside its 32-bit word read at
    the end as they did before, and the low 32 bits of the result are the size
    of the region, less the prefetchable bit, which the mask of [base_addr]
    keeps.  The upper 32 bits of the 64-bit result are all set: the complement
    is taken after the encoded size is widened.  Nothing is said of the status
    register, the upper half of the word of the command register: the write of
    16 bits writes the whole word back, and with it the status bits that are
    cleared by writing a one. *)
Theorem BAR_space_size_memory32 (H : Type) (C : ConfigSpace H) shl bus d f n k pre cmask (s : @state H) :
  let b := addr_make bus d f in
  0 <= n < 6 -> 4 <= k < 32 -> 0 <= pre < 2 ->
  bar_device b n (size_mask k) (8 * pre) cmask -> bar_settled (hw s) b n (size_mask k) (8 * pre) cmask ->
  exists s', BAR_space_size shl 5 b n s = Ok ((2 ^ 32 - 1) * 2 ^ 32 + (2 ^ k - 8 * pre), s') /\
    reg (hw s') (command_reg b) = reg (hw s) (command_reg b) /\
    forall a, a <> word_addr (command_reg b) -> cfg_read (hw s') a = cfg_read (hw s) a.
Proof.
  intros b Hn Hk Hp Hd Hs. pose proof (bar_not_command bus d f n Hn) as Hne.
  destruct (size_mask_facts k pre Hk Hp) as (Hm & _ & Hb).
  assert (word (hw s) (bar b n) = Z.lor (Z.land (word (hw s) (bar b n)) (size_mask k)) (8 * pre)) as Hw.
  { unfold word at 1. rewrite (bs_bar _ _ _ _ _ _ Hs). apply wrap_small, lor_range; [lia| |unfold in_range; lia].
    apply land_range, wrap_range; lia. }
  destruct (BAR_space_size_run shl 5 b n s (size_mask k) (8 * pre) cmask BARSpaceType_Memory32BitSpace)
    as (s' & w0 & w1 & v & Hrun & Hw1 & -> & Hhw); try done; [lia|unfold in_range; lia| |].
  { rewrite Hw. by apply memory32_type. }
  exists s'. split.
  - rewrite Hrun, Hb. do 2 f_equal. unfold Z.lnot, size_mask.
    assert (2 ^ 4 <= 2 ^ k <= 2 ^ 31) by (split; apply Z.pow_le_mono_r; lia).
    rewrite wrap_add_wrap_l by lia.
    replace (Z.pred (- (2 ^ 32 - 2 ^ k + 8 * pre)) + 1)
      with (((2 ^ 32 - 1) * 2 ^ 32 + (2 ^ k - 8 * pre)) + (-1) * 2 ^ 64) by lia.
    rewrite wrap_add_pow by lia. apply wrap_small. unfold in_range. lia.
  - rewrite Hhw. eapply registers_restored; eauto.
Qed.

(** A device with one BAR of 64 KiB, the third. *)
#[local] Instance bar_space : ConfigSpace (gmap Z Z) := {
  cfg_read h a := default 0xFFFFFFFF (h !! a);
  cfg_write h a v :=
    <[a := if a =? word_addr (bar (addr_make 0 3 0) 2) then Z.lor (Z.land v (size_mask 16)) 0
           else if a =? word_addr (command_reg (addr_make 0 3 0)) then Z.land v 0x7FF else v]> h }.

Definition bar_example : gmap Z Z := list_to_map
  [(word_addr (bar (addr_make 0 3 0) 2), 0xFEB10000); (word_addr (command_reg (addr_make 0 3 0)), 0x007)].

Lemma bar_space_device : bar_device (addr_make 0 3 0) 2 (size_mask 16) 0 0x7FF.
Proof.
  split.
  - intros h a v a' Hne. cbn. by rewrite lookup_insert_ne.
  - intros h v. cbn [cfg_read cfg_write bar_space]. by rewrite lookup_insert_eq, Z.eqb_refl.
  - intros h v. cbn [cfg_read cfg_write bar_space]. rewrite lookup_insert_eq. cbn [default].
    destruct (Z.eqb_spec (word_addr (command_reg (addr_make 0 3 0))) (word_addr (bar (addr_make 0 3 0) 2)))
      as [E|_]; [by vm_compute in E|]. rewrite Z.eqb_refl. cbn [default id from_option].
    unfold bits, wrap. rewrite !Z.shiftr_0_r, <- !Z.land_ones by lia.
    by rewrite <- !Z.land_assoc, (Z.land_comm 0x7FF).
Qed.

Lemma BAR_space_size_memory32_witness :
  exists s', BAR_space_size id 5 (addr_make 0 3 0) 2 (State bar_example 0 ∅ []) =
      Ok (0xFFFFFFFF00010000, s') /\
    reg (hw s') (command_reg (addr_make 0 3 0)) = 0x007 /\
    cfg_read (hw s') (word_addr (bar (addr_make 0 3 0) 2)) = 0xFEB10000.
Proof.
  destruct (BAR_space_size_memory32 (gmap Z Z) bar_space id 0 3 0 2 16 0 0x7FF (State bar_example 0 ∅ []))
    as (s' & Hrun & Hc & Ho).
  - lia.
  - lia.
  - lia.
  - apply bar_space_device.
  - split; by vm_compute.
  - exists s'. split; [exact Hrun|]. split; [exact Hc|].
    etrans; [apply Ho; by vm_compute|by vm_compute].
Defined.

(** The code that [BAR_address] returns for the value of the register. *)
Definition BAR_code (max n raw : Z) : option Z :=
  if Z.odd raw then Some (Errno.errno_value Errno.EIO)
  else if fget memory_space_bar "type" raw =? 3 then None
  else if (fget memory_space_bar "type" raw =? 2) && (max <=? n) then Some (Errno.errno_value Errno.EINVAL)
  else Some (i32 (BAR_base_addr raw)).

(** The upper half of a 64-bit address is lost in the error code. *)
Lemma i32_low x y : i32 (Z.lor (u64 (Z.shiftl x 32)) y) = i32 y.
Proof.
  unfold swrap. replace (u32 (Z.lor (u64 (Z.shiftl x 32)) y)) with (u32 y); [done|].
  apply Z.bits_inj'. intros i Hi. rewrite !wrap_testbit, Z.lor_spec, wrap_testbit by lia.
  destruct (Z.ltb_spec i 32); [|done]. rewrite Z.shiftl_spec, (Z.testbit_neg_r x) by lia.
  by rewrite andb_false_r.
Qed.

Section machine.
Context {H : Type} `{ConfigSpace H}.

Lemma BAR_address_run max b n (s : @state H) : 0 <= n <= max -> max < 59 ->
  exists s', hw s' = hw s /\
    BAR_address max b n s =
    match BAR_code max n (word (hw s) (bar b n)) with
    | Some e => Ok (ErrorOr.of_error e, s')
    | None => Fault Halted
    end.
Proof using.
  intros Hn Hmax. unfold BAR_address, BAR_code.
  rewrite (bind_Ok _ _ _ _ _ (BAR_run max b n s ltac:(lia) ltac:(lia))).
  rewrite (bind_Ok _ _ _ _ _ (cast_bar b n s)). set (raw := word (hw s) (bar b n)).
  unfold get_BAR_space_type. change (Z.shiftl 1 0) with (Z.ones 1). rewrite Z.land_ones by lia.
  change (2 ^ 1) with 2. rewrite Zmod_odd. destruct (Z.odd raw); cbn [Z.eqb negb].
  { exists (latched (bar b n) s). by split. }
  set (t := fget memory_space_bar "type" raw).
  assert (0 <= t < 2 ^ 2) as Ht by (apply (bits_range 1 2); lia).
  assert (t = 0 \/ t = 1 \/ t = 2 \/ t = 3) as Hcase by lia.
  destruct Hcase as [E|[E|[E|E]]]; rewrite E; cbn [Z.eqb Pos.eqb andb];
    try (exists (latched (bar b n) s); by split).
  rewrite (bind_Ok _ _ _ _ _ eq_refl). cbn [decide].
  destruct (Z.leb_spec max n); [exists (latched (bar b n) s); by split|].
  rewrite decide_False, decide_True by done.
  rewrite (wrap_small 8 (n + 1)) by (unfold in_range; lia).
  rewrite (bind_Ok _ _ _ _ _ (BAR_run max b (n + 1) _ ltac:(lia) ltac:(lia))).
  rewrite (bind_Ok _ _ _ _ _ (cast_bar b (n + 1) _)).
  eexists. split; [|unfold ErrorOr_of_int; rewrite i32_low; reflexivity]. done.
Qed.

End machine.

(** The constructor of AHCIController never completes: whatever the
    registers of the device hold, [BAR_address] returns the address of the
    controller's registers as an error code, on which [TRYHALT] halts; here
    nothing wakes the processor up. *)
Theorem AHCIController_halts (H : Type) (C : ConfigSpace H) b (s : @state H * mem) :
  AHCIController (fail Halted) b s = Fault Halted.
Proof.
  destruct s as [s m]. destruct (BAR_address_run 5 b 5 s ltac:(lia) ltac:(lia)) as (s' & _ & E).
  unfold AHCIController, Ahci.AHCI_Base_Memory_Register_BARNO.
  destruct (BAR_code _ _ _) as [e|].
  - rewrite (bind_Ok _ _ (s, m) (ErrorOr.of_error e) (s', m)); [done|].
    unfold zoom. cbn [fst]. by rewrite E.
  - apply bind_Fault. unfold zoom. cbn [fst]. by rewrite E.
Qed.

End PciBarProps.
