(* ===== verification/Ext2.v ===== *)
(** filesystem/ext2fs/Definitions.h: the on-disk format of the ext2 file system.

    The constants, the structures with the placement the compiler gives them,
    and the macros that derive the geometry of a file system from its
    superblock.  The header is compiled without [__KERNEL__].  Modules Ext2Types
    and Ext2Mount: the integer types of ext2_types.h and the macros on mount
    options. *)
From S2P Require Import Prelude Layout.

(** ** Definitions *)
Module Ext2.

Definition max_block_size : Z := 4096.
Definition super_block_offset_on_device : Z := 1024.

(** *** Constants *)

Definition EXT2_DEFAULT_PREALLOC_BLOCKS : Z := 8.
Definition EXT2_BAD_INO : Z := 1.
Definition EXT2_ROOT_INO : Z := 2.
Definition EXT2_ACL_IDX_INO : Z := 3.
Definition EXT2_ACL_DATA_INO : Z := 4.
Definition EXT2_BOOT_LOADER_INO : Z := 5.
Definition EXT2_UNDEL_DIR_INO : Z := 6.
Definition EXT2_RESIZE_INO : Z := 7.
Definition EXT2_JOURNAL_INO : Z := 8.
Definition EXT2_GOOD_OLD_FIRST_INO : Z := 11.
Definition EXT2_SUPER_MAGIC : Z := 0xEF53.
Definition EXT2_LINK_MAX : Z := 65000.
Definition EXT2_MIN_BLOCK_LOG_SIZE : Z := 10.
Definition EXT2_MAX_BLOCK_LOG_SIZE : Z := 16.
Definition EXT2_MIN_BLOCK_SIZE : Z := Z.shiftl 1 EXT2_MIN_BLOCK_LOG_SIZE.
Definition EXT2_MAX_BLOCK_SIZE : Z := Z.shiftl 1 EXT2_MAX_BLOCK_LOG_SIZE.
Definition EXT2_MIN_FRAG_SIZE : Z := EXT2_MIN_BLOCK_SIZE.
Definition EXT2_MAX_FRAG_SIZE : Z := EXT2_MAX_BLOCK_SIZE.
Definition EXT2_MIN_FRAG_LOG_SIZE : Z := EXT2_MIN_BLOCK_LOG_SIZE.
Definition EXT2_BG_INODE_UNINIT : Z := 0x0001.
Definition EXT2_BG_BLOCK_UNINIT : Z := 0x0002.
Definition EXT2_BG_INODE_ZEROED : Z := 0x0004.
Definition EXT2_HASH_LEGACY : Z := 0.
Definition EXT2_HASH_HALF_MD4 : Z := 1.
Definition EXT2_HASH_TEA : Z := 2.
Definition EXT2_HASH_LEGACY_UNSIGNED : Z := 3.
Definition EXT2_HASH_HALF_MD4_UNSIGNED : Z := 4.
Definition EXT2_HASH_TEA_UNSIGNED : Z := 5.
Definition EXT2_HASH_FLAG_INCOMPAT : Z := 0x1.
Definition EXT2_MIN_DESC_SIZE : Z := 32.
Definition EXT2_MIN_DESC_SIZE_64BIT : Z := 64.
Definition EXT2_MAX_DESC_SIZE : Z := EXT2_MIN_BLOCK_SIZE.
Definition EXT2_NDIR_BLOCKS : Z := 12.
Definition EXT2_IND_BLOCK : Z := EXT2_NDIR_BLOCKS.
Definition EXT2_DIND_BLOCK : Z := EXT2_IND_BLOCK + 1.
Definition EXT2_TIND_BLOCK : Z := EXT2_DIND_BLOCK + 1.
Definition EXT2_N_BLOCKS : Z := EXT2_TIND_BLOCK + 1.
Definition EXT2_SECRM_FL : Z := 0x00000001.
Definition EXT2_UNRM_FL : Z := 0x00000002.
Definition EXT2_COMPR_FL : Z := 0x00000004.
Definition EXT2_SYNC_FL : Z := 0x00000008.
Definition EXT2_IMMUTABLE_FL : Z := 0x00000010.
Definition EXT2_APPEND_FL : Z := 0x00000020.
Definition EXT2_NODUMP_FL : Z := 0x00000040.
Definition EXT2_NOATIME_FL : Z := 0x00000080.
Definition EXT2_DIRTY_FL : Z := 0x00000100.
Definition EXT2_COMPRBLK_FL : Z := 0x00000200.
Definition EXT2_NOCOMPR_FL : Z := 0x00000400.
Definition EXT2_ECOMPR_FL : Z := 0x00000800.
Definition EXT2_BTREE_FL : Z := 0x00001000.
Definition EXT2_INDEX_FL : Z := 0x00001000.
Definition EXT2_IMAGIC_FL : Z := 0x00002000.
Definition EXT3_JOURNAL_DATA_FL : Z := 0x00004000.
Definition EXT2_NOTAIL_FL : Z := 0x00008000.
Definition EXT2_DIRSYNC_FL : Z := 0x00010000.
Definition EXT2_TOPDIR_FL : Z := 0x00020000.
Definition EXT4_HUGE_FILE_FL : Z := 0x00040000.
Definition EXT4_EXTENTS_FL : Z := 0x00080000.
Definition EXT2_RESERVED_FL : Z := 0x80000000.
Definition EXT2_FL_USER_VISIBLE : Z := 0x000BDFFF.
Definition EXT2_FL_USER_MODIFIABLE : Z := 0x000080FF.
Definition EXT2_VALID_FS : Z := 0x0001.
Definition EXT2_ERROR_FS : Z := 0x0002.
Definition EXT3_ORPHAN_FS : Z := 0x0004.
Definition EXT2_FLAGS_SIGNED_HASH : Z := 0x0001.
Definition EXT2_FLAGS_UNSIGNED_HASH : Z := 0x0002.
Definition EXT2_FLAGS_TEST_FILESYS : Z := 0x0004.
Definition EXT2_MOUNT_CHECK : Z := 0x0001.
Definition EXT2_MOUNT_GRPID : Z := 0x0004.
Definition EXT2_MOUNT_DEBUG : Z := 0x0008.
Definition EXT2_MOUNT_ERRORS_CONT : Z := 0x0010.
Definition EXT2_MOUNT_ERRORS_RO : Z := 0x0020.
Definition EXT2_MOUNT_ERRORS_PANIC : Z := 0x0040.
Definition EXT2_MOUNT_MINIX_DF : Z := 0x0080.
Definition EXT2_MOUNT_NO_UID32 : Z := 0x0200.
Definition EXT2_DFL_MAX_MNT_COUNT : Z := 20.
Definition EXT2_DFL_CHECKINTERVAL : Z := 0.
Definition EXT2_ERRORS_CONTINUE : Z := 1.
Definition EXT2_ERRORS_RO : Z := 2.
Definition EXT2_ERRORS_PANIC : Z := 3.
Definition EXT2_ERRORS_DEFAULT : Z := EXT2_ERRORS_CONTINUE.
Definition EXT2_OS_LINUX : Z := 0.
Definition EXT2_OS_HURD : Z := 1.
Definition EXT2_OBSO_OS_MASIX : Z := 2.
Definition EXT2_OS_FREEBSD : Z := 3.
Definition EXT2_OS_LITES : Z := 4.
Definition EXT2_GOOD_OLD_REV : Z := 0.
Definition EXT2_DYNAMIC_REV : Z := 1.
Definition EXT2_CURRENT_REV : Z := EXT2_GOOD_OLD_REV.
Definition EXT2_MAX_SUPP_REV : Z := EXT2_DYNAMIC_REV.
Definition EXT2_GOOD_OLD_INODE_SIZE : Z := 128.
Definition EXT3_JNL_BACKUP_BLOCKS : Z := 1.
Definition EXT2_FEATURE_COMPAT_DIR_PREALLOC : Z := 0x0001.
Definition EXT2_FEATURE_COMPAT_IMAGIC_INODES : Z := 0x0002.
Definition EXT3_FEATURE_COMPAT_HAS_JOURNAL : Z := 0x0004.
Definition EXT2_FEATURE_COMPAT_EXT_ATTR : Z := 0x0008.
Definition EXT2_FEATURE_COMPAT_RESIZE_INODE : Z := 0x0010.
Definition EXT2_FEATURE_COMPAT_DIR_INDEX : Z := 0x0020.
Definition EXT2_FEATURE_COMPAT_LAZY_BG : Z := 0x0040.
Definition EXT2_FEATURE_RO_COMPAT_SPARSE_SUPER : Z := 0x0001.
Definition EXT2_FEATURE_RO_COMPAT_LARGE_FILE : Z := 0x0002.
Definition EXT4_FEATURE_RO_COMPAT_HUGE_FILE : Z := 0x0008.
Definition EXT4_FEATURE_RO_COMPAT_GDT_CSUM : Z := 0x0010.
Definition EXT4_FEATURE_RO_COMPAT_DIR_NLINK : Z := 0x0020.
Definition EXT4_FEATURE_RO_COMPAT_EXTRA_ISIZE : Z := 0x0040.
Definition EXT2_FEATURE_INCOMPAT_COMPRESSION : Z := 0x0001.
Definition EXT2_FEATURE_INCOMPAT_FILETYPE : Z := 0x0002.
Definition EXT3_FEATURE_INCOMPAT_RECOVER : Z := 0x0004.
Definition EXT3_FEATURE_INCOMPAT_JOURNAL_DEV : Z := 0x0008.
Definition EXT2_FEATURE_INCOMPAT_META_BG : Z := 0x0010.
Definition EXT3_FEATURE_INCOMPAT_EXTENTS : Z := 0x0040.
Definition EXT4_FEATURE_INCOMPAT_64BIT : Z := 0x0080.
Definition EXT4_FEATURE_INCOMPAT_MMP : Z := 0x0100.
Definition EXT4_FEATURE_INCOMPAT_FLEX_BG : Z := 0x0200.
Definition EXT2_FEATURE_COMPAT_SUPP : Z := 0.
Definition EXT2_FEATURE_INCOMPAT_SUPP : Z := EXT2_FEATURE_INCOMPAT_FILETYPE.
Definition EXT2_DEF_RESUID : Z := 0.
Definition EXT2_DEF_RESGID : Z := 0.
Definition EXT2_DEFM_DEBUG : Z := 0x0001.
Definition EXT2_DEFM_BSDGROUPS : Z := 0x0002.
Definition EXT2_DEFM_XATTR_USER : Z := 0x0004.
Definition EXT2_DEFM_ACL : Z := 0x0008.
Definition EXT2_DEFM_UID16 : Z := 0x0010.
Definition EXT3_DEFM_JMODE : Z := 0x0060.
Definition EXT3_DEFM_JMODE_DATA : Z := 0x0020.
Definition EXT3_DEFM_JMODE_ORDERED : Z := 0x0040.
Definition EXT3_DEFM_JMODE_WBACK : Z := 0x0060.
Definition EXT2_NAME_LEN : Z := 255.
Definition EXT2_FT_UNKNOWN : Z := 0.
Definition EXT2_FT_REG_FILE : Z := 1.
Definition EXT2_FT_DIR : Z := 2.
Definition EXT2_FT_CHRDEV : Z := 3.
Definition EXT2_FT_BLKDEV : Z := 4.
Definition EXT2_FT_FIFO : Z := 5.
Definition EXT2_FT_SOCK : Z := 6.
Definition EXT2_FT_SYMLINK : Z := 7.
Definition EXT2_FT_MAX : Z := 8.
Definition EXT2_DIR_PAD : Z := 4.
Definition EXT2_DIR_ROUND : Z := EXT2_DIR_PAD - 1.
Definition EXT2_MMP_MAGIC : Z := 0x004D4D50.
Definition EXT2_MMP_CLEAN : Z := 0xFF4D4D50.
Definition EXT2_MMP_FSCK_ON : Z := 0xE24D4D50.
Definition EXT2_MMP_DEF_INTERVAL : Z := 5.

(** The constants in groups, in the order of the header. *)
Definition special_inodes : list Z :=
  [EXT2_BAD_INO; EXT2_ROOT_INO; EXT2_ACL_IDX_INO; EXT2_ACL_DATA_INO; EXT2_BOOT_LOADER_INO;
   EXT2_UNDEL_DIR_INO; EXT2_RESIZE_INO; EXT2_JOURNAL_INO; EXT2_GOOD_OLD_FIRST_INO].
Definition block_sizes : list Z :=
  [EXT2_MIN_BLOCK_LOG_SIZE; EXT2_MAX_BLOCK_LOG_SIZE; EXT2_MIN_BLOCK_SIZE; EXT2_MAX_BLOCK_SIZE].
Definition group_flags : list Z :=
  [EXT2_BG_INODE_UNINIT; EXT2_BG_BLOCK_UNINIT; EXT2_BG_INODE_ZEROED].
Definition hash_versions : list Z :=
  [EXT2_HASH_LEGACY; EXT2_HASH_HALF_MD4; EXT2_HASH_TEA; EXT2_HASH_LEGACY_UNSIGNED;
   EXT2_HASH_HALF_MD4_UNSIGNED; EXT2_HASH_TEA_UNSIGNED].
Definition descriptor_sizes : list Z :=
  [EXT2_MIN_DESC_SIZE; EXT2_MIN_DESC_SIZE_64BIT; EXT2_MAX_DESC_SIZE].
Definition data_block_indices : list Z :=
  [EXT2_NDIR_BLOCKS; EXT2_IND_BLOCK; EXT2_DIND_BLOCK; EXT2_TIND_BLOCK; EXT2_N_BLOCKS].
Definition inode_flags : list Z :=
  [EXT2_SECRM_FL; EXT2_UNRM_FL; EXT2_COMPR_FL; EXT2_SYNC_FL; EXT2_IMMUTABLE_FL; EXT2_APPEND_FL;
   EXT2_NODUMP_FL; EXT2_NOATIME_FL; EXT2_DIRTY_FL; EXT2_COMPRBLK_FL; EXT2_NOCOMPR_FL;
   EXT2_ECOMPR_FL; EXT2_BTREE_FL; EXT2_INDEX_FL; EXT2_IMAGIC_FL; EXT3_JOURNAL_DATA_FL;
   EXT2_NOTAIL_FL; EXT2_DIRSYNC_FL; EXT2_TOPDIR_FL; EXT4_HUGE_FILE_FL; EXT4_EXTENTS_FL;
   EXT2_RESERVED_FL].
Definition inode_flag_masks : list Z :=
  [EXT2_FL_USER_VISIBLE; EXT2_FL_USER_MODIFIABLE].
Definition fs_states : list Z :=
  [EXT2_VALID_FS; EXT2_ERROR_FS; EXT3_ORPHAN_FS].
Definition fs_flags : list Z :=
  [EXT2_FLAGS_SIGNED_HASH; EXT2_FLAGS_UNSIGNED_HASH; EXT2_FLAGS_TEST_FILESYS].
Definition mount_flags : list Z :=
  [EXT2_MOUNT_CHECK; EXT2_MOUNT_GRPID; EXT2_MOUNT_DEBUG; EXT2_MOUNT_ERRORS_CONT;
   EXT2_MOUNT_ERRORS_RO; EXT2_MOUNT_ERRORS_PANIC; EXT2_MOUNT_MINIX_DF; EXT2_MOUNT_NO_UID32].
Definition error_behaviours : list Z :=
  [EXT2_ERRORS_CONTINUE; EXT2_ERRORS_RO; EXT2_ERRORS_PANIC; EXT2_ERRORS_DEFAULT].
Definition os_codes : list Z :=
  [EXT2_OS_LINUX; EXT2_OS_HURD; EXT2_OBSO_OS_MASIX; EXT2_OS_FREEBSD; EXT2_OS_LITES].
Definition revision_levels : list Z :=
  [EXT2_GOOD_OLD_REV; EXT2_DYNAMIC_REV; EXT2_CURRENT_REV; EXT2_MAX_SUPP_REV;
   EXT2_GOOD_OLD_INODE_SIZE].
Definition compat_features : list Z :=
  [EXT2_FEATURE_COMPAT_DIR_PREALLOC; EXT2_FEATURE_COMPAT_IMAGIC_INODES;
   EXT3_FEATURE_COMPAT_HAS_JOURNAL; EXT2_FEATURE_COMPAT_EXT_ATTR;
   EXT2_FEATURE_COMPAT_RESIZE_INODE; EXT2_FEATURE_COMPAT_DIR_INDEX; EXT2_FEATURE_COMPAT_LAZY_BG].
Definition ro_compat_features : list Z :=
  [EXT2_FEATURE_RO_COMPAT_SPARSE_SUPER; EXT2_FEATURE_RO_COMPAT_LARGE_FILE;
   EXT4_FEATURE_RO_COMPAT_HUGE_FILE; EXT4_FEATURE_RO_COMPAT_GDT_CSUM;
   EXT4_FEATURE_RO_COMPAT_DIR_NLINK; EXT4_FEATURE_RO_COMPAT_EXTRA_ISIZE].
Definition incompat_features : list Z :=
  [EXT2_FEATURE_INCOMPAT_COMPRESSION; EXT2_FEATURE_INCOMPAT_FILETYPE;
   EXT3_FEATURE_INCOMPAT_RECOVER; EXT3_FEATURE_INCOMPAT_JOURNAL_DEV;
   EXT2_FEATURE_INCOMPAT_META_BG; EXT3_FEATURE_INCOMPAT_EXTENTS; EXT4_FEATURE_INCOMPAT_64BIT;
   EXT4_FEATURE_INCOMPAT_MMP; EXT4_FEATURE_INCOMPAT_FLEX_BG].
Definition supported_features : list Z :=
  [EXT2_FEATURE_COMPAT_SUPP; EXT2_FEATURE_INCOMPAT_SUPP].
Definition default_mount_opts : list Z :=
  [EXT2_DEFM_DEBUG; EXT2_DEFM_BSDGROUPS; EXT2_DEFM_XATTR_USER; EXT2_DEFM_ACL; EXT2_DEFM_UID16;
   EXT3_DEFM_JMODE; EXT3_DEFM_JMODE_DATA; EXT3_DEFM_JMODE_ORDERED; EXT3_DEFM_JMODE_WBACK].
Definition file_types : list Z :=
  [EXT2_FT_UNKNOWN; EXT2_FT_REG_FILE; EXT2_FT_DIR; EXT2_FT_CHRDEV; EXT2_FT_BLKDEV; EXT2_FT_FIFO;
   EXT2_FT_SOCK; EXT2_FT_SYMLINK; EXT2_FT_MAX].
Definition mmp_values : list Z :=
  [EXT2_MMP_MAGIC; EXT2_MMP_CLEAN; EXT2_MMP_FSCK_ON].

(** *** Structures *)

Definition ext2_acl_header : cstruct := Struct
  [Plain "aclh_size" cu32; Plain "aclh_file_count" cu32; Plain "aclh_acle_count" cu32;
   Plain "aclh_first_acle" cu32].
Definition ext2_acl_entry : cstruct := Struct
  [Plain "acle_size" cu32; Plain "acle_perms" cu16; Plain "acle_type" cu16; Plain "acle_tag" cu16;
   Plain "acle_pad1" cu16; Plain "acle_next" cu32].
Definition ext2_group_desc : cstruct := Struct
  [Plain "bg_block_bitmap" cu32; Plain "bg_inode_bitmap" cu32; Plain "bg_inode_table" cu32;
   Plain "bg_free_blocks_count" cu16; Plain "bg_free_inodes_count" cu16;
   Plain "bg_used_dirs_count" cu16; Plain "bg_flags" cu16; Plain "bg_reserved" (carray cu32 2);
   Plain "bg_itable_unused" cu16; Plain "bg_checksum" cu16].
Definition ext4_group_desc : cstruct := Struct
  [Plain "bg_block_bitmap" cu32; Plain "bg_inode_bitmap" cu32; Plain "bg_inode_table" cu32;
   Plain "bg_free_blocks_count" cu16; Plain "bg_free_inodes_count" cu16;
   Plain "bg_used_dirs_count" cu16; Plain "bg_flags" cu16; Plain "bg_reserved" (carray cu32 2);
   Plain "bg_itable_unused" cu16; Plain "bg_checksum" cu16; Plain "bg_block_bitmap_hi" cu32;
   Plain "bg_inode_bitmap_hi" cu32; Plain "bg_inode_table_hi" cu32;
   Plain "bg_free_blocks_count_hi" cu16; Plain "bg_free_inodes_count_hi" cu16;
   Plain "bg_used_dirs_count_hi" cu16; Plain "bg_pad" cu16; Plain "bg_reserved2" (carray cu32 3)].
Definition ext2_dx_root_info : cstruct := Struct
  [Plain "reserved_zero" cu32; Plain "hash_version" cu8; Plain "info_length" cu8;
   Plain "indirect_levels" cu8; Plain "unused_flags" cu8].
Definition ext2_dx_entry : cstruct := Struct
  [Plain "hash" cu32; Plain "block" cu32].
Definition ext2_dx_countlimit : cstruct := Struct
  [Plain "limit" cu16; Plain "count" cu16].
Definition ext2_new_group_input : cstruct := Struct
  [Plain "group" cu32; Plain "block_bitmap" cu32; Plain "inode_bitmap" cu32;
   Plain "inode_table" cu32; Plain "blocks_count" cu32; Plain "reserved_blocks" cu16;
   Plain "unused" cu16].
Definition ext4_new_group_input : cstruct := Struct
  [Plain "group" cu32; Plain "block_bitmap" cu64; Plain "inode_bitmap" cu64;
   Plain "inode_table" cu64; Plain "blocks_count" cu32; Plain "reserved_blocks" cu16;
   Plain "unused" cu16].
Definition linux1 : cstruct := Struct
  [Plain "l_i_version" cu32].
Definition hurd1 : cstruct := Struct
  [Plain "h_i_translator" cu32].
Definition linux2 : cstruct := Struct
  [Plain "l_i_blocks_hi" cu16; Plain "l_i_file_acl_high" cu16; Plain "l_i_uid_high" cu16;
   Plain "l_i_gid_high" cu16; Plain "l_i_reserved2" cu32].
Definition hurd2 : cstruct := Struct
  [Plain "h_i_frag" cu8; Plain "h_i_fsize" cu8; Plain "h_i_mode_high" cu16;
   Plain "h_i_uid_high" cu16; Plain "h_i_gid_high" cu16; Plain "h_i_author" cu32].
Definition ext2_inode : cstruct := Struct
  [Plain "i_mode" cu16; Plain "i_uid" cu16; Plain "i_size" cu32; Plain "i_atime" cu32;
   Plain "i_ctime" cu32; Plain "i_mtime" cu32; Plain "i_dtime" cu32; Plain "i_gid" cu16;
   Plain "i_links_count" cu16; Plain "i_blocks" cu32; Plain "i_flags" cu32;
   Plain "osd1" (union_type [cs_type linux1; cs_type hurd1]);
   Plain "i_block" (carray cu32 EXT2_N_BLOCKS); Plain "i_generation" cu32;
   Plain "i_file_acl" cu32; Plain "i_dir_acl" cu32; Plain "i_faddr" cu32;
   Plain "osd2" (union_type [cs_type linux2; cs_type hurd2])].
Definition ext2_inode_large : cstruct := Struct
  [Plain "i_mode" cu16; Plain "i_uid" cu16; Plain "i_size" cu32; Plain "i_atime" cu32;
   Plain "i_ctime" cu32; Plain "i_mtime" cu32; Plain "i_dtime" cu32; Plain "i_gid" cu16;
   Plain "i_links_count" cu16; Plain "i_blocks" cu32; Plain "i_flags" cu32;
   Plain "osd1" (union_type [cs_type linux1; cs_type hurd1]);
   Plain "i_block" (carray cu32 EXT2_N_BLOCKS); Plain "i_generation" cu32;
   Plain "i_file_acl" cu32; Plain "i_dir_acl" cu32; Plain "i_faddr" cu32;
   Plain "osd2" (union_type [cs_type linux2; cs_type hurd2]); Plain "i_extra_isize" cu16;
   Plain "i_pad1" cu16; Plain "i_ctime_extra" cu32; Plain "i_mtime_extra" cu32;
   Plain "i_atime_extra" cu32; Plain "i_crtime" cu32; Plain "i_crtime_extra" cu32;
   Plain "i_version_hi" cu32].
Definition ext2_super_block : cstruct := Struct
  [Plain "s_inodes_count" cu32; Plain "s_blocks_count" cu32; Plain "s_r_blocks_count" cu32;
   Plain "s_free_blocks_count" cu32; Plain "s_free_inodes_count" cu32;
   Plain "s_first_data_block" cu32; Plain "s_log_block_size" cu32; Plain "s_log_frag_size" cu32;
   Plain "s_blocks_per_group" cu32; Plain "s_frags_per_group" cu32;
   Plain "s_inodes_per_group" cu32; Plain "s_mtime" cu32; Plain "s_wtime" cu32;
   Plain "s_mnt_count" cu16; Plain "s_max_mnt_count" cu16; Plain "s_magic" cu16;
   Plain "s_state" cu16; Plain "s_errors" cu16; Plain "s_minor_rev_level" cu16;
   Plain "s_lastcheck" cu32; Plain "s_checkinterval" cu32; Plain "s_creator_os" cu32;
   Plain "s_rev_level" cu32; Plain "s_def_resuid" cu16; Plain "s_def_resgid" cu16;
   Plain "s_first_ino" cu32; Plain "s_inode_size" cu16; Plain "s_block_group_nr" cu16;
   Plain "s_feature_compat" cu32; Plain "s_feature_incompat" cu32;
   Plain "s_feature_ro_compat" cu32; Plain "s_uuid" (carray cu8 16);
   Plain "s_volume_name" (carray cu8 16); Plain "s_last_mounted" (carray cu8 64);
   Plain "s_algorithm_usage_bitmap" cu32; Plain "s_prealloc_blocks" cu8;
   Plain "s_prealloc_dir_blocks" cu8; Plain "s_reserved_gdt_blocks" cu16;
   Plain "s_journal_uuid" (carray cu8 16); Plain "s_journal_inum" cu32;
   Plain "s_journal_dev" cu32; Plain "s_last_orphan" cu32; Plain "s_hash_seed" (carray cu32 4);
   Plain "s_def_hash_version" cu8; Plain "s_jnl_backup_type" cu8; Plain "s_desc_size" cu16;
   Plain "s_default_mount_opts" cu32; Plain "s_first_meta_bg" cu32; Plain "s_mkfs_time" cu32;
   Plain "s_jnl_blocks" (carray cu32 17); Plain "s_blocks_count_hi" cu32;
   Plain "s_r_blocks_count_hi" cu32; Plain "s_free_blocks_hi" cu32;
   Plain "s_min_extra_isize" cu16; Plain "s_want_extra_isize" cu16; Plain "s_flags" cu32;
   Plain "s_raid_stride" cu16; Plain "s_mmp_interval" cu16; Plain "s_mmp_block" cu64;
   Plain "s_raid_stripe_width" cu32; Plain "s_log_groups_per_flex" cu8;
   Plain "s_reserved_char_pad" cu8; Plain "s_reserved_pad" cu16;
   Plain "s_reserved" (carray cu32 162)].
Definition ext2_dir_entry : cstruct := Struct
  [Plain "inode" cu32; Plain "rec_len" cu16; Plain "name_len" cu16;
   Plain "name" (carray cu8 EXT2_NAME_LEN)].
Definition ext2_dir_entry_2 : cstruct := Struct
  [Plain "inode" cu32; Plain "rec_len" cu16; Plain "name_len" cu8; Plain "file_type" cu8;
   Plain "name" (carray cu8 EXT2_NAME_LEN)].
Definition mmp_struct : cstruct := Struct
  [Plain "mmp_magic" cu32; Plain "mmp_seq" cu32; Plain "mmp_time" cu64;
   Plain "mmp_nodename" (carray cu8 64); Plain "mmp_bdevname" (carray cu8 32);
   Plain "mmp_interval" cu16; Plain "mmp_pad1" cu16; Plain "mmp_pad2" cu32].

(** *** Macros

    A superblock or an inode is the number its bytes spell. *)

Definition sb (m : string) (s : Z) : Z := fget (cs_layout ext2_super_block) m s.

(** [int] arithmetic: the shift wraps to 32 bits. *)
Definition EXT2_BLOCK_SIZE (s : Z) : Z := i32 (Z.shiftl EXT2_MIN_BLOCK_SIZE (sb "s_log_block_size" s)).
Definition EXT2_BLOCK_SIZE_BITS (s : Z) : Z := u32 (sb "s_log_block_size" s + 10).
Definition EXT2_INODE_SIZE (s : Z) : Z :=
  if sb "s_rev_level" s =? EXT2_GOOD_OLD_REV then EXT2_GOOD_OLD_INODE_SIZE else sb "s_inode_size" s.
Definition EXT2_FIRST_INO (s : Z) : Z :=
  if sb "s_rev_level" s =? EXT2_GOOD_OLD_REV then EXT2_GOOD_OLD_FIRST_INO else sb "s_first_ino" s.
Definition EXT2_ADDR_PER_BLOCK (s : Z) : Z := u64 (EXT2_BLOCK_SIZE s) / ty_size cu32.
Definition EXT2_FRAG_SIZE (s : Z) : Z := i32 (Z.shiftl EXT2_MIN_FRAG_SIZE (i32 (sb "s_log_frag_size" s))).
Definition EXT2_FRAGS_PER_BLOCK (s : Z) : Z := EXT2_BLOCK_SIZE s ÷ EXT2_FRAG_SIZE s.
Definition EXT2_DESC_SIZE (s : Z) : Z :=
  if negb (Z.land (sb "s_feature_incompat" s) EXT4_FEATURE_INCOMPAT_64BIT =? 0)
  then sb "s_desc_size" s else EXT2_MIN_DESC_SIZE.
Definition EXT2_BLOCKS_PER_GROUP (s : Z) : Z := sb "s_blocks_per_group" s.
Definition EXT2_INODES_PER_GROUP (s : Z) : Z := sb "s_inodes_per_group" s.
Definition EXT2_INODES_PER_BLOCK (s : Z) : Z := EXT2_BLOCK_SIZE s ÷ EXT2_INODE_SIZE s.
Definition EXT2_MAX_BLOCKS_PER_GROUP : Z := Z.shiftl 1 16 - 8.
Definition EXT2_MAX_INODES_PER_GROUP (s : Z) : Z := Z.shiftl 1 16 - EXT2_INODES_PER_BLOCK s.
Definition EXT2_DESC_PER_BLOCK (s : Z) : Z := EXT2_BLOCK_SIZE s ÷ EXT2_DESC_SIZE s.

Definition EXT2_HAS_COMPAT_FEATURE (s mask : Z) : Z := Z.land (sb "s_feature_compat" s) mask.
Definition EXT2_HAS_RO_COMPAT_FEATURE (s mask : Z) : Z := Z.land (sb "s_feature_ro_compat" s) mask.
Definition EXT2_HAS_INCOMPAT_FEATURE (s mask : Z) : Z := Z.land (sb "s_feature_incompat" s) mask.

Definition EXT2_DIR_REC_LEN (name_len : Z) : Z :=
  Z.land (name_len + 8 + EXT2_DIR_ROUND) (Z.lnot EXT2_DIR_ROUND).

(** Members of the [linux2] part of an inode. *)
Definition linux2_off (m : string) : Z :=
  pl_off (field_of (cs_layout ext2_inode) "osd2") + pl_off (field_of (cs_layout linux2) m).

(** [u16] operands are promoted to [int] before the shift and the or. *)
Definition inode_uid (inode : Z) : Z :=
  i32 (Z.lor (fget (cs_layout ext2_inode) "i_uid" inode)
             (Z.shiftl (bits (linux2_off "l_i_uid_high") 16 inode) 16)).
Definition inode_gid (inode : Z) : Z :=
  i32 (Z.lor (fget (cs_layout ext2_inode) "i_gid" inode)
             (Z.shiftl (bits (linux2_off "l_i_gid_high") 16 inode) 16)).
Definition ext2fs_set_i_uid_high (inode x : Z) : Z := set_bits (linux2_off "l_i_uid_high") 16 x inode.
Definition ext2fs_set_i_gid_high (inode x : Z) : Z := set_bits (linux2_off "l_i_gid_high") 16 x inode.

End Ext2.

(** ** Properties *)
Module Ext2Props.
Import Ext2.

(** Flags that can be told apart: each is one bit, and no two are the same. *)
Definition distinct_bits (l : list Z) : bool :=
  forallb (fun x => (0 <? x) && (Z.land x (x - 1) =? 0)) l && bool_decide (NoDup l).

(** The feature, mount and state flags are distinct bits; so are the inode
    flags but for the two names of bit 12, and the flags a user changes are
    among those a user sees. *)
Lemma ext2_flags_distinct :
  forallb distinct_bits [group_flags; fs_states; fs_flags; mount_flags; compat_features; ro_compat_features;
    incompat_features; remove_dups inode_flags] = true /\
  EXT2_BTREE_FL = EXT2_INDEX_FL /\
  Z.land EXT2_FL_USER_MODIFIABLE EXT2_FL_USER_VISIBLE = EXT2_FL_USER_MODIFIABLE.
Proof. by vm_compute. Qed.

(** The structures have the sizes and key offsets of the on-disk format:
    a superblock fills 1024 bytes with its magic number at byte 56, an inode
    128, group descriptors 32 and 64, and the directory entry's name starts at
    byte 8. *)
Theorem ext2_layout :
  cs_sizeof ext2_super_block = 1024 /\ offsetof (cs_layout ext2_super_block) "s_magic" = 56 /\
  offsetof (cs_layout ext2_super_block) "s_first_ino" = 84 /\
  offsetof (cs_layout ext2_super_block) "s_reserved" = 376 /\
  cs_sizeof ext2_inode = EXT2_GOOD_OLD_INODE_SIZE /\ offsetof (cs_layout ext2_inode) "i_block" = 40 /\
  cs_sizeof ext2_inode_large = 156 /\
  cs_sizeof ext2_group_desc = EXT2_MIN_DESC_SIZE /\ cs_sizeof ext4_group_desc = EXT2_MIN_DESC_SIZE_64BIT /\
  offsetof (cs_layout ext2_dir_entry) "name" = 8 /\ offsetof (cs_layout ext2_dir_entry_2) "name" = 8.
Proof. by vm_compute. Qed.

Definition ext2_structs : list cstruct :=
  [ext2_acl_header; ext2_acl_entry; ext2_group_desc; ext4_group_desc; ext2_dx_root_info; ext2_dx_entry;
   ext2_dx_countlimit; ext2_new_group_input; ext4_new_group_input; ext2_inode; ext2_inode_large;
   ext2_super_block; ext2_dir_entry; ext2_dir_entry_2; mmp_struct].

(** The members of every structure are disjoint bit fields: setting all of them
    and reading them gives them back, each cut to its width. *)
Theorem ext2_round_trip s vs raw :
  s ∈ ext2_structs -> length vs = length (cs_layout s) ->
  unpack (cs_layout s) (pack (cs_layout s) vs raw) =
  zip_with (fun p v => wrap (pl_width p) v) (cs_layout s) vs.
Proof.
  intros Hs. apply cs_round_trip.
  assert (Forall (fun s => Forall sane_member (cs_members s)) ext2_structs) as Hall
    by (apply (bool_decide_eq_true_1 (Forall _ _)); by vm_compute).
  by eapply Forall_forall in Hall.
Qed.

Lemma ext2_round_trip_witness :
  unpack (cs_layout ext2_dx_entry) (pack (cs_layout ext2_dx_entry) [7; 2 ^ 32 + 9] 12345) = [7; 9].
Proof.
  etrans; [apply (ext2_round_trip ext2_dx_entry)|].
  - apply list_elem_of_lookup. by exists 5%nat.
  - reflexivity.
  - by vm_compute.
Defined.

(** A superblock of a file system a driver can use: blocks of 1 to 64 KiB,
    inodes of a power of two bytes that fit a block, 32-byte descriptors. *)
Record superblock_ok (s : Z) (k : Z) : Prop := {
  so_log : sb "s_log_block_size" s <= 6;
  so_inode : 7 <= k <= 10 + sb "s_log_block_size" s;
  so_inode_size : EXT2_INODE_SIZE s = 2 ^ k;
  so_desc : Z.land (sb "s_feature_incompat" s) EXT4_FEATURE_INCOMPAT_64BIT = 0 }.

Lemma quot_pow2 a b : 0 <= b <= a -> 2 ^ a ÷ 2 ^ b * 2 ^ b = 2 ^ a.
Proof.
  intros H. rewrite Z.quot_div_nonneg by (auto using Z.pow_nonneg with lia || apply pow2_pos; lia).
  rewrite <- Z.pow_sub_r by lia. rewrite <- Z.pow_add_r by lia. f_equal. lia.
Qed.

Lemma block_size_pow s : sb "s_log_block_size" s <= 6 ->
  0 <= sb "s_log_block_size" s /\ EXT2_BLOCK_SIZE s = 2 ^ (10 + sb "s_log_block_size" s).
Proof.
  intros Hl. assert (0 <= sb "s_log_block_size" s) as H0 by (apply (bits_range _ 32); lia).
  split; [done|]. unfold EXT2_BLOCK_SIZE, EXT2_MIN_BLOCK_SIZE, EXT2_MIN_BLOCK_LOG_SIZE.
  rewrite !Z.shiftl_mul_pow2 by lia. rewrite Z.mul_1_l, <- Z.pow_add_r by lia.
  apply swrap_small; [lia|]. split; [by apply Z.pow_nonneg|]. apply Z.pow_lt_mono_r; lia.
Qed.

(** C40. The geometry macros are consistent, for every superblock with blocks of
    1 to 64 KiB, inodes of a power of two of at least 128 bytes that fit a block,
    and 32-byte group descriptors: the block size is the power of two its bit
    count says, and a block is filled exactly by its inodes, by its block
    addresses and by its group descriptors. *)
Theorem ext2_geometry s k : superblock_ok s k ->
  EXT2_BLOCK_SIZE s = 2 ^ EXT2_BLOCK_SIZE_BITS s /\
  EXT2_INODES_PER_BLOCK s * EXT2_INODE_SIZE s = EXT2_BLOCK_SIZE s /\
  EXT2_ADDR_PER_BLOCK s * 4 = EXT2_BLOCK_SIZE s /\
  EXT2_DESC_PER_BLOCK s * cs_sizeof ext2_group_desc = EXT2_BLOCK_SIZE s.
Proof.
  intros [Hl Hk Hi Hd]. destruct (block_size_pow s Hl) as [H0 E].
  assert (2 ^ (10 + sb "s_log_block_size" s) < 2 ^ 17) as Hsmall by (apply Z.pow_lt_mono_r; lia).
  pose proof (pow2_pos (10 + sb "s_log_block_size" s) ltac:(lia)).
  unfold EXT2_INODES_PER_BLOCK, EXT2_ADDR_PER_BLOCK, EXT2_DESC_PER_BLOCK, EXT2_DESC_SIZE, EXT2_BLOCK_SIZE_BITS.
  rewrite Hd, E, Hi. cbn [negb Z.eqb]. split_and!.
  - rewrite wrap_small by (unfold in_range; lia). f_equal. lia.
  - apply quot_pow2. lia.
  - rewrite wrap_small by (unfold in_range; lia). change (ty_size cu32) with (2 ^ 2). change 4 with (2 ^ 2).
    rewrite <- Z.quot_div_nonneg by lia. apply quot_pow2. lia.
  - change EXT2_MIN_DESC_SIZE with (2 ^ 5). change (cs_sizeof ext2_group_desc) with (2 ^ 5). apply quot_pow2. lia.
Qed.

Definition example_superblock : Z :=
  finit (cs_layout ext2_super_block) [("s_log_block_size", 2); ("s_rev_level", 1); ("s_inode_size", 256)].

Lemma ext2_geometry_witness :
  EXT2_BLOCK_SIZE example_superblock = 2 ^ EXT2_BLOCK_SIZE_BITS example_superblock /\
  EXT2_INODES_PER_BLOCK example_superblock * EXT2_INODE_SIZE example_superblock =
    EXT2_BLOCK_SIZE example_superblock /\
  EXT2_ADDR_PER_BLOCK example_superblock * 4 = EXT2_BLOCK_SIZE example_superblock /\
  EXT2_DESC_PER_BLOCK example_superblock * cs_sizeof ext2_group_desc = EXT2_BLOCK_SIZE example_superblock.
Proof. apply (ext2_geometry example_superblock 8). split; vm_compute; intuition congruence. Defined.

(** [EXT2_DIR_REC_LEN] is the smallest multiple of 4 that holds the 8 fixed
    bytes and a name. *)
Theorem dir_rec_len_least n : 0 <= n ->
  (4 | EXT2_DIR_REC_LEN n) /\ n + 8 <= EXT2_DIR_REC_LEN n < n + 8 + 4.
Proof.
  intros Hn. unfold EXT2_DIR_REC_LEN, EXT2_DIR_ROUND, EXT2_DIR_PAD. rewrite <- Z.ldiff_land.
  change (4 - 1) with (Z.ones 2). rewrite Z.ldiff_ones_r, Z.shiftl_mul_pow2, Z.shiftr_div_pow2 by lia.
  change (2 ^ 2) with 4. change (Z.ones 2) with 3. split; [by eexists|].
  pose proof (Z.div_mod (n + 8 + 3) 4). pose proof (Z.mod_pos_bound (n + 8 + 3) 4). lia.
Qed.

Lemma dir_rec_len_least_witness : (4 | EXT2_DIR_REC_LEN 5) /\ 5 + 8 <= EXT2_DIR_REC_LEN 5 < 5 + 8 + 4.
Proof. apply (dir_rec_len_least 5). lia. Defined.

(** The two forms of a directory entry agree: an entry written in the old
    form, its name shorter than 256, reads in the new form with the same
    inode, record length, name length and name, and the file type unknown. *)
Theorem dir_entry_compatible raw :
  let old := cs_layout ext2_dir_entry in let new := cs_layout ext2_dir_entry_2 in
  fget old "name_len" raw < 256 ->
  fget new "inode" raw = fget old "inode" raw /\ fget new "rec_len" raw = fget old "rec_len" raw /\
  fget new "name_len" raw = fget old "name_len" raw /\ fget new "name" raw = fget old "name" raw /\
  fget new "file_type" raw = EXT2_FT_UNKNOWN.
Proof.
  cbn zeta. layout_eval. intros Hl. pose proof (bits_range 48 16 raw ltac:(lia)) as Hr.
  assert (bits 48 16 raw = bits 48 8 raw + 2 ^ 8 * bits 56 8 raw) as E.
  { unfold bits, wrap. rewrite !Z.shiftr_div_pow2 by lia. change (2 ^ 56) with (2 ^ 48 * 2 ^ 8).
    rewrite <- Z.div_div by lia. change (2 ^ 16) with (2 ^ 8 * 2 ^ 8). apply Z.rem_mul_r; lia. }
  pose proof (bits_range 48 8 raw ltac:(lia)). pose proof (bits_range 56 8 raw ltac:(lia)).
  unfold in_range, EXT2_FT_UNKNOWN in *. split_and!; try reflexivity; lia.
Qed.

Lemma dir_entry_compatible_witness :
  let raw := finit (cs_layout ext2_dir_entry) [("inode", 12); ("rec_len", 16); ("name_len", 5)] in
  fget (cs_layout ext2_dir_entry_2) "name_len" raw = 5 /\
  fget (cs_layout ext2_dir_entry_2) "file_type" raw = EXT2_FT_UNKNOWN.
Proof.
  intros raw. destruct (dir_entry_compatible raw) as (_ & _ & H1 & _ & H2); [by vm_compute|].
  split; [|exact H2]. etrans; [exact H1|by vm_compute].
Defined.

(** The owner written in two halves reads back, as an [int]. *)
Lemma inode_uid_set inode uid : in_range 32 uid ->
  inode_uid (ext2fs_set_i_uid_high (fset (cs_layout ext2_inode) "i_uid" uid inode) (Z.shiftr uid 16)) = i32 uid.
Proof.
  intros Hu. unfold inode_uid, ext2fs_set_i_uid_high.
  change (linux2_off "l_i_uid_high") with 960. layout_eval.
  rewrite bits_set_other, !bits_set_same by lia. f_equal.
  rewrite (wrap_small 16 (Z.shiftr uid 16)).
  2:{ unfold in_range in *. rewrite Z.shiftr_div_pow2 by lia. split; [apply Z.div_pos; lia|].
      apply Z.div_lt_upper_bound; lia. }
  rewrite lor_shiftl_add by first [lia|apply wrap_range; lia]. rewrite Z.shiftr_div_pow2 by lia.
  unfold wrap. pose proof (Z.div_mod uid (2 ^ 16)). lia.
Qed.

End Ext2Props.

(** ** filesystem/ext2fs/ext2_types.h

    The header is a program of the preprocessor: each type is the value of a
    macro where it is defined, or else is chosen by the sizes of the types of
    C, which are written out as numbers. *)
Module Ext2Types.

Inductive rank := char | short | int | long | long_long.
Record int_type := IntType { is_signed : bool; int_rank : rank }.

(** The sizes the compiler gives them on x86-64. *)
Definition sizeof (t : int_type) : Z :=
  match int_rank t with char => 1 | short => 2 | int => 4 | long => 8 | long_long => 8 end.

Abbreviation signed := (IntType true).
Abbreviation unsigned := (IntType false).

(** The values the macros get at the top of the header. *)
Definition S8_TYPEDEF : int_type := signed char.
Definition U8_TYPEDEF : int_type := unsigned char.
Definition S16_TYPEDEF : int_type := signed short.
Definition U16_TYPEDEF : int_type := unsigned short.
Definition S32_TYPEDEF : int_type := signed int.
Definition U32_TYPEDEF : int_type := unsigned int.
Definition S64_TYPEDEF : int_type := signed long_long.
Definition U64_TYPEDEF : int_type := unsigned long_long.

(** [#ifdef macro typedef macro name; #else ... #endif]; [None] is a
    translation that fails or leaves the name undeclared. *)
Definition ifdef (macro : option int_type) (otherwise : option int_type) : option int_type :=
  match macro with Some t => Some t | None => otherwise end.

Definition u8_typedef (macro : option int_type) := ifdef macro (Some (unsigned char)).
Definition s8_typedef (macro : option int_type) := ifdef macro (Some (signed char)).

Definition u16_typedef (macro : option int_type) := ifdef macro
  (if 4 =? 2 then Some (unsigned int)
   else if 2 =? 2 then Some (unsigned short)
   else None).
Definition s16_typedef (macro : option int_type) := ifdef macro
  (if 4 =? 2 then Some (signed int)
   else if 2 =? 2 then Some (signed short)
   else None).

Definition u32_typedef (macro : option int_type) := ifdef macro
  (if 4 =? 4 then Some (unsigned int)
   else if 4 =? 4 then Some (unsigned long)
   else if 2 =? 4 then Some (unsigned short)
   else None).
Definition s32_typedef (macro : option int_type) := ifdef macro
  (if 4 =? 4 then Some (signed int)
   else if 4 =? 4 then Some (signed long)
   else if 2 =? 4 then Some (signed short)
   else None).

Definition u64_typedef (macro : option int_type) := ifdef macro
  (if 4 =? 8 then Some (unsigned int)
   else if 4 =? 8 then Some (unsigned long)
   else if 8 =? 8 then Some (unsigned long_long)
   else None).
(** Both spellings of the last branch name the same type. *)
Definition s64_typedef (macro : option int_type) := ifdef macro
  (if 4 =? 8 then Some (signed int)
   else if 4 =? 8 then Some (signed long)
   else if 8 =? 8 then Some (signed long_long)
   else None).

(** The header: nothing when another header has declared the types, and
    otherwise the eight names, in the header's order. *)
Definition ext2_types (LINUX_TYPES_H BLKID_TYPES_H EXT2_TYPES_H : bool) : list (string * option int_type) :=
  if negb LINUX_TYPES_H && negb BLKID_TYPES_H && negb EXT2_TYPES_H then
    [("__u8", u8_typedef (Some U8_TYPEDEF)); ("__s8", s8_typedef (Some S8_TYPEDEF));
     ("__u16", u16_typedef (Some U16_TYPEDEF)); ("__s16", s16_typedef (Some S16_TYPEDEF));
     ("__u32", u32_typedef (Some U32_TYPEDEF)); ("__s32", s32_typedef (Some S32_TYPEDEF));
     ("__u64", u64_typedef (Some U64_TYPEDEF)); ("__s64", s64_typedef (Some S64_TYPEDEF))]%string
  else [].

End Ext2Types.

(** *** The macros on mount options *)
Module Ext2Mount.
Import Ext2.

Definition clear_opt (o opt : Z) : Z := Z.land o (Z.lnot opt).
Definition set_opt (o opt : Z) : Z := Z.lor o opt.
Definition test_opt (s_mount_opt opt : Z) : Z := Z.land s_mount_opt opt.

End Ext2Mount.

Module Ext2TypesProps.
Import Ext2 Ext2Types Ext2Mount.

(** What the name of a type says of it. *)
Definition names_type (name : string) (t : int_type) : Prop :=
  exists s w, (name, s, w) ∈ [("__u8", false, 8); ("__s8", true, 8); ("__u16", false, 16);
    ("__s16", true, 16); ("__u32", false, 32); ("__s32", true, 32); ("__u64", false, 64);
    ("__s64", true, 64)]%string /\ is_signed t = s /\ 8 * sizeof t = w.

(** The types of the on-disk structures have the signedness and the width
    their names say: in the translation the header makes, where every name is
    declared exactly once, and in the branches that choose by the sizes of
    the types of C, which are taken when a macro is not defined. *)
Theorem ext2_types_width :
  (exists ts, ext2_types false false false = (fun nt => (nt.1, Some nt.2)) <$> ts /\
    NoDup ts.*1 /\ length ts = 8%nat /\ Forall (fun nt => names_type nt.1 nt.2) ts) /\
  Forall (fun nf => exists t, nf.2 None = Some t /\ names_type nf.1 t)
    [("__u8", u8_typedef); ("__s8", s8_typedef); ("__u16", u16_typedef); ("__s16", s16_typedef);
     ("__u32", u32_typedef); ("__s32", s32_typedef); ("__u64", u64_typedef); ("__s64", s64_typedef)]%string.
Proof.
  assert (forall name s w t, (name, s, w) ∈ [("__u8", false, 8); ("__s8", true, 8); ("__u16", false, 16);
    ("__s16", true, 16); ("__u32", false, 32); ("__s32", true, 32); ("__u64", false, 64);
    ("__s64", true, 64)]%string -> is_signed t = s -> 8 * sizeof t = w -> names_type name t) as Hn
    by (intros; by do 2 eexists).
  split.
  - exists [("__u8", U8_TYPEDEF); ("__s8", S8_TYPEDEF); ("__u16", U16_TYPEDEF); ("__s16", S16_TYPEDEF);
      ("__u32", U32_TYPEDEF); ("__s32", S32_TYPEDEF); ("__u64", U64_TYPEDEF); ("__s64", S64_TYPEDEF)]%string.
    split; [done|]. split; [by apply (bool_decide_unpack _)|]. split; [done|].
    repeat apply Forall_cons_2; try apply Forall_nil_2;
      (eapply Hn; [apply list_elem_of_In; simpl; tauto|done|done]).
  - repeat apply Forall_cons_2; try apply Forall_nil_2;
      (eexists; split; [reflexivity|]; eapply Hn; [apply list_elem_of_In; simpl; tauto|done|done]).
Qed.

Lemma land_pow2 o i : 0 <= i -> Z.land o (2 ^ i) <> 0 <-> Z.testbit o i = true.
Proof.
  intros Hi. split.
  - intros Hn. destruct (Z.testbit o i) eqn:E; [done|]. exfalso. apply Hn. apply Z.bits_inj'. intros j Hj.
    rewrite Z.land_spec, Z.pow2_bits_eqb, Z.bits_0 by lia.
    destruct (Z.eqb_spec i j) as [->|]; [by rewrite E|apply andb_false_r].
  - intros E Hz. apply (f_equal (fun z => Z.testbit z i)) in Hz.
    by rewrite Z.land_spec, Z.pow2_bits_true, E, Z.bits_0 in Hz by lia.
Qed.

Lemma mount_flag_bit a : a ∈ mount_flags -> exists i, 0 <= i /\ a = 2 ^ i.
Proof.
  assert (Forall (fun a => 0 <= Z.log2 a /\ a = 2 ^ Z.log2 a) mount_flags) as Hall
    by (apply (bool_decide_unpack _); vm_compute; exact I).
  intros Ha. rewrite Forall_forall in Hall. eauto.
Qed.

(** Setting and clearing an option is seen by its test and by no other. *)
Theorem mount_options_independent o a b :
  a ∈ mount_flags -> b ∈ mount_flags ->
  (test_opt (set_opt o a) b <> 0 <-> a = b \/ test_opt o b <> 0) /\
  (test_opt (clear_opt o a) b <> 0 <-> a <> b /\ test_opt o b <> 0).
Proof.
  intros (i & Hi & ->)%mount_flag_bit (j & Hj & ->)%mount_flag_bit.
  unfold test_opt, set_opt, clear_opt. rewrite !land_pow2, Z.lor_spec, Z.land_spec, Z.lnot_spec by lia.
  rewrite !Z.pow2_bits_eqb by lia. assert (2 ^ i = 2 ^ j <-> i = j) as Hinj by (split; [apply Z.pow_inj_r; lia|congruence]).
  rewrite Hinj, orb_true_iff, andb_true_iff, negb_true_iff, Z.eqb_eq, Z.eqb_neq. tauto.
Qed.

End Ext2TypesProps.
