(* ===== verification/Shell.v ===== *)
(** user/sh.c: the shell, and user/userinit.S: the first process (Module
    UserInit).

    The system calls and the user library are not part of the repository: what
    they return is a function of the calls made so far, given by the record
    [environment], and every call is recorded.  [parse_cmd] and [run_cmd] have
    no body in the source and are one call. *)
From S2P Require Import Prelude.

Module Shell.

Definition CMD_MAXLEN : Z := 128.

(** The calls, with the arguments the shell chooses. *)
Inductive event :=
| Open                                   (* open("console", O_RDWR) *)
| Printf (fmt : string) (arg : list Z)
| Gets                                   (* gets(buf, n) *)
| Chdir (path : list Z)
| Fork
| Run (buf : list Z)                     (* run_cmd(parse_cmd(buf)) *)
| Wait
| Exit.                                  (* exit(EXIT_FAILURE) *)

#[global] Instance event_eq_dec : EqDecision event.
Proof. solve_decision. Defined.

Record environment := {
  open_ret : list event -> Z;
  gets_ret : list event -> list Z;       (* the characters stored, without the NUL *)
  chdir_ret : list Z -> list event -> Z;
  fork_ret : list event -> Z
}.

Section shell.
Context (E : environment).

(** The state is the trace of calls; [None] is a process that has exited. *)
Definition call (e : event) : M (list event) unit := modify (fun t => t ++ [e]).
Definition ask {A} (e : event) (ret : list event -> A) : M (list event) A :=
  r ← gets ret; call e ;; mret r.

(** The characters of the string that starts at index [i] of a buffer. *)
Fixpoint cstring (l : list Z) : list Z :=
  match l with
  | [] => []
  | c :: l => if c =? 0 then [] else c :: cstring l
  end.
Definition strlen (l : list Z) : nat := length (cstring l).

(** [strncmp(buf, s, n) == 0] *)
Fixpoint strncmp_eq (n : nat) (a b : list Z) : bool :=
  match n, a, b with
  | O, _, _ => true
  | S n, x :: a, y :: b => (x =? y) && ((x =? 0) || strncmp_eq n a b)
  | _, _, _ => false
  end.

(** [memset] and [gets] into the buffer; the library stores at most [n - 1]
    characters and a NUL. *)
Definition fill_buf (n : Z) (line : list Z) : list Z :=
  let l := take (Z.to_nat n - 1) line in l ++ replicate (Z.to_nat n - length l) 0.

Definition get_cmd (n : Z) : M (list event) (Z * list Z) :=
  call (Printf "> " []) ;;
  line ← ask Gets (gets_ret E);
  let buf := fill_buf n line in
  mret (if default 0 (head buf) =? 0 then -1 else 0, buf).

Definition fork_safe : M (list event) (option Z) :=
  pid ← ask Fork (fork_ret E);
  if pid <? 0 then
    call (Printf "Error: could not fork\n" []) ;; call Exit ;; mret None
  else mret (Some pid).

(** [while ((fd = open("console", O_RDWR) < 3))]: [fd] is the comparison. *)
Fixpoint open_loop (fuel : nat) : M (list event) (option unit) :=
  match fuel with
  | O => fail OutOfFuel
  | S fuel =>
      r ← ask Open (open_ret E);
      let fd := if r <? 3 then 1 else 0 in
      if negb (fd =? 0) then
        if fd =? -1 then
          call (Printf "Error: could not open console\n" []) ;; call Exit ;; mret None
        else open_loop fuel
      else mret (Some tt)
  end.

Fixpoint command_loop (fuel : nat) : M (list event) (option unit) :=
  match fuel with
  | O => fail OutOfFuel
  | S fuel =>
      '(r, buf) ← get_cmd CMD_MAXLEN;
      if r <? 0 then mret (Some tt) else
      if strncmp_eq 3 buf (chars "cd ") then
        let buf := <[(strlen buf - 1)%nat := 0]> buf in
        c ← ask (Chdir (cstring (drop 3 buf))) (chdir_ret E (cstring (drop 3 buf)));
        (if c <? 0 then call (Printf "Error: could not cd to %s\n" (cstring (drop 3 buf)))
         else mret tt) ;;
        command_loop fuel
      else
        pid ← fork_safe;
        match pid with
        | None => mret None
        | Some pid =>
            (if pid =? 0 then call (Run (cstring buf)) else mret tt) ;;
            call Wait ;;
            command_loop fuel
        end
  end.

Definition main (fuel : nat) : M (list event) (option unit) :=
  o ← open_loop fuel;
  match o with None => mret None | Some _ => command_loop fuel end.

End shell.
End Shell.

Module ShellFacts.
Import Shell.

(** A line as [gets] delivers it: some characters, none of them NUL, that fit. *)
Definition line_ok (l : list Z) : Prop :=
  Forall (fun c => c <> 0) l /\ (0 < length l < Z.to_nat CMD_MAXLEN)%nat.

Lemma cstring_app l r : Forall (fun c => c <> 0) l -> cstring (l ++ 0 :: r) = l.
Proof.
  induction 1 as [|c l Hc Hl IH]; [done|]. simpl. rewrite (proj2 (Z.eqb_neq c 0)) by done. by rewrite IH.
Qed.

Lemma fill_buf_line l : line_ok l ->
  exists r : list Z, fill_buf CMD_MAXLEN l = l ++ 0 :: r.
Proof.
  intros [_ Hl]. unfold fill_buf, CMD_MAXLEN in *. rewrite take_ge by lia.
  destruct (Z.to_nat 128 - length l)%nat as [|k] eqn:Ek; [lia|]. by exists (replicate k 0).
Qed.

Definition is_cd (l : list Z) : bool := bool_decide (take 3 l = chars "cd ").

Lemma strncmp_line (l r : list Z) : Forall (fun c => c <> 0) l ->
  strncmp_eq 3 (l ++ 0 :: r) (chars "cd ") = is_cd l.
Proof.
  intros Hl. unfold is_cd. change (chars "cd ") with [99; 100; 32].
  destruct l as [|a [|b [|c l]]]; cbn [app strncmp_eq take]; rewrite ?Forall_cons in Hl;
    destruct_and?; rewrite ?(proj2 (Z.eqb_neq _ 0)) by done; cbn [orb].
  - by rewrite bool_decide_eq_false_2.
  - rewrite bool_decide_eq_false_2 by done. by destruct (a =? 99).
  - rewrite bool_decide_eq_false_2 by done. by destruct (a =? 99), (b =? 100).
  - change (take 0 l) with (@nil Z). rewrite andb_true_r.
    destruct (Z.eqb_spec a 99), (Z.eqb_spec b 100), (Z.eqb_spec c 32); simpl; symmetry;
      first [apply bool_decide_eq_true_2; congruence|apply bool_decide_eq_false_2; congruence].
Qed.

(** The argument of "cd": the line without "cd " and without its last character. *)
Definition cd_path (l : list Z) : list Z := drop 3 (take (length l - 1) l).

Lemma cd_path_line (l r buf : list Z) : line_ok l -> is_cd l = true -> buf = l ++ 0 :: r ->
  cstring (drop 3 (<[(strlen buf - 1)%nat := 0]> buf)) = cd_path l.
Proof.
  intros [Hl Hn] Hc ->. unfold is_cd in Hc. apply bool_decide_eq_true in Hc.
  assert (3 <= length l)%nat as H3.
  { apply (f_equal length) in Hc. rewrite length_take in Hc.
    change (length (chars "cd ")) with 3%nat in Hc. lia. }
  unfold strlen, cd_path. rewrite cstring_app by done.
  destruct l as [|c l _] using rev_ind; [done|]. rewrite length_app in *. simpl in H3, Hn |- *.
  rewrite Nat.add_sub. rewrite <- app_assoc, insert_app_r_alt, Nat.sub_diag by lia.
  rewrite take_app_length. simpl. apply Forall_app in Hl as [Hl _].
  destruct (decide (length l = 2)%nat) as [E2|E2].
  - rewrite drop_app_ge, E2, (drop_ge l) by lia. done.
  - rewrite drop_app_le by lia. apply cstring_app. by apply Forall_drop.
Qed.

Definition is_gets (e : event) : bool := bool_decide (e = Gets).
Definition is_open (e : event) : bool := bool_decide (e = Open).
Definition is_fork (e : event) : bool := bool_decide (e = Fork).
Definition count (p : event -> bool) (t : list event) : nat := length (filter (fun e => p e) t).

Lemma count_app p t u : count p (t ++ u) = (count p t + count p u)%nat.
Proof. unfold count. by rewrite filter_app, length_app. Qed.

(** The lines of a session arrive in order, then the end of file; the results of
    [fork] are [forks], one after the other; changing to a directory fails for
    [bad]. *)
Record session (E : environment) (lines : list (list Z)) (forks : nat -> Z) (bad : list Z -> bool) : Prop := {
  session_gets t : gets_ret E t = default [] (lines !! count is_gets t);
  session_fork t : fork_ret E t = forks (count is_fork t);
  session_chdir p t : chdir_ret E p t = if bad p then -1 else 0
}.

Definition prompt : list event := [Printf "> " []; Gets].

(** What the shell does for a line that is no command of its own, by the result
    of [fork]; the second component says whether it goes on. *)
Definition fork_calls (l : list Z) (pid : Z) : list event * bool :=
  if pid <? 0 then ([Fork; Printf "Error: could not fork\n" []; Exit], false)
  else if pid =? 0 then ([Fork; Run l; Wait], true)
  else ([Fork; Wait], true).

(** What it does for a line, after [k] forks. *)
Definition line_calls (forks : nat -> Z) (bad : list Z -> bool) (k : nat) (l : list Z) : list event * bool :=
  if is_cd l then
    (Chdir (cd_path l) :: (if bad (cd_path l) then [Printf "Error: could not cd to %s\n" (cd_path l)] else []), true)
  else fork_calls l (forks k).

(** A whole session: [None] when the shell exits. *)
Fixpoint session_calls (forks : nat -> Z) (bad : list Z -> bool) (k : nat) (lines : list (list Z)) :
    option unit * list event :=
  match lines with
  | [] => (Some tt, prompt)
  | l :: lines =>
      let '(calls, goes_on) := line_calls forks bad k l in
      if goes_on : bool then
        let '(r, rest) := session_calls forks bad (if is_cd l then k else S k) lines in
        (r, prompt ++ calls ++ rest)
      else (None, prompt ++ calls)
  end.

Lemma open_loop_step E fuel t :
  open_loop E (S fuel) t =
    if open_ret E t <? 3 then open_loop E fuel (t ++ [Open]) else Ok (Some tt, t ++ [Open]).
Proof.
  cbn [open_loop]. unfold ask, call. mrun (mrun reflexivity; mrun reflexivity; reflexivity).
  by destruct (open_ret E t <? 3).
Qed.

Section loop.
Context (E : environment) (lines : list (list Z)) (forks : nat -> Z) (bad : list Z -> bool).
Hypothesis HE : session E lines forks bad.

Lemma line_calls_gets k l : count is_gets (line_calls forks bad k l).1 = 0%nat.
Proof.
  unfold line_calls, fork_calls. destruct (is_cd l); [by destruct (bad (cd_path l))|].
  by destruct (forks k <? 0); [|destruct (forks k =? 0)].
Qed.

Lemma line_calls_forks k l : count is_fork (line_calls forks bad k l).1 = if is_cd l then 0%nat else 1%nat.
Proof.
  unfold line_calls, fork_calls. destruct (is_cd l); [by destruct (bad (cd_path l))|].
  by destruct (forks k <? 0); [|destruct (forks k =? 0)].
Qed.

Lemma get_cmd_run t l : default [] (lines !! count is_gets t) = l ->
  get_cmd E CMD_MAXLEN t =
    Ok ((if default 0 (head (fill_buf CMD_MAXLEN l)) =? 0 then -1 else 0, fill_buf CMD_MAXLEN l),
        t ++ prompt).
Proof.
  intros Hl. unfold get_cmd, ask, call. mrun reflexivity.
  assert (gets_ret E (t ++ [Printf "> " []]) = l) as Hg.
  { rewrite (session_gets _ _ _ _ HE), count_app. simpl. by rewrite Nat.add_0_r. }
  mrun (mrun reflexivity; mrun reflexivity; reflexivity). rewrite Hg, <- app_assoc. done.
Qed.

(** One turn of the loop, for a line. *)
Lemma command_loop_line t l fuel : default [] (lines !! count is_gets t) = l -> line_ok l ->
  command_loop E (S fuel) t =
    let '(calls, goes_on) := line_calls forks bad (count is_fork t) l in
    if goes_on : bool then command_loop E fuel (t ++ prompt ++ calls) else Ok (None, t ++ prompt ++ calls).
Proof.
  intros Hg Hl. cbn [command_loop]. rewrite (bind_Ok _ _ _ _ _ (get_cmd_run t l Hg)). cbn beta iota.
  destruct (fill_buf_line l Hl) as [r ->]. pose proof Hl as [Hnz Hlen].
  destruct l as [|c l]; [simpl in Hlen; lia|]. pose proof Hnz as [Hc0 _]%Forall_cons.
  change (default 0 (head ((c :: l) ++ 0 :: r))) with c. rewrite (proj2 (Z.eqb_neq c 0)) by done.
  change (0 <? 0) with false. cbn iota. rewrite strncmp_line by done. unfold line_calls.
  destruct (is_cd (c :: l)) eqn:Ecd.
  - rewrite (cd_path_line (c :: l) r) by done. unfold ask, call.
    mrun (mrun reflexivity; mrun reflexivity; reflexivity). rewrite (session_chdir _ _ _ _ HE).
    destruct (bad (cd_path (c :: l))); mrun reflexivity; by rewrite <- !app_assoc.
  - assert (fork_ret E (t ++ prompt) = forks (count is_fork t)) as Hf.
    { rewrite (session_fork _ _ _ _ HE), count_app. simpl. by rewrite Nat.add_0_r. }
    unfold fork_calls. destruct (forks (count is_fork t) <? 0) eqn:E0.
    + unfold fork_safe, ask, call.
      mrun (mrun (mrun reflexivity; mrun reflexivity; reflexivity); rewrite Hf, E0; do 2 mrun reflexivity; reflexivity).
      by rewrite <- !app_assoc.
    + unfold fork_safe, ask, call.
      mrun (mrun (mrun reflexivity; mrun reflexivity; reflexivity); rewrite Hf, E0; reflexivity). cbn beta iota.
      rewrite cstring_app by done.
      destruct (forks (count is_fork t) =? 0); do 2 mrun reflexivity; by rewrite <- !app_assoc.
Qed.

Lemma command_loop_run rest : forall done t fuel,
  lines = done ++ rest -> count is_gets t = length done -> Forall line_ok rest ->
  (length rest < fuel)%nat ->
  command_loop E fuel t =
    Ok ((session_calls forks bad (count is_fork t) rest).1, t ++ (session_calls forks bad (count is_fork t) rest).2).
Proof.
  induction rest as [|l rest IH]; intros dn t [|fuel] Hd Hc Hok Hf; simpl in Hf; try lia.
  - cbn [command_loop].
    rewrite (bind_Ok _ _ _ _ _ (get_cmd_run t [] ltac:(rewrite Hc, Hd, app_nil_r, lookup_ge_None_2; done))). done.
  - apply Forall_cons in Hok as [Hl Hok].
    rewrite (command_loop_line t l) by (done || rewrite Hc, Hd, list_lookup_middle; done).
    cbn [session_calls]. pose proof (line_calls_gets (count is_fork t) l) as Hg.
    pose proof (line_calls_forks (count is_fork t) l) as Hk.
    destruct (line_calls forks bad (count is_fork t) l) as [calls []]; [|done]. cbn [fst] in Hg, Hk.
    rewrite (IH (dn ++ [l])); [|by rewrite <- app_assoc| |done|lia].
    2:{ rewrite !count_app, Hg, length_app. simpl. lia. }
    rewrite !count_app, Hk. change (count is_fork prompt) with 0%nat.
    replace (count is_fork t + (0 + (if is_cd l then 0 else 1)))%nat
      with (if is_cd l then count is_fork t else S (count is_fork t)) by (destruct (is_cd l); lia).
    destruct (session_calls _ _ _ rest) as [res calls']. cbn [fst snd]. by rewrite <- !app_assoc.
Qed.

End loop.
End ShellFacts.

Module ShellProps.
Import Shell ShellFacts.


(** "cd /", "ls", and a command that cannot be forked. *)
Definition sample_lines : list (list Z) := [chars "cd /x"; chars "ls "; chars "cat "].
Definition sample_forks (k : nat) : Z := match k with O => 7 | _ => -1 end.
Definition sample_env : environment := {|
  open_ret t := Z.of_nat (count is_open t);
  gets_ret t := default [] (sample_lines !! count is_gets t);
  chdir_ret p t := if bool_decide (p = []) then -1 else 0;
  fork_ret t := sample_forks (count is_fork t) |}.


(** The failure of [open] is never seen: the assignment is of the comparison,
    so that [fd] is 0 or 1.  If the console cannot be opened the shell calls
    [open] for ever, without a message and without exiting. *)
Theorem shell_open_failure_loops E fuel t :
  (forall t, open_ret E t = -1) -> main E fuel t = Fault OutOfFuel.
Proof.
  intros Ho. unfold main. apply bind_Fault. revert t. induction fuel as [|fuel IH]; intros t; [done|].
  rewrite open_loop_step, Ho. apply IH.
Qed.

End ShellProps.

(** ** user/userinit.S: the first process

    The headers syscall.h and traps.h do not have the names the file uses:
    [SYS_exec] and [SYS_exit] are arguments.  The kernel is what an [int]
    leaves in RAX; it returns to the next instruction, if at all. *)
Module UserInit.

Section program.
Context (SYS_exec SYS_exit : Z).
(** The addresses of the labels [init] and [argv]. *)
Context (init argv : Z).

Inductive insn :=
| movq_rdi (v : Z)
| movq_rsi (v : Z)
| movl_eax (v : Z)
| int_syscall
| jmp (target : nat).

Definition start : list insn :=
  [movq_rdi init; movq_rsi argv; movl_eax SYS_exec; int_syscall;
   (* exit: *) movl_eax SYS_exit; int_syscall; jmp 4].

Record regs := Regs { rip : nat; rax : Z; rdi : Z; rsi : Z }.

(** The arguments of a system call. *)
Definition call : Type := Z * Z * Z.

(** One instruction, and the system call it makes; [kernel] gives the result
    of the calls made so far. *)
Definition step (kernel : list call -> Z) (trace : list call) (r : regs) : option (regs * list call) :=
  match start !! rip r with
  | Some (movq_rdi v) => Some (Regs (S (rip r)) (rax r) v (rsi r), trace)
  | Some (movq_rsi v) => Some (Regs (S (rip r)) (rax r) (rdi r) v, trace)
  | Some (movl_eax v) => Some (Regs (S (rip r)) (u32 v) (rdi r) (rsi r), trace)
  | Some int_syscall =>
      let trace := trace ++ [(rax r, rdi r, rsi r)] in
      Some (Regs (S (rip r)) (kernel trace) (rdi r) (rsi r), trace)
  | Some (jmp t) => Some (Regs t (rax r) (rdi r) (rsi r), trace)
  | None => None
  end.

Fixpoint run (n : nat) (kernel : list call -> Z) (trace : list call) (r : regs) : option (regs * list call) :=
  match n with
  | O => Some (r, trace)
  | S n => '(r, trace) ← step kernel trace r; run n kernel trace r
  end.

(** The data behind the code: the string with its two terminators, and the
    argument vector, aligned to 4 bytes. *)
Definition init_string : list Z := [47; 105; 110; 105; 116; 0; 0].
Definition argv_data : list Z := [init; 0].

End program.
End UserInit.

Module UserInitProps.
Import UserInit.

Section program.
Context (SYS_exec SYS_exit init argv : Z) (kernel : list call -> Z).

(** The calls up to the [k]-th exit. *)
Definition calls (k : nat) : list call :=
  (u32 SYS_exec, init, argv) :: replicate k (u32 SYS_exit, init, argv).

(** Where the program is after the call to [exec]: at one of the three
    instructions of the loop. *)
Inductive looping : regs -> list call -> Prop :=
| at_exit k v : looping (Regs 4 v init argv) (calls k)
| at_int k : looping (Regs 5 (u32 SYS_exit) init argv) (calls k)
| at_jmp k v : looping (Regs 6 v init argv) (calls (S k)).

Lemma calls_snoc k : calls k ++ [(u32 SYS_exit, init, argv)] = calls (S k).
Proof. unfold calls. cbn [app]. by rewrite <- replicate_cons_app. Qed.

Lemma int_step k : step SYS_exec SYS_exit init argv kernel (calls k) (Regs 5 (u32 SYS_exit) init argv) =
  Some (Regs 6 (kernel (calls (S k))) init argv, calls (S k)).
Proof. by rewrite <- calls_snoc. Qed.

Lemma looping_step r t : looping r t ->
  exists r' t', step SYS_exec SYS_exit init argv kernel t r = Some (r', t') /\ looping r' t'.
Proof.
  intros [k v|k|k v]; do 2 eexists; [split; [reflexivity|constructor]|split; [apply int_step|constructor]|].
  split; [reflexivity|constructor].
Qed.

Lemma looping_run n : forall r t, looping r t ->
  exists r' t', run SYS_exec SYS_exit init argv n kernel t r = Some (r', t') /\ looping r' t'.
Proof.
  induction n as [|n IH]; intros r t H; [by do 2 eexists|].
  destruct (looping_step r t H) as (r1 & t1 & E & H1). cbn [run]. rewrite E. cbn. by apply IH.
Qed.

(** Each round of the loop makes one more call. *)
Lemma looping_rounds m : forall k v, exists v',
  run SYS_exec SYS_exit init argv (3 * m) kernel (calls k) (Regs 4 v init argv) =
  Some (Regs 4 v' init argv, calls (k + m)).
Proof.
  induction m as [|m IH]; intros k v; [exists v; by rewrite Nat.add_0_r|].
  replace (3 * S m)%nat with (3 + 3 * m)%nat by lia.
  replace (k + S m)%nat with (S k + m)%nat by lia.
  cbn [Nat.add run].
  change (step SYS_exec SYS_exit init argv kernel (calls k) (Regs 4 v init argv))
    with (Some (Regs 5 (u32 SYS_exit) init argv, calls k)). cbn [mbind option_bind].
  rewrite int_step. cbn [mbind option_bind].
  change (step SYS_exec SYS_exit init argv kernel (calls (S k)) (Regs 6 (kernel (calls (S k))) init argv))
    with (Some (Regs 4 (kernel (calls (S k))) init argv, calls (S k))). cbn [mbind option_bind].
  apply IH.
Qed.

End program.

(** C39. The first process asks for /init and, whatever the kernel answers, as
    long as it returns to the next instruction with RDI and RSI as they were,
    then only ever exits: at every point of its execution the calls it has
    made are none, or exec with the path and the argument vector followed by
    calls of exit; it never runs off its code, and it makes one more call of
    exit every three instructions. *)
Theorem userinit_calls SYS_exec SYS_exit init argv kernel r :
  rip r = O ->
  (forall n, exists r' t, run SYS_exec SYS_exit init argv n kernel [] r = Some (r', t) /\
     (t = [] \/ exists k, t = calls SYS_exec SYS_exit init argv k)) /\
  (forall m, exists r', run SYS_exec SYS_exit init argv (4 + 3 * m) kernel [] r =
     Some (r', calls SYS_exec SYS_exit init argv m)).
Proof.
  intros Hr. destruct r as [p a d s]. cbn in Hr. subst p.
  assert (exists v, run SYS_exec SYS_exit init argv 4 kernel [] (Regs 0 a d s) =
    Some (Regs 4 v init argv, calls SYS_exec SYS_exit init argv 0)) as [v E4] by (by eexists).
  assert (forall n, run SYS_exec SYS_exit init argv (4 + n) kernel [] (Regs 0 a d s) =
    run SYS_exec SYS_exit init argv n kernel (calls SYS_exec SYS_exit init argv 0) (Regs 4 v init argv)) as Hadd.
  { intros n. injection E4 as Ev. cbn. by rewrite Ev. }
  split.
  - intros n. destruct (decide (n < 4)%nat) as [Hn|Hn].
    + destruct n as [|[|[|[|n]]]]; [by do 2 eexists; split; [reflexivity|left]..|lia].
    + replace n with (4 + (n - 4))%nat by lia. rewrite Hadd.
      destruct (looping_run SYS_exec SYS_exit init argv kernel (n - 4) _ _ (at_exit _ _ _ _ 0 v))
        as (r' & t & E & Hl). exists r', t. split; [exact E|]. right.
      destruct Hl; by eexists.
  - intros m. rewrite Hadd. destruct (looping_rounds SYS_exec SYS_exit init argv kernel m 0 v) as [v' E'].
    by eexists.
Qed.

Lemma userinit_calls_witness : exists r',
  run 7 2 0x1020 0x1028 10 (fun _ => 2 ^ 64 - 1) [] (Regs 0 0 0 0) =
  Some (r', [(7, 0x1020, 0x1028); (2, 0x1020, 0x1028); (2, 0x1020, 0x1028)]).
Proof.
  destruct (userinit_calls 7 2 0x1020 0x1028 (fun _ => 2 ^ 64 - 1) (Regs 0 0 0 0)) as [_ Hm]; [reflexivity|].
  exact (Hm 2%nat).
Defined.

End UserInitProps.
